(** * PwrSysPro-SSC: network impedance and fault-analysis engine

    A shallow embedding of the numerical core of the JavaScript sources
    ([js/transformer_model.js], [bus_model.js], [topology_manager.js],
    [js/calculation_orchestrator.js], [js/standard_specific_calcs.js],
    [js/arc_flash_calculation.js], [js/ppe_selection.js]) and the
    properties its design document states about it.

    Every JavaScript function is written once, over an interface [JsNum]
    of the operations the sources apply to numbers.  The interface has two
    interpretations:

    - [binary64]: IEEE-754 double precision, the primitive floats of the
      kernel.  [+ - * / Math.sqrt] and the comparisons are exactly those
      of JavaScript and the functions run on concrete inputs.
      [Math.pow] and [Math.log10] are implementation-approximated
      in ECMAScript, so they stay parameters of that interpretation.
    - [xreal]: the real numbers extended with [+Infinity], [-Infinity] and
      [NaN], with the IEEE-754 rules for the special values and exact
      arithmetic on finite values.  This is the "exact arithmetic" reading
      of the formulas, used for the algebraic laws. *)

From Stdlib Require Import Floats Reals Lra Lia ZArith QArith String List Bool.
From stdpp Require Import gmap strings pretty.

Set Default Proof Using "Type".

(** ** The number interface *)

Class JsNum (N : Type) : Type := {
  (** a decimal literal of the source text *)
  ofQ : Q -> N;
  (** the value [NaN], which is also what [undefined] becomes in arithmetic *)
  NaN : N;
  add : N -> N -> N;
  sub : N -> N -> N;
  mul : N -> N -> N;
  div : N -> N -> N;
  (** [Math.sqrt], [Math.pow] (and the operator [**]), [Math.log10] *)
  Math_sqrt : N -> N;
  Math_pow : N -> N -> N;
  Math_log10 : N -> N;
  Math_E : N;
  Math_PI : N;
  (** [a < b], [a <= b], [a === b] on numbers *)
  ltb : N -> N -> bool;
  leb : N -> N -> bool;
  eqb : N -> N -> bool
}.

Declare Scope js_scope.
Delimit Scope js_scope with js.

Notation "# q" := (ofQ q%Q) (at level 5, q at level 0, format "# q") : js_scope.
Infix "+" := add : js_scope.
Infix "-" := sub : js_scope.
Infix "*" := mul : js_scope.
Infix "/" := div : js_scope.
Infix "<?" := ltb : js_scope.
Infix "<=?" := leb : js_scope.
Notation "a >? b" := (ltb b a) (at level 70, only parsing) : js_scope.
Notation "a >=? b" := (leb b a) (at level 70, only parsing) : js_scope.
Infix "===" := eqb (at level 70) : js_scope.

Section JsValues.
Context {N : Type} {num : JsNum N}.
Local Open Scope js_scope.

(** [isNaN(a)]: the only number different from itself. *)
Definition isNaN (a : N) : bool := negb (a === a).

(** ToBoolean on a number: [0], [-0] and [NaN] are falsy. *)
Definition truthy (a : N) : bool := negb (isNaN a) && negb (a === #0).

(** [a || d] where [a] may be [undefined] (an absent property). *)
Definition orElse (a : option N) (d : N) : N :=
  match a with
  | Some v => if truthy v then v else d
  | None => d
  end.

(** ToBoolean on a possibly absent numeric property. *)
Definition present (a : option N) : bool :=
  match a with
  | Some v => truthy v
  | None => false
  end.

(** ToNumber on a possibly absent property: [undefined] becomes [NaN]. *)
Definition toNumber (a : option N) : N :=
  match a with
  | Some v => v
  | None => NaN
  end.

(** [Math.min] and [Math.max] of two arguments: [NaN] if either is. *)
Definition Math_min (a b : N) : N :=
  if isNaN a then a else if isNaN b then b else if b <? a then b else a.

Definition Math_max (a b : N) : N :=
  if isNaN a then a else if isNaN b then b else if a <? b then b else a.
End JsValues.

(** ** Interpretation 1: IEEE-754 binary64 *)

Module Binary64.
Definition of_Z (z : Z) : float :=
  match z with
  | Z0 => PrimFloat.zero
  | Zpos _ => PrimFloat.of_uint63 (Uint63.of_Z z)
  | Zneg p => PrimFloat.opp (PrimFloat.of_uint63 (Uint63.of_Z (Zpos p)))
  end.

(** Numerator and denominator of the literals of the sources are below
    2^53, hence exact, and one correctly rounded division yields the
    double nearest to the decimal, as the JavaScript parser does. *)
Definition of_Q (q : Q) : float :=
  PrimFloat.div (of_Z (Qnum q)) (of_Z (Zpos (Qden q))).

Section Instance.
Variable pow : float -> float -> float.
Variable log10 : float -> float.

Definition num : JsNum float := {|
  ofQ := of_Q;
  NaN := PrimFloat.nan;
  add := PrimFloat.add;
  sub := PrimFloat.sub;
  mul := PrimFloat.mul;
  div := PrimFloat.div;
  Math_sqrt := PrimFloat.sqrt;
  Math_pow := pow;
  Math_log10 := log10;
  Math_E := 0x1.5bf0a8b145769p+1%float;
  Math_PI := 0x1.921fb54442d18p+1%float;
  ltb := PrimFloat.ltb;
  leb := PrimFloat.leb;
  eqb := PrimFloat.eqb
|}.
End Instance.
End Binary64.

(** ** Interpretation 2: extended reals, exact on finite values *)

Inductive xreal : Type :=
| Fin (r : R)
| PInf
| NInf
| XNaN.

Module XReal.
Local Open Scope R_scope.

Definition inf_of_sign (negative : bool) : xreal :=
  if negative then NInf else PInf.

Definition xadd (a b : xreal) : xreal :=
  match a, b with
  | XNaN, _ | _, XNaN => XNaN
  | Fin u, Fin v => Fin (u + v)
  | PInf, NInf | NInf, PInf => XNaN
  | PInf, _ | _, PInf => PInf
  | NInf, _ | _, NInf => NInf
  end.

Definition xopp (a : xreal) : xreal :=
  match a with
  | Fin u => Fin (- u)
  | PInf => NInf
  | NInf => PInf
  | XNaN => XNaN
  end.

Definition xsub (a b : xreal) : xreal := xadd a (xopp b).

(** sign of an infinity times a finite non-zero value *)
Definition scale_inf (negative : bool) (u : R) : xreal :=
  if Req_dec_T u 0 then XNaN
  else if Rlt_dec u 0 then inf_of_sign (negb negative)
  else inf_of_sign negative.

Definition xmul (a b : xreal) : xreal :=
  match a, b with
  | XNaN, _ | _, XNaN => XNaN
  | Fin u, Fin v => Fin (u * v)
  | PInf, Fin v | Fin v, PInf => scale_inf false v
  | NInf, Fin v | Fin v, NInf => scale_inf true v
  | PInf, PInf | NInf, NInf => PInf
  | PInf, NInf | NInf, PInf => NInf
  end.

(** Division by zero yields an infinity of the sign of the numerator
    (the model has one zero, the positive one) and [0/0] is [NaN]. *)
Definition xdiv (a b : xreal) : xreal :=
  match a, b with
  | XNaN, _ | _, XNaN => XNaN
  | Fin u, Fin v =>
      if Req_dec_T v 0 then
        if Req_dec_T u 0 then XNaN
        else if Rlt_dec u 0 then NInf else PInf
      else Fin (u / v)
  | Fin _, (PInf | NInf) => Fin 0
  | PInf, Fin v => if Rlt_dec v 0 then NInf else PInf
  | NInf, Fin v => if Rlt_dec v 0 then PInf else NInf
  | (PInf | NInf), (PInf | NInf) => XNaN
  end.

Definition xsqrt (a : xreal) : xreal :=
  match a with
  | Fin u => if Rlt_dec u 0 then XNaN else Fin (sqrt u)
  | PInf => PInf
  | NInf | XNaN => XNaN
  end.

Definition is_integer (u : R) : bool :=
  if Req_dec_T (IZR (Int_part u)) u then true else false.

(** Number::exponentiate of ECMAScript, on one zero. *)
Definition xpow (b e : xreal) : xreal :=
  match e with
  | XNaN => XNaN
  | Fin v =>
      if Req_dec_T v 0 then Fin 1 else
      match b with
      | XNaN => XNaN
      | PInf => if Rlt_dec 0 v then PInf else Fin 0
      | NInf =>
          if Rlt_dec 0 v
          then (if is_integer v && Z.odd (Int_part v) then NInf else PInf)
          else Fin 0
      | Fin u =>
          if Req_dec_T u 0 then (if Rlt_dec 0 v then Fin 0 else PInf)
          else if Rlt_dec 0 u then Fin (Rpower u v)
          else if is_integer v then Fin (powerRZ u (Int_part v))
          else XNaN
      end
  | PInf =>
      match b with
      | XNaN => XNaN
      | PInf | NInf => PInf
      | Fin u =>
          if Rlt_dec 1 (Rabs u) then PInf
          else if Req_dec_T (Rabs u) 1 then XNaN else Fin 0
      end
  | NInf =>
      match b with
      | XNaN => XNaN
      | PInf | NInf => Fin 0
      | Fin u =>
          if Rlt_dec 1 (Rabs u) then Fin 0
          else if Req_dec_T (Rabs u) 1 then XNaN else PInf
      end
  end.

Definition xlog10 (a : xreal) : xreal :=
  match a with
  | Fin u =>
      if Rlt_dec u 0 then XNaN
      else if Req_dec_T u 0 then NInf
      else Fin (ln u / ln 10)
  | PInf => PInf
  | NInf | XNaN => XNaN
  end.

Definition xltb (a b : xreal) : bool :=
  match a, b with
  | XNaN, _ | _, XNaN => false
  | Fin u, Fin v => if Rlt_dec u v then true else false
  | NInf, (Fin _ | PInf) => true
  | Fin _, PInf => true
  | _, _ => false
  end.

Definition xeqb (a b : xreal) : bool :=
  match a, b with
  | Fin u, Fin v => if Req_dec_T u v then true else false
  | PInf, PInf | NInf, NInf => true
  | _, _ => false
  end.

Definition xleb (a b : xreal) : bool := xltb a b || xeqb a b.

Definition of_Q (q : Q) : xreal := Fin (IZR (Qnum q) / IZR (Zpos (Qden q))).

Definition num : JsNum xreal := {|
  ofQ := of_Q;
  NaN := XNaN;
  add := xadd;
  sub := xsub;
  mul := xmul;
  div := xdiv;
  Math_sqrt := xsqrt;
  Math_pow := xpow;
  Math_log10 := xlog10;
  Math_E := Fin (exp 1);
  Math_PI := Fin PI;
  ltb := xltb;
  leb := xleb;
  eqb := xeqb
|}.
End XReal.

#[global] Existing Instance XReal.num.

(** The operations are unfolded by the lemmas about them only. *)
Arguments XReal.xadd : simpl never.
Arguments XReal.xsub : simpl never.
Arguments XReal.xmul : simpl never.
Arguments XReal.xdiv : simpl never.
Arguments XReal.xsqrt : simpl never.
Arguments XReal.xpow : simpl never.
Arguments XReal.xlog10 : simpl never.
Arguments XReal.xltb : simpl never.
Arguments XReal.xleb : simpl never.
Arguments XReal.xeqb : simpl never.
Arguments XReal.of_Q : simpl never.

(** ** js/transformer_model.js *)

Module TransformerModel.
Section Defs.
Context {N : Type} {num : JsNum N}.
Local Open Scope js_scope.

(** The argument [impedance]: an object read through [.r] and [.x]. *)
Record Impedance : Type := { r : N; x : N }.

Record ReferredImpedance : Type := {
  ref_r : N;
  ref_x : N;
  magnitude : N;
  fromVoltage : N;
  toVoltage : N;
  ratio : N
}.

Definition referImpedanceBetweenLevels
    (impedance : Impedance) (fromV toV : N) : ReferredImpedance :=
  let ratio := toV / fromV in
  let factor := ratio * ratio in
  {| ref_r := r impedance * factor;
     ref_x := x impedance * factor;
     magnitude :=
       Math_sqrt (Math_pow (r impedance * factor) #2
                  + Math_pow (x impedance * factor) #2);
     fromVoltage := fromV;
     toVoltage := toV;
     ratio := ratio |}.

(** The result of a referral passed on as the [impedance] argument of
    another one: only [.r] and [.x] are read. *)
Definition asImpedance (z : ReferredImpedance) : Impedance :=
  {| r := ref_r z; x := ref_x z |}.
End Defs.
Arguments Impedance N : clear implicits.
Arguments ReferredImpedance N : clear implicits.
End TransformerModel.

(** ** The project data (input JSON)

    A component is a loosely typed object; every property the modelled
    functions read is a field, absent properties are [None]. *)

Module Component.
Section Defs.
Context {N : Type}.

Record t : Type := {
  type : string;
  name : option string;
  voltage : option N;
  (** utility *)
  faultCurrent : option N;
  shortCircuitMVA : option N;
  xr : option N;
  (** cable *)
  resistance : option N;
  reactance : option N;
  length : option N;
  createsBus : bool;
  (** transformer: [impedance] is the percent impedance, a number *)
  secondaryV : option N;
  power : option N;
  powerUnit : option string;
  impedance : option N;
  rx : option N;
  (** explicit connectivity: a bus name *)
  toBus : option string;
  (** own property set by [getTransformerPowerMVA] *)
  _powerUnitWarningLogged : bool
}.

Definition empty (ty : string) : t := {|
  type := ty; name := None; voltage := None;
  faultCurrent := None; shortCircuitMVA := None; xr := None;
  resistance := None; reactance := None; length := None;
  createsBus := false;
  secondaryV := None; power := None; powerUnit := None;
  impedance := None; rx := None; toBus := None;
  _powerUnitWarningLogged := false |}.

Definition markWarningLogged (c : t) : t := {|
  type := type c; name := name c; voltage := voltage c;
  faultCurrent := faultCurrent c; shortCircuitMVA := shortCircuitMVA c;
  xr := xr c;
  resistance := resistance c; reactance := reactance c;
  length := length c; createsBus := createsBus c;
  secondaryV := secondaryV c; power := power c;
  powerUnit := powerUnit c; impedance := impedance c; rx := rx c;
  toBus := toBus c;
  _powerUnitWarningLogged := true |}.
End Defs.
Arguments t N : clear implicits.
End Component.

(** The object [addComponent] builds: the component spread, with
    [fromBus]/[toBus] overwritten by bus identifiers. *)
Module TopoComponent.
Section Defs.
Context {N : Type}.

Record t : Type := {
  comp : Component.t N;
  fromBus : nat;
  toBus : option nat;
  fromBusName : string;
  toBusName : option string
}.

Definition withComp (c : t) (c' : Component.t N) : t := {|
  comp := c'; fromBus := fromBus c; toBus := toBus c;
  fromBusName := fromBusName c; toBusName := toBusName c |}.
End Defs.
Arguments t N : clear implicits.
End TopoComponent.

(** ** bus_model.js *)

Module Bus.
Section Defs.
Context {N : Type} {num : JsNum N}.
Local Open Scope js_scope.

Record Impedance : Type := { r : N; x : N }.

Record TotalImpedance : Type := {
  total_r : N;
  total_x : N;
  magnitude : N
}.

(** An entry of [connections]: the other bus, by identifier, and the
    impedance of the branch ([null] when none was computed). *)
Record Connection : Type := {
  bus : nat;
  conn_impedance : option Impedance
}.

Record t : Type := {
  id : nat;
  name : string;
  voltage : N;
  type : string;
  connections : list Connection;
  components : list (TopoComponent.t N);
  impedance : Impedance;
  faultCurrent : option N
}.

(** [new Bus(id, name, voltage, type)] *)
Definition new (id : nat) (name : string) (voltage : N) (type : string) : t := {|
  id := id; name := name; voltage := voltage; type := type;
  connections := []; components := [];
  impedance := {| r := #0; x := #0 |};
  faultCurrent := None |}.

Definition addConnection (b : t) (other : nat) (z : option Impedance) : t := {|
  id := id b; name := name b; voltage := voltage b; type := type b;
  connections := connections b ++ [{| bus := other; conn_impedance := z |}];
  components := components b;
  impedance := impedance b; faultCurrent := faultCurrent b |}.

Definition addComponent (b : t) (c : TopoComponent.t N) : t := {|
  id := id b; name := name b; voltage := voltage b; type := type b;
  connections := connections b;
  components := components b ++ [c];
  impedance := impedance b; faultCurrent := faultCurrent b |}.

(** [bus.impedance.r += dr; bus.impedance.x += dx] *)
Definition addImpedance (b : t) (dr dx : N) : t := {|
  id := id b; name := name b; voltage := voltage b; type := type b;
  connections := connections b; components := components b;
  impedance := {| r := r (impedance b) + dr; x := x (impedance b) + dx |};
  faultCurrent := faultCurrent b |}.

Definition setFaultCurrent (b : t) (i : N) : t := {|
  id := id b; name := name b; voltage := voltage b; type := type b;
  connections := connections b; components := components b;
  impedance := impedance b; faultCurrent := Some i |}.

(** One round of the [forEach] of [calculateTotalImpedance].  The
    [impedance] of a project component is a number: when it is truthy
    the properties [.r] and [.x] read from it are [undefined], and
    adding [undefined] gives [NaN]. *)
Definition addComponentImpedance (tot : N * N) (c : TopoComponent.t N) : N * N :=
  if present (Component.impedance (TopoComponent.comp c))
  then (fst tot + toNumber None, snd tot + toNumber None)
  else tot.

Definition calculateTotalImpedance (b : t) : TotalImpedance :=
  let tot :=
    fold_left addComponentImpedance (components b)
              (r (impedance b), x (impedance b)) in
  {| total_r := fst tot;
     total_x := snd tot;
     magnitude := Math_sqrt (fst tot * fst tot + snd tot * snd tot) |}.

(** [calculateFaultCurrent(sourceVoltage = null)]: the current and the
    bus with [faultCurrent] set. *)
Definition calculateFaultCurrent (b : t) (sourceVoltage : option N) : N * t :=
  let voltage := orElse sourceVoltage (voltage b) in
  let impedance := calculateTotalImpedance b in
  let faultCurrent := voltage / (Math_sqrt #3 * magnitude impedance) in
  (faultCurrent, setFaultCurrent b faultCurrent).
End Defs.
Arguments Impedance N : clear implicits.
Arguments TotalImpedance N : clear implicits.
Arguments Connection N : clear implicits.
Arguments t N : clear implicits.
End Bus.

Module BusSystem.
Section Defs.
Context {N : Type} {num : JsNum N}.

(** [buses] is a [Map] keyed by identifier: entries in insertion
    order. *)
Record t : Type := {
  buses : list (nat * Bus.t N);
  nextBusId : nat
}.

Definition new : t := {| buses := []; nextBusId := 1 |}.

(** [Map.prototype.set]: replaces the value of an existing key in
    place, appends a new key. *)
Fixpoint mapSet {V : Type} (m : list (nat * V)) (k : nat) (v : V) : list (nat * V) :=
  match m with
  | [] => [(k, v)]
  | (k', v') :: rest =>
      if Nat.eqb k k' then (k, v) :: rest else (k', v') :: mapSet rest k v
  end.

Fixpoint mapGet {V : Type} (m : list (nat * V)) (k : nat) : option V :=
  match m with
  | [] => None
  | (k', v') :: rest => if Nat.eqb k k' then Some v' else mapGet rest k
  end.

Definition addBus (s : t) (name : string) (voltage : N) (type : string) : Bus.t N * t :=
  let id := nextBusId s in
  let bus := Bus.new id name voltage type in
  (bus, {| buses := mapSet (buses s) id bus; nextBusId := S id |}).

Definition getBus (s : t) (id : nat) : option (Bus.t N) := mapGet (buses s) id.

Definition getAllBuses (s : t) : list (Bus.t N) := map snd (buses s).
End Defs.
Arguments t N : clear implicits.
End BusSystem.

(** ** Results of code that can throw *)

Inductive Result (A : Type) : Type :=
| Ok (a : A)
| Throw (message : string).
Arguments Ok {A} a.
Arguments Throw {A} message.

#[global] Instance Result_bind : MBind Result :=
  fun A B (f : A -> Result B) (m : Result A) =>
    match m with
    | Ok a => f a
    | Throw e => Throw e
    end.

(** [`${n}`] for a bus number *)
Definition natToString (n : nat) : string :=
  pretty n.

(** [s || d] on a possibly absent string: the empty string is falsy. *)
Definition orElseString (s : option string) (d : string) : string :=
  match s with
  | Some v => if String.eqb v "" then d else v
  | None => d
  end.

(** [s === v] on a possibly absent string *)
Definition stringIs (s : option string) (v : string) : bool :=
  match s with
  | Some u => String.eqb u v
  | None => false
  end.

Definition presentString (s : option string) : bool :=
  match s with
  | Some v => negb (String.eqb v "")
  | None => false
  end.

(** What [console.warn] received; the numbers of the message texts are
    kept as numbers. *)
Inductive ConsoleMessage (N : Type) : Type :=
| PowerUnitDefaulted (name powerUnit : string) (secondaryV powerValue : N)
| SmallUtilityImpedance (name : string) (zSource voltage : N).
Arguments PowerUnitDefaulted {N}.
Arguments SmallUtilityImpedance {N}.

Record ProjectData (N : Type) : Type := {
  pd_voltage : option N;
  pd_frequency : option N;
  pd_components : list (Component.t N);
  (** [arcFlashParams]: working distance (mm), arc duration (s),
      enclosure type *)
  pd_workingDistance : option N;
  pd_arcDuration : option N;
  pd_enclosureType : option string
}.
Arguments pd_voltage {N}.
Arguments pd_frequency {N}.
Arguments pd_components {N}.
Arguments pd_workingDistance {N}.
Arguments pd_arcDuration {N}.
Arguments pd_enclosureType {N}.

(** ** topology_manager.js *)

Module TopologyManager.
Section Defs.
Context {N : Type} {num : JsNum N}.
Local Open Scope js_scope.

Record TopoBus : Type := {
  id : nat;
  name : string;
  voltage : N;
  type : string;
  components : list (TopoComponent.t N);
  connectedBuses : list nat
}.

(** [component] is the object also stored in [this.components]: it is
    kept as its index there. *)
Record Connection : Type := {
  conn_fromBus : nat;
  conn_toBus : nat;
  conn_component : nat
}.

Record t : Type := {
  buses : list (nat * TopoBus);
  connections : list Connection;
  all_components : list (TopoComponent.t N);
  nextBusId : nat
}.

(** the state after [reset()] *)
Definition new : t :=
  {| buses := []; connections := []; all_components := []; nextBusId := 1 |}.

Definition addBus (tm : t) (name : string) (voltage : N) (type : string) : TopoBus * t :=
  let id := nextBusId tm in
  let bus := {| id := id; name := name; voltage := voltage; type := type;
                components := []; connectedBuses := [] |} in
  (bus, {| buses := BusSystem.mapSet (buses tm) id bus;
           connections := connections tm;
           all_components := all_components tm;
           nextBusId := S id |}).

Definition getBus (tm : t) (id : nat) : option TopoBus :=
  BusSystem.mapGet (buses tm) id.

Definition getBusByName (tm : t) (n : string) : option TopoBus :=
  option_map snd (find (fun kv => String.eqb (name (snd kv)) n) (buses tm)).

Definition updateBus (tm : t) (id : nat) (f : TopoBus -> TopoBus) : t :=
  {| buses := map (fun kv => if Nat.eqb (fst kv) id then (fst kv, f (snd kv)) else kv)
                  (buses tm);
     connections := connections tm;
     all_components := all_components tm;
     nextBusId := nextBusId tm |}.

Definition pushComponent (c : TopoComponent.t N) (b : TopoBus) : TopoBus :=
  {| id := id b; name := name b; voltage := voltage b; type := type b;
     components := components b ++ [c];
     connectedBuses := connectedBuses b |}.

(** [if (!bus.connectedBuses.includes(other)) bus.connectedBuses.push(other)] *)
Definition connectTo (other : nat) (b : TopoBus) : TopoBus :=
  {| id := id b; name := name b; voltage := voltage b; type := type b;
     components := components b;
     connectedBuses :=
       if existsb (Nat.eqb other) (connectedBuses b)
       then connectedBuses b
       else connectedBuses b ++ [other] |}.

(** [toBusId] is [null] for a component that stays on one bus; an
    identifier [0] would be falsy as well. *)
Definition addComponent (tm : t) (component : Component.t N)
    (fromBusId : nat) (toBusId : option nat) : Result (TopoComponent.t N * t) :=
  let fromBus := getBus tm fromBusId in
  let toBus :=
    match toBusId with
    | Some i => if Nat.eqb i 0 then None else getBus tm i
    | None => None
    end in
  match fromBus with
  | None => Throw "FromBus not found"
  | Some fromBus =>
      let componentWithTopology := {|
        TopoComponent.comp := component;
        TopoComponent.fromBus := fromBusId;
        TopoComponent.toBus := toBusId;
        TopoComponent.fromBusName := name fromBus;
        TopoComponent.toBusName := option_map name toBus |} in
      let index := List.length (all_components tm) in
      let tm1 := {| buses := buses tm; connections := connections tm;
                    all_components := all_components tm ++ [componentWithTopology];
                    nextBusId := nextBusId tm |} in
      let tm2 := updateBus tm1 fromBusId (pushComponent componentWithTopology) in
      match toBus with
      | None => Ok (componentWithTopology, tm2)
      | Some toBus =>
          let tm3 := updateBus tm2 (id toBus) (pushComponent componentWithTopology) in
          let tm4 := updateBus tm3 fromBusId (connectTo (id toBus)) in
          let tm5 := updateBus tm4 (id toBus) (connectTo fromBusId) in
          Ok (componentWithTopology,
              {| buses := buses tm5;
                 connections := connections tm5
                   ++ [{| conn_fromBus := fromBusId; conn_toBus := id toBus;
                          conn_component := index |}];
                 all_components := all_components tm5;
                 nextBusId := nextBusId tm5 |})
      end
  end.

(** The walk of [buildFromProject]: the topology, the current bus and
    the current voltage after one component; [index] is its position
    in the list. *)
Definition placeComponent (st : t * nat * N) (index : nat)
    (component : Component.t N) : Result (t * nat * N) :=
  let '(tm, currentBusId, currentVoltage) := st in
  let ty := Component.type component in
  if String.eqb ty "utility" then
    '(_, tm') ← addComponent tm component currentBusId None;
    Ok (tm', currentBusId, currentVoltage)
  else if String.eqb ty "transformer" then
    let secondaryVoltage :=
      (if present (Component.secondaryV component)
       then toNumber (Component.secondaryV component)
       else orElse (Component.voltage component) #480)
      * (if present (Component.secondaryV component) then #1000 else #1) in
    let '(secondaryBus, tm1) :=
      addBus tm (orElseString (Component.name component)
                              ("Bus " ++ natToString (index + 1)))
             secondaryVoltage "load" in
    '(_, tm2) ← addComponent tm1 component currentBusId (Some (id secondaryBus));
    Ok (tm2, id secondaryBus, secondaryVoltage)
  else if String.eqb ty "cable" then
    let cableVoltage := orElse (Component.voltage component) currentVoltage in
    if presentString (Component.toBus component) then
      let busName := orElseString (Component.toBus component) "" in
      let '(toBus, tm1) :=
        match getBusByName tm busName with
        | Some b => (b, tm)
        | None => addBus tm busName cableVoltage "load"
        end in
      '(_, tm2) ← addComponent tm1 component currentBusId (Some (id toBus));
      Ok (tm2, id toBus, currentVoltage)
    else if Component.createsBus component then
      let '(cableBus, tm1) :=
        addBus tm (orElseString (Component.name component)
                                ("Bus " ++ natToString (index + 1)))
               cableVoltage "load" in
      '(_, tm2) ← addComponent tm1 component currentBusId (Some (id cableBus));
      Ok (tm2, id cableBus, currentVoltage)
    else
      '(_, tm') ← addComponent tm component currentBusId None;
      Ok (tm', currentBusId, currentVoltage)
  else
    (** generators, motors and every other type: on the current bus *)
    '(_, tm') ← addComponent tm component currentBusId None;
    Ok (tm', currentBusId, currentVoltage).

Fixpoint placeComponents (st : t * nat * N) (index : nat)
    (cs : list (Component.t N)) : Result (t * nat * N) :=
  match cs with
  | [] => Ok st
  | c :: rest =>
      st' ← placeComponent st index c;
      placeComponents st' (S index) rest
  end.

(** [getTransformerPowerMVA(transformer)]: the power in MVA, the
    transformer object (its warning flag may have been set) and the
    console. *)
Definition getTransformerPowerMVA (transformer : Component.t N)
    (console : list (ConsoleMessage N))
    : N * Component.t N * list (ConsoleMessage N) :=
  if stringIs (Component.powerUnit transformer) "kVA"
  then (toNumber (Component.power transformer) / #1000, transformer, console)
  else if stringIs (Component.powerUnit transformer) "MVA"
  then (toNumber (Component.power transformer), transformer, console)
  else
    let secondaryV := orElse (Component.secondaryV transformer) #0.48 * #1000 in
    let powerUnit := if secondaryV <=? #1000 then "kVA" else "MVA" in
    let '(transformer', console') :=
      if negb (Component._powerUnitWarningLogged transformer) then
        let powerValue := orElse (Component.power transformer) #1 in
        (Component.markWarningLogged transformer,
         console ++ [PowerUnitDefaulted
                       (orElseString (Component.name transformer) "Unnamed")
                       powerUnit secondaryV powerValue])
      else (transformer, console) in
    (if String.eqb powerUnit "kVA"
     then orElse (Component.power transformer) #1 / #1000
     else orElse (Component.power transformer) #1,
     transformer', console').

(** *** [toBusSystem], the branches of "Add components to buses" *)

(** cable: the series impedance added to the bus of the cable *)
Definition cableImpedance (comp : Component.t N) : N * N :=
  let length := orElse (Component.length comp) #0 in
  let tempFactor := #1.216 in
  ((toNumber (Component.resistance comp) * length / #1000) * tempFactor,
   toNumber (Component.reactance comp) * length / #1000).

(** utility: [zSource] from the fault current (kA) or the
    short-circuit power (MVA) *)
Definition utilityZSource (comp : Component.t N) (voltage : N) : N :=
  if present (Component.faultCurrent comp) then
    let iscKA := toNumber (Component.faultCurrent comp) in
    voltage / (Math_sqrt #3 * iscKA * #1000)
  else if present (Component.shortCircuitMVA comp) then
    (voltage * voltage) / (toNumber (Component.shortCircuitMVA comp) * #1000000)
  else #0.

(** split of [zSource] by the X/R ratio *)
Definition utilityImpedance (comp : Component.t N) (zSource : N) : N * N :=
  let xr := orElse (Component.xr comp) #10 in
  let rSource := zSource / Math_sqrt (#1 + xr * xr) in
  let xSource := rSource * xr in
  (rSource, xSource).

Definition utilityGuardrail (comp : Component.t N) (zSource voltage : N)
    (console : list (ConsoleMessage N)) : list (ConsoleMessage N) :=
  if (zSource >? #0) && (zSource <? #0.000001)
     && (voltage >=? #4000) && (voltage <=? #35000)
  then console ++ [SmallUtilityImpedance
                     (orElseString (Component.name comp) "Unnamed")
                     zSource voltage]
  else console.

(** transformer: impedance on the secondary side, from [powerMVA] *)
Definition transformerImpedance (comp : Component.t N) (powerMVA : N) : N * N :=
  let secondaryV := orElse (Component.secondaryV comp) #0.48 * #1000 in
  let zBase := (secondaryV * secondaryV) / (powerMVA * #1000000) in
  let zPU := orElse (Component.impedance comp) #5.75 / #100 in
  let zOhms := zPU * zBase in
  let xr := if present (Component.rx comp)
            then #1 / toNumber (Component.rx comp) else #10 in
  let rXfmr := zOhms / Math_sqrt (#1 + xr * xr) in
  let xXfmr := rXfmr * xr in
  (rXfmr, xXfmr).

(** The bus system under construction, with [busMap]: the buses of
    the bus system by topology identifier.  [busMap] holds the bus
    objects themselves; here it holds their keys in the bus system. *)
Definition updateBusAt (bs : BusSystem.t N) (key : nat)
    (f : Bus.t N -> Bus.t N) : BusSystem.t N :=
  {| BusSystem.buses :=
       map (fun kv => if Nat.eqb (fst kv) key then (fst kv, f (snd kv)) else kv)
           (BusSystem.buses bs);
     BusSystem.nextBusId := BusSystem.nextBusId bs |}.

Definition setBusId (i : nat) (b : Bus.t N) : Bus.t N :=
  {| Bus.id := i; Bus.name := Bus.name b; Bus.voltage := Bus.voltage b;
     Bus.type := Bus.type b; Bus.connections := Bus.connections b;
     Bus.components := Bus.components b; Bus.impedance := Bus.impedance b;
     Bus.faultCurrent := Bus.faultCurrent b |}.

(** "Create buses" *)
Definition createBus (st : BusSystem.t N * list (nat * nat))
    (entry : nat * TopoBus) : BusSystem.t N * list (nat * nat) :=
  let '(busSystem, busMap) := st in
  let topoBus := snd entry in
  let '(bus, busSystem1) :=
    BusSystem.addBus busSystem (name topoBus) (voltage topoBus) (type topoBus) in
  (updateBusAt busSystem1 (Bus.id bus) (setBusId (id topoBus)),
   BusSystem.mapSet busMap (fst entry) (Bus.id bus)).

(** "Add components to buses", one component.  The state is the bus
    system and the console; the result also has the component as the
    loop leaves it. *)
Definition attachComponent (busMap : list (nat * nat))
    (st : BusSystem.t N * list (ConsoleMessage N))
    (tc : TopoComponent.t N)
    : BusSystem.t N * list (ConsoleMessage N) * TopoComponent.t N :=
  let '(busSystem, console) := st in
  let comp := TopoComponent.comp tc in
  match BusSystem.mapGet busMap (TopoComponent.fromBus tc) with
  | None => (busSystem, console, tc)
  | Some fromKey =>
      match BusSystem.getBus busSystem fromKey with
      | None => (busSystem, console, tc)
      | Some fromBus =>
          let ty := Component.type comp in
          (** the transformer branch is the one that writes to the
              component *)
          let '(powerMVA, comp', console1) :=
            if String.eqb ty "transformer"
            then getTransformerPowerMVA comp console
            else (#0, comp, console) in
          let tc' := TopoComponent.withComp tc comp' in
          let bs0 := updateBusAt busSystem fromKey (fun b => Bus.addComponent b tc') in
          let bs1 :=
            if String.eqb ty "cable"
               && present (Component.resistance comp)
               && present (Component.reactance comp)
            then
              let '(dr, dx) := cableImpedance comp in
              updateBusAt bs0 fromKey (fun b => Bus.addImpedance b dr dx)
            else bs0 in
          let '(bs2, console2) :=
            if String.eqb ty "utility" then
              let voltage := orElse (Component.voltage comp) (Bus.voltage fromBus) in
              let zSource := utilityZSource comp voltage in
              let '(rSource, xSource) := utilityImpedance comp zSource in
              (updateBusAt bs1 fromKey (fun b => Bus.addImpedance b rSource xSource),
               utilityGuardrail comp zSource voltage console1)
            else (bs1, console1) in
          let bs3 :=
            if String.eqb ty "transformer" then
              let '(rXfmr, xXfmr) := transformerImpedance comp powerMVA in
              match TopoComponent.toBus tc with
              | Some toId =>
                  if Nat.eqb toId 0 then bs2 else
                  match BusSystem.mapGet busMap toId with
                  | Some toKey =>
                      updateBusAt bs2 toKey (fun b => Bus.addImpedance b rXfmr xXfmr)
                  | None => bs2
                  end
              | None => bs2
              end
            else bs2 in
          (bs3, console2, tc')
      end
  end.

Fixpoint attachComponents (busMap : list (nat * nat))
    (st : BusSystem.t N * list (ConsoleMessage N))
    (cs : list (TopoComponent.t N))
    : BusSystem.t N * list (ConsoleMessage N) * list (TopoComponent.t N) :=
  match cs with
  | [] => (fst st, snd st, [])
  | c :: rest =>
      let '(bs, console, c') := attachComponent busMap st c in
      let '(bs', console', rest') := attachComponents busMap (bs, console) rest in
      (bs', console', c' :: rest')
  end.

(** "Add connections", one connection: the branch impedance and the
    entry pushed on the [connections] of the bus on the from side. *)
Definition connectionImpedance (comp : Component.t N)
    (console : list (ConsoleMessage N))
    : option (Bus.Impedance N) * Component.t N * list (ConsoleMessage N) :=
  if String.eqb (Component.type comp) "cable" then
    let '(zr, zx) := cableImpedance comp in
    (Some {| Bus.r := zr; Bus.x := zx |}, comp, console)
  else if String.eqb (Component.type comp) "transformer" then
    let '(powerMVA, comp', console') := getTransformerPowerMVA comp console in
    let '(rXfmr, xXfmr) := transformerImpedance comp powerMVA in
    (Some {| Bus.r := rXfmr; Bus.x := xXfmr |}, comp', console')
  else (None, comp, console).

Definition replaceAt (cs : list (TopoComponent.t N)) (i : nat)
    (c : TopoComponent.t N) : list (TopoComponent.t N) := <[i := c]> cs.

Definition addConnectionOf (busMap : list (nat * nat))
    (st : BusSystem.t N * list (ConsoleMessage N) * list (TopoComponent.t N))
    (conn : Connection)
    : BusSystem.t N * list (ConsoleMessage N) * list (TopoComponent.t N) :=
  let '(busSystem, console, comps) := st in
  match BusSystem.mapGet busMap (conn_fromBus conn),
        BusSystem.mapGet busMap (conn_toBus conn),
        comps !! conn_component conn with
  | Some fromKey, Some toKey, Some tc =>
      match BusSystem.getBus busSystem toKey with
      | None => st
      | Some toBus =>
          let '(z, comp', console') :=
            connectionImpedance (TopoComponent.comp tc) console in
          (updateBusAt busSystem fromKey
             (fun b => Bus.addConnection b (Bus.id toBus) z),
           console',
           replaceAt comps (conn_component conn) (TopoComponent.withComp tc comp'))
      end
  | _, _, _ => st
  end.

(** [toBusSystem()]: the bus system, the topology with the components
    as the calls left them, and the console. *)
Definition toBusSystem (tm : t) (console : list (ConsoleMessage N))
    : BusSystem.t N * t * list (ConsoleMessage N) :=
  let '(busSystem0, busMap) := fold_left createBus (buses tm) (BusSystem.new, []) in
  let '(busSystem1, console1, comps1) :=
    attachComponents busMap (busSystem0, console) (all_components tm) in
  let '(busSystem2, console2, comps2) :=
    fold_left (addConnectionOf busMap) (connections tm)
              (busSystem1, console1, comps1) in
  (busSystem2,
   {| buses := buses tm; connections := connections tm;
      all_components := comps2; nextBusId := nextBusId tm |},
   console2).

Record Topology : Type := {
  topologyManager : t;
  busSystem : BusSystem.t N
}.

(** [buildFromProject(projectData)] *)
Definition buildFromProject (projectData : ProjectData N)
    (console : list (ConsoleMessage N))
    : Result (Topology * list (ConsoleMessage N)) :=
  let components := pd_components projectData in
  let sourceVoltage := orElse (pd_voltage projectData) #13800 in
  let '(sourceBus, tm0) := addBus new "Source" sourceVoltage "source" in
  '(tm1, _, _) ← placeComponents (tm0, id sourceBus, sourceVoltage) 0 components;
  let '(busSystem, tm2, console') := toBusSystem tm1 console in
  Ok ({| topologyManager := tm2; busSystem := busSystem |}, console').

(** The texts of [validateTopology], with their parameters. *)
Inductive Issue : Type :=
| BusNotConnected (busName : string) (id : nat)
| ComponentWithoutFromBus (index : nat) (nameOrType : string)
| NoSourceBus.

Record Validation : Type := {
  valid : bool;
  errors : list Issue;
  warnings : list Issue
}.

Fixpoint componentErrors (index : nat) (cs : list (TopoComponent.t N)) : list Issue :=
  match cs with
  | [] => []
  | c :: rest =>
      (if Nat.eqb (TopoComponent.fromBus c) 0
       then [ComponentWithoutFromBus (index + 1)
               (orElseString (Component.name (TopoComponent.comp c))
                             (Component.type (TopoComponent.comp c)))]
       else [])
      ++ componentErrors (S index) rest
  end.

Definition validateTopology (tm : t) : Validation :=
  let warnings :=
    flat_map (fun kv =>
                if negb (String.eqb (type (snd kv)) "source")
                   && Nat.eqb (List.length (connectedBuses (snd kv))) 0
                then [BusNotConnected (name (snd kv)) (fst kv)] else [])
             (buses tm) in
  let hasSourceBus :=
    existsb (fun kv => String.eqb (type (snd kv)) "source") (buses tm) in
  let errors :=
    componentErrors 0 (all_components tm)
    ++ (if hasSourceBus then [] else [NoSourceBus]) in
  {| valid := Nat.eqb (List.length errors) 0;
     errors := errors;
     warnings := warnings |}.
End Defs.
Arguments TopoBus N : clear implicits.
Arguments t N : clear implicits.
Arguments Topology N : clear implicits.
End TopologyManager.

(** Property names every object literal inherits from
    [Object.prototype]: a lookup [obj[key]] of one of them on an object
    without such an own property yields the inherited function (or
    prototype object), which is truthy. *)
Definition objectPrototypeKeys : list string :=
  ["constructor"; "__proto__"; "hasOwnProperty"; "isPrototypeOf";
   "propertyIsEnumerable"; "toLocaleString"; "toString"; "valueOf";
   "__defineGetter__"; "__defineSetter__"; "__lookupGetter__";
   "__lookupSetter__"].

Definition inheritedKey (k : string) : bool :=
  existsb (String.eqb k) objectPrototypeKeys.
Arguments inheritedKey : simpl never.

(** ** js/standard_specific_calcs.js *)

Module StandardCalcs.
Section Defs.
Context {N : Type} {num : JsNum N}.
Local Open Scope js_scope.

Definition calculateFirstCycleAsymmetricalMultiplier (xrRatio : N) : N :=
  let multiplier :=
    Math_sqrt (#1 + #2 * Math_pow Math_E (#(-4) * Math_PI / xrRatio)) in
  Math_max #1.0 (Math_min #1.732 multiplier).
End Defs.
End StandardCalcs.

(** ** js/arc_flash_calculation.js *)

Module ArcFlash.
Section Defs.
Context {N : Type} {num : JsNum N}.
Local Open Scope js_scope.

(** [IEEE_1584_2018.voltageRange] *)
Definition voltageRange_min : N := #208.
Definition voltageRange_max : N := #15000.

Record ElectrodeConfig : Type := { k1 : N; k2 : N }.

(** [IEEE_1584_2018.electrodeConfig[enclosureType] ||
     IEEE_1584_2018.electrodeConfig.VCB] *)
Definition electrodeConfig (enclosureType : string) : ElectrodeConfig :=
  if String.eqb enclosureType "VCB" then {| k1 := #(-0.792); k2 := #0 |}
  else if String.eqb enclosureType "VCBB" then {| k1 := #(-0.555); k2 := #0 |}
  else if String.eqb enclosureType "HCB" then {| k1 := #(-0.723); k2 := #0 |}
  else if String.eqb enclosureType "VOA" then {| k1 := #(-0.113); k2 := #0 |}
  else if String.eqb enclosureType "HOA" then {| k1 := #0.022; k2 := #0 |}
  else if inheritedKey enclosureType
  then {| k1 := toNumber None; k2 := toNumber None |}
  else {| k1 := #(-0.792); k2 := #0 |}.

Definition calculateArcingCurrent (voltage boltedFaultCurrent gap : N) : N :=
  let voltageKV := voltage / #1000 in
  let Ibf := boltedFaultCurrent in
  let G := gap in
  if voltage <? #1000 then
    let k := #(-0.153) in
    let logIarc :=
      k + #0.662 * Math_log10 Ibf + #0.0966 * voltageKV
      + #0.000526 * G + #0.5588 * voltageKV * Math_log10 Ibf
      - #0.00304 * G * Math_log10 Ibf in
    Math_pow #10 logIarc
  else
    let k := #(-0.097) in
    let logIarc :=
      k + #0.662 * Math_log10 Ibf + #0.0966 * voltageKV
      + #0.000526 * G + #0.5588 * voltageKV * Math_log10 Ibf
      - #0.00304 * G * Math_log10 Ibf in
    Math_pow #10 logIarc.

Record Params : Type := {
  voltage : N;
  boltedFaultCurrent : N;
  workingDistance : N;
  arcDuration : N;
  equipmentGap : N;
  enclosureType : string
}.

Record EnergyResults : Type := {
  er_incidentEnergy : N;
  er_arcingCurrent : N;
  er_workingDistance : N;
  er_arcDuration : N;
  er_equipmentGap : N;
  er_enclosureType : string
}.

Definition calculateIncidentEnergy (params : Params) : EnergyResults :=
  let config := electrodeConfig (enclosureType params) in
  let arcingCurrent :=
    calculateArcingCurrent (voltage params) (boltedFaultCurrent params)
                           (equipmentGap params) in
  let Iarc := arcingCurrent in
  let G := equipmentGap params in
  let D := workingDistance params in
  let t := arcDuration params in
  let K := k1 config + k2 config + #1.081 * Math_log10 Iarc + #0.0011 * G in
  let x := if voltage params <? #1000
           then #0.973 + #0.0919 * G
           else #0.973 + #0.0919 * G in
  let Cf := #1.0 in
  let E := #4.184 * Cf * Math_pow #10 K * (t / #0.2) * Math_pow #610 x
           / Math_pow D x in
  {| er_incidentEnergy := E;
     er_arcingCurrent := Iarc;
     er_workingDistance := D;
     er_arcDuration := t;
     er_equipmentGap := G;
     er_enclosureType := enclosureType params |}.

Definition calculateArcFlashBoundary (incidentEnergy workingDistance : N) : N :=
  let E := incidentEnergy in
  let D := workingDistance in
  let E_threshold := #5 in
  let x := #2.0 in
  if E <=? E_threshold then workingDistance
  else D * Math_pow (E / E_threshold) (#1 / x).

Record Applicable : Type := {
  af_voltage : N;
  af_boltedFaultCurrent : N;
  af_arcingCurrent : N;
  (** J/cm2 *)
  af_incidentEnergy : N;
  (** cal/cm2 *)
  af_incidentEnergyCalCm2 : N;
  af_workingDistance : N;
  af_arcDuration : N;
  af_equipmentGap : N;
  af_enclosureType : string;
  af_arcFlashBoundary : N
}.

(** [{error: ..., applicable: false}] or the full record with
    [applicable: true] *)
Inductive Outcome : Type :=
| OutOfRange (voltage : N)
| Computed (result : Applicable).

Definition calculateArcFlashIEEE1584_2018 (params : Params) : Outcome :=
  if (voltage params <? voltageRange_min) || (voltage params >? voltageRange_max)
  then OutOfRange (voltage params)
  else
    let energyResults := calculateIncidentEnergy params in
    let arcFlashBoundary :=
      calculateArcFlashBoundary (er_incidentEnergy energyResults)
                                (workingDistance params) in
    let incidentEnergyCalCm2 := er_incidentEnergy energyResults / #4.184 in
    Computed {|
      af_voltage := voltage params;
      af_boltedFaultCurrent := boltedFaultCurrent params;
      af_arcingCurrent := er_arcingCurrent energyResults;
      af_incidentEnergy := er_incidentEnergy energyResults;
      af_incidentEnergyCalCm2 := incidentEnergyCalCm2;
      af_workingDistance := workingDistance params;
      af_arcDuration := arcDuration params;
      af_equipmentGap := equipmentGap params;
      af_enclosureType := enclosureType params;
      af_arcFlashBoundary := arcFlashBoundary |}.
End Defs.
Arguments ElectrodeConfig N : clear implicits.
Arguments Params N : clear implicits.
Arguments EnergyResults N : clear implicits.
Arguments Applicable N : clear implicits.
Arguments Outcome N : clear implicits.
End ArcFlash.

(** ** js/ppe_selection.js *)

Module PPE.
Section Defs.
Context {N : Type} {num : JsNum N}.
Local Open Scope js_scope.

Record Requirements : Type := {
  arcRatedShirt : bool;
  arcRatedPants : bool;
  arcFlashSuit : bool;
  arcRatedHood : bool;
  safetyGlasses : bool;
  hearingProtection : bool;
  leatherGloves : bool;
  arcRatedGloves : bool
}.

Record Category : Type := {
  name : string;
  arcRating : N;
  incidentEnergyMin : N;
  incidentEnergyMax : N;
  requirements : Requirements;
  description : string;
  color : string
}.

(** [NFPA_70E_2024_PPE_CATEGORIES[category]], keys 0 to 4; a larger
    key has no entry and is never looked up. *)
Definition NFPA_70E_2024_PPE_CATEGORIES (category : nat) : Category :=
  match category with
  | 0%nat => {|
      name := "PPE Category 0"; arcRating := #0;
      incidentEnergyMin := #0; incidentEnergyMax := #1.2;
      requirements := {|
        arcRatedShirt := false; arcRatedPants := false;
        arcFlashSuit := false; arcRatedHood := false;
        safetyGlasses := true; hearingProtection := true;
        leatherGloves := false; arcRatedGloves := false |};
      description := "Non-melting or untreated natural fiber clothing";
      color := "#10b981" |}
  | 1%nat => {|
      name := "PPE Category 1"; arcRating := #4;
      incidentEnergyMin := #1.2; incidentEnergyMax := #4;
      requirements := {|
        arcRatedShirt := true; arcRatedPants := true;
        arcFlashSuit := false; arcRatedHood := false;
        safetyGlasses := true; hearingProtection := true;
        leatherGloves := true; arcRatedGloves := false |};
      description := "Arc-rated shirt and pants or arc-rated coverall (minimum 4 cal/cm²)";
      color := "#3b82f6" |}
  | 2%nat => {|
      name := "PPE Category 2"; arcRating := #8;
      incidentEnergyMin := #4; incidentEnergyMax := #8;
      requirements := {|
        arcRatedShirt := true; arcRatedPants := true;
        arcFlashSuit := false; arcRatedHood := true;
        safetyGlasses := true; hearingProtection := true;
        leatherGloves := true; arcRatedGloves := true |};
      description := "Arc-rated shirt, pants and arc-rated hood (minimum 8 cal/cm²)";
      color := "#f59e0b" |}
  | 3%nat => {|
      name := "PPE Category 3"; arcRating := #25;
      incidentEnergyMin := #8; incidentEnergyMax := #25;
      requirements := {|
        arcRatedShirt := true; arcRatedPants := true;
        arcFlashSuit := false; arcRatedHood := true;
        safetyGlasses := true; hearingProtection := true;
        leatherGloves := true; arcRatedGloves := true |};
      description := "Arc-rated shirt, pants and arc-rated suit (minimum 25 cal/cm²)";
      color := "#f97316" |}
  | _ => {|
      name := "PPE Category 4"; arcRating := #40;
      incidentEnergyMin := #25; incidentEnergyMax := #40;
      requirements := {|
        arcRatedShirt := true; arcRatedPants := true;
        arcFlashSuit := true; arcRatedHood := true;
        safetyGlasses := true; hearingProtection := true;
        leatherGloves := true; arcRatedGloves := true |};
      description := "Arc-rated shirt, pants and multi-layer arc flash suit (minimum 40 cal/cm²)";
      color := "#dc2626" |}
  end.

(** The [for] loop of [getPPECategory] over the categories still to
    check; [None] when the loop ends without returning. *)
Fixpoint firstMatchingCategory (incidentEnergyCalCm2 : N)
    (categories : list nat) : option nat :=
  match categories with
  | [] => None
  | category :: rest =>
      let ppeCategory := NFPA_70E_2024_PPE_CATEGORIES category in
      if (incidentEnergyCalCm2 >=? incidentEnergyMin ppeCategory)
         && (incidentEnergyCalCm2 <? incidentEnergyMax ppeCategory)
      then Some category
      else firstMatchingCategory incidentEnergyCalCm2 rest
  end.

Definition getPPECategory (incidentEnergyCalCm2 : N) : nat :=
  match firstMatchingCategory incidentEnergyCalCm2 [0; 1; 2; 3; 4]%nat with
  | Some category => category
  | None => if incidentEnergyCalCm2 >=? #40 then 4%nat else 0%nat
  end.

Definition getPPERequirements (category : nat) : Category :=
  NFPA_70E_2024_PPE_CATEGORIES (if Nat.ltb 4 category then 0%nat else category).

(** The [rating] text of an equipment item. *)
Inductive Rating : Type :=
| MinimumArcRating (calPerCm2 : N)
| Standard
| HeavyDutyLeather.

Record Equipment : Type := {
  item : string;
  rating : Rating;
  required : bool
}.

(** The text of [warning] is built from the incident energy. *)
Inductive Warning : Type :=
| ExceedsCategory4Maximum (incidentEnergyCalCm2 : N).

Record Recommendations : Type := {
  category : nat;
  categoryName : string;
  rec_arcRating : N;
  incidentEnergy : N;
  rec_color : string;
  rec_description : string;
  equipment : list Equipment;
  warning : option Warning
}.

Definition equipmentIf (cond : bool) (e : Equipment) : list Equipment :=
  if cond then [e] else [].

Definition getDetailedPPERecommendations (incidentEnergyCalCm2 : N)
    : Recommendations :=
  let category := getPPECategory incidentEnergyCalCm2 in
  let req := getPPERequirements category in
  let arc := MinimumArcRating (arcRating req) in
  let flags := requirements req in
  {| category := category;
     categoryName := name req;
     rec_arcRating := arcRating req;
     incidentEnergy := incidentEnergyCalCm2;
     rec_color := color req;
     rec_description := description req;
     equipment :=
       equipmentIf (arcRatedShirt flags)
         {| item := "Arc-Rated Shirt"; rating := arc; required := true |}
       ++ equipmentIf (arcRatedPants flags)
         {| item := "Arc-Rated Pants"; rating := arc; required := true |}
       ++ equipmentIf (arcFlashSuit flags)
         {| item := "Arc Flash Suit"; rating := arc; required := true |}
       ++ equipmentIf (arcRatedHood flags)
         {| item := "Arc-Rated Hood"; rating := arc; required := true |}
       ++ equipmentIf (safetyGlasses flags)
         {| item := "Safety Glasses or Safety Goggles"; rating := Standard;
            required := true |}
       ++ equipmentIf (hearingProtection flags)
         {| item := "Hearing Protection"; rating := Standard; required := true |}
       ++ equipmentIf (leatherGloves flags)
         {| item := "Leather Gloves"; rating := HeavyDutyLeather;
            required := true |}
       ++ equipmentIf (arcRatedGloves flags)
         {| item := "Arc-Rated Gloves"; rating := arc; required := true |};
     warning :=
       if incidentEnergyCalCm2 >? #40
       then Some (ExceedsCategory4Maximum incidentEnergyCalCm2)
       else None |}.

(** [generatePPEReport(arcFlashResults).ppe], the part of the report
    the orchestrator keeps. *)
Definition generatePPEReport_ppe (arcFlashResults : ArcFlash.Applicable N)
    : Recommendations :=
  let incidentEnergyCalCm2 :=
    if truthy (ArcFlash.af_incidentEnergyCalCm2 arcFlashResults)
    then ArcFlash.af_incidentEnergyCalCm2 arcFlashResults
    else ArcFlash.af_incidentEnergy arcFlashResults / #4.184 in
  getDetailedPPERecommendations incidentEnergyCalCm2.
End Defs.
Arguments Category N : clear implicits.
Arguments Rating N : clear implicits.
Arguments Equipment N : clear implicits.
Arguments Warning N : clear implicits.
Arguments Recommendations N : clear implicits.
End PPE.

(** ** js/calculation_orchestrator.js *)

Module Orchestrator.
Section Defs.
Context {N : Type} {num : JsNum N}.
Local Open Scope js_scope.

(** *** The log and the assumption ledger of [this.state] *)

(** The messages of [logStep] and the descriptions of
    [addAssumption] issued by the modelled methods; the numbers of
    the texts are kept as numbers, the timestamp is left out. *)
Inductive LogMessage : Type :=
| TopologyWarningLogged (warning : TopologyManager.Issue)
| AddedMotorContribution (busName : string) (motorFirstCycleKA : N) (count : nat).

Inductive Description : Type :=
| TopologyWarning (warning : TopologyManager.Issue)
| MotorsAsParallelSources
| ArcFlashParameters (busName : string) (workingDistance arcDuration : N)
                     (enclosureType : string)
| ArcFlashSimplified (busName : string).

Record Assumption : Type := {
  category : string;
  description : Description
}.

Record Ledger : Type := {
  calculationLog : list LogMessage;
  assumptions : list Assumption
}.

Definition logStep (message : LogMessage) (l : Ledger) : Ledger :=
  {| calculationLog := calculationLog l ++ [message];
     assumptions := assumptions l |}.

Definition addAssumption (category : string) (description : Description)
    (l : Ledger) : Ledger :=
  {| calculationLog := calculationLog l;
     assumptions := assumptions l
       ++ [{| category := category; description := description |}] |}.

(** *** Topology *)

(** [buildTopology(projectData)] with the topology manager loaded: the
    topology, the ledger and the console.  Each warning of the
    validation is logged and recorded as an assumption; an invalid
    topology throws (the error entry logged just before is not kept). *)
Definition buildTopology (projectData : ProjectData N) (l : Ledger)
    (console : list (ConsoleMessage N))
    : Result (TopologyManager.Topology N * Ledger * list (ConsoleMessage N)) :=
  '(topology, console') ← TopologyManager.buildFromProject projectData console;
  let validation :=
    TopologyManager.validateTopology (TopologyManager.topologyManager topology) in
  if negb (TopologyManager.valid validation)
  then Throw "Topology validation failed"
  else
    Ok (topology,
        fold_left (fun l warning =>
                     addAssumption "Topology" (TopologyWarning warning)
                       (logStep (TopologyWarningLogged warning) l))
                  (TopologyManager.warnings validation) l,
        console').

(** *** Thevenin equivalents *)

Record Thevenin : Type := {
  th_busId : nat;
  th_busName : string;
  th_voltage : N;
  th_r : N;
  th_x : N;
  th_z : N;
  th_xr : N
}.

Definition theveninOf (bus : Bus.t N) : Thevenin :=
  let impedance := Bus.calculateTotalImpedance bus in
  let xr := Bus.total_x impedance
            / (if truthy (Bus.total_r impedance)
               then Bus.total_r impedance else #0.001) in
  {| th_busId := Bus.id bus;
     th_busName := Bus.name bus;
     th_voltage := Bus.voltage bus;
     th_r := Bus.total_r impedance;
     th_x := Bus.total_x impedance;
     th_z := Bus.magnitude impedance;
     th_xr := xr |}.

(** [calculateTheveninEquivalents(topology)]: it neither logs nor
    records an assumption, the ledger is returned as it came. *)
Definition calculateTheveninEquivalents (topology : TopologyManager.Topology N)
    (l : Ledger) : list Thevenin * Ledger :=
  let buses := BusSystem.getAllBuses (TopologyManager.busSystem topology) in
  (map theveninOf buses, l).

(** *** Short circuit *)

Record FaultCurrents : Type := {
  threePhase : N;
  lineToGround : N;
  lineToLine : N;
  doubleLineToGround : N;
  symmetrical : N;
  asymmetrical : N;
  peak : N
}.

Record FaultCurrentsKA : Type := {
  kA : FaultCurrents;
  (** set by [integrateMotorContribution] *)
  threePhaseWithMotors : option N;
  interruptingWithMotors : option N;
  sustainedWithMotors : option N
}.

Record BusImpedance : Type := { imp_r : N; imp_x : N; imp_z : N; imp_xr : N }.

(** [results], without the timestamp [computed_at] *)
Record Enhanced : Type := {
  isym_kA : N;
  iasym_kA : N;
  z_total_ohm : N;
  x_over_r : N;
  mva_sc : N;
  tau_s : N;
  multiplier : N
}.

Record Contribution : Type := {
  firstCycle : N;
  interrupting : N;
  sustained : N
}.

(** [busConnection]: a bus identifier or a bus name *)
Inductive BusRef : Type :=
| BusNumber (id : nat)
| BusName (name : string).

(** An element of [motorContribution.motors]. *)
Record MotorResult : Type := {
  motor_name : string;
  fla : N;
  lra : N;
  contribution : Contribution;
  busConnection : option BusRef
}.

Record BusMotorContribution : Type := {
  firstCycleKA : N;
  interruptingKA : N;
  sustainedKA : N;
  count : nat;
  bmc_motors : list MotorResult
}.

Record BusResult : Type := {
  busId : nat;
  busName : string;
  voltage : N;
  impedance : BusImpedance;
  faultCurrents : FaultCurrents;
  faultCurrentsKA : FaultCurrentsKA;
  results : Enhanced;
  (** [undefined] before the integration, [null] after it on a bus
      without motors: both [None] *)
  motorContribution : option BusMotorContribution;
  motorContributionPercent : option Contribution
}.

Definition shortCircuitOf (frequency : option N) (bus : Bus.t N)
    (th : Thevenin) : BusResult :=
  let voltage := Bus.voltage bus in
  let z := if truthy (th_z th) then th_z th else #0.001 in
  let i3phase := voltage / (Math_sqrt #3 * z) in
  let iLG := i3phase * #0.80 in
  let iLL := i3phase * #0.87 in
  let i2LG := i3phase * #0.95 in
  let xr := if truthy (th_xr th) then th_xr th else #10 in
  let asymFactor :=
    Math_sqrt (#1 + #2 * Math_pow Math_E (#(-4) * Math_PI / xr)) in
  let iPeak := i3phase * Math_sqrt #2 * asymFactor in
  let faultMVA := (Math_sqrt #3 * voltage * i3phase) / #1000000 in
  let frequency := orElse frequency #60 in
  let omega := #2 * Math_PI * frequency in
  let tau_s := th_x th / (omega * th_r th) in
  {| busId := Bus.id bus;
     busName := Bus.name bus;
     voltage := voltage;
     impedance := {| imp_r := th_r th; imp_x := th_x th;
                     imp_z := th_z th; imp_xr := xr |};
     faultCurrents := {|
       threePhase := i3phase; lineToGround := iLG; lineToLine := iLL;
       doubleLineToGround := i2LG; symmetrical := i3phase;
       asymmetrical := i3phase * asymFactor; peak := iPeak |};
     faultCurrentsKA := {|
       kA := {|
         threePhase := i3phase / #1000; lineToGround := iLG / #1000;
         lineToLine := iLL / #1000; doubleLineToGround := i2LG / #1000;
         symmetrical := i3phase / #1000;
         asymmetrical := (i3phase * asymFactor) / #1000;
         peak := iPeak / #1000 |};
       threePhaseWithMotors := None;
       interruptingWithMotors := None;
       sustainedWithMotors := None |};
     results := {|
       isym_kA := i3phase / #1000;
       iasym_kA := (i3phase * asymFactor) / #1000;
       z_total_ohm := th_z th;
       x_over_r := xr;
       mva_sc := faultMVA;
       tau_s := tau_s;
       multiplier := asymFactor |};
     motorContribution := None;
     motorContributionPercent := None |}.

(** [calculateShortCircuit(topology, thevenin)]: the bus at position
    [index] is paired with [thevenin[index]]; reading a property of a
    missing entry throws. *)
Fixpoint shortCircuitOfBuses (frequency : option N) (buses : list (Bus.t N))
    (thevenin : list Thevenin) : Result (list BusResult) :=
  match buses, thevenin with
  | [], _ => Ok []
  | _ :: _, [] => Throw "Cannot read properties of undefined (reading 'z')"
  | bus :: buses', th :: thevenin' =>
      rest ← shortCircuitOfBuses frequency buses' thevenin';
      Ok (shortCircuitOf frequency bus th :: rest)
  end.

Definition calculateShortCircuit (projectData : ProjectData N)
    (topology : TopologyManager.Topology N) (thevenin : list Thevenin)
    : Result (list BusResult) :=
  shortCircuitOfBuses (pd_frequency projectData)
    (BusSystem.getAllBuses (TopologyManager.busSystem topology)) thevenin.

(** *** Motor contribution *)

(** [motorContribution]: the per-motor results and the totals *)
Record MotorData : Type := {
  motors : list MotorResult;
  totals : Contribution
}.

(** A value of the object [motorsByBus]. *)
Record BusMotors : Type := {
  bm_firstCycle : N;
  bm_interrupting : N;
  bm_sustained : N;
  bm_motors : list MotorResult
}.

(** [motor.busConnection || 'Unknown'], as a property key *)
Definition busKey (motor : MotorResult) : string :=
  match busConnection motor with
  | Some (BusNumber n) => if Nat.eqb n 0 then "Unknown" else natToString n
  | Some (BusName s) => if String.eqb s "" then "Unknown" else s
  | None => "Unknown"
  end.

Definition emptyBusMotors : BusMotors :=
  {| bm_firstCycle := #0; bm_interrupting := #0; bm_sustained := #0;
     bm_motors := [] |}.

Definition addMotor (g : BusMotors) (motor : MotorResult) : BusMotors :=
  {| bm_firstCycle := bm_firstCycle g + firstCycle (contribution motor);
     bm_interrupting := bm_interrupting g + interrupting (contribution motor);
     bm_sustained := bm_sustained g + sustained (contribution motor);
     bm_motors := bm_motors g ++ [motor] |}.

(** One round of "Group motors by bus".  Under a key inherited from
    [Object.prototype] the lookup finds the inherited value, no entry
    is created and [.motors.push] throws. *)
Definition groupMotor (motorsByBus : gmap string BusMotors)
    (motor : MotorResult) : Result (gmap string BusMotors) :=
  let key := busKey motor in
  match motorsByBus !! key with
  | Some g => Ok (<[key := addMotor g motor]> motorsByBus)
  | None =>
      if inheritedKey key
      then Throw "Cannot read properties of undefined (reading 'push')"
      else Ok (<[key := addMotor emptyBusMotors motor]> motorsByBus)
  end.

Fixpoint groupMotors (motorsByBus : gmap string BusMotors)
    (ms : list MotorResult) : Result (gmap string BusMotors) :=
  match ms with
  | [] => Ok motorsByBus
  | motor :: rest =>
      motorsByBus' ← groupMotor motorsByBus motor;
      groupMotors motorsByBus' rest
  end.

(** [motorsByBus[busResult.busId] || motorsByBus[busResult.busName]];
    an inherited value found under the bus name is truthy and reading
    [.motors.length] of it throws. *)
Definition lookupBusMotors (motorsByBus : gmap string BusMotors)
    (busResult : BusResult) : Result (option BusMotors) :=
  match motorsByBus !! natToString (busId busResult) with
  | Some g => Ok (Some g)
  | None =>
      match motorsByBus !! busName busResult with
      | Some g => Ok (Some g)
      | None =>
          if inheritedKey (busName busResult)
          then Throw "Cannot read properties of undefined (reading 'length')"
          else Ok None
      end
  end.

Definition withMotors (busResult : BusResult) (w1 w2 w3 : option N)
    (mc : option BusMotorContribution) (pc : option Contribution) : BusResult :=
  {| busId := busId busResult;
     busName := busName busResult;
     voltage := voltage busResult;
     impedance := impedance busResult;
     faultCurrents := faultCurrents busResult;
     faultCurrentsKA := {|
       kA := kA (faultCurrentsKA busResult);
       threePhaseWithMotors := w1;
       interruptingWithMotors := w2;
       sustainedWithMotors := w3 |};
     results := results busResult;
     motorContribution := mc;
     motorContributionPercent := pc |}.

(** "Add motor contribution to each bus", one bus *)
Definition integrateBus (motorsByBus : gmap string BusMotors)
    (busResult : BusResult) (l : Ledger) : Result (BusResult * Ledger) :=
  found ← lookupBusMotors motorsByBus busResult;
  let bolted := threePhase (kA (faultCurrentsKA busResult)) in
  match found with
  | Some busMotors =>
      let motorFirstCycleKA := bm_firstCycle busMotors / #1000 in
      let motorInterruptingKA := bm_interrupting busMotors / #1000 in
      let motorSustainedKA := bm_sustained busMotors / #1000 in
      Ok (withMotors busResult
            (Some (bolted + motorFirstCycleKA))
            (Some (bolted + motorInterruptingKA))
            (Some (bolted + motorSustainedKA))
            (Some {| firstCycleKA := motorFirstCycleKA;
                     interruptingKA := motorInterruptingKA;
                     sustainedKA := motorSustainedKA;
                     count := List.length (bm_motors busMotors);
                     bmc_motors := bm_motors busMotors |})
            (Some {| firstCycle := (motorFirstCycleKA / bolted) * #100;
                     interrupting := (motorInterruptingKA / bolted) * #100;
                     sustained := (motorSustainedKA / bolted) * #100 |}),
          logStep (AddedMotorContribution (busName busResult) motorFirstCycleKA
                     (List.length (bm_motors busMotors))) l)
  | None =>
      Ok (withMotors busResult (Some bolted)
            (interruptingWithMotors (faultCurrentsKA busResult))
            (sustainedWithMotors (faultCurrentsKA busResult))
            None None,
          l)
  end.

Fixpoint integrateBuses (motorsByBus : gmap string BusMotors)
    (shortCircuit : list BusResult) (l : Ledger)
    : Result (list BusResult * Ledger) :=
  match shortCircuit with
  | [] => Ok ([], l)
  | busResult :: rest =>
      '(busResult', l1) ← integrateBus motorsByBus busResult l;
      '(rest', l2) ← integrateBuses motorsByBus rest l1;
      Ok (busResult' :: rest', l2)
  end.

(** [integrateMotorContribution()] on [this.state.motorContribution]
    and [this.state.shortCircuit]: the updated short-circuit results
    and the ledger. *)
Definition integrateMotorContribution (motorContribution : option MotorData)
    (shortCircuit : option (list BusResult)) (l : Ledger)
    : Result (option (list BusResult) * Ledger) :=
  match motorContribution, shortCircuit with
  | Some motorData, Some shortCircuit =>
      motorsByBus ← groupMotors ∅ (motors motorData);
      '(shortCircuit', l') ← integrateBuses motorsByBus shortCircuit l;
      Ok (Some shortCircuit',
          addAssumption "Motor Contribution" MotorsAsParallelSources l')
  | _, _ => Ok (shortCircuit, l)
  end.

(** *** Arc flash *)

(** Which optional modules are loaded: the tests
    [typeof calculateArcFlashIEEE1584_2018 !== 'undefined'] and
    [typeof generatePPEReport !== 'undefined']. *)
Record Globals : Type := {
  has_calculateArcFlashIEEE1584_2018 : bool;
  has_generatePPEReport : bool
}.

(** The entries of [missingFields]. *)
Inductive MissingField : Type :=
| VoltageOutsideRange (voltage : N)
| ValidBoltedFaultCurrentRequired
| WorkingDistanceNotSpecified
| ArcDurationNotSpecified.

(** [ppe.category] of the simplified estimate: a number or ['>4'] *)
Inductive SimplifiedCategory : Type :=
| CategoryNumber (n : nat)
| CategoryAbove4.

Record Simplified : Type := {
  s_arcingCurrent : N;
  s_incidentEnergy : N;
  s_arcFlashBoundary : N;
  s_category : SimplifiedCategory;
  s_arcRating : N
}.

(** [parameters] of an evaluated record; the simplified estimate has
    no gap and no enclosure type *)
Record Parameters : Type := {
  p_workingDistance : N;
  p_arcDuration : N;
  p_equipmentGap : option N;
  p_enclosureType : option string
}.

(** The three shapes of a bus record: [evaluated: false] with
    [missingFields]; [evaluated: true] with the result of the IEEE
    1584 module spread into it; [evaluated: true] with the simplified
    estimate.  The record of the [catch] branch does not occur: none
    of the modelled calls throws. *)
Inductive Detail : Type :=
| NotEvaluated (missingFields : list MissingField)
| EvaluatedIEEE1584 (arcFlash : ArcFlash.Outcome N)
                    (ppe : option (PPE.Recommendations N))
                    (parameters : Parameters)
| EvaluatedSimplified (estimate : Simplified) (parameters : Parameters).

Record ArcFlashRecord : Type := {
  af_busId : nat;
  af_busName : string;
  af_voltage : N;
  af_boltedFaultCurrent : N;
  detail : Detail
}.

Definition evaluated (rec : ArcFlashRecord) : bool :=
  match detail rec with
  | NotEvaluated _ => false
  | _ => true
  end.

Definition missingFields (rec : ArcFlashRecord) : option (list MissingField) :=
  match detail rec with
  | NotEvaluated fields => Some fields
  | _ => None
  end.

(** the property [incidentEnergy] of a bus record, when it has one *)
Definition incidentEnergy (rec : ArcFlashRecord) : option N :=
  match detail rec with
  | NotEvaluated _ => None
  | EvaluatedIEEE1584 (ArcFlash.Computed result) _ _ =>
      Some (ArcFlash.af_incidentEnergy result)
  | EvaluatedIEEE1584 (ArcFlash.OutOfRange _) _ _ => None
  | EvaluatedSimplified estimate _ => Some (s_incidentEnergy estimate)
  end.

Definition pushIf {A : Type} (cond : bool) (a : A) : list A :=
  if cond then [a] else [].

Definition simplifiedEstimate (boltedFaultKA voltage workingDistance arcDuration : N)
    : Simplified :=
  let arcingCurrent := boltedFaultKA * #0.85 in
  let incidentEnergy :=
    (arcingCurrent * voltage * arcDuration)
    / (#4.184 * Math_pow (workingDistance / #1000) #2) in
  let afbMm := workingDistance * Math_sqrt (incidentEnergy / #1.2) in
  let ppeCategory :=
    if incidentEnergy <=? #1.2 then CategoryNumber 0
    else if incidentEnergy <=? #4 then CategoryNumber 1
    else if incidentEnergy <=? #8 then CategoryNumber 2
    else if incidentEnergy <=? #25 then CategoryNumber 3
    else if incidentEnergy <=? #40 then CategoryNumber 4
    else CategoryAbove4 in
  {| s_arcingCurrent := arcingCurrent;
     s_incidentEnergy := incidentEnergy;
     s_arcFlashBoundary := afbMm;
     s_category := ppeCategory;
     s_arcRating := Math_max #4 incidentEnergy |}.

(** The body of the [forEach] of [calculateArcFlash] for one
    short-circuit result: the record pushed and the ledger. *)
Definition arcFlashOf (globals : Globals)
    (workingDistance arcDuration : N) (enclosureType : string)
    (scResult : BusResult) (l : Ledger) : ArcFlashRecord * Ledger :=
  let boltedFaultKA :=
    orElse (threePhaseWithMotors (faultCurrentsKA scResult))
           (threePhase (kA (faultCurrentsKA scResult))) in
  let voltage := voltage scResult in
  let voltageInRange := (voltage >=? #208) && (voltage <=? #15000) in
  let missingFields :=
    pushIf (negb voltageInRange) (VoltageOutsideRange voltage)
    ++ pushIf (negb (truthy boltedFaultKA) || (boltedFaultKA <=? #0))
              ValidBoltedFaultCurrentRequired
    ++ pushIf (negb (truthy workingDistance) || (workingDistance <=? #0))
              WorkingDistanceNotSpecified
    ++ pushIf (negb (truthy arcDuration) || (arcDuration <=? #0))
              ArcDurationNotSpecified in
  let record (d : Detail) := {|
    af_busId := busId scResult;
    af_busName := busName scResult;
    af_voltage := voltage;
    af_boltedFaultCurrent := boltedFaultKA;
    detail := d |} in
  if Nat.ltb 0 (List.length missingFields) then
    (record (NotEvaluated missingFields), l)
  else if has_calculateArcFlashIEEE1584_2018 globals then
    let equipmentGap := if voltage <? #1000 then #32 else #104 in
    let arcFlash :=
      ArcFlash.calculateArcFlashIEEE1584_2018 {|
        ArcFlash.voltage := voltage;
        ArcFlash.boltedFaultCurrent := boltedFaultKA;
        ArcFlash.workingDistance := workingDistance;
        ArcFlash.arcDuration := arcDuration;
        ArcFlash.equipmentGap := equipmentGap;
        ArcFlash.enclosureType := enclosureType |} in
    let ppe :=
      match arcFlash with
      | ArcFlash.Computed result =>
          if has_generatePPEReport globals
          then Some (PPE.generatePPEReport_ppe result) else None
      | ArcFlash.OutOfRange _ => None
      end in
    (record (EvaluatedIEEE1584 arcFlash ppe
               {| p_workingDistance := workingDistance;
                  p_arcDuration := arcDuration;
                  p_equipmentGap := Some equipmentGap;
                  p_enclosureType := Some enclosureType |}),
     addAssumption "Arc Flash"
       (ArcFlashParameters (busName scResult) workingDistance arcDuration
                           enclosureType) l)
  else
    (record (EvaluatedSimplified
               (simplifiedEstimate boltedFaultKA voltage workingDistance
                                   arcDuration)
               {| p_workingDistance := workingDistance;
                  p_arcDuration := arcDuration;
                  p_equipmentGap := None;
                  p_enclosureType := None |}),
     addAssumption "Arc Flash" (ArcFlashSimplified (busName scResult)) l).

Fixpoint arcFlashOfAll (globals : Globals)
    (workingDistance arcDuration : N) (enclosureType : string)
    (shortCircuitResults : list BusResult) (l : Ledger)
    : list ArcFlashRecord * Ledger :=
  match shortCircuitResults with
  | [] => ([], l)
  | scResult :: rest =>
      let '(rec, l1) :=
        arcFlashOf globals workingDistance arcDuration enclosureType scResult l in
      let '(recs, l2) :=
        arcFlashOfAll globals workingDistance arcDuration enclosureType rest l1 in
      (rec :: recs, l2)
  end.

(** [calculateArcFlash(shortCircuitResults)] *)
Definition calculateArcFlash (globals : Globals) (projectData : ProjectData N)
    (shortCircuitResults : list BusResult) (l : Ledger)
    : list ArcFlashRecord * Ledger :=
  let workingDistance := orElse (pd_workingDistance projectData) #450 in
  let arcDuration := orElse (pd_arcDuration projectData) #0.1 in
  let enclosureType := orElseString (pd_enclosureType projectData) "VCB" in
  arcFlashOfAll globals workingDistance arcDuration enclosureType
                shortCircuitResults l.
End Defs.
Arguments LogMessage N : clear implicits.
Arguments Description N : clear implicits.
Arguments Assumption N : clear implicits.
Arguments Ledger N : clear implicits.
Arguments Thevenin N : clear implicits.
Arguments FaultCurrents N : clear implicits.
Arguments FaultCurrentsKA N : clear implicits.
Arguments BusImpedance N : clear implicits.
Arguments Enhanced N : clear implicits.
Arguments Contribution N : clear implicits.
Arguments MotorResult N : clear implicits.
Arguments BusMotorContribution N : clear implicits.
Arguments BusResult N : clear implicits.
Arguments MotorData N : clear implicits.
Arguments BusMotors N : clear implicits.
Arguments MissingField N : clear implicits.
Arguments Simplified N : clear implicits.
Arguments Parameters N : clear implicits.
Arguments Detail N : clear implicits.
Arguments ArcFlashRecord N : clear implicits.
End Orchestrator.

(** ** Vocabulary of the statements *)

(** *** Order of binary64 values

    A rank that orders the values of binary64 as the comparison of the
    IEEE-754 specification does: the infinities at both ends, the zeros
    in the middle, finite values by sign, exponent and mantissa. *)

Module Rank.
Import SpecFloat.

Definition key (a : spec_float) : option (Z * Z * Z) :=
  match a with
  | S754_nan => None
  | S754_infinity true => Some (-2, 0, 0)%Z
  | S754_infinity false => Some (2, 0, 0)%Z
  | S754_zero _ => Some (0, 0, 0)%Z
  | S754_finite true m e => Some (-1, - e, - Zpos m)%Z
  | S754_finite false m e => Some (1, e, Zpos m)%Z
  end.

Definition lex (p q : Z * Z * Z) : comparison :=
  let '(a1, a2, a3) := p in
  let '(b1, b2, b3) := q in
  match (a1 ?= b1)%Z with
  | Eq => match (a2 ?= b2)%Z with Eq => (a3 ?= b3)%Z | c => c end
  | c => c
  end.
End Rank.

(** *** The asymmetry formula

    sqrt(1 + 2 e^(-4 pi / (X/R))), before the clamp, for a finite
    non-zero X/R *)

Definition asymmetryFormula (xr : R) : R :=
  sqrt (1 + 2 * exp (- 4 * PI / xr)).

(** *** Incident energy as a function of the distance

    The incident energy [calculateIncidentEnergy] gives for the same
    parameters at another distance. *)

Definition incidentEnergyAt {N : Type} {num : JsNum N}
    (params : ArcFlash.Params N) (distance : N) : N :=
  ArcFlash.er_incidentEnergy
    (ArcFlash.calculateIncidentEnergy {|
       ArcFlash.voltage := ArcFlash.voltage params;
       ArcFlash.boltedFaultCurrent := ArcFlash.boltedFaultCurrent params;
       ArcFlash.workingDistance := distance;
       ArcFlash.arcDuration := ArcFlash.arcDuration params;
       ArcFlash.equipmentGap := ArcFlash.equipmentGap params;
       ArcFlash.enclosureType := ArcFlash.enclosureType params |}).

(** 480 V, 10 kA bolted, 32 mm gap, 0.3 s, seen from 610 mm, in a box
    with vertical conductors *)
Definition switchboard480 : ArcFlash.Params xreal := {|
  ArcFlash.voltage := Fin 480;
  ArcFlash.boltedFaultCurrent := Fin 10;
  ArcFlash.workingDistance := Fin 610;
  ArcFlash.arcDuration := Fin 0.3;
  ArcFlash.equipmentGap := Fin 32;
  ArcFlash.enclosureType := "VCB" |}.

(** *** Example networks *)

(** a utility source given by its short-circuit power in MVA *)
Definition utility {N : Type} (name : string) (shortCircuitMVA : N)
    : Component.t N := {|
  Component.type := "utility"; Component.name := Some name;
  Component.voltage := None;
  Component.faultCurrent := None;
  Component.shortCircuitMVA := Some shortCircuitMVA;
  Component.xr := None;
  Component.resistance := None; Component.reactance := None;
  Component.length := None; Component.createsBus := false;
  Component.secondaryV := None; Component.power := None;
  Component.powerUnit := None; Component.impedance := None;
  Component.rx := None; Component.toBus := None;
  Component._powerUnitWarningLogged := false |}.

(** a utility source given by its fault current in kA *)
Definition utilityByCurrent {N : Type} (name : string) (faultCurrent : N)
    : Component.t N := {|
  Component.type := "utility"; Component.name := Some name;
  Component.voltage := None;
  Component.faultCurrent := Some faultCurrent;
  Component.shortCircuitMVA := None;
  Component.xr := None;
  Component.resistance := None; Component.reactance := None;
  Component.length := None; Component.createsBus := false;
  Component.secondaryV := None; Component.power := None;
  Component.powerUnit := None; Component.impedance := None;
  Component.rx := None; Component.toBus := None;
  Component._powerUnitWarningLogged := false |}.

(** A project of one utility source at a system voltage. *)
Definition utilityProject {N : Type} (voltage shortCircuitMVA : N)
    : ProjectData N := {|
  pd_voltage := Some voltage;
  pd_frequency := None;
  pd_components := [utility "Grid" shortCircuitMVA];
  pd_workingDistance := None;
  pd_arcDuration := None;
  pd_enclosureType := None |}.

Definition emptyLedger {N : Type} : Orchestrator.Ledger N :=
  {| Orchestrator.calculationLog := []; Orchestrator.assumptions := [] |}.

(** The pipeline up to the short-circuit results: topology, Thevenin
    equivalents, short circuit. *)
Definition shortCircuitStudy {N : Type} {num : JsNum N}
    (projectData : ProjectData N)
    : Result (list (Orchestrator.Thevenin N) * list (Orchestrator.BusResult N)) :=
  '(topology, l, _) ← Orchestrator.buildTopology projectData emptyLedger [];
  let '(thevenin, _) := Orchestrator.calculateTheveninEquivalents topology l in
  shortCircuit ← Orchestrator.calculateShortCircuit projectData topology thevenin;
  Ok (thevenin, shortCircuit).

(** The source bus of a 20 kV system, without any impedance, and its
    short-circuit result. *)
Definition bus20kV : Bus.t xreal := Bus.new 1 "Source" (Fin 20000) "source".

Definition result20kV : Orchestrator.BusResult xreal :=
  Orchestrator.shortCircuitOf None bus20kV (Orchestrator.theveninOf bus20kV).

Definition allModules : Orchestrator.Globals := {|
  Orchestrator.has_calculateArcFlashIEEE1584_2018 := true;
  Orchestrator.has_generatePPEReport := true |}.

(** A transformer of rated power 150, secondary 0.44 kV, 4 %, without a
    [powerUnit]. *)
Definition untaggedTransformer {N : Type} {num : JsNum N} : Component.t N := {|
  Component.type := "transformer"; Component.name := Some "T1";
  Component.voltage := None;
  Component.faultCurrent := None; Component.shortCircuitMVA := None;
  Component.xr := None;
  Component.resistance := None; Component.reactance := None;
  Component.length := None; Component.createsBus := false;
  Component.secondaryV := Some (ofQ 0.44); Component.power := Some (ofQ 150);
  Component.powerUnit := None; Component.impedance := Some (ofQ 4);
  Component.rx := None; Component.toBus := None;
  Component._powerUnitWarningLogged := false |}.

(** 13.2 kV utility of 100 MVA feeding that transformer. *)
Definition untaggedProject {N : Type} {num : JsNum N} : ProjectData N := {|
  pd_voltage := Some (ofQ 13200);
  pd_frequency := None;
  pd_components := [utility "Grid" (ofQ 100); untaggedTransformer];
  pd_workingDistance := None;
  pd_arcDuration := None;
  pd_enclosureType := None |}.

(** stand-ins for [Math.pow] and [Math.log10] on binary64, for
    statements that hold whatever these two compute *)
Definition anyPow : float -> float -> float := fun _ _ => PrimFloat.nan.
Definition anyLog10 : float -> float := fun _ => PrimFloat.nan.

(** *** Motors attached to a bus

    The motors of a bus are those grouped under the key the bus finds
    them by: its identifier if a motor names it, else its name. *)

Section Attachment.
Context {N : Type} {num : JsNum N}.

Definition motorsAt (key : string) (motors : list (Orchestrator.MotorResult N))
    : list (Orchestrator.MotorResult N) :=
  filter (fun motor => String.eqb (Orchestrator.busKey motor) key) motors.

Definition attachedKey (motors : list (Orchestrator.MotorResult N))
    (busResult : Orchestrator.BusResult N) : option string :=
  match motorsAt (natToString (Orchestrator.busId busResult)) motors with
  | _ :: _ => Some (natToString (Orchestrator.busId busResult))
  | [] =>
      match motorsAt (Orchestrator.busName busResult) motors with
      | _ :: _ => Some (Orchestrator.busName busResult)
      | [] => None
      end
  end.

Definition attachedMotors (motors : list (Orchestrator.MotorResult N))
    (busResult : Orchestrator.BusResult N) : list (Orchestrator.MotorResult N) :=
  match attachedKey motors busResult with
  | Some key => motorsAt key motors
  | None => []
  end.

(** the first-cycle contributions added one after the other, from 0 *)
Definition firstCycleSum (motors : list (Orchestrator.MotorResult N)) : N :=
  fold_left (fun sum motor =>
               add sum (Orchestrator.firstCycle (Orchestrator.contribution motor)))
            motors (ofQ 0).

(** What a key of [motorsByBus] holds after grouping: the motors of
    that key, added in their order to what the key held before. *)
Definition grouped (before : option (Orchestrator.BusMotors N))
    (motors : list (Orchestrator.MotorResult N))
    : option (Orchestrator.BusMotors N) :=
  match before, motors with
  | None, [] => None
  | None, _ :: _ =>
      Some (fold_left Orchestrator.addMotor motors Orchestrator.emptyBusMotors)
  | Some g, _ => Some (fold_left Orchestrator.addMotor motors g)
  end.

(** What [integrateMotorContribution] leaves on one bus: the bolted
    three-phase current stays, and the with-motors current is the bolted
    one plus the sum of the first-cycle contributions of the attached
    motors, in kA. *)
Definition superposed (motors : list (Orchestrator.MotorResult N))
    (before after : Orchestrator.BusResult N) : Prop :=
  let bolted :=
    Orchestrator.threePhase (Orchestrator.kA (Orchestrator.faultCurrentsKA before)) in
  Orchestrator.busId after = Orchestrator.busId before /\
  Orchestrator.threePhase (Orchestrator.kA (Orchestrator.faultCurrentsKA after))
  = bolted /\
  (attachedMotors motors before <> [] ->
     Orchestrator.threePhaseWithMotors (Orchestrator.faultCurrentsKA after)
     = Some (add bolted (div (firstCycleSum (attachedMotors motors before))
                             (ofQ 1000)))) /\
  (attachedMotors motors before = [] ->
     Orchestrator.threePhaseWithMotors (Orchestrator.faultCurrentsKA after)
     = Some bolted).

(** no property key of the grouping is inherited from [Object.prototype] *)
Definition plainKeys (motors : list (Orchestrator.MotorResult N))
    (shortCircuit : list (Orchestrator.BusResult N)) : bool :=
  forallb (fun motor => negb (inheritedKey (Orchestrator.busKey motor))) motors
  && forallb (fun busResult => negb (inheritedKey (Orchestrator.busName busResult)))
             shortCircuit.
End Attachment.

(** a motor result with given first-cycle contribution (A) and bus *)
Definition motorAt {N : Type} {num : JsNum N} (name : string)
    (firstCycle : N) (bus : nat) : Orchestrator.MotorResult N := {|
  Orchestrator.motor_name := name;
  Orchestrator.fla := div firstCycle (ofQ 6);
  Orchestrator.lra := firstCycle;
  Orchestrator.contribution := {|
    Orchestrator.firstCycle := firstCycle;
    Orchestrator.interrupting := mul firstCycle (ofQ 0.75);
    Orchestrator.sustained := mul (div firstCycle (ofQ 6)) (ofQ 4) |};
  Orchestrator.busConnection := Some (Orchestrator.BusNumber bus) |}.

(** The motor data of the fallback of [calculateMotorContribution]: the
    motor results with their totals, each a sum from 0. *)
Definition motorDataOf {N : Type} {num : JsNum N}
    (motors : list (Orchestrator.MotorResult N)) : Orchestrator.MotorData N := {|
  Orchestrator.motors := motors;
  Orchestrator.totals := {|
    Orchestrator.firstCycle :=
      fold_left (fun sum m =>
                   add sum (Orchestrator.firstCycle (Orchestrator.contribution m)))
                motors (ofQ 0);
    Orchestrator.interrupting :=
      fold_left (fun sum m =>
                   add sum (Orchestrator.interrupting (Orchestrator.contribution m)))
                motors (ofQ 0);
    Orchestrator.sustained :=
      fold_left (fun sum m =>
                   add sum (Orchestrator.sustained (Orchestrator.contribution m)))
                motors (ofQ 0) |} |}.

(** A 440 V bus with R = 0.004865 ohm and X = 0.013346 ohm, on binary64,
    and its short-circuit result. *)
Definition bus440V {num : JsNum float} : Bus.t float :=
  Bus.addImpedance (Bus.new 1 "Source" 440%float "source")
                   (ofQ 0.004865) (ofQ 0.013346).

Definition result440V {num : JsNum float} : Orchestrator.BusResult float :=
  Orchestrator.shortCircuitOf None bus440V (Orchestrator.theveninOf bus440V).

(** * Further functions of the sources

    The functions below are those the modules above leave out: the
    class [Transformer] and the tap changer of [js/transformer_model.js],
    the remaining methods of [bus_model.js] and [topology_manager.js],
    the input validation of the orchestrator, the standards module and
    the motor module of [js/standard_specific_calcs.js], the method
    selection of [js/arc_flash_calculation.js] and the approach
    boundaries and the validation of [js/ppe_selection.js]. *)

(** ** js/transformer_model.js: the class [Transformer] *)

Module Transformer.
Section Defs.
Context {N : Type} {num : JsNum N}.
Local Open Scope js_scope.

(** The argument [config] of the constructor; every property may be
    absent. *)
Record Config : Type := {
  cfg_id : option N;
  cfg_name : option string;
  cfg_powerMVA : option N;
  cfg_primaryVoltage : option N;
  cfg_secondaryVoltage : option N;
  cfg_impedancePercent : option N;
  cfg_xrRatio : option N;
  cfg_connectionType : option string;
  cfg_tapPosition : option N
}.

Record t : Type := {
  id : N;
  name : string;
  powerMVA : N;
  primaryVoltage : N;
  secondaryVoltage : N;
  impedancePercent : N;
  xrRatio : N;
  connectionType : string;
  tapPosition : N
}.

(** [new Transformer(config)]; [now] is what [Date.now()] returns. *)
Definition new (config : Config) (now : N) : t := {|
  id := orElse (cfg_id config) now;
  name := orElseString (cfg_name config) "Transformer";
  powerMVA := orElse (cfg_powerMVA config) #1.0;
  primaryVoltage := orElse (cfg_primaryVoltage config) #13800;
  secondaryVoltage := orElse (cfg_secondaryVoltage config) #480;
  impedancePercent := orElse (cfg_impedancePercent config) #5.75;
  xrRatio := orElse (cfg_xrRatio config) #10;
  connectionType := orElseString (cfg_connectionType config) "Dyn11";
  tapPosition := orElse (cfg_tapPosition config) #0 |}.

Record ImpedanceOhms : Type := {
  r : N;
  x : N;
  magnitude : N;
  referredTo : string
}.

Definition calculateImpedanceOhms (this : t) : ImpedanceOhms :=
  let zBase :=
    (secondaryVoltage this * secondaryVoltage this) / (powerMVA this * #1000000) in
  let zOhms := zBase * (impedancePercent this / #100) in
  let r := zOhms / Math_sqrt (#1 + xrRatio this * xrRatio this) in
  let x := r * xrRatio this in
  {| r := r; x := x; magnitude := zOhms; referredTo := "secondary" |}.

Definition calculateImpedancePrimary (this : t) : ImpedanceOhms :=
  let secondaryZ := calculateImpedanceOhms this in
  let ratio := primaryVoltage this / secondaryVoltage this in
  let factor := ratio * ratio in
  {| r := r secondaryZ * factor;
     x := x secondaryZ * factor;
     magnitude := magnitude secondaryZ * factor;
     referredTo := "primary" |}.

Record VoltageTransformation : Type := {
  vt_secondaryVoltage : N;
  vt_ratio : N;
  vt_nominalRatio : N
}.

Definition transformVoltage (this : t) (primaryVoltage' : N)
    : VoltageTransformation :=
  let ratio := secondaryVoltage this / primaryVoltage this in
  let actualRatio := ratio * (#1 + tapPosition this / #100) in
  {| vt_secondaryVoltage := primaryVoltage' * actualRatio;
     vt_ratio := actualRatio;
     vt_nominalRatio := ratio |}.

Record Regulation : Type := {
  regulation : N;
  voltageDrop : N;
  loadVoltage : N
}.

Definition calculateVoltageRegulation (this : t) (loadCurrent powerFactor : N)
    : Regulation :=
  let z := calculateImpedanceOhms this in
  let sinPF := Math_sqrt (#1 - powerFactor * powerFactor) in
  let voltageDrop := loadCurrent * (r z * powerFactor + x z * sinPF) in
  let regulation := (voltageDrop / secondaryVoltage this) * #100 in
  {| regulation := regulation;
     voltageDrop := voltageDrop;
     loadVoltage := secondaryVoltage this - voltageDrop |}.

Record Losses : Type := {
  noLoadLosses : N;
  loadLosses : N;
  totalLosses : N
}.

Definition calculateLosses (this : t) (loadPercent : N) : Losses :=
  let noLoadLosses := powerMVA this * #1000 * #0.001 in
  let loadLosses :=
    powerMVA this * #1000 * #0.01 * Math_pow (loadPercent / #100) #2 in
  {| noLoadLosses := noLoadLosses;
     loadLosses := loadLosses;
     totalLosses := noLoadLosses + loadLosses |}.

Record Efficiency : Type := {
  efficiency : N;
  losses : Losses;
  loadPercent : N
}.

Definition calculateEfficiency (this : t) (loadKVA powerFactor : N) : Efficiency :=
  let loadPercent := (loadKVA / (powerMVA this * #1000)) * #100 in
  let losses := calculateLosses this loadPercent in
  let outputPower := loadKVA * powerFactor in
  let inputPower := outputPower + totalLosses losses / #1000 in
  let efficiency := (outputPower / inputPower) * #100 in
  {| efficiency := efficiency; losses := losses; loadPercent := loadPercent |}.

(** *** The functions on a transformer object *)

Record Inrush : Type := {
  inrush_ratedCurrent : N;
  inrushCurrent : N;
  peakInrush : N;
  inrush_duration : N
}.

Definition calculateInrushCurrent (transformer : t) : Inrush :=
  let ratedCurrent :=
    (powerMVA transformer * #1000000)
    / (Math_sqrt #3 * secondaryVoltage transformer) in
  let inrushCurrent := ratedCurrent * #10 in
  {| inrush_ratedCurrent := ratedCurrent;
     inrushCurrent := inrushCurrent;
     peakInrush := inrushCurrent * Math_sqrt #2;
     inrush_duration := #0.1 |}.

Record Withstand : Type := {
  ws_ratedCurrent : N;
  symmetricalWithstand : N;
  asymmetricalWithstand : N;
  ws_duration : N
}.

Definition calculateShortCircuitWithstand (transformer : t) : Withstand :=
  let asymmetricalFactor := #2.5 in
  let ratedCurrent :=
    (powerMVA transformer * #1000000)
    / (Math_sqrt #3 * secondaryVoltage transformer) in
  let symmetricalWithstand := ratedCurrent * #25 in
  let asymmetricalWithstand := symmetricalWithstand * asymmetricalFactor in
  {| ws_ratedCurrent := ratedCurrent;
     symmetricalWithstand := symmetricalWithstand;
     asymmetricalWithstand := asymmetricalWithstand;
     ws_duration := #2 |}.

Record TapChangerEffect : Type := {
  tc_nominalVoltage : N;
  tc_tapStep : N;
  tc_tapPosition : N;
  voltageChange : N;
  actualVoltage : N;
  percentChange : N
}.

Definition calculateTapChangerEffect (nominalVoltage tapStep tapPosition' : N)
    : TapChangerEffect :=
  let voltageChange := nominalVoltage * (tapStep / #100) * tapPosition' in
  let actualVoltage := nominalVoltage + voltageChange in
  {| tc_nominalVoltage := nominalVoltage;
     tc_tapStep := tapStep;
     tc_tapPosition := tapPosition';
     voltageChange := voltageChange;
     actualVoltage := actualVoltage;
     percentChange := (voltageChange / nominalVoltage) * #100 |}.
End Defs.
Arguments Config N : clear implicits.
Arguments t N : clear implicits.
Arguments ImpedanceOhms N : clear implicits.
Arguments VoltageTransformation N : clear implicits.
Arguments Regulation N : clear implicits.
Arguments Losses N : clear implicits.
Arguments Efficiency N : clear implicits.
Arguments Inrush N : clear implicits.
Arguments Withstand N : clear implicits.
Arguments TapChangerEffect N : clear implicits.
End Transformer.

(** The class [TransformerBank]. *)
Module TransformerBank.
Section Defs.
Context {N : Type} {num : JsNum N}.
Local Open Scope js_scope.

Record t : Type := { transformers : list (Transformer.t N) }.

Definition new : t := {| transformers := [] |}.

Definition addTransformer (this : t) (transformer : Transformer.t N) : t :=
  {| transformers := transformers this ++ [transformer] |}.

(** What [calculateParallelImpedance] returns for a bank that is not
    empty: the impedance of its only transformer, or the object with
    [configuration: 'parallel']. *)
Inductive ParallelImpedance : Type :=
| OnlyTransformer (z : Transformer.ImpedanceOhms N)
| Parallel (r x magnitude : N).

(** one round of the [forEach]: the sums [parallelR] and [parallelX] *)
Definition addAdmittance (sums : N * N) (xfmr : Transformer.t N) : N * N :=
  let z := Transformer.calculateImpedanceOhms xfmr in
  let zMag := Transformer.magnitude z * Transformer.magnitude z in
  (fst sums + Transformer.r z / zMag, snd sums + Transformer.x z / zMag).

(** [null] is [None] *)
Definition calculateParallelImpedance (this : t) : option ParallelImpedance :=
  match transformers this with
  | [] => None
  | [xfmr] => Some (OnlyTransformer (Transformer.calculateImpedanceOhms xfmr))
  | _ =>
      let sums := fold_left addAdmittance (transformers this) (#0, #0) in
      let resultR := #1 / fst sums in
      let resultX := #1 / snd sums in
      Some (Parallel resultR resultX
              (Math_sqrt (resultR * resultR + resultX * resultX)))
  end.

Definition getTotalCapacity (this : t) : N :=
  fold_left (fun sum xfmr => sum + Transformer.powerMVA xfmr)
            (transformers this) #0.
End Defs.
Arguments t N : clear implicits.
Arguments ParallelImpedance N : clear implicits.
End TransformerBank.

(** ** bus_model.js: the remaining methods of [BusSystem] *)

Module BusModel.
Section Defs.
Context {N : Type} {num : JsNum N}.
Local Open Scope js_scope.

Definition withConnections (b : Bus.t N) (cs : list (Bus.Connection N)) : Bus.t N :=
  {| Bus.id := Bus.id b; Bus.name := Bus.name b; Bus.voltage := Bus.voltage b;
     Bus.type := Bus.type b; Bus.connections := cs;
     Bus.components := Bus.components b; Bus.impedance := Bus.impedance b;
     Bus.faultCurrent := Bus.faultCurrent b |}.

(** [removeBus(id)]: every bus drops its connections to the bus [id],
    then the key [id] is deleted. *)
Definition removeBus (s : BusSystem.t N) (id : nat) : BusSystem.t N :=
  let stripped :=
    map (fun kv =>
           (fst kv,
            withConnections (snd kv)
              (List.filter (fun conn => negb (Nat.eqb (Bus.bus conn) id))
                           (Bus.connections (snd kv)))))
        (BusSystem.buses s) in
  {| BusSystem.buses := List.filter (fun kv => negb (Nat.eqb (fst kv) id)) stripped;
     BusSystem.nextBusId := BusSystem.nextBusId s |}.

(** [connectBuses(bus1Id, bus2Id, impedance = null)] *)
Definition connectBuses (s : BusSystem.t N) (bus1Id bus2Id : nat)
    (impedance : option (Bus.Impedance N)) : Result (BusSystem.t N) :=
  match BusSystem.getBus s bus1Id, BusSystem.getBus s bus2Id with
  | Some bus1, Some bus2 =>
      let s1 :=
        TopologyManager.updateBusAt s bus1Id
          (fun b => Bus.addConnection b (Bus.id bus2) impedance) in
      Ok (TopologyManager.updateBusAt s1 bus2Id
            (fun b => Bus.addConnection b (Bus.id bus1) impedance))
  | _, _ => Throw "One or both buses not found"
  end.

Definition getBusesByVoltage (s : BusSystem.t N) (minVoltage maxVoltage : N)
    : list (Bus.t N) :=
  List.filter (fun bus => (Bus.voltage bus >=? minVoltage)
                          && (Bus.voltage bus <=? maxVoltage))
              (BusSystem.getAllBuses s).

(** [exportConfiguration()] *)
Record ExportedBus : Type := {
  eb_id : nat;
  eb_name : string;
  eb_voltage : N;
  eb_type : string;
  eb_components : nat
}.

Record ExportedConnection : Type := {
  ec_from : nat;
  ec_to : nat;
  ec_impedance : option (Bus.Impedance N)
}.

Record Configuration : Type := {
  cfg_buses : list ExportedBus;
  cfg_connections : list ExportedConnection
}.

(** The connections one bus contributes: those to a bus of a higher
    identifier. *)
Definition exportedConnectionsOf (bus : Bus.t N) : list ExportedConnection :=
  flat_map (fun conn =>
              if Nat.ltb (Bus.id bus) (Bus.bus conn)
              then [{| ec_from := Bus.id bus; ec_to := Bus.bus conn;
                       ec_impedance := Bus.conn_impedance conn |}]
              else [])
           (Bus.connections bus).

Definition exportConfiguration (s : BusSystem.t N) : Configuration :=
  {| cfg_buses :=
       map (fun bus => {| eb_id := Bus.id bus; eb_name := Bus.name bus;
                          eb_voltage := Bus.voltage bus; eb_type := Bus.type bus;
                          eb_components := List.length (Bus.components bus) |})
           (BusSystem.getAllBuses s);
     cfg_connections := flat_map exportedConnectionsOf (BusSystem.getAllBuses s) |}.
End Defs.
Arguments ExportedBus N : clear implicits.
Arguments ExportedConnection N : clear implicits.
Arguments Configuration N : clear implicits.
End BusModel.

(** ** topology_manager.js: the queries *)

Module TopologyQueries.
Section Defs.
Context {N : Type} {num : JsNum N}.

Definition getAllBuses (tm : TopologyManager.t N) : list (TopologyManager.TopoBus N) :=
  map snd (TopologyManager.buses tm).

Definition getConnectionsForBus (tm : TopologyManager.t N) (busId : nat)
    : list TopologyManager.Connection :=
  List.filter (fun c => Nat.eqb (TopologyManager.conn_fromBus c) busId
                        || Nat.eqb (TopologyManager.conn_toBus c) busId)
              (TopologyManager.connections tm).

(** *** [getPathBetweenBuses]

    The search keeps the set [visited] and the queue of paths; a path
    is a list of bus identifiers and its last element is the bus the
    search stands on.  One round of the [while] loop either returns,
    or leaves a new state. *)
Inductive Round : Type :=
| Found (path : list nat)
| Continue (visited : list nat) (queue : list (list nat))
| Exhausted.

Definition visitedHas (visited : list nat) (id : nat) : bool :=
  existsb (Nat.eqb id) visited.

Definition round (tm : TopologyManager.t N) (toBusId : nat)
    (visited : list nat) (queue : list (list nat)) : Round :=
  match queue with
  | [] => Exhausted
  | path :: queue' =>
      let currentBusId := List.last path 0%nat in
      if Nat.eqb currentBusId toBusId then Found path
      else if visitedHas visited currentBusId then Continue visited queue'
      else
        let visited' := visited ++ [currentBusId] in
        match TopologyManager.getBus tm currentBusId with
        | Some currentBus =>
            Continue visited'
              (queue'
               ++ map (fun nextBusId => path ++ [nextBusId])
                      (List.filter (fun nextBusId => negb (visitedHas visited' nextBusId))
                                   (TopologyManager.connectedBuses currentBus)))
        | None => Continue visited' queue'
        end
  end.

(** The loop, for at most [rounds] rounds: [None] when the rounds are
    used up before the loop ends, [Some None] for [null]. *)
Fixpoint search (rounds : nat) (tm : TopologyManager.t N) (toBusId : nat)
    (visited : list nat) (queue : list (list nat)) : option (option (list nat)) :=
  match rounds with
  | O => None
  | S rounds' =>
      match round tm toBusId visited queue with
      | Found path => Some (Some path)
      | Exhausted => Some None
      | Continue visited' queue' => search rounds' tm toBusId visited' queue'
      end
  end.

(** The number of rounds the loop can take: every round takes a path
    off the queue, and paths are put on it once at the start and once
    for each entry of [connectedBuses] of a bus met for the first
    time. *)
Definition roundsBound (tm : TopologyManager.t N) : nat :=
  2 + list_sum (map (fun kv => List.length (TopologyManager.connectedBuses (snd kv)))
                    (TopologyManager.buses tm)).

(** [getPathBetweenBuses(fromBusId, toBusId)]: the buses of the path
    ([path.map(id => this.getBus(id))], [undefined] for an identifier
    without bus), or [null]. *)
Definition getPathBetweenBuses (tm : TopologyManager.t N) (fromBusId toBusId : nat)
    : option (option (list (option (TopologyManager.TopoBus N)))) :=
  option_map (option_map (map (TopologyManager.getBus tm)))
             (search (roundsBound tm) tm toBusId [] [[fromBusId]]).
End Defs.
End TopologyQueries.

(** ** Vocabulary of the statements about the topology *)

Module TopologyInvariant.
Section Defs.
Context {N : Type} {num : JsNum N}.

(** What the bus system keeps of a bus of the topology: identifier,
    name, voltage and type. *)
Definition busHeader (b : Bus.t N) : nat * string * N * string :=
  (Bus.id b, Bus.name b, Bus.voltage b, Bus.type b).

Definition topoBusHeader (b : TopologyManager.TopoBus N) : nat * string * N * string :=
  (TopologyManager.id b, TopologyManager.name b, TopologyManager.voltage b,
   TopologyManager.type b).

Definition headerId (h : nat * string * N * string) : nat := fst (fst (fst h)).
Definition headerType (h : nat * string * N * string) : string := snd h.

(** The buses of the topology without their components and links: the
    key and the header of every bus, in order. *)
Definition shape (tm : TopologyManager.t N) : list (nat * (nat * string * N * string)) :=
  map (fun kv => (fst kv, topoBusHeader (snd kv))) (TopologyManager.buses tm).

Definition keepsShape (f : TopologyManager.TopoBus N -> TopologyManager.TopoBus N)
    : Prop :=
  forall b, topoBusHeader (f b) = topoBusHeader b.

(** the topology has a bus under the identifier [k] *)
Definition defined (tm : TopologyManager.t N) (k : nat) : Prop :=
  BusSystem.mapGet (shape tm) k <> None.

(** Every bus is stored under its identifier, and the identifiers are
    positive and below the counter, as [addBus] gives them. *)
Definition keysOk (tm : TopologyManager.t N) : Prop :=
  Forall (fun e => headerId (snd e) = fst e
                   /\ 0 < fst e < TopologyManager.nextBusId tm)
         (shape tm).

(** every component stands on a bus *)
Definition componentsOk (cs : list (TopoComponent.t N)) : Prop :=
  Forall (fun c => TopoComponent.fromBus c <> 0) cs.

Definition hasSource (tm : TopologyManager.t N) : Prop :=
  existsb (fun e => String.eqb (headerType (snd e)) "source") (shape tm) = true.

(** The invariant of the walk of [buildFromProject]. *)
Record invariant (tm : TopologyManager.t N) : Prop := {
  inv_counter : 0 < TopologyManager.nextBusId tm;
  inv_keys : keysOk tm;
  inv_components : componentsOk (TopologyManager.all_components tm);
  inv_source : hasSource tm
}.

(** the headers of the buses of a bus system, in order *)
Definition headers (bs : BusSystem.t N) : list (nat * string * N * string) :=
  map busHeader (BusSystem.getAllBuses bs).

(** [y] is listed in [connectedBuses] of the bus [x] *)
Definition linked (tm : TopologyManager.t N) (x y : nat) : Prop :=
  exists b, TopologyManager.getBus tm x = Some b
            /\ In y (TopologyManager.connectedBuses b).

(** every step of the path follows [connectedBuses] *)
Fixpoint chain (tm : TopologyManager.t N) (path : list nat) : Prop :=
  match path with
  | x :: ((y :: _) as rest) => linked tm x y /\ chain tm rest
  | _ => True
  end.

(** a path of the topology from the bus [from] to the bus [to] *)
Definition pathFromTo (tm : TopologyManager.t N) (from to : nat)
    (path : list nat) : Prop :=
  hd_error path = Some from /\ List.last path 0 = to /\ chain tm path.

(** every path of the queue starts at [from] and follows the links *)
Definition pathsFrom (tm : TopologyManager.t N) (from : nat)
    (queue : list (list nat)) : Prop :=
  Forall (fun path => hd_error path = Some from /\ chain tm path) queue.

(** The entries of [connectedBuses] of the buses not visited yet. *)
Definition unvisitedDegree (tm : TopologyManager.t N) (visited : list nat) : nat :=
  list_sum
    (map (fun kv =>
            if existsb (Nat.eqb (fst kv)) visited then 0
            else List.length (TopologyManager.connectedBuses (snd kv)))
         (TopologyManager.buses tm)).

(** The state of the search is closed: the start and every neighbour
    of a visited bus is visited or waits at the end of a path of the
    queue, and the target is not visited. *)
Definition pending (queue : list (list nat)) (k : nat) : Prop :=
  exists path, In path queue /\ List.last path 0 = k.

Definition closed (tm : TopologyManager.t N) (from to : nat)
    (visited : list nat) (queue : list (list nat)) : Prop :=
  (In from visited \/ pending queue from) /\
  (forall x y, In x visited -> linked tm x y -> In y visited \/ pending queue y) /\
  ~ In to visited.
End Defs.
End TopologyInvariant.


(** ** js/standard_specific_calcs.js: the factors of IEC 60909-0 and of
    IEEE/ANSI *)

(** The operations on numbers that the standards and the motor module
    use beside those of [JsNum]. *)
Class JsMath (N : Type) : Type := {
  Math_exp : N -> N;
  Math_abs : N -> N;
  (** the unary minus [-a] *)
  neg : N -> N
}.

Module XMath.
Definition xexp (a : xreal) : xreal :=
  match a with
  | Fin u => Fin (exp u)
  | PInf => PInf
  | NInf => Fin 0
  | XNaN => XNaN
  end.

Definition xabs (a : xreal) : xreal :=
  match a with
  | Fin u => Fin (Rabs u)
  | PInf | NInf => PInf
  | XNaN => XNaN
  end.

Definition math : JsMath xreal := {|
  Math_exp := xexp;
  Math_abs := xabs;
  neg := XReal.xopp
|}.
End XMath.

#[global] Existing Instance XMath.math.

Module Binary64Math.
Section Instance.
(** [Math.exp] is implementation-approximated, as [Math.pow] is. *)
Variable exp : float -> float.

Definition math : JsMath float := {|
  Math_exp := exp;
  Math_abs := PrimFloat.abs;
  neg := PrimFloat.opp
|}.
End Instance.
End Binary64Math.

Module Standards.
Section Defs.
Context {N : Type} {num : JsNum N} {math : JsMath N}.
Local Open Scope js_scope.

(** The global [Infinity], the value of [1 / 0]. *)
Definition Infinity : N := #1 / #0.

(** *** IEC voltage factors *)

Record VoltageClass : Type := { range_lo : N; range_hi : N; factor : N }.

Record VoltageFactors : Type := {
  LV_default : N;
  MV : VoltageClass;
  HV : VoltageClass
}.

(** [IEC_VOLTAGE_FACTORS[factorType]]: [undefined] for another name
    (under an inherited name the value has no [LV] and no [MV]
    either). *)
Definition IEC_VOLTAGE_FACTORS (factorType : string) : option VoltageFactors :=
  if String.eqb factorType "cmax" then
    Some {| LV_default := #1.05;
            MV := {| range_lo := #1; range_hi := #35; factor := #1.10 |};
            HV := {| range_lo := #35; range_hi := #230; factor := #1.10 |} |}
  else if String.eqb factorType "cmin" then
    Some {| LV_default := #0.95;
            MV := {| range_lo := #1; range_hi := #35; factor := #1.00 |};
            HV := {| range_lo := #35; range_hi := #230; factor := #1.00 |} |}
  else None.

(** [getIECVoltageFactor(voltage, factorType = 'cmax')]; with the name
    of no table the first property read of [factors.LV] or of
    [factors.MV] throws. *)
Definition getIECVoltageFactor (voltage : N) (factorType : option string)
    : Result N :=
  let factorType := default "cmax" factorType in
  let voltageKV := voltage / #1000 in
  match IEC_VOLTAGE_FACTORS factorType with
  | None => Throw "Cannot read properties of undefined"
  | Some factors =>
      if voltage <=? #1000 then Ok (LV_default factors)
      else if (voltageKV >=? range_lo (MV factors))
              && (voltageKV <? range_hi (MV factors))
      then Ok (factor (MV factors))
      else if (voltageKV >=? range_lo (HV factors))
              && (voltageKV <=? range_hi (HV factors))
      then Ok (factor (HV factors))
      else Ok #1.0
  end.

Record ImpedanceCorrection : Type := { cFactor : N; correctedVoltage : N }.

(** [calculateIECImpedanceCorrection(voltage, impedanceOhm, faultType
    = 'max')]; the impedance is not used. *)
Definition calculateIECImpedanceCorrection (voltage impedanceOhm : N)
    (faultType : option string) : Result ImpedanceCorrection :=
  let faultType := default "max" faultType in
  cFactor ← getIECVoltageFactor voltage
              (Some (if String.eqb faultType "max" then "cmax" else "cmin"));
  let correctedVoltage := voltage * cFactor / Math_sqrt #3 in
  Ok {| cFactor := cFactor; correctedVoltage := correctedVoltage |}.

(** *** IEEE asymmetry factors *)

Record AsymmetryRange : Type := { xrMin : N; xrMax : N; range_factor : N }.

(** [IEEE_MULTIPLYING_FACTORS.asymmetryFactors.ranges] *)
Definition asymmetryFactors_ranges : list AsymmetryRange :=
  [ {| xrMin := #0; xrMax := #4.9; range_factor := #1.0 |};
    {| xrMin := #5; xrMax := #9.9; range_factor := #1.1 |};
    {| xrMin := #10; xrMax := #14.9; range_factor := #1.2 |};
    {| xrMin := #15; xrMax := #19.9; range_factor := #1.25 |};
    {| xrMin := #20; xrMax := #29.9; range_factor := #1.3 |};
    {| xrMin := #30; xrMax := #44.9; range_factor := #1.4 |};
    {| xrMin := #45; xrMax := #59.9; range_factor := #1.5 |};
    {| xrMin := #60; xrMax := Infinity; range_factor := #1.6 |} ].

(** The [for] loop of [getIEEEAsymmetryFactor] over the ranges still to
    check; [None] when it ends without returning. *)
Fixpoint firstRange (xrRatio : N) (ranges : list AsymmetryRange) : option N :=
  match ranges with
  | [] => None
  | range :: rest =>
      if (xrRatio >=? xrMin range) && (xrRatio <=? xrMax range)
      then Some (range_factor range)
      else firstRange xrRatio rest
  end.

Definition getIEEEAsymmetryFactor (xrRatio : N) : N :=
  match firstRange xrRatio asymmetryFactors_ranges with
  | Some factor => factor
  | None => #1.0
  end.

(** *** Peak currents *)

Record IECPeak : Type := { pk_kappa : N; pk_peakCurrent : N }.

Definition calculateIECPeakCurrent (symmetricalCurrent xrRatio : N) : IECPeak :=
  let kappa := #1.02 + #0.98 * Math_exp (#(-3) / xrRatio) in
  let peakCurrent := kappa * Math_sqrt #2 * symmetricalCurrent in
  {| pk_kappa := kappa; pk_peakCurrent := peakCurrent |}.

Record IEEEPeak : Type := { pk_asymmetryFactor : N; pk_momentary : N }.

Definition calculateIEEEPeakCurrent (symmetricalCurrent xrRatio : N) : IEEEPeak :=
  let asymmetryFactor := getIEEEAsymmetryFactor xrRatio in
  let peakCurrent := #2 * Math_sqrt #2 * symmetricalCurrent * asymmetryFactor in
  {| pk_asymmetryFactor := asymmetryFactor; pk_momentary := peakCurrent |}.

(** *** Short circuit by standard *)

(** [params]: the voltage and the impedance are numbers *)
Record Params : Type := {
  voltage : N;
  impedanceR : N;
  impedanceX : N;
  faultType : option string;
  faultLocation : option string
}.

Record IECResult : Type := {
  iec_voltageFactor : N;
  iec_correctedVoltage : N;
  iec_symmetricalCurrent : N;
  iec_peakCurrent : N;
  iec_kappa : N;
  iec_xrRatio : N;
  iec_impedanceTotal : N
}.

Definition calculateIECShortCircuit (params : Params) : Result IECResult :=
  correction ← calculateIECImpedanceCorrection (voltage params) #0
                  (faultType params);
  let impedanceTotal :=
    Math_sqrt (impedanceR params * impedanceR params
               + impedanceX params * impedanceX params) in
  let xrRatio := if impedanceR params >? #0
                 then impedanceX params / impedanceR params else #20 in
  let initialCurrent :=
    (correctedVoltage correction / Math_sqrt #3) / impedanceTotal in
  let peak := calculateIECPeakCurrent initialCurrent xrRatio in
  Ok {| iec_voltageFactor := cFactor correction;
        iec_correctedVoltage := correctedVoltage correction;
        iec_symmetricalCurrent := initialCurrent;
        iec_peakCurrent := pk_peakCurrent peak;
        iec_kappa := pk_kappa peak;
        iec_xrRatio := xrRatio;
        iec_impedanceTotal := impedanceTotal |}.

(** [IEEE_MULTIPLYING_FACTORS.c37Factors[faultLocation] || 1.0]: a
    number, or the function found under an inherited name. *)
Inductive MultiplyingFactor : Type :=
| Factor (value : N)
| InheritedValue.

Definition c37Factor (faultLocation : string) : MultiplyingFactor :=
  if String.eqb faultLocation "local" then Factor #1.0
  else if String.eqb faultLocation "remote" then Factor #1.5
  else if String.eqb faultLocation "nearGenerator" then Factor #1.2
  else if inheritedKey faultLocation then InheritedValue
  else Factor #1.0.

Record IEEEResult : Type := {
  ieee_symmetricalCurrent : N;
  ieee_interruptingCurrent : N;
  ieee_momentaryCurrent : N;
  ieee_asymmetryFactor : N;
  ieee_multiplyingFactor : MultiplyingFactor;
  ieee_xrRatio : N;
  ieee_impedanceTotal : N
}.

Definition calculateIEEEShortCircuit (params : Params) : IEEEResult :=
  let faultLocation := default "remote" (faultLocation params) in
  let impedanceTotal :=
    Math_sqrt (impedanceR params * impedanceR params
               + impedanceX params * impedanceX params) in
  let xrRatio := if impedanceR params >? #0
                 then impedanceX params / impedanceR params else #20 in
  let symmetricalCurrent := voltage params / (Math_sqrt #3 * impedanceTotal) in
  let multiplyingFactor := c37Factor faultLocation in
  let peak := calculateIEEEPeakCurrent symmetricalCurrent xrRatio in
  let interruptingCurrent :=
    symmetricalCurrent * match multiplyingFactor with
                         | Factor m => m
                         | InheritedValue => NaN
                         end in
  {| ieee_symmetricalCurrent := symmetricalCurrent;
     ieee_interruptingCurrent := interruptingCurrent;
     ieee_momentaryCurrent := pk_momentary peak;
     ieee_asymmetryFactor := pk_asymmetryFactor peak;
     ieee_multiplyingFactor := multiplyingFactor;
     ieee_xrRatio := xrRatio;
     ieee_impedanceTotal := impedanceTotal |}.

(** *** Comparison of the standards *)

(** The notes of [compareStandards]; the percentage of the text is kept
    as a number. *)
Inductive Note : Type :=
| SymmetricalCurrentDiffers (percentDiff : N)
| PeakCurrentDiffers (percentDiff : N).

Record Comparison : Type := {
  symmetricalCurrentDiff : N;
  peakCurrentDiff : N;
  acceptable : bool;
  notes : list Note
}.

Definition compareStandards (iecResults : IECResult) (ieeeResults : IEEEResult)
    : Comparison :=
  let comparison :=
    {| symmetricalCurrentDiff := #0; peakCurrentDiff := #0;
       acceptable := true; notes := [] |} in
  let comparison :=
    if truthy (iec_symmetricalCurrent iecResults)
       && truthy (ieee_symmetricalCurrent ieeeResults)
    then
      let diff := Math_abs (iec_symmetricalCurrent iecResults
                            - ieee_symmetricalCurrent ieeeResults) in
      let percentDiff := (diff / iec_symmetricalCurrent iecResults) * #100 in
      if percentDiff >? #10
      then {| symmetricalCurrentDiff := percentDiff;
              peakCurrentDiff := peakCurrentDiff comparison;
              acceptable := false;
              notes := notes comparison ++ [SymmetricalCurrentDiffers percentDiff] |}
      else {| symmetricalCurrentDiff := percentDiff;
              peakCurrentDiff := peakCurrentDiff comparison;
              acceptable := acceptable comparison;
              notes := notes comparison |}
    else comparison in
  if truthy (iec_peakCurrent iecResults)
     && truthy (ieee_momentaryCurrent ieeeResults)
  then
    let diff := Math_abs (iec_peakCurrent iecResults
                          - ieee_momentaryCurrent ieeeResults) in
    let percentDiff := (diff / iec_peakCurrent iecResults) * #100 in
    if percentDiff >? #15
    then {| symmetricalCurrentDiff := symmetricalCurrentDiff comparison;
            peakCurrentDiff := percentDiff;
            acceptable := acceptable comparison;
            notes := notes comparison ++ [PeakCurrentDiffers percentDiff] |}
    else {| symmetricalCurrentDiff := symmetricalCurrentDiff comparison;
            peakCurrentDiff := percentDiff;
            acceptable := acceptable comparison;
            notes := notes comparison |}
  else comparison.
End Defs.
Arguments VoltageClass N : clear implicits.
Arguments VoltageFactors N : clear implicits.
Arguments ImpedanceCorrection N : clear implicits.
Arguments AsymmetryRange N : clear implicits.
Arguments IECPeak N : clear implicits.
Arguments IEEEPeak N : clear implicits.
Arguments Params N : clear implicits.
Arguments IECResult N : clear implicits.
Arguments MultiplyingFactor N : clear implicits.
Arguments IEEEResult N : clear implicits.
Arguments Note N : clear implicits.
Arguments Comparison N : clear implicits.
End Standards.

(** *** Closed forms over the reals, for the statements on the standards *)

Module StandardsForms.
Local Open Scope R_scope.

(** the voltage factor cmax or cmin of a voltage in volts *)
Definition iecFactor (isMax : bool) (V : R) : R :=
  if Rle_dec V 1000 then (if isMax then 1.05 else 0.95)
  else if Rle_dec V 230000 then (if isMax then 1.1 else 1)
  else 1.

(** the factor kappa of the peak: 1.02 + 0.98 e^(-3 R / X), with
    X/R = 20 when R is zero *)
Definition iecKappa (r x : R) : R :=
  1.02 + 0.98 * (if Rlt_dec 0 r
                 then (if Req_dec_T x 0 then 0 else exp (-3 / (x / r)))
                 else exp (-3 / 20)).

(** the parameters of both calculations *)
Definition paramsOf (V r x : R) (faultType faultLocation : option string)
    : Standards.Params xreal :=
  {| Standards.voltage := Fin V;
     Standards.impedanceR := Fin r;
     Standards.impedanceX := Fin x;
     Standards.faultType := faultType;
     Standards.faultLocation := faultLocation |}.

Definition isMax (faultType : option string) : bool :=
  String.eqb (default "max" faultType) "max".
End StandardsForms.

(** ** motor_contribution.js (in js/standard_specific_calcs.js) *)

Module Motor.
Section Defs.
Context {N : Type} {num : JsNum N} {math : JsMath N}.
Local Open Scope js_scope.

(** A motor is a component of the project; every property the module
    reads is a field, absent properties are [None]. *)
Record t : Type := {
  name : option string;
  hp : option N;
  power : option N;
  voltage : option N;
  efficiency : option N;
  powerFactor : option N;
  pf : option N;
  phases : option N;
  motorType : option string;
  lockedRotorMultiplier : option N;
  xr : option N;
  interruptingTime : option N;
  interruptingDecay : option N;
  sustainedMultiplier : option N;
  faultVoltage : option N;
  fromBus : option Orchestrator.BusRef;
  bus : option Orchestrator.BusRef
}.

Record Characteristics : Type := {
  ch_lockedRotorMultiplier : N;
  ch_xrLockedRotor : N;
  ch_decayFactorInterrupting : N;
  ch_decayFactorSustained : N
}.

Definition induction : Characteristics :=
  {| ch_lockedRotorMultiplier := #6.0;
     ch_xrLockedRotor := #15;
     ch_decayFactorInterrupting := #0.75;
     ch_decayFactorSustained := #4.0 |}.

Definition synchronous : Characteristics :=
  {| ch_lockedRotorMultiplier := #5.5;
     ch_xrLockedRotor := #20;
     ch_decayFactorInterrupting := #0.85;
     ch_decayFactorSustained := #5.0 |}.

(** [MOTOR_CHARACTERISTICS[motorType] || MOTOR_CHARACTERISTICS.induction]
    of [motorType = motor.motorType || 'induction']: under an inherited
    name the value found has none of the four properties, each reads
    [undefined] ([NaN] in the arithmetic). *)
Definition characteristicsOf (motor : t) : Characteristics :=
  let motorType := orElseString (motorType motor) "induction" in
  if String.eqb motorType "induction" then induction
  else if String.eqb motorType "synchronous" then synchronous
  else if inheritedKey motorType
  then {| ch_lockedRotorMultiplier := toNumber None;
          ch_xrLockedRotor := toNumber None;
          ch_decayFactorInterrupting := toNumber None;
          ch_decayFactorSustained := toNumber None |}
  else induction.

Definition calculateMotorFLA (motor : t) : N :=
  let hp := orElse (hp motor) (orElse (power motor) #100) in
  let voltage := orElse (voltage motor) #480 in
  let efficiency := orElse (efficiency motor) #0.90 in
  let powerFactor := orElse (powerFactor motor) (orElse (pf motor) #0.85) in
  let phases := orElse (phases motor) #3 in
  let powerW := hp * #746 in
  if phases === #3
  then powerW / (voltage * Math_sqrt #3 * efficiency * powerFactor)
  else powerW / (voltage * efficiency * powerFactor).

Definition calculateMotorLRA (motor : t) (fla : N) : N :=
  let characteristics := characteristicsOf motor in
  let multiplier := orElse (lockedRotorMultiplier motor)
                           (ch_lockedRotorMultiplier characteristics) in
  fla * multiplier.

Record Impedance : Type := { r : N; x : N; z : N; imp_xr : N }.

Definition calculateMotorImpedance (motor : t) (lra : N) : Impedance :=
  let voltage := orElse (voltage motor) #480 in
  let phases := orElse (phases motor) #3 in
  let characteristics := characteristicsOf motor in
  let zMotor := if phases === #3
                then voltage / (Math_sqrt #3 * lra)
                else voltage / lra in
  let xr := orElse (xr motor) (ch_xrLockedRotor characteristics) in
  let rMotor := zMotor / Math_sqrt (#1 + xr * xr) in
  let xMotor := rMotor * xr in
  {| r := rMotor; x := xMotor; z := zMotor; imp_xr := xr |}.

(** [timeline] repeats the three currents and is left out. *)
Record Timeline : Type := {
  firstCycle : N;
  firstCycleKA : N;
  interrupting : N;
  interruptingKA : N;
  sustained : N;
  sustainedKA : N
}.

Definition calculateMotorContributionTimeline (motor : t) (fla lra : N)
    : Timeline :=
  let characteristics := characteristicsOf motor in
  let firstCycle := lra in
  let interruptingFactor := orElse (interruptingDecay motor)
                                   (ch_decayFactorInterrupting characteristics) in
  let interrupting := lra * interruptingFactor in
  let sustainedFactor := orElse (sustainedMultiplier motor)
                                (ch_decayFactorSustained characteristics) in
  let sustained := fla * sustainedFactor in
  {| firstCycle := firstCycle;
     firstCycleKA := firstCycle / #1000;
     interrupting := interrupting;
     interruptingKA := interrupting / #1000;
     sustained := sustained;
     sustainedKA := sustained / #1000 |}.

(** A value [a || b] of bus references: 0 and the empty string are
    falsy. *)
Definition truthyRef (ref : option Orchestrator.BusRef) : bool :=
  match ref with
  | Some (Orchestrator.BusNumber n) => negb (Nat.eqb n 0)
  | Some (Orchestrator.BusName s) => negb (String.eqb s "")
  | None => false
  end.

Record Result : Type := {
  index : nat;
  res_name : string;
  type : string;
  res_hp : N;
  res_voltage : N;
  fla : N;
  lra : N;
  impedance : Impedance;
  referredImpedance : Impedance;
  contribution : Timeline;
  busConnection : Orchestrator.BusRef
}.

(** One round of the [forEach] of [calculateMotorContributionIEEE141],
    [index] counting from 0. *)
Definition resultOf (index : nat) (motor : t) : Result :=
  let fla := calculateMotorFLA motor in
  let lra := calculateMotorLRA motor fla in
  let impedance := calculateMotorImpedance motor lra in
  let contribution := calculateMotorContributionTimeline motor fla lra in
  let referredImpedance :=
    if present (faultVoltage motor) && present (voltage motor)
       && negb (toNumber (faultVoltage motor) === toNumber (voltage motor))
    then
      let voltageRatio := toNumber (faultVoltage motor) / toNumber (voltage motor) in
      let factor := voltageRatio * voltageRatio in
      {| r := r impedance * factor;
         x := x impedance * factor;
         z := z impedance * factor;
         imp_xr := imp_xr impedance |}
    else impedance in
  {| index := index + 1;
     res_name := orElseString (name motor)
                   ("Motor " ++ natToString (index + 1));
     type := orElseString (motorType motor) "induction";
     res_hp := orElse (hp motor) (orElse (power motor) #100);
     res_voltage := orElse (voltage motor) #480;
     fla := fla;
     lra := lra;
     impedance := impedance;
     referredImpedance := referredImpedance;
     contribution := contribution;
     busConnection :=
       if truthyRef (fromBus motor) then default (Orchestrator.BusName "Unknown") (fromBus motor)
       else if truthyRef (bus motor) then default (Orchestrator.BusName "Unknown") (bus motor)
       else Orchestrator.BusName "Unknown" |}.

Fixpoint resultsFrom (index : nat) (motors : list t) : list Result :=
  match motors with
  | [] => []
  | motor :: rest => resultOf index motor :: resultsFrom (S index) rest
  end.

(** one round of the [forEach] of [calculateAggregateMotorImpedance]:
    the sums [totalConductance] and [totalSusceptance] *)
Definition addAdmittance (sums : N * N) (motor : Result) : N * N :=
  let z := impedance motor in
  let zMagSquared := r z * r z + x z * x z in
  let conductance := r z / zMagSquared in
  let susceptance := neg (x z) / zMagSquared in
  (fst sums + conductance, snd sums + susceptance).

(** [null] is [None] *)
Definition calculateAggregateMotorImpedance (motorResults : list Result)
    : option Impedance :=
  match motorResults with
  | [] => None
  | [motor] => Some (impedance motor)
  | _ =>
      let sums := fold_left addAdmittance motorResults (#0, #0) in
      let totalConductance := fst sums in
      let totalSusceptance := snd sums in
      let yMagSquared := totalConductance * totalConductance
                         + totalSusceptance * totalSusceptance in
      let r := totalConductance / yMagSquared in
      let x := neg totalSusceptance / yMagSquared in
      let z := Math_sqrt (r * r + x * x) in
      let xr := x / (if truthy r then r else #0.001) in
      Some {| r := r; x := x; z := z; imp_xr := xr |}
  end.

Record Totals : Type := {
  tot_firstCycle : N;
  tot_interrupting : N;
  tot_sustained : N;
  tot_firstCycleKA : N;
  tot_interruptingKA : N;
  tot_sustainedKA : N
}.

Record Contribution : Type := {
  motors : list Result;
  totals : Totals;
  count : nat;
  aggregateImpedance : option Impedance
}.

(** [calculateMotorContributionIEEE141(motors, topology)]; the topology
    is not used, [null] is [None]. *)
Definition calculateMotorContributionIEEE141 (motors : list t)
    : option Contribution :=
  match motors with
  | [] => None
  | _ =>
      let motorResults := resultsFrom 0 motors in
      let firstCycle :=
        fold_left (fun sum m => sum + firstCycle (contribution m))
                  motorResults #0 in
      let interrupting :=
        fold_left (fun sum m => sum + interrupting (contribution m))
                  motorResults #0 in
      let sustained :=
        fold_left (fun sum m => sum + sustained (contribution m))
                  motorResults #0 in
      Some {| motors := motorResults;
              totals := {| tot_firstCycle := firstCycle;
                           tot_interrupting := interrupting;
                           tot_sustained := sustained;
                           tot_firstCycleKA := firstCycle / #1000;
                           tot_interruptingKA := interrupting / #1000;
                           tot_sustainedKA := sustained / #1000 |};
              count := List.length motorResults;
              aggregateImpedance :=
                calculateAggregateMotorImpedance motorResults |}
  end.

(** What [integrateMotorContribution] of the orchestrator reads of a
    motor result and of the contribution. *)
Definition toMotorResult (m : Result) : Orchestrator.MotorResult N :=
  {| Orchestrator.motor_name := res_name m;
     Orchestrator.fla := fla m;
     Orchestrator.lra := lra m;
     Orchestrator.contribution :=
       {| Orchestrator.firstCycle := firstCycle (contribution m);
          Orchestrator.interrupting := interrupting (contribution m);
          Orchestrator.sustained := sustained (contribution m) |};
     Orchestrator.busConnection := Some (busConnection m) |}.

Definition toMotorData (c : Contribution) : Orchestrator.MotorData N :=
  {| Orchestrator.motors := map toMotorResult (motors c);
     Orchestrator.totals :=
       {| Orchestrator.firstCycle := tot_firstCycle (totals c);
          Orchestrator.interrupting := tot_interrupting (totals c);
          Orchestrator.sustained := tot_sustained (totals c) |} |}.
End Defs.
Arguments t N : clear implicits.
Arguments Characteristics N : clear implicits.
Arguments Impedance N : clear implicits.
Arguments Timeline N : clear implicits.
Arguments Result N : clear implicits.
Arguments Totals N : clear implicits.
Arguments Contribution N : clear implicits.
End Motor.

Module MotorForms.
(** the motor that leaves every property out *)
Definition plain {N : Type} : Motor.t N :=
  {| Motor.name := None; Motor.hp := None; Motor.power := None;
     Motor.voltage := None; Motor.efficiency := None;
     Motor.powerFactor := None; Motor.pf := None; Motor.phases := None;
     Motor.motorType := None; Motor.lockedRotorMultiplier := None;
     Motor.xr := None; Motor.interruptingTime := None;
     Motor.interruptingDecay := None; Motor.sustainedMultiplier := None;
     Motor.faultVoltage := None; Motor.fromBus := None; Motor.bus := None |}.

(** the three currents and their values in kA *)
Definition timelineOf (first interrupting sustained : R) : Motor.Timeline xreal :=
  {| Motor.firstCycle := Fin first;
     Motor.firstCycleKA := Fin (first / 1000);
     Motor.interrupting := Fin interrupting;
     Motor.interruptingKA := Fin (interrupting / 1000);
     Motor.sustained := Fin sustained;
     Motor.sustainedKA := Fin (sustained / 1000) |}.

(** a motor result of the impedance r + jx; the other properties are
    those of the plain motor *)
Definition resultOfImpedance (r x : R) : Motor.Result xreal :=
  let m := Motor.resultOf 0 plain in
  {| Motor.index := Motor.index m;
     Motor.res_name := Motor.res_name m;
     Motor.type := Motor.type m;
     Motor.res_hp := Motor.res_hp m;
     Motor.res_voltage := Motor.res_voltage m;
     Motor.fla := Motor.fla m;
     Motor.lra := Motor.lra m;
     Motor.impedance :=
       {| Motor.r := Fin r; Motor.x := Fin x;
          Motor.z := Fin (sqrt (r * r + x * x)); Motor.imp_xr := Fin (x / r) |};
     Motor.referredImpedance := Motor.referredImpedance m;
     Motor.contribution := Motor.contribution m;
     Motor.busConnection := Motor.busConnection m |}.
End MotorForms.

(** ** voltage_drop_calculations.js (in js/standard_specific_calcs.js) *)

(** [Object.entries] of an object literal: the own keys that are array
    indices (canonical decimal numerals below 2^32 - 1) come first, in
    ascending numeric order, then the other keys in the order of the
    source text. *)
Module ObjectKeys.
Definition digitValue (c : Ascii.ascii) : option N :=
  let n := Ascii.N_of_ascii c in
  if (N.leb 48 n && N.leb n 57)%bool then Some (n - 48)%N else None.

Fixpoint parseDigits (s : string) (acc : N) : option N :=
  match s with
  | EmptyString => Some acc
  | String c rest =>
      match digitValue c with
      | Some d => parseDigits rest (10 * acc + d)%N
      | None => None
      end
  end.

Definition arrayIndex (key : string) : option N :=
  match key with
  | EmptyString => None
  | String c rest =>
      if (N.eqb (Ascii.N_of_ascii c) 48 && negb (String.eqb rest ""))%bool then None
      else match parseDigits key 0 with
           | Some n => if N.ltb n (2 ^ 32 - 1) then Some n else None
           | None => None
           end
  end.

Fixpoint insertIndexed {V : Type} (e : N * (string * V))
    (l : list (N * (string * V))) : list (N * (string * V)) :=
  match l with
  | [] => [e]
  | h :: t => if N.ltb (fst e) (fst h) then e :: l else h :: insertIndexed e t
  end.

Definition indexed {V : Type} (o : list (string * V)) : list (N * (string * V)) :=
  fold_left (fun acc kv =>
               match arrayIndex (fst kv) with
               | Some n => insertIndexed (n, kv) acc
               | None => acc
               end) o [].

Definition Object_entries {V : Type} (o : list (string * V)) : list (string * V) :=
  map snd (indexed o)
  ++ List.filter (fun kv => match arrayIndex (fst kv) with
                       | Some _ => false
                       | None => true
                       end) o.
End ObjectKeys.

Module VoltageDrop.
Section Defs.
Context {N : Type} {num : JsNum N}.
Local Open Scope js_scope.

(** *** NEC limits *)

(** The limits of a circuit type; [combined] has no [recommended]. *)
Record Limits : Type := { recommended : option N; maximum : option N }.

(** [NEC_VOLTAGE_DROP_LIMITS[circuitType] ||
    NEC_VOLTAGE_DROP_LIMITS.feeder]; the value found under an inherited
    name has neither limit. *)
Definition limitsOf (circuitType : option string) : Limits :=
  let feeder := {| recommended := Some #3; maximum := Some #5 |} in
  match circuitType with
  | None => feeder
  | Some circuitType =>
      if String.eqb circuitType "feeder" then feeder
      else if String.eqb circuitType "branchCircuit"
      then {| recommended := Some #3; maximum := Some #5 |}
      else if String.eqb circuitType "combined"
      then {| recommended := None; maximum := Some #5 |}
      else if inheritedKey circuitType
      then {| recommended := None; maximum := None |}
      else feeder
  end.

(** The messages; the limits of the texts are kept as values. *)
Inductive Message : Type :=
| WithinRecommended (recommended : option N)
| ExceedsRecommended (recommended maximum : option N)
| ExceedsMaximum (maximum : option N).

Record Compliance : Type := {
  compliant : bool;
  level : string;
  messages : list Message
}.

Definition checkNECCompliance (voltageDropPercent : N)
    (circuitType : option string) : Compliance :=
  let limits := limitsOf circuitType in
  if voltageDropPercent <=? toNumber (recommended limits)
  then {| compliant := true; level := "good";
          messages := [WithinRecommended (recommended limits)] |}
  else if voltageDropPercent <=? toNumber (maximum limits)
  then {| compliant := true; level := "warning";
          messages := [ExceedsRecommended (recommended limits) (maximum limits)] |}
  else {| compliant := false; level := "critical";
          messages := [ExceedsMaximum (maximum limits)] |}.

(** *** The conductor database *)

(** The materials of the database; another name is outside the model. *)
Inductive Material : Type := copper | aluminum.

Record Conductor : Type := { resistance : N; reactance : N; ampacity : N }.

(** [CONDUCTOR_DATABASE[material]], in the order of the source *)
Definition CONDUCTOR_DATABASE (material : Material)
    : list (string * Conductor) :=
  match material with
  | copper =>
      [ ("14", {| resistance := #10.2; reactance := #0.157; ampacity := #20 |});
        ("12", {| resistance := #6.40; reactance := #0.154; ampacity := #25 |});
        ("10", {| resistance := #4.02; reactance := #0.151; ampacity := #35 |});
        ("8", {| resistance := #2.53; reactance := #0.148; ampacity := #50 |});
        ("6", {| resistance := #1.59; reactance := #0.145; ampacity := #65 |});
        ("4", {| resistance := #1.00; reactance := #0.142; ampacity := #85 |});
        ("3", {| resistance := #0.795; reactance := #0.141; ampacity := #100 |});
        ("2", {| resistance := #0.630; reactance := #0.139; ampacity := #115 |});
        ("1", {| resistance := #0.500; reactance := #0.138; ampacity := #130 |});
        ("1/0", {| resistance := #0.397; reactance := #0.137; ampacity := #150 |});
        ("2/0", {| resistance := #0.315; reactance := #0.135; ampacity := #175 |});
        ("3/0", {| resistance := #0.249; reactance := #0.134; ampacity := #200 |});
        ("4/0", {| resistance := #0.198; reactance := #0.132; ampacity := #230 |});
        ("250", {| resistance := #0.169; reactance := #0.131; ampacity := #255 |});
        ("300", {| resistance := #0.141; reactance := #0.130; ampacity := #285 |});
        ("350", {| resistance := #0.121; reactance := #0.128; ampacity := #310 |});
        ("400", {| resistance := #0.106; reactance := #0.127; ampacity := #335 |});
        ("500", {| resistance := #0.085; reactance := #0.125; ampacity := #380 |});
        ("600", {| resistance := #0.071; reactance := #0.123; ampacity := #420 |});
        ("750", {| resistance := #0.057; reactance := #0.121; ampacity := #475 |});
        ("1000", {| resistance := #0.043; reactance := #0.118; ampacity := #545 |}) ]
  | aluminum =>
      [ ("14", {| resistance := #16.7; reactance := #0.157; ampacity := #15 |});
        ("12", {| resistance := #10.5; reactance := #0.154; ampacity := #20 |});
        ("10", {| resistance := #6.60; reactance := #0.151; ampacity := #25 |});
        ("8", {| resistance := #4.15; reactance := #0.148; ampacity := #40 |});
        ("6", {| resistance := #2.61; reactance := #0.145; ampacity := #50 |});
        ("4", {| resistance := #1.64; reactance := #0.142; ampacity := #65 |});
        ("3", {| resistance := #1.30; reactance := #0.141; ampacity := #75 |});
        ("2", {| resistance := #1.03; reactance := #0.139; ampacity := #90 |});
        ("1", {| resistance := #0.820; reactance := #0.138; ampacity := #100 |});
        ("1/0", {| resistance := #0.650; reactance := #0.137; ampacity := #120 |});
        ("2/0", {| resistance := #0.515; reactance := #0.135; ampacity := #135 |});
        ("3/0", {| resistance := #0.409; reactance := #0.134; ampacity := #155 |});
        ("4/0", {| resistance := #0.324; reactance := #0.132; ampacity := #180 |});
        ("250", {| resistance := #0.277; reactance := #0.131; ampacity := #205 |});
        ("300", {| resistance := #0.231; reactance := #0.130; ampacity := #230 |});
        ("350", {| resistance := #0.198; reactance := #0.128; ampacity := #250 |});
        ("400", {| resistance := #0.173; reactance := #0.127; ampacity := #270 |});
        ("500", {| resistance := #0.139; reactance := #0.125; ampacity := #310 |});
        ("600", {| resistance := #0.116; reactance := #0.123; ampacity := #340 |});
        ("750", {| resistance := #0.093; reactance := #0.121; ampacity := #385 |});
        ("1000", {| resistance := #0.070; reactance := #0.118; ampacity := #445 |}) ]
  end.

Fixpoint lookupKey {V : Type} (key : string) (o : list (string * V)) : option V :=
  match o with
  | [] => None
  | (k, v) :: rest => if String.eqb k key then Some v else lookupKey key rest
  end.

(** [CONDUCTOR_DATABASE[conductorMaterial][conductorSize]]: the value
    found under an inherited name is truthy and has none of the three
    properties. *)
Definition conductorAt (material : Material) (size : string) : option Conductor :=
  match lookupKey size (CONDUCTOR_DATABASE material) with
  | Some conductor => Some conductor
  | None =>
      if inheritedKey size
      then Some {| resistance := toNumber None; reactance := toNumber None;
                   ampacity := toNumber None |}
      else None
  end.

(** *** Voltage drop *)

Record Params : Type := {
  voltage : N;
  current : N;
  length : N;
  conductorSize : string;
  conductorMaterial : option Material;
  powerFactor : option N;
  circuitType : option string
}.

(** The computed properties of the result; the others repeat the
    parameters. *)
Record Drop : Type := {
  voltageDrop : N;
  voltageDropPercent : N;
  drop_resistance : N;
  drop_reactance : N
}.

(** [None] is the result [{ error: 'Conductor size not found in
    database' }]. *)
Definition calculateSinglePhaseVoltageDrop (params : Params) : option Drop :=
  let conductorMaterial := default copper (conductorMaterial params) in
  let powerFactor := default #1.0 (powerFactor params) in
  let circuitType := default "AC" (circuitType params) in
  match conductorAt conductorMaterial (conductorSize params) with
  | None => None
  | Some conductor =>
      let lengthKm := length params / #1000 in
      let R := resistance conductor * lengthKm in
      let X := reactance conductor * lengthKm in
      let voltageDrop :=
        if String.eqb circuitType "DC"
        then #2 * current params * R
        else
          let sinPF := Math_sqrt (#1 - powerFactor * powerFactor) in
          #2 * current params * (R * powerFactor + X * sinPF) in
      let voltageDropPercent := (voltageDrop / voltage params) * #100 in
      Some {| voltageDrop := voltageDrop;
              voltageDropPercent := voltageDropPercent;
              drop_resistance := R;
              drop_reactance := X |}
  end.

Definition calculateThreePhaseVoltageDrop (params : Params) : option Drop :=
  let conductorMaterial := default copper (conductorMaterial params) in
  let powerFactor := default #0.85 (powerFactor params) in
  match conductorAt conductorMaterial (conductorSize params) with
  | None => None
  | Some conductor =>
      let lengthKm := length params / #1000 in
      let R := resistance conductor * lengthKm in
      let X := reactance conductor * lengthKm in
      let sinPF := Math_sqrt (#1 - powerFactor * powerFactor) in
      let voltageDrop :=
        Math_sqrt #3 * current params * (R * powerFactor + X * sinPF) in
      let voltageDropPercent := (voltageDrop / voltage params) * #100 in
      Some {| voltageDrop := voltageDrop;
              voltageDropPercent := voltageDropPercent;
              drop_resistance := R;
              drop_reactance := X |}
  end.

(** *** Required conductor size *)

Record SizeParams : Type := {
  sz_voltage : N;
  sz_current : N;
  sz_length : N;
  targetVoltageDropPercent : option N;
  sz_conductorMaterial : option Material;
  phaseType : option string;
  sz_powerFactor : option N
}.

Record Suitable : Type := {
  size : string;
  su_voltageDrop : N;
  su_voltageDropPercent : N;
  su_ampacity : N
}.

(** One round of the loop over the entries: the conductor pushed to
    [suitableConductors], if any. *)
Definition suitableConductor (params : SizeParams)
    (entry : string * Conductor) : option Suitable :=
  let '(size, conductor) := entry in
  let targetVoltageDropPercent := default #3 (targetVoltageDropPercent params) in
  let conductorMaterial := default copper (sz_conductorMaterial params) in
  let phaseType := default "three-phase" (phaseType params) in
  let powerFactor := default #0.85 (sz_powerFactor params) in
  let targetVoltageDrop :=
    sz_voltage params * targetVoltageDropPercent / #100 in
  let calcParams :=
    {| voltage := sz_voltage params;
       current := sz_current params;
       length := sz_length params;
       conductorSize := size;
       conductorMaterial := Some conductorMaterial;
       powerFactor := Some powerFactor;
       circuitType := None |} in
  let result :=
    if String.eqb phaseType "single-phase"
    then calculateSinglePhaseVoltageDrop calcParams
    else calculateThreePhaseVoltageDrop calcParams in
  if (toNumber (option_map voltageDrop result) <=? targetVoltageDrop)
     && (sz_current params <=? ampacity conductor)
  then Some {| size := size;
               su_voltageDrop := toNumber (option_map voltageDrop result);
               su_voltageDropPercent :=
                 toNumber (option_map voltageDropPercent result);
               su_ampacity := ampacity conductor |}
  else None.

Inductive Recommendation : Type :=
| Recommended (recommended : Suitable) (alternatives : list Suitable)
              (targetVoltageDropPercent : N)
| NoSuitableConductor.

Definition calculateRequiredConductorSize (params : SizeParams)
    : Recommendation :=
  let conductorDB :=
    CONDUCTOR_DATABASE (default copper (sz_conductorMaterial params)) in
  let suitableConductors :=
    omap (suitableConductor params) (ObjectKeys.Object_entries conductorDB) in
  match suitableConductors with
  | recommended :: rest =>
      Recommended recommended (firstn 2 rest)
                  (default #3 (targetVoltageDropPercent params))
  | [] => NoSuitableConductor
  end.
End Defs.
Arguments Limits N : clear implicits.
Arguments Message N : clear implicits.
Arguments Compliance N : clear implicits.
Arguments Conductor N : clear implicits.
Arguments Params N : clear implicits.
Arguments Drop N : clear implicits.
Arguments SizeParams N : clear implicits.
Arguments Suitable N : clear implicits.
Arguments Recommendation N : clear implicits.
End VoltageDrop.

(** ** js/ppe_selection.js: approach boundaries and validation of a
    selection *)

Module PPEChecks.
Section Defs.
Context {N : Type} {num : JsNum N}.
Local Open Scope js_scope.

(** The shock protection boundaries in mm. *)
Record Boundaries : Type := { limited : N; restricted : N; prohibited : N }.

Definition calculateNFPA70EBoundaries (voltage : N) : Boundaries :=
  if voltage <=? #50
  then {| limited := #0; restricted := #0; prohibited := #0 |}
  else if voltage <=? #300
  then {| limited := #3050; restricted := #305; prohibited := #0 |}
  else if voltage <=? #750
  then {| limited := #3050; restricted := #305; prohibited := #0 |}
  else if voltage <=? #15000
  then {| limited := #3050; restricted := #610; prohibited := #305 |}
  else if voltage <=? #36000
  then {| limited := #3050; restricted := #910; prohibited := #610 |}
  else if voltage <=? #72500
  then {| limited := #3660; restricted := #1070; prohibited := #760 |}
  else if voltage <=? #121000
  then {| limited := #4270; restricted := #1220; prohibited := #850 |}
  else {| limited := #4570; restricted := #1520; prohibited := #1070 |}.

(** [selectedPPE]: the arc rating, and for each of the eight items
    whether [selectedPPE.items[item]] is truthy; [items] itself may be
    absent. *)
Record SelectedPPE : Type := {
  sel_arcRating : option N;
  sel_items : option PPE.Requirements
}.

(** The warning; the ratings of the text are kept as values. *)
Inductive RatingWarning : Type :=
| BelowRequiredMinimum (selected : option N) (required : N).

Record Validation : Type := {
  adequate : bool;
  missingItems : list string;
  warnings : list RatingWarning
}.

(** The properties of [requirements], in the order of the source, each
    with the function that reads it. *)
Definition requirementFields : list (string * (PPE.Requirements -> bool)) :=
  [ ("arcRatedShirt", PPE.arcRatedShirt);
    ("arcRatedPants", PPE.arcRatedPants);
    ("arcFlashSuit", PPE.arcFlashSuit);
    ("arcRatedHood", PPE.arcRatedHood);
    ("safetyGlasses", PPE.safetyGlasses);
    ("hearingProtection", PPE.hearingProtection);
    ("leatherGloves", PPE.leatherGloves);
    ("arcRatedGloves", PPE.arcRatedGloves) ].

(** One round of the loop over [Object.entries(required.requirements)]:
    reading an item of an absent [items] throws. *)
Definition checkItem (selectedPPE : SelectedPPE) (required : PPE.Category N)
    (validation : Validation) (field : string * (PPE.Requirements -> bool))
    : Result Validation :=
  let '(item, get) := field in
  let isRequired := get (PPE.requirements required) in
  if isRequired then
    match sel_items selectedPPE with
    | None => Throw "Cannot read properties of undefined"
    | Some items =>
        if negb (get items)
        then Ok {| adequate := false;
                   missingItems := missingItems validation ++ [item];
                   warnings := warnings validation |}
        else Ok validation
    end
  else Ok validation.

Fixpoint checkItems (selectedPPE : SelectedPPE) (required : PPE.Category N)
    (validation : Validation) (fields : list (string * (PPE.Requirements -> bool)))
    : Result Validation :=
  match fields with
  | [] => Ok validation
  | field :: rest =>
      validation' ← checkItem selectedPPE required validation field;
      checkItems selectedPPE required validation' rest
  end.

Definition validatePPESelection (selectedPPE : SelectedPPE)
    (requiredCategory : nat) : Result Validation :=
  let required := PPE.getPPERequirements requiredCategory in
  let validation := {| adequate := true; missingItems := []; warnings := [] |} in
  let validation :=
    if toNumber (sel_arcRating selectedPPE) <? PPE.arcRating required
    then {| adequate := false;
            missingItems := missingItems validation;
            warnings := warnings validation
              ++ [BelowRequiredMinimum (sel_arcRating selectedPPE)
                                       (PPE.arcRating required)] |}
    else validation in
  checkItems selectedPPE required validation requirementFields.
End Defs.
Arguments Boundaries N : clear implicits.
Arguments SelectedPPE N : clear implicits.
Arguments RatingWarning N : clear implicits.
Arguments Validation N : clear implicits.
End PPEChecks.

(** ** js/arc_flash_calculation.js: the choice of the method *)

Module ArcFlashMethods.
Section Defs.
Context {N : Type} {num : JsNum N}.
Local Open Scope js_scope.

(** [selectArcFlashMethod(voltage, systemType)]; the system type is not
    used. *)
Definition selectArcFlashMethod (voltage : N) : string :=
  if (voltage >=? ArcFlash.voltageRange_min)
     && (voltage <=? ArcFlash.voltageRange_max)
  then "IEEE 1584-2018"
  else if voltage <? ArcFlash.voltageRange_min
  then "Simplified"
  else "IEEE 1584-2002".
End Defs.
End ArcFlashMethods.

(** ** js/calculation_orchestrator.js: validation of the inputs *)

Module InputValidation.
Section Defs.
Context {N : Type} {num : JsNum N}.
Local Open Scope js_scope.

(** A component with the two further properties [validateInputs]
    reads. *)
Record InputComponent : Type := {
  base : Component.t N;
  primaryV : option N;
  isc : option N
}.

(** What [validateInputs] reads of the project. *)
Record InputProject : Type := {
  in_voltage : option N;
  in_components : list InputComponent
}.

(** The errors, the warnings and the assumptions; the position counts
    from 1 and the numbers of the texts are kept as values. *)
Inductive Error : Type :=
| NoProjectData
| InvalidSystemVoltage
| NoComponentsDefined
| CableInvalidLength (position : nat)
| CableNegativeLength (position : nat) (length : option N)
| CableMissingImpedance (position : nat)
| CableNegativeImpedance (position : nat) (resistance reactance : option N)
| TransformerInvalidPower (position : nat)
| TransformerNegativePower (position : nat) (power : option N)
| TransformerInvalidImpedance (position : nat)
| TransformerNegativeImpedance (position : nat) (impedance : option N)
| UtilityInvalidFaultCurrent (position : nat)
| UtilityImplausibleFaultCurrent (position : nat) (isc : N)
| UtilityWithoutSource (position : nat).

Inductive Warning : Type :=
| CableVoltageNotSpecified (position : nat)
| CableVoltageLow (position : nat) (voltage : N)
| CableReactanceHigh (position : nat) (reactance : N)
| CableReactanceLow (position : nat) (reactance : N)
| TransformerImpedanceHigh (position : nat) (impedance : option N)
| TransformerImpedanceLow (position : nat) (impedance : option N)
| TransformerPrimaryInvalid (position : nat)
| TransformerSecondaryInvalid (position : nat)
| TransformerPrimaryHigh (position : nat) (primaryV : N)
| TransformerSecondaryHigh (position : nat) (secondaryV : N)
| UtilityImpliedMVAHigh (position : nat) (impliedMVA isc voltageKV : N).

Inductive Assumed : Type :=
| CableVoltageAssumed (position : nat)
| CableHighReactance (position : nat) (reactance : N)
| TransformerRatioAssumed (position : nat) (power : option N).

(** What one component adds to [errors], to [warnings] and to the
    assumptions of the ledger. *)
Record Report : Type := {
  rep_errors : list Error;
  rep_warnings : list Warning;
  rep_assumed : list Assumed
}.

Definition noReport : Report :=
  {| rep_errors := []; rep_warnings := []; rep_assumed := [] |}.

Definition join (a b : Report) : Report :=
  {| rep_errors := rep_errors a ++ rep_errors b;
     rep_warnings := rep_warnings a ++ rep_warnings b;
     rep_assumed := rep_assumed a ++ rep_assumed b |}.

Definition errorIf (cond : bool) (e : Error) : Report :=
  if cond then {| rep_errors := [e]; rep_warnings := []; rep_assumed := [] |}
  else noReport.

Definition warningIf (cond : bool) (w : Warning) : Report :=
  if cond then {| rep_errors := []; rep_warnings := [w]; rep_assumed := [] |}
  else noReport.

Definition assumedIf (cond : bool) (a : Assumed) : Report :=
  if cond then {| rep_errors := []; rep_warnings := []; rep_assumed := [a] |}
  else noReport.

(** the body of [if (comp.type === 'cable')] *)
Definition checkCable (position : nat) (comp : Component.t N) : Report :=
  let length := Component.length comp in
  let resistance := Component.resistance comp in
  let reactance := Component.reactance comp in
  let voltage := Component.voltage comp in
  join (errorIf (negb (present length) || (toNumber length <=? #0))
                (CableInvalidLength position))
  (join (errorIf (toNumber length <? #0)
                 (CableNegativeLength position length))
  (join (errorIf (negb (present resistance) || negb (present reactance))
                 (CableMissingImpedance position))
  (join (errorIf ((toNumber resistance <? #0) || (toNumber reactance <? #0))
                 (CableNegativeImpedance position resistance reactance))
  (join (if negb (present voltage)
         then join (warningIf true (CableVoltageNotSpecified position))
                   (assumedIf true (CableVoltageAssumed position))
         else noReport)
  (join (warningIf (present voltage && (toNumber voltage <? #100))
                   (CableVoltageLow position (toNumber voltage)))
        (if present reactance && present voltage && (toNumber voltage <? #1000)
         then
           join (if toNumber reactance >? #0.2
                 then join (warningIf true
                              (CableReactanceHigh position (toNumber reactance)))
                           (assumedIf true
                              (CableHighReactance position (toNumber reactance)))
                 else noReport)
                (warningIf (toNumber reactance <? #0.01)
                           (CableReactanceLow position (toNumber reactance)))
         else noReport)))))).

(** the body of [if (comp.type === 'transformer')] *)
Definition checkTransformer (position : nat) (comp : InputComponent) : Report :=
  let power := Component.power (base comp) in
  let impedance := Component.impedance (base comp) in
  let rx := Component.rx (base comp) in
  let secondaryV := Component.secondaryV (base comp) in
  join (errorIf (negb (present power) || (toNumber power <=? #0))
                (TransformerInvalidPower position))
  (join (errorIf (toNumber power <? #0)
                 (TransformerNegativePower position power))
  (join (errorIf (negb (present impedance) || (toNumber impedance <=? #0))
                 (TransformerInvalidImpedance position))
  (join (errorIf (toNumber impedance <? #0)
                 (TransformerNegativeImpedance position impedance))
  (join (warningIf (toNumber impedance >? #15)
                   (TransformerImpedanceHigh position impedance))
  (join (warningIf (toNumber impedance <? #2)
                   (TransformerImpedanceLow position impedance))
  (join (assumedIf (negb (present rx)
                    && negb (match rx with
                             | Some v => v === #0
                             | None => false
                             end))
                   (TransformerRatioAssumed position power))
  (join (warningIf (negb (present (primaryV comp))
                    || (toNumber (primaryV comp) <=? #0))
                   (TransformerPrimaryInvalid position))
  (join (warningIf (negb (present secondaryV) || (toNumber secondaryV <=? #0))
                   (TransformerSecondaryInvalid position))
  (join (warningIf (present (primaryV comp)
                    && (toNumber (primaryV comp) >? #1000))
                   (TransformerPrimaryHigh position (toNumber (primaryV comp))))
        (warningIf (present secondaryV && (toNumber secondaryV >? #1000)
                    && (toNumber secondaryV >? #10000))
                   (TransformerSecondaryHigh position (toNumber secondaryV)))))))))))).

(** the body of [if (comp.type === 'utility' || comp.type ===
    'utility_isc')] *)
Definition checkUtility (position : nat) (comp : InputComponent) : Report :=
  let voltage := Component.voltage (base comp) in
  join (match isc comp with
        | Some isc =>
            join (errorIf (isc <=? #0) (UtilityInvalidFaultCurrent position))
                 (if present voltage && truthy isc
                  then
                    let voltageKV := toNumber voltage in
                    let impliedMVA := Math_sqrt #3 * voltageKV * isc in
                    join (errorIf (isc >? #1000)
                                  (UtilityImplausibleFaultCurrent position isc))
                         (warningIf (impliedMVA >? #10000)
                                    (UtilityImpliedMVAHigh position impliedMVA
                                                           isc voltageKV))
                  else noReport)
        | None => noReport
        end)
       (errorIf (String.eqb (Component.type (base comp)) "utility"
                 && negb (present (Component.faultCurrent (base comp)))
                 && negb (present (Component.shortCircuitMVA (base comp)))
                 && negb (present (isc comp)))
                (UtilityWithoutSource position)).

(** one round of the [forEach], [index] counting from 0 *)
Definition checkComponent (index : nat) (comp : InputComponent) : Report :=
  let type := Component.type (base comp) in
  join (if String.eqb type "cable"
        then checkCable (index + 1) (base comp) else noReport)
  (join (if String.eqb type "transformer"
         then checkTransformer (index + 1) comp else noReport)
        (if String.eqb type "utility" || String.eqb type "utility_isc"
         then checkUtility (index + 1) comp else noReport)).

Fixpoint checkComponents (index : nat) (comps : list InputComponent) : Report :=
  match comps with
  | [] => noReport
  | comp :: rest =>
      join (checkComponent index comp) (checkComponents (S index) rest)
  end.

Record Validation : Type := {
  valid : bool;
  errors : list Error;
  warnings : list Warning
}.

(** The result, the assumptions added to the ledger and the warnings
    logged; [null] is [None]. *)
Definition validateInputs (projectData : option InputProject)
    : Validation * list Assumed * list Warning :=
  match projectData with
  | None =>
      ({| valid := false; errors := [NoProjectData]; warnings := [] |}, [], [])
  | Some projectData =>
      let voltage := in_voltage projectData in
      let report :=
        join (errorIf (negb (present voltage) || (toNumber voltage <=? #0))
                      InvalidSystemVoltage)
        (join (errorIf (match in_components projectData with
                        | [] => true
                        | _ => false
                        end) NoComponentsDefined)
              (checkComponents 0 (in_components projectData))) in
      ({| valid := match rep_errors report with [] => true | _ => false end;
          errors := rep_errors report;
          warnings := rep_warnings report |},
       rep_assumed report, rep_warnings report)
  end.
End Defs.
Arguments InputComponent N : clear implicits.
Arguments InputProject N : clear implicits.
Arguments Error N : clear implicits.
Arguments Warning N : clear implicits.
Arguments Assumed N : clear implicits.
Arguments Report N : clear implicits.
Arguments Validation N : clear implicits.
End InputValidation.

(** *** What a valid input guarantees *)

Module InputForms.
(** a property that is given and positive *)
Definition positive (a : option float) : Prop :=
  exists v, a = Some v /\ PrimFloat.ltb 0 v = true.

Definition cableOk (comp : Component.t float) : Prop :=
  positive (Component.length comp) /\
  positive (Component.resistance comp) /\
  positive (Component.reactance comp).

Definition transformerOk (comp : Component.t float) : Prop :=
  positive (Component.power comp) /\ positive (Component.impedance comp).

Definition utilityOk (pow : float -> float -> float) (log10 : float -> float)
    (comp : InputValidation.InputComponent float) : Prop :=
  let num := Binary64.num pow log10 in
  (forall isc, InputValidation.isc comp = Some isc ->
     PrimFloat.leb isc 0 = false /\
     (present (Component.voltage (InputValidation.base comp)) = true ->
      truthy isc = true -> PrimFloat.ltb 1000 isc = false)) /\
  (Component.type (InputValidation.base comp) = "utility" ->
   present (Component.faultCurrent (InputValidation.base comp)) = true \/
   present (Component.shortCircuitMVA (InputValidation.base comp)) = true \/
   present (InputValidation.isc comp) = true).

Definition componentOk (pow : float -> float -> float) (log10 : float -> float)
    (comp : InputValidation.InputComponent float) : Prop :=
  let type := Component.type (InputValidation.base comp) in
  (type = "cable" -> cableOk (InputValidation.base comp)) /\
  (type = "transformer" -> transformerOk (InputValidation.base comp)) /\
  (type = "utility" \/ type = "utility_isc" -> utilityOk pow log10 comp).
End InputForms.



(** * Properties *)

(** ** Comparisons of binary64 *)

Module Binary64Facts.
Import SpecFloat Rank.

Lemma SFcompare_key (a b : spec_float) :
  SFcompare a b =
  match key a, key b with
  | Some p, Some q => Some (lex p q)
  | _, _ => None
  end.
Proof.
  destruct a as [sa| sa | | sa ma ea], b as [sb | sb | | sb mb eb]; simpl;
    try reflexivity;
    try (destruct sa; reflexivity); try (destruct sb; reflexivity);
    try (destruct sa, sb; reflexivity).
  change (Pos.compare_cont Eq ma mb) with (Pos.compare ma mb).
  destruct sa, sb; simpl; try reflexivity.
  rewrite Z.compare_opp, (Z.compare_antisym ea eb).
  destruct (ea ?= eb)%Z; simpl; reflexivity.
Qed.

Lemma lex_trans_le (p q r : Z * Z * Z) :
  lex p q <> Gt -> lex q r <> Gt -> lex p r <> Gt.
Proof.
  destruct p as [[a1 a2] a3], q as [[b1 b2] b3], r as [[c1 c2] c3]; simpl.
  destruct (Z.compare_spec a1 b1), (Z.compare_spec b1 c1),
    (Z.compare_spec a1 c1); try lia; try congruence;
  destruct (Z.compare_spec a2 b2), (Z.compare_spec b2 c2),
    (Z.compare_spec a2 c2); try lia; try congruence;
  destruct (Z.compare_spec a3 b3), (Z.compare_spec b3 c3),
    (Z.compare_spec a3 c3); try lia; try congruence.
Qed.

Lemma leb_key (a b : float) :
  PrimFloat.leb a b = true <->
  exists p q, key (Prim2SF a) = Some p /\ key (Prim2SF b) = Some q /\ lex p q <> Gt.
Proof.
  rewrite leb_spec. unfold SFleb. rewrite SFcompare_key.
  destruct (key (Prim2SF a)) as [p|], (key (Prim2SF b)) as [q|];
    try (split; [discriminate | intros (? & ? & ? & ? & ?); discriminate]).
  split.
  - intros H. exists p, q. repeat split. destruct (lex p q); discriminate.
  - intros (p' & q' & [= <-] & [= <-] & H). destruct (lex p q); congruence.
Qed.

Lemma ltb_key (a b : float) :
  PrimFloat.ltb a b = true <->
  exists p q, key (Prim2SF a) = Some p /\ key (Prim2SF b) = Some q /\ lex p q = Lt.
Proof.
  rewrite ltb_spec. unfold SFltb. rewrite SFcompare_key.
  destruct (key (Prim2SF a)) as [p|], (key (Prim2SF b)) as [q|];
    try (split; [discriminate | intros (? & ? & ? & ? & ?); discriminate]).
  split.
  - intros H. exists p, q. repeat split. destruct (lex p q); congruence.
  - intros (p' & q' & [= <-] & [= <-] & H). rewrite H. reflexivity.
Qed.

Lemma lex_antisym (p q : Z * Z * Z) : lex q p = CompOpp (lex p q).
Proof.
  destruct p as [[a1 a2] a3], q as [[b1 b2] b3]; simpl.
  rewrite (Z.compare_antisym a1 b1), (Z.compare_antisym a2 b2),
    (Z.compare_antisym a3 b3).
  destruct (a1 ?= b1)%Z, (a2 ?= b2)%Z, (a3 ?= b3)%Z; reflexivity.
Qed.

Lemma leb_trans (a b c : float) :
  PrimFloat.leb a b = true -> PrimFloat.leb b c = true -> PrimFloat.leb a c = true.
Proof.
  rewrite !leb_key. intros (p & q & Hp & Hq & H1) (q' & r & Hq' & Hr & H2).
  rewrite Hq in Hq'. injection Hq' as <-.
  exists p, r. repeat split; try assumption. eapply lex_trans_le; eassumption.
Qed.

Lemma leb_ltb_false (a b : float) :
  PrimFloat.leb a b = true -> PrimFloat.ltb b a = false.
Proof.
  intros H. destruct (PrimFloat.ltb b a) eqn:E; [|reflexivity].
  apply leb_key in H. apply ltb_key in E.
  destruct H as (p & q & Hp & Hq & H), E as (q' & p' & Hq' & Hp' & E).
  rewrite Hq in Hq'. injection Hq' as <-. rewrite Hp in Hp'. injection Hp' as <-.
  rewrite (lex_antisym q p) in H. rewrite E in H. simpl in H. congruence.
Qed.

Lemma leb_not_ltb (a b : float) :
  PrimFloat.leb a b = true -> PrimFloat.ltb a b = false -> PrimFloat.leb b a = true.
Proof.
  intros H Hn. apply leb_key in H. destruct H as (p & q & Hp & Hq & H).
  apply leb_key. exists q, p. repeat split; try assumption.
  rewrite (lex_antisym p q).
  destruct (lex p q) eqn:E; simpl; try discriminate; try congruence.
  exfalso. assert (Ht : PrimFloat.ltb a b = true).
  { apply ltb_key. exists p, q. auto. }
  congruence.
Qed.

Lemma ltb_leb (a b : float) :
  PrimFloat.ltb a b = true -> PrimFloat.leb a b = true.
Proof.
  rewrite ltb_key, leb_key. intros (p & q & Hp & Hq & H).
  exists p, q. repeat split; try assumption. congruence.
Qed.

(** *** Division of a finite value by itself, multiplication by one *)

Lemma div_self_spec (s : bool) (m : positive) (e : Z) :
  SF64div (S754_finite s m e) (S754_finite s m e) = Prim2SF 1%float.
Proof.
  unfold SF64div, SFdiv, SFdiv_core_binary.
  cbn [Zdigits2].
  replace (Zpos (digits2_pos m) + e - (Zpos (digits2_pos m) + e))%Z with 0%Z by lia.
  replace (e - e)%Z with 0%Z by lia.
  change (Z.min (fexp prec emax 0) 0) with (-53)%Z.
  change (0 - -53)%Z with 53%Z.
  cbv iota.
  rewrite Z.shiftl_mul_pow2 by lia.
  assert (Hdiv : Z.div_eucl (Zpos m * 2 ^ 53) (Zpos m) = (2 ^ 53, 0)%Z).
  { pose proof (Z.div_mul (2 ^ 53) (Zpos m) ltac:(lia)) as Hq.
    pose proof (Z.mod_mul (2 ^ 53) (Zpos m) ltac:(lia)) as Hr.
    rewrite (Z.mul_comm (Zpos m)).
    unfold Z.div, Z.modulo in Hq, Hr.
    destruct (Z.div_eucl (2 ^ 53 * Zpos m) (Zpos m)) as [q r].
    cbn in Hq, Hr. congruence. }
  rewrite Hdiv.
  assert (Hloc : new_location (Zpos m) 0 = loc_Exact).
  { unfold new_location. destruct (Z.even (Zpos m)); reflexivity. }
  rewrite Hloc, xorb_nilpotent.
  vm_compute. reflexivity.
Qed.

Lemma mul_pow52 (m : positive) :
  (m * 4503599627370496)%positive = Pos.iter xO m 52.
Proof. rewrite Pos.mul_comm. reflexivity. Qed.

Lemma digits_shift (m k : positive) :
  Zpos (digits2_pos (Pos.iter xO m k)) = (Zpos (digits2_pos m) + Zpos k)%Z.
Proof.
  induction k as [| k IH] using Pos.peano_ind.
  - cbn. lia.
  - rewrite Pos.iter_succ. cbn [digits2_pos]. lia.
Qed.

Lemma shr_shift (m : positive) :
  iter_pos shr_1 52 (Build_shr_record (Zpos (Pos.iter xO m 52)) false false)
  = Build_shr_record (Zpos m) false false.
Proof. vm_compute. reflexivity. Qed.

Lemma mul_one_spec (x : spec_float) :
  valid_binary prec emax x = true -> SF64mul x (Prim2SF 1%float) = x.
Proof.
  intros Hvalid.
  change (Prim2SF 1%float) with (S754_finite false 4503599627370496 (-52)).
  destruct x as [s | s | | s m e]; unfold SF64mul, SFmul.
  - rewrite xorb_false_r. reflexivity.
  - rewrite xorb_false_r. reflexivity.
  - reflexivity.
  - cbn [valid_binary] in Hvalid. unfold bounded, canonical_mantissa in Hvalid.
    apply andb_true_iff in Hvalid as [Hcanon Hbound].
    apply Z.eqb_eq in Hcanon.
    rewrite xorb_false_r, mul_pow52.
    unfold binary_round_aux, shr_fexp. cbn [Zdigits2].
    rewrite digits_shift.
    replace (Zpos (digits2_pos m) + 52 + (e + -52))%Z
      with (Zpos (digits2_pos m) + e)%Z by lia.
    rewrite Hcanon.
    replace (e - (e + -52))%Z with 52%Z by lia.
    cbn [shr shr_record_of_loc]. rewrite shr_shift.
    cbn [shr_m loc_of_shr_record round_nearest_even Zdigits2].
    replace (e + -52 + 52)%Z with e by lia.
    rewrite Hcanon, Z.sub_diag. cbn [shr shr_record_of_loc shr_m].
    rewrite Hbound. reflexivity.
Qed.

(** a positive finite value has a sign, a mantissa and an exponent *)
Lemma positive_finite (v : float) :
  PrimFloat.ltb 0 v = true -> PrimFloat.ltb v infinity = true ->
  exists s m e, Prim2SF v = S754_finite s m e.
Proof.
  rewrite !ltb_spec. unfold SFltb.
  change (Prim2SF 0%float) with (S754_zero false).
  change (Prim2SF infinity) with (S754_infinity false).
  destruct (Prim2SF v) as [s | s | | s m e]; cbn; try discriminate.
  - destruct s; discriminate.
  - intros _ _. exists s, m, e. reflexivity.
Qed.

(** [v / v] is exactly 1 for a finite non-zero [v], and [r * 1] is [r]
    for every [r]. *)
Lemma div_self (v : float) :
  (exists s m e, Prim2SF v = S754_finite s m e) -> (v / v)%float = 1%float.
Proof.
  intros (s & m & e & Hv). apply Prim2SF_inj.
  rewrite div_spec, Hv. apply div_self_spec.
Qed.

Lemma mul_one (r : float) : (r * 1)%float = r.
Proof.
  apply Prim2SF_inj. rewrite mul_spec. apply mul_one_spec. apply Prim2SF_valid.
Qed.
End Binary64Facts.

(** ** Arithmetic of the extended reals on finite values *)

Module XRealFacts.
Import XReal.
Local Open Scope R_scope.

Lemma xdiv_fin (u v : R) : v <> 0 -> xdiv (Fin u) (Fin v) = Fin (u / v).
Proof.
  intros Hv. unfold xdiv. destruct (Req_dec_T v 0); [contradiction | reflexivity].
Qed.

Lemma xdiv_zero (u : R) : u < 0 -> xdiv (Fin u) (Fin 0) = NInf.
Proof.
  intros Hu. unfold xdiv.
  destruct (Req_dec_T 0 0); [| contradiction].
  destruct (Req_dec_T u 0); [lra |].
  destruct (Rlt_dec u 0); [reflexivity | contradiction].
Qed.

Lemma xsqrt_fin (u : R) : 0 <= u -> xsqrt (Fin u) = Fin (sqrt u).
Proof.
  intros Hu. unfold xsqrt. destruct (Rlt_dec u 0); [lra | reflexivity].
Qed.

Lemma Rpower_zero (u : R) : Rpower u 0 = 1.
Proof. unfold Rpower. rewrite Rmult_0_l. apply exp_0. Qed.

Lemma xpow_pos (u v : R) : 0 < u -> xpow (Fin u) (Fin v) = Fin (Rpower u v).
Proof.
  intros Hu. unfold xpow.
  destruct (Req_dec_T v 0) as [-> | Hv].
  - rewrite Rpower_zero. reflexivity.
  - destruct (Req_dec_T u 0); [lra |].
    destruct (Rlt_dec 0 u); [reflexivity | contradiction].
Qed.

Lemma Int_part_2 : Int_part 2 = 2%Z.
Proof.
  symmetry. apply Int_part_spec. simpl. lra.
Qed.

(** [Math.pow(u, 2)], and [u ** 2], is the square for every finite [u]. *)
Lemma xpow_2 (u : R) : xpow (Fin u) (Fin 2) = Fin (u * u).
Proof.
  unfold xpow.
  destruct (Req_dec_T 2 0); [lra |].
  destruct (Req_dec_T u 0) as [-> | Hu].
  - destruct (Rlt_dec 0 2); [| lra]. f_equal. lra.
  - destruct (Rlt_dec 0 u).
    + f_equal. replace 2 with (INR 2) by (simpl; lra).
      rewrite Rpower_pow by assumption. simpl. lra.
    + unfold is_integer. rewrite Int_part_2.
      destruct (Req_dec_T (IZR 2) 2); [| contradiction].
      f_equal. simpl. lra.
Qed.

Lemma xltb_fin (u v : R) : xltb (Fin u) (Fin v) = true <-> u < v.
Proof.
  unfold xltb. destruct (Rlt_dec u v); split; intros; try assumption;
    try reflexivity; try discriminate; contradiction.
Qed.

Lemma xleb_fin (u v : R) : xleb (Fin u) (Fin v) = true <-> u <= v.
Proof.
  unfold xleb, xltb, xeqb.
  destruct (Rlt_dec u v), (Req_dec_T u v); simpl; split; intros;
    try reflexivity; try discriminate; lra.
Qed.

Lemma xadd_fin (u v : R) : xadd (Fin u) (Fin v) = Fin (u + v).
Proof. reflexivity. Qed.

Lemma xsub_fin (u v : R) : xsub (Fin u) (Fin v) = Fin (u - v).
Proof. reflexivity. Qed.

Lemma xmul_fin (u v : R) : xmul (Fin u) (Fin v) = Fin (u * v).
Proof. reflexivity. Qed.

Lemma of_Q_fin (q : Q) : of_Q q = Fin (IZR (Qnum q) / IZR (Zpos (Qden q))).
Proof. reflexivity. Qed.

Lemma of_Q_int (n : Z) : of_Q (Qmake n 1) = Fin (IZR n).
Proof. unfold of_Q. cbn [Qnum Qden]. f_equal. field. Qed.
End XRealFacts.

(** ** Impedance referral (js/transformer_model.js) *)

Module ReferralFacts.
Import XReal XRealFacts TransformerModel.
Local Open Scope R_scope.
Local Existing Instance XReal.num.

Lemma scale_inf_pos (s : bool) (f : R) : 0 < f -> scale_inf s f = inf_of_sign s.
Proof.
  intros Hf. unfold scale_inf.
  destruct (Req_dec_T f 0); [lra |]. destruct (Rlt_dec f 0); [lra | reflexivity].
Qed.

Lemma xmul_pos (a : xreal) (f : R) :
  0 < f ->
  xmul a (Fin f) = match a with Fin u => Fin (u * f) | _ => a end.
Proof.
  intros Hf. destruct a; unfold xmul; try reflexivity;
    rewrite scale_inf_pos by assumption; reflexivity.
Qed.

Lemma xmul_one (a : xreal) : xmul a (Fin 1) = a.
Proof.
  rewrite xmul_pos by lra. destruct a; try reflexivity. f_equal. lra.
Qed.

Lemma xmul_there_and_back (a : xreal) (f g : R) :
  0 < f -> 0 < g -> f * g = 1 -> xmul (xmul a (Fin f)) (Fin g) = a.
Proof.
  intros Hf Hg Hfg. rewrite !xmul_pos by assumption.
  destruct a; try reflexivity.
  f_equal. rewrite Rmult_assoc, Hfg. lra.
Qed.

(** The factor of a referral between two finite non-zero voltages. *)
Lemma referral_factor (z : Impedance xreal) (v w : R) :
  v <> 0 ->
  let z' := referImpedanceBetweenLevels z (Fin v) (Fin w) in
  ref_r z' = xmul (r z) (Fin ((w / v) * (w / v))) /\
  ref_x z' = xmul (x z) (Fin ((w / v) * (w / v))) /\
  ratio z' = Fin (w / v).
Proof.
  intros Hv. unfold referImpedanceBetweenLevels. cbn.
  rewrite !xdiv_fin by assumption. rewrite !xmul_fin. auto.
Qed.
End ReferralFacts.



(** The round trip 13.8 kV to 480 V and back on binary64, for R = 0.5
    and X = 2 ohm: R and X come back within 2^-50 of their value,
    relatively. *)
Example referral_round_trip_binary64 (pow : float -> float -> float)
    (log10 : float -> float) :
  let refer :=
    @TransformerModel.referImpedanceBetweenLevels float (Binary64.num pow log10) in
  let z := {| TransformerModel.r := 0.5%float; TransformerModel.x := 2%float |} in
  let back :=
    refer (TransformerModel.asImpedance (refer z 13800%float 480%float))
          480%float 13800%float in
  PrimFloat.leb (PrimFloat.abs (TransformerModel.ref_r back - 0.5))
                (0.5 * 0x1p-50) = true /\
  PrimFloat.leb (PrimFloat.abs (TransformerModel.ref_x back - 2))
                (2 * 0x1p-50) = true.
Proof.
  intros refer z back. split; vm_compute; reflexivity.
Qed.



(** ** First-cycle asymmetry multiplier (js/standard_specific_calcs.js) *)

Module MultiplierFacts.
Import XReal XRealFacts.
Local Open Scope R_scope.

Lemma isNaN_fin (u : R) : isNaN (Fin u) = false.
Proof.
  unfold isNaN. cbn. unfold xeqb.
  destruct (Req_dec_T u u); [reflexivity | contradiction].
Qed.

Lemma Math_min_fin (a b : R) : Math_min (Fin a) (Fin b) = Fin (Rmin a b).
Proof.
  unfold Math_min. rewrite !isNaN_fin. cbn.
  unfold xltb, Rmin. destruct (Rlt_dec b a), (Rle_dec a b); try reflexivity;
    f_equal; lra.
Qed.

Lemma Math_max_fin (a b : R) : Math_max (Fin a) (Fin b) = Fin (Rmax a b).
Proof.
  unfold Math_max. rewrite !isNaN_fin. cbn.
  unfold xltb, Rmax. destruct (Rlt_dec a b), (Rle_dec a b); try reflexivity;
    f_equal; lra.
Qed.

Lemma exp_1_gt_1 : 1 < exp 1.
Proof. pose proof (exp_ineq1 1). lra. Qed.

Lemma asymmetryFormula_gt_1 (xr : R) : 1 < asymmetryFormula xr.
Proof.
  unfold asymmetryFormula. rewrite <- sqrt_1 at 1.
  apply sqrt_lt_1; try lra.
  - pose proof (exp_pos (- 4 * PI / xr)). lra.
  - pose proof (exp_pos (- 4 * PI / xr)). lra.
Qed.

Lemma asymmetryFormula_increasing (a b : R) : 0 < a -> a < b -> asymmetryFormula a < asymmetryFormula b.
Proof.
  intros Ha Hab. unfold asymmetryFormula.
  assert (Hexp : exp (- 4 * PI / a) < exp (- 4 * PI / b)).
  { apply exp_increasing.
    pose proof PI_RGT_0 as Hpi.
    assert (Hinv : / b < / a) by (apply Rinv_lt_contravar; [nra | assumption]).
    unfold Rdiv. nra. }
  pose proof (exp_pos (- 4 * PI / a)).
  apply sqrt_lt_1; lra.
Qed.

Lemma sqrt_3_gt_cap : 1.732 < sqrt 3.
Proof.
  rewrite <- (sqrt_square 1.732) at 1 by lra.
  apply sqrt_lt_1; lra.
Qed.

Lemma asymmetryFormula_lt_sqrt_3 (xr : R) : 0 < xr -> asymmetryFormula xr < sqrt 3.
Proof.
  intros Hxr. unfold asymmetryFormula.
  assert (Hexp : exp (- 4 * PI / xr) < 1).
  { rewrite <- exp_0. apply exp_increasing.
    pose proof PI_RGT_0 as Hpi.
    assert (Hinv : 0 < / xr) by (apply Rinv_0_lt_compat; assumption).
    unfold Rdiv. nra. }
  pose proof (exp_pos (- 4 * PI / xr)).
  apply sqrt_lt_1; lra.
Qed.

(** The clamp on binary64: a result that is a number lies between 1.0
    and 1.732 (the double nearest to it). *)
Lemma clamp_binary64 (pow : float -> float -> float) (log10 : float -> float)
    (xr : float) :
  let multiplier :=
    @StandardCalcs.calculateFirstCycleAsymmetricalMultiplier
      float (Binary64.num pow log10) xr in
  isNaN (num := Binary64.num pow log10) multiplier = true \/
  (PrimFloat.leb 1 multiplier = true /\
   PrimFloat.leb multiplier 0x1.bb645a1cac083p+0 = true).
Proof.
  unfold StandardCalcs.calculateFirstCycleAsymmetricalMultiplier.
  cbv zeta.
  match goal with
  | |- context [Math_min _ ?inner] => generalize inner
  end.
  intros m.
  unfold Math_max, Math_min, isNaN.
  cbn [eqb ltb ofQ Binary64.num].
  change (Binary64.of_Q 1.732) with 0x1.bb645a1cac083p+0%float.
  change (Binary64.of_Q 1.0) with 1%float.
  change (PrimFloat.eqb 1 1) with true.
  change (PrimFloat.eqb 0x1.bb645a1cac083p+0 0x1.bb645a1cac083p+0) with true.
  cbn [negb].
  destruct (PrimFloat.eqb m m) eqn:Hnan; cbn [negb].
  - destruct (PrimFloat.ltb m 0x1.bb645a1cac083p+0) eqn:Hcap.
    + rewrite Hnan. cbn [negb]. right.
      destruct (PrimFloat.ltb 1 m) eqn:Hlow.
      * split; apply Binary64Facts.ltb_leb; assumption.
      * split; reflexivity.
    + right. split; reflexivity.
  - rewrite Hnan. cbn [negb]. rewrite Hnan. left. reflexivity.
Qed.
End MultiplierFacts.

Module MultiplierValues.
Import XReal XRealFacts MultiplierFacts StandardCalcs.
Local Open Scope R_scope.

Lemma multiplier_positive (xr : R) :
  0 < xr ->
  calculateFirstCycleAsymmetricalMultiplier (Fin xr)
  = Fin (Rmin 1.732 (asymmetryFormula xr)).
Proof.
  intros Hxr. unfold calculateFirstCycleAsymmetricalMultiplier. cbn.
  rewrite !of_Q_int, !of_Q_fin. cbn [Qnum Qden].
  rewrite xmul_fin, xdiv_fin by lra.
  rewrite xpow_pos by (pose proof exp_1_gt_1; lra).
  rewrite xmul_fin, xadd_fin.
  assert (Hpow : Rpower (exp 1) (-4 * PI / xr) = exp (-4 * PI / xr)).
  { unfold Rpower. rewrite ln_exp. f_equal. lra. }
  rewrite Hpow.
  pose proof (exp_pos (-4 * PI / xr)) as Hexp.
  rewrite xsqrt_fin by lra.
  rewrite Math_min_fin, Math_max_fin. f_equal.
  fold (asymmetryFormula xr).
  pose proof (asymmetryFormula_gt_1 xr) as Hgt.
  replace (1732 / 1000) with 1.732 by lra.
  replace (10 / 10) with 1 by lra.
  unfold Rmax, Rmin.
  destruct (Rle_dec 1.732 (asymmetryFormula xr)), (Rle_dec 1 _); lra.
Qed.

Lemma multiplier_zero :
  calculateFirstCycleAsymmetricalMultiplier (Fin 0) = Fin 1.
Proof.
  unfold calculateFirstCycleAsymmetricalMultiplier. cbn.
  rewrite !of_Q_int, !of_Q_fin. cbn [Qnum Qden].
  rewrite xmul_fin.
  rewrite xdiv_zero by (pose proof PI_RGT_0; lra).
  assert (Hpow : xpow (Fin (exp 1)) NInf = Fin 0).
  { unfold xpow. pose proof exp_1_gt_1 as He.
    destruct (Rlt_dec 1 (Rabs (exp 1))) as [|Hn]; [reflexivity |].
    exfalso. apply Hn. rewrite Rabs_right; lra. }
  rewrite Hpow, xmul_fin, xadd_fin.
  rewrite xsqrt_fin by lra.
  rewrite Math_min_fin, Math_max_fin. f_equal.
  replace (1 + 2 * 0) with 1 by lra. rewrite sqrt_1.
  unfold Rmax, Rmin.
  destruct (Rle_dec (1732 / 1000) 1), (Rle_dec (10 / 10) _); lra.
Qed.

Lemma multiplier_infinite :
  calculateFirstCycleAsymmetricalMultiplier PInf = Fin 1.732.
Proof.
  unfold calculateFirstCycleAsymmetricalMultiplier. cbn.
  rewrite !of_Q_int, !of_Q_fin. cbn [Qnum Qden].
  rewrite xmul_fin.
  change (xdiv (Fin (-4 * PI)) PInf) with (Fin 0).
  rewrite xpow_pos by (pose proof exp_1_gt_1; lra).
  rewrite Rpower_zero, xmul_fin, xadd_fin.
  rewrite xsqrt_fin by lra.
  rewrite Math_min_fin, Math_max_fin. f_equal.
  replace (1 + 2 * 1) with 3 by lra.
  pose proof sqrt_3_gt_cap.
  unfold Rmax, Rmin.
  destruct (Rle_dec (1732 / 1000) (sqrt 3)), (Rle_dec (10 / 10) _); lra.
Qed.
End MultiplierValues.



(** ** Arc flash (js/arc_flash_calculation.js) *)

Module ArcFlashFacts.
Import XReal XRealFacts ArcFlash.
Local Open Scope R_scope.

Ltac xfin :=
  repeat (rewrite ?of_Q_fin, ?xadd_fin, ?xsub_fin, ?xmul_fin; cbn [Qnum Qden];
          try (rewrite xdiv_fin by lra)).

Lemma xlog10_pos (u : R) : 0 < u -> xlog10 (Fin u) = Fin (ln u / ln 10).
Proof.
  intros Hu. unfold xlog10.
  destruct (Rlt_dec u 0); [lra |]. destruct (Req_dec_T u 0); [lra | reflexivity].
Qed.

Lemma ln_10_pos : 0 < ln 10.
Proof. rewrite <- ln_1. apply ln_increasing; lra. Qed.

Lemma xlog10_10 : xlog10 (Fin 10) = Fin 1.
Proof.
  rewrite xlog10_pos by lra. f_equal. field.
  pose proof ln_10_pos. lra.
Qed.

Lemma xlog10_power (l : R) : xlog10 (Fin (Rpower 10 l)) = Fin l.
Proof.
  rewrite xlog10_pos by (unfold Rpower; apply exp_pos).
  unfold Rpower. rewrite ln_exp. f_equal. field.
  pose proof ln_10_pos. lra.
Qed.

Lemma xltb_true (u v : R) : u < v -> xltb (Fin u) (Fin v) = true.
Proof. apply xltb_fin. Qed.

Lemma xltb_false (u v : R) : v <= u -> xltb (Fin u) (Fin v) = false.
Proof.
  intros H. destruct (xltb (Fin u) (Fin v)) eqn:E; [| reflexivity].
  apply xltb_fin in E. lra.
Qed.

Lemma xleb_true (u v : R) : u <= v -> xleb (Fin u) (Fin v) = true.
Proof. apply xleb_fin. Qed.

Lemma xleb_false (u v : R) : v < u -> xleb (Fin u) (Fin v) = false.
Proof.
  intros H. destruct (xleb (Fin u) (Fin v)) eqn:E; [| reflexivity].
  apply xleb_fin in E. lra.
Qed.

(** The boundary [calculateArcFlashBoundary] returns for finite
    arguments. *)
Lemma boundary_value (E D : R) :
  calculateArcFlashBoundary (Fin E) (Fin D)
  = Fin (if Rle_dec E 5 then D else D * sqrt (E / 5)).
Proof.
  unfold calculateArcFlashBoundary. cbn.
  rewrite !of_Q_fin. cbn [Qnum Qden].
  destruct (Rle_dec E 5) as [Hle | Hgt].
  - rewrite xleb_true by lra. reflexivity.
  - rewrite xleb_false by lra.
    rewrite !xdiv_fin by lra.
    rewrite xpow_pos by lra.
    rewrite xmul_fin. f_equal. f_equal.
    replace (1 / 1 / (20 / 10)) with (/ 2) by lra.
    replace (E / (5 / 1)) with (E / 5) by lra.
    apply Rpower_sqrt. lra.
Qed.

Lemma arcingCurrent_switchboard480 :
  calculateArcingCurrent (Fin 480) (Fin 10) (Fin 32) = Fin (Rpower 10 0.743144).
Proof.
  unfold calculateArcingCurrent. cbn.
  rewrite !of_Q_fin. cbn [Qnum Qden].
  rewrite xltb_true by lra.
  rewrite xlog10_10. xfin.
  rewrite xpow_pos by lra. f_equal. f_equal; lra.
Qed.

Lemma incidentEnergy_switchboard480 (d : R) :
  0 < d ->
  incidentEnergyAt switchboard480 (Fin d)
  = Fin (6.276 * Rpower 10 0.046538664 * (Rpower 610 3.9138 / Rpower d 3.9138)).
Proof.
  intros Hd. unfold incidentEnergyAt, calculateIncidentEnergy, switchboard480. cbn.
  rewrite arcingCurrent_switchboard480, xlog10_power.
  rewrite !of_Q_fin. cbn [Qnum Qden].
  rewrite xltb_true by lra.
  xfin.
  rewrite !xpow_pos by lra. xfin.
  assert (Hp : 0 < Rpower d (973 / 1000 + 919 / 10000 * 32))
    by (unfold Rpower; apply exp_pos).
  rewrite xdiv_fin by lra.
  f_equal.
  replace (973 / 1000 + 919 / 10000 * 32) with 3.9138 in * by lra.
  replace (-792 / 1000 + 0 / 1 + 1081 / 1000 * 0.743144 + 11 / 10000 * 32)
    with 0.046538664 by lra.
  replace (610 / 1) with 610 by lra.
  replace (10 / 1) with 10 by lra.
  assert (Hc : 4184 / 1000 * (10 / 10) * (0.3 / (2 / 10)) = 6.276) by lra.
  rewrite <- Hc.
  set (c1 := 4184 / 1000 * (10 / 10)). set (c2 := 0.3 / (2 / 10)).
  unfold Rdiv. ring.
Qed.
End ArcFlashFacts.

(** The boundary reported by [calculateArcFlashIEEE1584_2018] is
    [calculateArcFlashBoundary] of the incident energy it reports and of
    the working distance, in every interpretation of the numbers. *)
Lemma reported_boundary {N : Type} {num : JsNum N}
    (params : ArcFlash.Params N) (result : ArcFlash.Applicable N) :
  ArcFlash.calculateArcFlashIEEE1584_2018 params = ArcFlash.Computed result ->
  ArcFlash.af_arcFlashBoundary result
  = ArcFlash.calculateArcFlashBoundary (ArcFlash.af_incidentEnergy result)
                                       (ArcFlash.workingDistance params) /\
  ArcFlash.af_incidentEnergy result
  = incidentEnergyAt params (ArcFlash.workingDistance params).
Proof.
  unfold ArcFlash.calculateArcFlashIEEE1584_2018.
  destruct (_ || _); [discriminate |].
  intros [= <-]. cbn. split; [reflexivity |].
  unfold incidentEnergyAt. destruct params; reflexivity.
Qed.




(** ** The arc-flash gate (js/calculation_orchestrator.js) *)

Module GateFacts.
Import Orchestrator.
Section Gate.
Context {N : Type} {num : JsNum N}.
Local Open Scope js_scope.

Variable globals : Globals.
Variables workingDistance arcDuration : N.
Variable enclosureType : string.

(** A bus outside the voltage range gets a record that is not
    evaluated, lists the voltage first among the missing fields, and
    leaves the ledger as it is. *)
Lemma arcFlashOf_outside (scResult : BusResult N) (l : Ledger N) :
  (#208 <=? voltage scResult) && (voltage scResult <=? #15000) = false ->
  exists fields,
    arcFlashOf globals workingDistance arcDuration enclosureType scResult l
    = ({| af_busId := busId scResult;
          af_busName := busName scResult;
          af_voltage := voltage scResult;
          af_boltedFaultCurrent :=
            orElse (threePhaseWithMotors (faultCurrentsKA scResult))
                   (threePhase (kA (faultCurrentsKA scResult)));
          detail := NotEvaluated
                      (VoltageOutsideRange (voltage scResult) :: fields) |}, l).
Proof.
  intros Hout. unfold arcFlashOf. rewrite Hout. cbn [negb pushIf].
  eexists. cbn [app List.length Nat.ltb Nat.leb]. reflexivity.
Qed.

Lemma arcFlashOfAll_length (scs : list (BusResult N)) (l : Ledger N) :
  List.length (fst (arcFlashOfAll globals workingDistance arcDuration
                                  enclosureType scs l))
  = List.length scs.
Proof.
  revert l. induction scs as [| sc rest IH]; intros l; [reflexivity |].
  cbn [arcFlashOfAll].
  destruct (arcFlashOf _ _ _ _ sc l) as [rec l1].
  specialize (IH l1).
  destruct (arcFlashOfAll _ _ _ _ rest l1) as [recs l2].
  cbn in *. congruence.
Qed.

(** The record at position [i] is the one [arcFlashOf] builds for the
    short-circuit result at position [i], under some ledger. *)
Lemma arcFlashOfAll_nth (scs : list (BusResult N)) (l : Ledger N)
    (i : nat) (sc : BusResult N) :
  nth_error scs i = Some sc ->
  exists l',
    nth_error (fst (arcFlashOfAll globals workingDistance arcDuration
                                  enclosureType scs l)) i
    = Some (fst (arcFlashOf globals workingDistance arcDuration
                            enclosureType sc l')).
Proof.
  revert l i. induction scs as [| sc0 rest IH]; intros l i Hi.
  - destruct i; discriminate.
  - cbn [arcFlashOfAll].
    destruct (arcFlashOf _ _ _ _ sc0 l) as [rec l1] eqn:E0.
    destruct (arcFlashOfAll _ _ _ _ rest l1) as [recs l2] eqn:E1.
    destruct i as [| i].
    + injection Hi as <-. exists l. rewrite E0. reflexivity.
    + cbn in Hi. destruct (IH l1 i Hi) as [l' Hl']. exists l'.
      rewrite E1 in Hl'. exact Hl'.
Qed.
End Gate.
End GateFacts.

(** C4. Whatever the parameters and the loaded modules, a bus whose
    voltage is not within [208 V, 15000 V] gets an arc-flash record with
    [evaluated: false] and a non-empty [missingFields], and no incident
    energy.  Every short-circuit result gets exactly one record, at the
    same position. *)
Theorem arc_flash_outside_range_not_evaluated :
  forall (N : Type) (num : JsNum N)
         (globals : Orchestrator.Globals) (projectData : ProjectData N)
         (shortCircuitResults : list (Orchestrator.BusResult N))
         (l : Orchestrator.Ledger N)
         (i : nat) (scResult : Orchestrator.BusResult N),
    nth_error shortCircuitResults i = Some scResult ->
    (leb (ofQ 208) (Orchestrator.voltage scResult)
     && leb (Orchestrator.voltage scResult) (ofQ 15000) = false) ->
    let records :=
      fst (Orchestrator.calculateArcFlash globals projectData
                                          shortCircuitResults l) in
    List.length records = List.length shortCircuitResults /\
    exists rec fields,
      nth_error records i = Some rec /\
      Orchestrator.af_busId rec = Orchestrator.busId scResult /\
      Orchestrator.evaluated rec = false /\
      Orchestrator.missingFields rec = Some fields /\
      fields <> [] /\
      Orchestrator.incidentEnergy rec = None.
Proof.
  intros N num globals projectData scs l i sc Hi Hout records.
  subst records. unfold Orchestrator.calculateArcFlash.
  split; [apply GateFacts.arcFlashOfAll_length |].
  destruct (GateFacts.arcFlashOfAll_nth globals
              (orElse (pd_workingDistance projectData) (ofQ 450))
              (orElse (pd_arcDuration projectData) (ofQ 0.1))
              (orElseString (pd_enclosureType projectData) "VCB")
              scs l i sc Hi) as [l' Hnth].
  destruct (GateFacts.arcFlashOf_outside globals
              (orElse (pd_workingDistance projectData) (ofQ 450))
              (orElse (pd_arcDuration projectData) (ofQ 0.1))
              (orElseString (pd_enclosureType projectData) "VCB")
              sc l' Hout) as [fields Hrec].
  rewrite Hrec in Hnth. cbn [fst] in Hnth.
  eexists. exists (Orchestrator.VoltageOutsideRange (Orchestrator.voltage sc) :: fields).
  split; [exact Hnth |].
  cbn. repeat split. discriminate.
Qed.

(** A 20 kV bus, with both optional modules loaded. *)
Lemma arc_flash_outside_range_not_evaluated_witness :
  let records :=
    fst (Orchestrator.calculateArcFlash allModules
           (utilityProject (Fin 20000) (Fin 500)) [result20kV] emptyLedger) in
  List.length records = List.length [result20kV] /\
  exists rec fields,
    nth_error records 0 = Some rec /\
    Orchestrator.af_busId rec = Orchestrator.busId result20kV /\
    Orchestrator.evaluated rec = false /\
    Orchestrator.missingFields rec = Some fields /\
    fields <> [] /\
    Orchestrator.incidentEnergy rec = None.
Proof.
  apply (arc_flash_outside_range_not_evaluated xreal XReal.num allModules
           (utilityProject (Fin 20000) (Fin 500)) [result20kV] emptyLedger
           0 result20kV).
  - reflexivity.
  - cbn. rewrite !XRealFacts.of_Q_fin. cbn [Qnum Qden].
    rewrite ArcFlashFacts.xleb_true by lra.
    rewrite ArcFlashFacts.xleb_false by lra. reflexivity.
Defined.

(** The same on binary64, run from the project data: a utility source
    of 500 MVA on a 20 kV system.  The only record is not evaluated and
    its missing fields are the voltage, whatever [Math.pow] and
    [Math.log10] compute. *)
Example arc_flash_20kV_binary64 :
  forall (pow : float -> float -> float) (log10 : float -> float),
    let num := Binary64.num pow log10 in
    exists thevenin shortCircuit,
      shortCircuitStudy (utilityProject 20000%float 500%float)
      = Ok (thevenin, shortCircuit) /\
      map Orchestrator.detail
          (fst (Orchestrator.calculateArcFlash allModules
                  (utilityProject 20000%float 500%float)
                  shortCircuit emptyLedger))
      = [Orchestrator.NotEvaluated [Orchestrator.VoltageOutsideRange 20000%float]].
Proof.
  intros pow log10 num. do 2 eexists. split.
  - vm_compute. reflexivity.
  - vm_compute. reflexivity.
Qed.

(** ** PPE category (js/ppe_selection.js) *)

Module PPEFacts.
Import Binary64Facts.

(** [c <= E] rules out [E < b] for every breakpoint [b <= c]. *)
Lemma below_breakpoint (b c E : float) :
  PrimFloat.leb b c = true -> PrimFloat.leb c E = true ->
  PrimFloat.ltb E b = false.
Proof.
  intros Hbc HcE. apply leb_ltb_false. apply (leb_trans b c E); assumption.
Qed.

(** from [c <= E]: [E < b] is false for the breakpoints [b <= c] *)
Ltac breakpoints H :=
  match type of H with
  | PrimFloat.leb ?c ?E = true =>
      try rewrite (below_breakpoint 1.2 c E eq_refl H);
      try rewrite (below_breakpoint 4 c E eq_refl H);
      try rewrite (below_breakpoint 8 c E eq_refl H);
      try rewrite (below_breakpoint 25 c E eq_refl H);
      try rewrite (below_breakpoint 40 c E eq_refl H)
  end.

Ltac cases :=
  repeat match goal with
  | |- context [PrimFloat.leb ?a ?b] => destruct (PrimFloat.leb a b)
  | |- context [PrimFloat.ltb ?a ?b] => destruct (PrimFloat.ltb a b)
  end; reflexivity.
End PPEFacts.

(** C6. For every binary64 incident energy E in cal/cm2 the category is
    a number from 0 to 4, selected by the breakpoints 1.2, 4, 8, 25 and
    40: 0 on [0, 1.2), 1 on [1.2, 4), 2 on [4, 8), 3 on [8, 25), 4 on
    [25, 40] without a warning, and 4 with the warning that the energy
    exceeds the maximum of category 4 for every E above 40. *)
Theorem ppe_category_by_breakpoints :
  forall (pow : float -> float -> float) (log10 : float -> float) (E : float),
    let num := Binary64.num pow log10 in
    let rec := PPE.getDetailedPPERecommendations E in
    (PPE.category rec <= 4)%nat /\
    PPE.category rec = PPE.getPPECategory E /\
    (leb (ofQ 0) E = true -> ltb E (ofQ 1.2) = true -> PPE.category rec = 0%nat) /\
    (leb (ofQ 1.2) E = true -> ltb E (ofQ 4) = true -> PPE.category rec = 1%nat) /\
    (leb (ofQ 4) E = true -> ltb E (ofQ 8) = true -> PPE.category rec = 2%nat) /\
    (leb (ofQ 8) E = true -> ltb E (ofQ 25) = true -> PPE.category rec = 3%nat) /\
    (leb (ofQ 25) E = true -> leb E (ofQ 40) = true -> PPE.category rec = 4%nat) /\
    (leb E (ofQ 40) = true -> PPE.warning rec = None) /\
    (ltb (ofQ 40) E = true ->
       PPE.category rec = 4%nat /\
       PPE.warning rec = Some (PPE.ExceedsCategory4Maximum E)).
Proof.
  intros pow log10 E num rec. subst rec num.
  vm_compute.
  repeat split.
  - repeat match goal with
    | |- context [PrimFloat.leb ?a ?b] => destruct (PrimFloat.leb a b)
    | |- context [PrimFloat.ltb ?a ?b] => destruct (PrimFloat.ltb a b)
    end; lia.
  - intros H1 H2. rewrite H1, H2. reflexivity.
  - intros H1 H2. PPEFacts.breakpoints H1. rewrite H1, H2.
    PPEFacts.cases.
  - intros H1 H2. PPEFacts.breakpoints H1. rewrite H1, H2.
    PPEFacts.cases.
  - intros H1 H2. PPEFacts.breakpoints H1. rewrite H1, H2.
    PPEFacts.cases.
  - intros H1 H2. PPEFacts.breakpoints H1. rewrite H1.
    destruct (PrimFloat.ltb E 40) eqn:Hlt.
    + PPEFacts.cases.
    + rewrite (Binary64Facts.leb_not_ltb E 40 H2 Hlt). PPEFacts.cases.
  - intros H1. rewrite (Binary64Facts.leb_ltb_false E 40 H1). reflexivity.
  - match goal with H : PrimFloat.ltb 40 E = true |- _ =>
      pose proof (Binary64Facts.ltb_leb 40 E H) as H2
    end.
    PPEFacts.breakpoints H2. rewrite H2. PPEFacts.cases.
  - match goal with H : PrimFloat.ltb 40 E = true |- _ => rewrite H end.
    reflexivity.
Qed.

(** 6.5 cal/cm2 is category 2; 52 cal/cm2 is category 4 with the
    warning. *)
Lemma ppe_category_by_breakpoints_witness :
  let num := Binary64.num anyPow anyLog10 in
  PPE.category (PPE.getDetailedPPERecommendations 6.5%float) = 2%nat /\
  PPE.category (PPE.getDetailedPPERecommendations 52%float) = 4%nat /\
  PPE.warning (PPE.getDetailedPPERecommendations 52%float)
  = Some (PPE.ExceedsCategory4Maximum 52%float).
Proof.
  intros num.
  destruct (ppe_category_by_breakpoints anyPow anyLog10 6.5%float)
    as (_ & _ & _ & _ & Hcat2 & _).
  destruct (ppe_category_by_breakpoints anyPow anyLog10 52%float)
    as (_ & _ & _ & _ & _ & _ & _ & _ & Habove).
  split; [apply Hcat2; reflexivity |].
  apply Habove. reflexivity.
Defined.

(** ** Transformer power unit (topology_manager.js) *)

Module LedgerFacts.
Import Orchestrator.

Lemma topology_warnings_recorded {N : Type} (ws : list TopologyManager.Issue)
    (l : Ledger N) :
  assumptions
    (fold_left (fun l warning =>
                  addAssumption "Topology" (TopologyWarning warning)
                    (logStep (TopologyWarningLogged warning) l))
               ws l)
  = assumptions l
    ++ map (fun w => {| category := "Topology";
                        description := TopologyWarning w |}) ws.
Proof.
  revert l. induction ws as [| w ws IH]; intros l.
  - cbn. rewrite app_nil_r. reflexivity.
  - cbn [fold_left map]. rewrite IH. cbn. rewrite <- app_assoc. reflexivity.
Qed.
End LedgerFacts.

(** Building the topology of [untaggedProject] on binary64. *)
Lemma untaggedProject_topology (pow : float -> float -> float)
    (log10 : float -> float) :
  let num := Binary64.num pow log10 in
  exists topology,
    Orchestrator.buildTopology untaggedProject emptyLedger []
    = Ok (topology,
          {| Orchestrator.calculationLog := []; Orchestrator.assumptions := [] |},
          [PowerUnitDefaulted "T1" "kVA" 440%float 150%float]).
Proof.
  intros num. eexists. vm_compute. reflexivity.
Qed.

(** C7 fails as stated: the inference of the unit is not recorded in the
    assumption ledger.  Building the topology of a 13.2 kV project with
    a transformer "T1" of power 150 at 0.44 kV and no [powerUnit] leaves
    the ledger empty; the inference (kVA, from 440 V) went to
    [console.warn]. *)
Lemma power_unit_inference_not_in_ledger :
  let num := Binary64.num anyPow anyLog10 in
  exists topology,
    Orchestrator.buildTopology untaggedProject emptyLedger []
    = Ok (topology,
          {| Orchestrator.calculationLog := []; Orchestrator.assumptions := [] |},
          [PowerUnitDefaulted "T1" "kVA" 440%float 150%float]).
Proof.
  exact (untaggedProject_topology anyPow anyLog10).
Qed.

(** C7, as the code has it.  A [powerUnit] of "kVA" or "MVA" decides the
    conversion to MVA: power/1000, or the power itself.  Without one of
    these tags the unit is inferred from the secondary voltage (given in
    kV, 0.48 when absent): kVA when it is at most 1000 V, MVA above,
    applied to the power (1 when absent).  The inference is reported on
    the console, once for a transformer object, which is marked; the
    tagged cases report nothing.  Building the topology writes to the
    ledger the warnings of the topology validation only. *)
Theorem transformer_power_unit_resolution :
  forall (N : Type) (num : JsNum N) (transformer : Component.t N)
         (console : list (ConsoleMessage N)),
    let result := TopologyManager.getTransformerPowerMVA transformer console in
    let powerMVA := fst (fst result) in
    let transformer' := snd (fst result) in
    let console' := snd result in
    let secondaryV :=
      mul (orElse (Component.secondaryV transformer) (ofQ 0.48)) (ofQ 1000) in
    let power := orElse (Component.power transformer) (ofQ 1) in
    (Component.powerUnit transformer = Some "kVA" ->
       powerMVA = div (toNumber (Component.power transformer)) (ofQ 1000) /\
       console' = console /\ transformer' = transformer) /\
    (Component.powerUnit transformer = Some "MVA" ->
       powerMVA = toNumber (Component.power transformer) /\
       console' = console /\ transformer' = transformer) /\
    (stringIs (Component.powerUnit transformer) "kVA" = false ->
     stringIs (Component.powerUnit transformer) "MVA" = false ->
       (leb secondaryV (ofQ 1000) = true -> powerMVA = div power (ofQ 1000)) /\
       (leb secondaryV (ofQ 1000) = false -> powerMVA = power) /\
       (Component._powerUnitWarningLogged transformer = false ->
          console' = console
            ++ [PowerUnitDefaulted
                  (orElseString (Component.name transformer) "Unnamed")
                  (if leb secondaryV (ofQ 1000) then "kVA" else "MVA")
                  secondaryV power] /\
          Component._powerUnitWarningLogged transformer' = true) /\
       (Component._powerUnitWarningLogged transformer = true ->
          console' = console /\ transformer' = transformer)) /\
    (forall (projectData : ProjectData N) (l l' : Orchestrator.Ledger N)
            (topology : TopologyManager.Topology N)
            (consoleAfter : list (ConsoleMessage N)),
       Orchestrator.buildTopology projectData l console
       = Ok (topology, l', consoleAfter) ->
       exists warnings : list TopologyManager.Issue,
         Orchestrator.assumptions l'
         = Orchestrator.assumptions l
           ++ map (fun w => {| Orchestrator.category := "Topology";
                               Orchestrator.description :=
                                 Orchestrator.TopologyWarning w |})
                  warnings).
Proof.
  intros N num transformer console result powerMVA transformer' console'
         secondaryV power.
  subst result powerMVA transformer' console'.
  unfold TopologyManager.getTransformerPowerMVA.
  split; [| split; [| split]].
  - intros Hu. rewrite Hu. cbn. auto.
  - intros Hu. rewrite Hu. cbn. auto.
  - intros Hk Hm. rewrite Hk, Hm. fold secondaryV. fold power.
    destruct (leb secondaryV (ofQ 1000)) eqn:Hle;
      destruct (Component._powerUnitWarningLogged transformer) eqn:Hflag;
      cbn; repeat split; intros; try discriminate; try reflexivity.
  - intros projectData l l' topology consoleAfter.
    unfold Orchestrator.buildTopology.
    destruct (TopologyManager.buildFromProject projectData console)
      as [[topology0 console0] | e];
      cbn -[TopologyManager.validateTopology fold_left]; [| discriminate].
    destruct (negb _); [discriminate |].
    intros [= <- <- <-]. eexists. apply LedgerFacts.topology_warnings_recorded.
Qed.

(** The transformer of [untaggedProject], on binary64: 440 V is at most
    1000 V, so 150 is read as 150 kVA, 0.15 MVA, and the console gets
    the report. *)
Lemma transformer_power_unit_resolution_witness :
  let num := Binary64.num anyPow anyLog10 in
  let result := TopologyManager.getTransformerPowerMVA untaggedTransformer [] in
  fst (fst result) = 0.15%float /\
  snd result = [PowerUnitDefaulted "T1" "kVA" 440%float 150%float].
Proof.
  intros num result.
  destruct (transformer_power_unit_resolution float num untaggedTransformer [])
    as (_ & _ & Hinfer & _).
  destruct (Hinfer eq_refl eq_refl) as (HkVA & _ & Hwarn & _).
  split.
  - subst result. rewrite (HkVA eq_refl). vm_compute. reflexivity.
  - subst result. destruct (Hwarn eq_refl) as [-> _]. vm_compute. reflexivity.
Defined.

(** ** Division guards (bus_model.js, js/calculation_orchestrator.js) *)

(** On binary64, whatever [Math.pow] and [Math.log10] compute: a bus
    without impedance has an infinite fault current; in the study of
    [untaggedProject] the source bus, which carries the transformer, has
    a Thevenin impedance and a time constant that are [NaN]. *)
Lemma unguarded_divisions (pow : float -> float -> float)
    (log10 : float -> float) :
  let num := Binary64.num pow log10 in
  fst (Bus.calculateFaultCurrent (Bus.new 1 "Source" 480%float "source") None)
  = PrimFloat.infinity /\
  exists thevenin shortCircuit,
    shortCircuitStudy untaggedProject = Ok (thevenin, shortCircuit) /\
    map (fun th => isNaN (Orchestrator.th_z th)) thevenin = [true; false] /\
    map (fun sc => isNaN (Orchestrator.tau_s (Orchestrator.results sc)))
        shortCircuit = [true; false].
Proof.
  intros num. split; [vm_compute; reflexivity |].
  do 2 eexists. split; [vm_compute; reflexivity |].
  split; vm_compute; reflexivity.
Qed.

(** C8 fails as stated: divisions are not all guarded and nothing is
    logged.  [Bus.calculateFaultCurrent] returns [Infinity] for a 480 V
    bus without impedance, and the study of a 13.2 kV utility feeding
    a transformer reports [NaN] for the Thevenin impedance and for the
    time constant of the source bus. *)
Lemma divisions_are_not_all_guarded :
  let num := Binary64.num anyPow anyLog10 in
  fst (Bus.calculateFaultCurrent (Bus.new 1 "Source" 480%float "source") None)
  = PrimFloat.infinity /\
  exists thevenin shortCircuit,
    shortCircuitStudy untaggedProject = Ok (thevenin, shortCircuit) /\
    map (fun th => isNaN (Orchestrator.th_z th)) thevenin = [true; false] /\
    map (fun sc => isNaN (Orchestrator.tau_s (Orchestrator.results sc)))
        shortCircuit = [true; false].
Proof.
  exact (unguarded_divisions anyPow anyLog10).
Qed.

(** C8, as the code has it.  The X/R ratio of a bus is X/R when R is
    truthy, and X/0.001 when R is zero or [NaN]; the three-phase current
    is V/(sqrt(3) Z) with 0.001 in place of a Z that is zero or [NaN].
    Computing the Thevenin equivalents leaves the log and the ledger as
    they are. *)
Theorem thevenin_ratio_guard :
  forall (N : Type) (num : JsNum N) (bus : Bus.t N),
    let impedance := Bus.calculateTotalImpedance bus in
    let th := Orchestrator.theveninOf bus in
    (truthy (Bus.total_r impedance) = true ->
       Orchestrator.th_xr th = div (Bus.total_x impedance) (Bus.total_r impedance)) /\
    (eqb (Bus.total_r impedance) (ofQ 0) = true
     \/ isNaN (Bus.total_r impedance) = true ->
       Orchestrator.th_xr th = div (Bus.total_x impedance) (ofQ 0.001)) /\
    (forall (frequency : option N),
       let sc := Orchestrator.shortCircuitOf frequency bus th in
       (truthy (Orchestrator.th_z th) = true ->
          Orchestrator.threePhase (Orchestrator.faultCurrents sc)
          = div (Bus.voltage bus) (mul (Math_sqrt (ofQ 3)) (Orchestrator.th_z th))) /\
       (truthy (Orchestrator.th_z th) = false ->
          Orchestrator.threePhase (Orchestrator.faultCurrents sc)
          = div (Bus.voltage bus) (mul (Math_sqrt (ofQ 3)) (ofQ 0.001)))) /\
    (forall (topology : TopologyManager.Topology N) (l : Orchestrator.Ledger N),
       snd (Orchestrator.calculateTheveninEquivalents topology l) = l).
Proof.
  intros N num bus impedance th. subst th impedance.
  unfold Orchestrator.theveninOf.
  destruct (Bus.calculateTotalImpedance bus) as [tr tx tm].
  cbn [Bus.total_r Bus.total_x Bus.magnitude Orchestrator.th_xr Orchestrator.th_z].
  split; [| split; [| split]].
  - intros Ht. rewrite Ht. reflexivity.
  - intros Hz.
    assert (Hf : truthy tr = false).
    { unfold truthy. destruct Hz as [Hz | Hz]; rewrite Hz.
      - apply andb_false_r.
      - reflexivity. }
    rewrite Hf. reflexivity.
  - intros frequency. unfold Orchestrator.shortCircuitOf.
    cbn [Orchestrator.threePhase Orchestrator.faultCurrents Orchestrator.th_z].
    split; intros Ht; rewrite Ht; reflexivity.
  - reflexivity.
Qed.

(** The source bus of [bus20kV], without impedance: R = 0 and the ratio
    is 0/0.001 = 0. *)
Lemma thevenin_ratio_guard_witness :
  Orchestrator.th_xr (Orchestrator.theveninOf bus20kV) = Fin 0.
Proof.
  destruct (thevenin_ratio_guard xreal XReal.num bus20kV) as (_ & Hguard & _).
  rewrite Hguard.
  - cbn. rewrite !XRealFacts.of_Q_fin. cbn [Qnum Qden].
    rewrite XRealFacts.xdiv_fin by lra. f_equal. lra.
  - left. cbn. rewrite !XRealFacts.of_Q_fin. cbn [Qnum Qden].
    unfold XReal.xeqb. destruct (Req_dec_T _ _); [reflexivity | contradiction].
Defined.

(** ** Utility source (topology_manager.js) *)

(** The study of a utility source of 100 MVA on a 13.2 kV system, on
    binary64: the impedance of the source bus and its three-phase
    current in kA. *)
Lemma utility_100MVA_study (pow : float -> float -> float)
    (log10 : float -> float) :
  let num := Binary64.num pow log10 in
  exists th sc,
    shortCircuitStudy (utilityProject 13200%float 100%float) = Ok ([th], [sc]) /\
    Orchestrator.th_z th = 0x1.be0ded288ce7p+0%float /\
    Orchestrator.threePhase (Orchestrator.kA (Orchestrator.faultCurrentsKA sc))
    = 0x1.17ed6a4c88d7fp+2%float.
Proof.
  intros num. do 2 eexists. split; [vm_compute; reflexivity |].
  split; vm_compute; reflexivity.
Qed.

(** C2. A utility source of 100 MVA at 13.2 kV yields, on binary64 and
    whatever [Math.pow] and [Math.log10] compute, a source-bus impedance
    within 0.1 % of 1.7424 ohm and a three-phase current within 0.1 % of
    4.374 kA; in exact arithmetic the source impedance is 1.7424 ohm.
    When the source is given by its fault current in kA, the impedance
    is V / (sqrt(3) I_kA 1000), in every interpretation of the
    numbers. *)
Theorem utility_source_impedance :
  (forall (pow : float -> float -> float) (log10 : float -> float),
     let num := Binary64.num pow log10 in
     exists th sc,
       shortCircuitStudy (utilityProject 13200%float 100%float) = Ok ([th], [sc]) /\
       PrimFloat.leb
         (PrimFloat.abs (Orchestrator.th_z th - 1.7424))
         (0.001 * 1.7424) = true /\
       PrimFloat.leb
         (PrimFloat.abs
            (Orchestrator.threePhase (Orchestrator.kA (Orchestrator.faultCurrentsKA sc))
             - 4.374))
         (0.001 * 4.374) = true) /\
  TopologyManager.utilityZSource (utility "Grid" (Fin 100)) (Fin 13200)
  = Fin 1.7424 /\
  (forall (N : Type) (num : JsNum N) (comp : Component.t N) (voltage iscKA : N),
     Component.faultCurrent comp = Some iscKA ->
     truthy iscKA = true ->
     TopologyManager.utilityZSource comp voltage
     = div voltage (mul (mul (Math_sqrt (ofQ 3)) iscKA) (ofQ 1000))).
Proof.
  split; [| split].
  - intros pow log10 num.
    destruct (utility_100MVA_study pow log10) as (th & sc & Hrun & Hz & Hi).
    exists th, sc. split; [exact Hrun |].
    fold num in Hz, Hi. rewrite Hz, Hi. split; vm_compute; reflexivity.
  - unfold TopologyManager.utilityZSource. cbn.
    assert (Ht : truthy (Fin 100) = true).
    { unfold truthy. rewrite MultiplierFacts.isNaN_fin. cbn.
      rewrite XRealFacts.of_Q_fin. cbn [Qnum Qden]. unfold XReal.xeqb.
      destruct (Req_dec_T 100 (0 / 1)); [lra | reflexivity]. }
    rewrite Ht.
    rewrite !XRealFacts.of_Q_fin. cbn [Qnum Qden].
    rewrite !XRealFacts.xmul_fin. rewrite XRealFacts.xdiv_fin by lra.
    f_equal. lra.
  - intros N num comp voltage iscKA Hfc Ht.
    unfold TopologyManager.utilityZSource. rewrite Hfc. cbn. rewrite Ht.
    reflexivity.
Qed.

(** A source given by a fault current of 4.374 kA at 13.2 kV, on
    binary64. *)
Lemma utility_source_impedance_witness :
  let num := Binary64.num anyPow anyLog10 in
  TopologyManager.utilityZSource (utilityByCurrent "Grid" 4.374%float) 13200%float
  = (13200 / (PrimFloat.sqrt 3 * 4.374 * 1000))%float.
Proof.
  intros num.
  destruct utility_source_impedance as (_ & _ & Hformula).
  rewrite (Hformula float num (utilityByCurrent "Grid" 4.374%float)
             13200%float 4.374%float eq_refl eq_refl).
  vm_compute. reflexivity.
Defined.

(** ** Motor contribution (js/calculation_orchestrator.js) *)

Module MotorFacts.
Import Orchestrator.
Section Grouping.
Context {N : Type} {num : JsNum N}.

Lemma motorsAt_cons_eq (key : string) (motor : MotorResult N)
    (rest : list (MotorResult N)) :
  busKey motor = key -> motorsAt key (motor :: rest) = motor :: motorsAt key rest.
Proof.
  intros <-. unfold motorsAt. cbn. rewrite String.eqb_refl. reflexivity.
Qed.

Lemma motorsAt_cons_ne (key : string) (motor : MotorResult N)
    (rest : list (MotorResult N)) :
  busKey motor <> key -> motorsAt key (motor :: rest) = motorsAt key rest.
Proof.
  intros Hne. unfold motorsAt. cbn.
  destruct (String.eqb_spec (busKey motor) key); [contradiction | reflexivity].
Qed.

Lemma groupMotors_lookup (ms : list (MotorResult N))
    (m0 m : gmap string (BusMotors N)) (key : string) :
  groupMotors m0 ms = Ok m ->
  m !! key = grouped (m0 !! key) (motorsAt key ms).
Proof.
  revert m0. induction ms as [| motor rest IH]; intros m0 Hgroup.
  - cbn in Hgroup. injection Hgroup as <-. cbn. destruct (m0 !! key); reflexivity.
  - cbn [groupMotors] in Hgroup.
    destruct (groupMotor m0 motor) as [m1 |] eqn:Hone; [| discriminate].
    cbn in Hgroup. rewrite (IH m1 Hgroup). clear IH Hgroup.
    unfold groupMotor in Hone.
    destruct (decide (busKey motor = key)) as [Heq | Hne].
    + rewrite (motorsAt_cons_eq key motor rest Heq). rewrite Heq in Hone.
      destruct (m0 !! key) as [g |] eqn:Hlook.
      * injection Hone as <-. rewrite lookup_insert_eq. reflexivity.
      * destruct (inheritedKey key); [discriminate |].
        injection Hone as <-. rewrite lookup_insert_eq. reflexivity.
    + rewrite (motorsAt_cons_ne key motor rest Hne).
      assert (Hsame : m1 !! key = m0 !! key).
      { destruct (m0 !! busKey motor).
        - injection Hone as <-. apply lookup_insert_ne. assumption.
        - destruct (inheritedKey (busKey motor)); [discriminate |].
          injection Hone as <-. apply lookup_insert_ne. assumption. }
      rewrite Hsame. reflexivity.
Qed.

Lemma groupMotors_total (ms : list (MotorResult N))
    (m0 : gmap string (BusMotors N)) :
  forallb (fun motor => negb (inheritedKey (busKey motor))) ms = true ->
  exists m, groupMotors m0 ms = Ok m.
Proof.
  revert m0. induction ms as [| motor rest IH]; intros m0 Hplain.
  - eexists. reflexivity.
  - cbn [forallb] in Hplain. apply andb_true_iff in Hplain as [Hm Hrest].
    cbn [groupMotors]. unfold groupMotor.
    apply negb_true_iff in Hm. rewrite Hm.
    destruct (m0 !! busKey motor); cbn; apply IH; assumption.
Qed.

Lemma firstCycle_fold (ms : list (MotorResult N)) (g : BusMotors N) :
  bm_firstCycle (fold_left addMotor ms g)
  = fold_left (fun sum motor => add sum (firstCycle (contribution motor)))
              ms (bm_firstCycle g).
Proof.
  revert g. induction ms as [| motor rest IH]; intros g; [reflexivity |].
  cbn [fold_left]. rewrite IH. reflexivity.
Qed.

(** The group a bus finds, from an empty [motorsByBus]. *)
Lemma lookupBusMotors_attached (ms : list (MotorResult N))
    (m : gmap string (BusMotors N)) (busResult : BusResult N)
    (found : option (BusMotors N)) :
  groupMotors ∅ ms = Ok m ->
  lookupBusMotors m busResult = Ok found ->
  match found with
  | Some g =>
      attachedMotors ms busResult <> [] /\
      bm_firstCycle g = firstCycleSum (attachedMotors ms busResult)
  | None => attachedMotors ms busResult = []
  end.
Proof.
  intros Hgroup. unfold lookupBusMotors, attachedMotors, attachedKey.
  rewrite (groupMotors_lookup ms ∅ m _ Hgroup), lookup_empty.
  destruct (motorsAt (natToString (busId busResult)) ms) as [| m1 r1] eqn:H1.
  - cbn [grouped].
    rewrite (groupMotors_lookup ms ∅ m _ Hgroup), lookup_empty.
    destruct (motorsAt (busName busResult) ms) as [| m2 r2] eqn:H2.
    + cbn [grouped]. destruct (inheritedKey _); [discriminate |].
      intros [= <-]. reflexivity.
    + cbn [grouped]. intros [= <-]. rewrite H2. split; [discriminate |].
      rewrite firstCycle_fold. reflexivity.
  - cbn [grouped]. intros [= <-]. rewrite H1. split; [discriminate |].
    rewrite firstCycle_fold. reflexivity.
Qed.

Lemma lookupBusMotors_total (m : gmap string (BusMotors N))
    (busResult : BusResult N) :
  inheritedKey (busName busResult) = false ->
  exists found, lookupBusMotors m busResult = Ok found.
Proof.
  intros Hplain. unfold lookupBusMotors.
  destruct (m !! natToString (busId busResult)); [eexists; reflexivity |].
  destruct (m !! busName busResult); [eexists; reflexivity |].
  rewrite Hplain. eexists. reflexivity.
Qed.
End Grouping.
End MotorFacts.

Module IntegrationFacts.
Import Orchestrator.
Section Integration.
Context {N : Type} {num : JsNum N}.

Lemma integrateBus_superposed (ms : list (MotorResult N))
    (m : gmap string (BusMotors N)) (busResult busResult' : BusResult N)
    (l l' : Ledger N) :
  groupMotors ∅ ms = Ok m ->
  integrateBus m busResult l = Ok (busResult', l') ->
  superposed ms busResult busResult'.
Proof.
  intros Hgroup. unfold integrateBus.
  destruct (lookupBusMotors m busResult) as [found |] eqn:Hlook; [| discriminate].
  pose proof (MotorFacts.lookupBusMotors_attached ms m busResult found Hgroup Hlook)
    as Hfound.
  cbn. destruct found as [g |].
  - destruct Hfound as [Hne Hsum]. intros [= <- <-].
    unfold superposed. cbn. rewrite Hsum. repeat split; try reflexivity.
    intros Hnil. contradiction.
  - intros [= <- <-]. unfold superposed. cbn. repeat split; try reflexivity.
    intros Hne. contradiction.
Qed.

Lemma integrateBuses_nth (ms : list (MotorResult N))
    (m : gmap string (BusMotors N)) (scs scs' : list (BusResult N))
    (l l' : Ledger N) :
  groupMotors ∅ ms = Ok m ->
  integrateBuses m scs l = Ok (scs', l') ->
  List.length scs' = List.length scs /\
  forall (i : nat) (busResult : BusResult N),
    nth_error scs i = Some busResult ->
    exists busResult',
      nth_error scs' i = Some busResult' /\ superposed ms busResult busResult'.
Proof.
  intros Hgroup. revert scs' l l'.
  induction scs as [| sc rest IH]; intros scs' l l' Hint.
  - cbn in Hint. injection Hint as <- <-. split; [reflexivity |].
    intros [| i] b Hb; discriminate.
  - cbn [integrateBuses] in Hint.
    destruct (integrateBus m sc l) as [[sc1 l1] |] eqn:Hone; [| discriminate].
    cbn in Hint.
    destruct (integrateBuses m rest l1) as [[rest1 l2] |] eqn:Hrest; [| discriminate].
    cbn in Hint. injection Hint as <- <-.
    destruct (IH rest1 l1 l2 Hrest) as [Hlen Hnth].
    split; [cbn; congruence |].
    intros [| i] b Hb.
    + injection Hb as <-. exists sc1. split; [reflexivity |].
      eapply integrateBus_superposed; eassumption.
    + apply (Hnth i b Hb).
Qed.

Lemma integrateBuses_total (m : gmap string (BusMotors N))
    (scs : list (BusResult N)) (l : Ledger N) :
  forallb (fun busResult => negb (inheritedKey (busName busResult))) scs = true ->
  exists scs' l', integrateBuses m scs l = Ok (scs', l').
Proof.
  revert l. induction scs as [| sc rest IH]; intros l Hplain.
  - do 2 eexists. reflexivity.
  - cbn [forallb] in Hplain. apply andb_true_iff in Hplain as [Hsc Hrest].
    apply negb_true_iff in Hsc.
    destruct (MotorFacts.lookupBusMotors_total m sc Hsc) as [found Hfound].
    cbn [integrateBuses]. unfold integrateBus. rewrite Hfound. cbn.
    destruct found as [g |]; cbn;
      match goal with
      | |- context [integrateBuses m rest ?l1] =>
          destruct (IH l1 Hrest) as (rest' & l2 & ->)
      end; cbn; do 2 eexists; reflexivity.
Qed.
End Integration.
End IntegrationFacts.



(** The 440 V bus of the design document: 17.88 kA bolted, 37.88 kA with
    the two motors, on binary64 and whatever [Math.pow] computes. *)
Example motors_on_440V_bus (pow : float -> float -> float)
    (log10 : float -> float) :
  let num := Binary64.num pow log10 in
  exists busResult' l',
    Orchestrator.integrateMotorContribution
      (Some (motorDataOf [motorAt "M1" 15000%float 1; motorAt "M2" 5000%float 1]))
      (Some [result440V]) emptyLedger
    = Ok (Some [busResult'], l') /\
    Orchestrator.threePhase (Orchestrator.kA (Orchestrator.faultCurrentsKA busResult'))
    = 0x1.1e222e1e92925p+4%float /\
    Orchestrator.threePhaseWithMotors (Orchestrator.faultCurrentsKA busResult')
    = Some 0x1.2f11170f49492p+5%float.
Proof.
  intros num. do 2 eexists. split; [vm_compute; reflexivity |].
  split; vm_compute; reflexivity.
Qed.

(** * Properties of the further functions *)

(** ** Calculations on finite extended reals *)

Module XCalc.
Import XReal XRealFacts.
Local Open Scope R_scope.

(** Rewrites the operations on finite values into operations on reals;
    [solver] proves that a divisor is not zero and that the argument of
    a square root is not negative. *)
Ltac xarith solver :=
  repeat first
    [ rewrite xmul_fin | rewrite xadd_fin | rewrite xsub_fin
    | rewrite of_Q_int | rewrite of_Q_fin
    | rewrite xdiv_fin by solver | rewrite xsqrt_fin by solver
    | rewrite xpow_2 ].

Lemma sqrt_1_plus_sq (u : R) : 0 < sqrt (1 + u * u).
Proof. apply sqrt_lt_R0. nra. Qed.

(** The split of a magnitude [m] by a ratio [u] into [r] and [r u]
    keeps the magnitude. *)
Lemma split_magnitude (m u : R) :
  let r := m / sqrt (1 + u * u) in
  r * r + (r * u) * (r * u) = m * m.
Proof.
  intros r. subst r.
  pose proof (sqrt_1_plus_sq u) as Hs.
  assert (Hsq : sqrt (1 + u * u) * sqrt (1 + u * u) = 1 + u * u)
    by (apply sqrt_sqrt; nra).
  field_simplify_eq; [| lra].
  replace (sqrt (1 + u * u) ^ 2) with (1 + u * u) by (simpl; lra).
  ring.
Qed.

Lemma sqrt_scaled (f r x m : R) :
  0 <= f -> 0 <= m -> r * r + x * x = m * m ->
  sqrt (r * f * (r * f) + x * f * (x * f)) = m * f.
Proof.
  intros Hf Hm Hrx.
  replace (r * f * (r * f) + x * f * (x * f)) with ((m * f) * (m * f)) by nra.
  apply sqrt_square. nra.
Qed.
End XCalc.

(** ** The class [Transformer] (js/transformer_model.js) *)

Module TransformerFacts.
Import XReal XRealFacts.
Local Open Scope R_scope.

Lemma impedance_ohms (t : Transformer.t xreal) (P Vs Zp XR : R) :
  Transformer.powerMVA t = Fin P ->
  Transformer.secondaryVoltage t = Fin Vs ->
  Transformer.impedancePercent t = Fin Zp ->
  Transformer.xrRatio t = Fin XR ->
  0 < P ->
  let z := Transformer.calculateImpedanceOhms t in
  let m := Vs * Vs / (P * 1000000) * (Zp / 100) in
  let r := m / sqrt (1 + XR * XR) in
  Transformer.magnitude z = Fin m /\
  Transformer.r z = Fin r /\
  Transformer.x z = Fin (r * XR).
Proof.
  intros HP HV HZ HX Pp z m r.
  pose proof (XCalc.sqrt_1_plus_sq XR) as Hs.
  subst z. unfold Transformer.calculateImpedanceOhms.
  rewrite HP, HV, HZ, HX. cbn.
  XCalc.xarith ltac:(nra).
  repeat split.
Qed.

(** The sums of [calculateParallelImpedance] over [n] copies of one
    transformer. *)
Lemma addAdmittance_repeat (t : Transformer.t xreal) (r x m : R) (n : nat)
    (a b : R) :
  Transformer.r (Transformer.calculateImpedanceOhms t) = Fin r ->
  Transformer.x (Transformer.calculateImpedanceOhms t) = Fin x ->
  Transformer.magnitude (Transformer.calculateImpedanceOhms t) = Fin m ->
  m <> 0 ->
  fold_left TransformerBank.addAdmittance (repeat t n) (Fin a, Fin b)
  = (Fin (a + INR n * (r / (m * m))), Fin (b + INR n * (x / (m * m)))).
Proof.
  intros Hr Hx Hm Hne. revert a b.
  induction n as [| n IH]; intros a b.
  - cbn. f_equal; f_equal; lra.
  - cbn [repeat fold_left].
    unfold TransformerBank.addAdmittance at 2.
    rewrite Hr, Hx, Hm. cbn [fst snd].
    change (add ?u ?v) with (xadd u v). change (div ?u ?v) with (xdiv u v).
    change (mul ?u ?v) with (xmul u v).
    rewrite !xmul_fin. rewrite !xdiv_fin by nra. rewrite !xadd_fin.
    rewrite IH. rewrite S_INR. f_equal; f_equal; lra.
Qed.

(** The transformer of the constructor's defaults: 1 MVA, 13.8 kV to
    480 V, 5.75 %, X/R 10. *)
Lemma default_transformer :
  let t := Transformer.new
             {| Transformer.cfg_id := None; Transformer.cfg_name := None;
                Transformer.cfg_powerMVA := None;
                Transformer.cfg_primaryVoltage := None;
                Transformer.cfg_secondaryVoltage := None;
                Transformer.cfg_impedancePercent := None;
                Transformer.cfg_xrRatio := None;
                Transformer.cfg_connectionType := None;
                Transformer.cfg_tapPosition := None |} (Fin 0) in
  Transformer.powerMVA t = Fin 1 /\
  Transformer.secondaryVoltage t = Fin 480 /\
  Transformer.impedancePercent t = Fin 5.75 /\
  Transformer.xrRatio t = Fin 10.
Proof.
  cbn. rewrite !of_Q_int. rewrite !of_Q_fin. cbn [Qnum Qden].
  repeat split. f_equal. lra.
Qed.
End TransformerFacts.

(** X1. [Transformer.calculateImpedanceOhms]: for a transformer of
    positive rated power the magnitude is the base impedance
    Vs^2/(S 10^6) times the percent impedance, and the split by the X/R
    ratio keeps it: X = R (X/R) and R^2 + X^2 = Z^2. *)
Theorem transformer_impedance_split :
  forall (t : Transformer.t xreal) (P Vs Zp XR : R),
    Transformer.powerMVA t = Fin P ->
    Transformer.secondaryVoltage t = Fin Vs ->
    Transformer.impedancePercent t = Fin Zp ->
    Transformer.xrRatio t = Fin XR ->
    (0 < P)%R ->
    let z := Transformer.calculateImpedanceOhms t in
    let m := (Vs * Vs / (P * 1000000) * (Zp / 100))%R in
    let r := (m / sqrt (1 + XR * XR))%R in
    Transformer.magnitude z = Fin m /\
    Transformer.r z = Fin r /\
    Transformer.x z = Fin (r * XR) /\
    (r * r + (r * XR) * (r * XR) = m * m)%R.
Proof.
  intros t P Vs Zp XR HP HV HZ HX Pp z m r.
  destruct (TransformerFacts.impedance_ohms t P Vs Zp XR HP HV HZ HX Pp)
    as (Hm & Hr & Hx).
  repeat split; try assumption. apply XCalc.split_magnitude.
Qed.

(** The transformer of the constructor's defaults: 1 MVA, 13.8 kV to
    480 V, 5.75 %, X/R 10. *)
Lemma transformer_impedance_split_witness :
  let t := Transformer.new
             {| Transformer.cfg_id := None; Transformer.cfg_name := None;
                Transformer.cfg_powerMVA := None;
                Transformer.cfg_primaryVoltage := None;
                Transformer.cfg_secondaryVoltage := None;
                Transformer.cfg_impedancePercent := None;
                Transformer.cfg_xrRatio := None;
                Transformer.cfg_connectionType := None;
                Transformer.cfg_tapPosition := None |} (Fin 0) in
  let z := Transformer.calculateImpedanceOhms t in
  let m := (480 * 480 / (1 * 1000000) * (5.75 / 100))%R in
  let r := (m / sqrt (1 + 10 * 10))%R in
  Transformer.magnitude z = Fin m /\
  Transformer.r z = Fin r /\
  Transformer.x z = Fin (r * 10) /\
  (r * r + (r * 10) * (r * 10) = m * m)%R.
Proof.
  intros t.
  destruct TransformerFacts.default_transformer as (HP & HV & HZ & HX).
  apply (transformer_impedance_split t 1%R 480%R 5.75%R 10%R HP HV HZ HX).
  lra.
Defined.

(** X2. [Transformer.calculateImpedancePrimary] is the referral of the
    secondary-side impedance from the secondary to the primary voltage
    by [referImpedanceBetweenLevels]: R and X are the same values in
    every arithmetic, and on the extended reals, for a positive rated
    power, a non-negative percent impedance and a non-zero secondary
    voltage, so is the magnitude. *)
Theorem transformer_primary_is_referral :
  (forall (N : Type) (num : JsNum N) (t : Transformer.t N),
     let secondaryZ := Transformer.calculateImpedanceOhms t in
     let primaryZ := Transformer.calculateImpedancePrimary t in
     let referred :=
       TransformerModel.referImpedanceBetweenLevels
         {| TransformerModel.r := Transformer.r secondaryZ;
            TransformerModel.x := Transformer.x secondaryZ |}
         (Transformer.secondaryVoltage t) (Transformer.primaryVoltage t) in
     Transformer.r primaryZ = TransformerModel.ref_r referred /\
     Transformer.x primaryZ = TransformerModel.ref_x referred) /\
  (forall (t : Transformer.t xreal) (P Vp Vs Zp XR : R),
     Transformer.powerMVA t = Fin P ->
     Transformer.primaryVoltage t = Fin Vp ->
     Transformer.secondaryVoltage t = Fin Vs ->
     Transformer.impedancePercent t = Fin Zp ->
     Transformer.xrRatio t = Fin XR ->
     (0 < P)%R -> (Vs <> 0)%R -> (0 <= Zp)%R ->
     let secondaryZ := Transformer.calculateImpedanceOhms t in
     let primaryZ := Transformer.calculateImpedancePrimary t in
     let referred :=
       TransformerModel.referImpedanceBetweenLevels
         {| TransformerModel.r := Transformer.r secondaryZ;
            TransformerModel.x := Transformer.x secondaryZ |}
         (Transformer.secondaryVoltage t) (Transformer.primaryVoltage t) in
     Transformer.magnitude primaryZ = TransformerModel.magnitude referred).
Proof.
  split.
  - intros N num t. cbv zeta. split; reflexivity.
  - intros t P Vp Vs Zp XR HP HVp HVs HZ HX Pp Vn Zn.
    pose proof (XCalc.sqrt_1_plus_sq XR) as Hs.
    cbv zeta.
    unfold Transformer.calculateImpedancePrimary,
      TransformerModel.referImpedanceBetweenLevels,
      Transformer.calculateImpedanceOhms.
    rewrite HP, HVp, HVs, HZ, HX. cbn.
    XCalc.xarith ltac:(nra).
    set (m := (Vs * Vs / (P * 1000000) * (Zp / 100))%R).
    set (f := (Vp / Vs * (Vp / Vs))%R).
    assert (Hm : (0 <= m)%R).
    { subst m. apply Rmult_le_pos.
      - apply Rmult_le_pos; [nra |]. left. apply Rinv_0_lt_compat. lra.
      - lra. }
    assert (Hf : (0 <= f)%R) by (subst f; nra).
    f_equal. symmetry.
    apply XCalc.sqrt_scaled; [assumption | assumption |].
    apply XCalc.split_magnitude.
Qed.

(** A 2 MVA transformer, 13.8 kV to 480 V, 6 %, X/R 8. *)
Lemma transformer_primary_is_referral_witness :
  let t := {| Transformer.id := Fin 1; Transformer.name := "T1";
              Transformer.powerMVA := Fin 2;
              Transformer.primaryVoltage := Fin 13800;
              Transformer.secondaryVoltage := Fin 480;
              Transformer.impedancePercent := Fin 6;
              Transformer.xrRatio := Fin 8;
              Transformer.connectionType := "Dyn11";
              Transformer.tapPosition := Fin 0 |} in
  let secondaryZ := Transformer.calculateImpedanceOhms t in
  Transformer.magnitude (Transformer.calculateImpedancePrimary t)
  = TransformerModel.magnitude
      (TransformerModel.referImpedanceBetweenLevels
         {| TransformerModel.r := Transformer.r secondaryZ;
            TransformerModel.x := Transformer.x secondaryZ |}
         (Fin 480) (Fin 13800)).
Proof.
  intros t.
  destruct transformer_primary_is_referral as [_ Hmagnitude].
  apply (Hmagnitude t 2%R 13800%R 480%R 6%R 8%R); try reflexivity; lra.
Defined.

(** X3. [Transformer.calculateEfficiency]: for a positive rated power
    S (MVA), a positive load L (kVA) and a positive power factor, the
    no-load losses are S kW, the load losses 10 S (L/(1000 S))^2 kW, and
    the efficiency lies strictly between 0 and 100 percent. *)
Theorem transformer_efficiency_below_100 :
  forall (t : Transformer.t xreal) (P L pf : R),
    Transformer.powerMVA t = Fin P ->
    (0 < P)%R -> (0 < L)%R -> (0 < pf)%R ->
    let result := Transformer.calculateEfficiency t (Fin L) (Fin pf) in
    let noLoad := P in
    let load := (10 * P * (L / (1000 * P)) * (L / (1000 * P)))%R in
    Transformer.noLoadLosses (Transformer.losses result) = Fin noLoad /\
    Transformer.loadLosses (Transformer.losses result) = Fin load /\
    Transformer.totalLosses (Transformer.losses result) = Fin (noLoad + load) /\
    exists e : R,
      Transformer.efficiency result = Fin e /\ (0 < e < 100)%R.
Proof.
  intros t P L pf HP Pp Lp pfp result noLoad load.
  subst result. unfold Transformer.calculateEfficiency, Transformer.calculateLosses.
  rewrite HP. cbn.
  XCalc.xarith ltac:(nra). cbn [Qnum Qden].
  assert (Hload : (0 < load)%R).
  { subst load.
    assert (Hq : (0 < L / (1000 * P))%R) by (apply Rdiv_lt_0_compat; lra).
    apply Rmult_lt_0_compat; [| exact Hq].
    apply Rmult_lt_0_compat; [lra | exact Hq]. }
  assert (E1 : (P * 1000 * (1 / 1000))%R = noLoad) by (subst noLoad; field).
  assert (E2 : (P * 1000 * (1 / 100)
                * (L / (P * 1000) * 100 / 100 * (L / (P * 1000) * 100 / 100)))%R
               = load) by (subst load; field; lra).
  rewrite E1, E2.
  assert (Hin : (0 < L * pf + (noLoad + load) / 1000)%R).
  { subst noLoad. assert (0 < L * pf)%R by nra. lra. }
  rewrite XRealFacts.xdiv_fin by lra.
  XCalc.xarith ltac:(lra).
  repeat split.
  eexists. split; [reflexivity |].
  assert (Hout : (0 < L * pf)%R) by nra.
  assert (Hlt : (L * pf < L * pf + (noLoad + load) / 1000)%R)
    by (subst noLoad; lra).
  split.
  - apply Rmult_lt_0_compat; [apply Rdiv_lt_0_compat; assumption | lra].
  - apply Rmult_lt_reg_r with (r := (L * pf + (noLoad + load) / 1000)%R);
      [assumption |].
    replace (L * pf / (L * pf + (noLoad + load) / 1000) * 100
             * (L * pf + (noLoad + load) / 1000))%R
      with (L * pf * 100)%R by (field; lra).
    nra.
Qed.

(** The default transformer of 1 MVA loaded with 800 kVA at a power
    factor of 0.9. *)
Lemma transformer_efficiency_below_100_witness :
  let t := {| Transformer.id := Fin 1; Transformer.name := "T1";
              Transformer.powerMVA := Fin 1;
              Transformer.primaryVoltage := Fin 13800;
              Transformer.secondaryVoltage := Fin 480;
              Transformer.impedancePercent := Fin 5.75;
              Transformer.xrRatio := Fin 10;
              Transformer.connectionType := "Dyn11";
              Transformer.tapPosition := Fin 0 |} in
  exists e : R,
    Transformer.efficiency (Transformer.calculateEfficiency t (Fin 800) (Fin 0.9))
    = Fin e /\ (0 < e < 100)%R.
Proof.
  intros t.
  apply (transformer_efficiency_below_100 t 1%R 800%R 0.9%R); try reflexivity; lra.
Defined.

(** X4. [calculateTapChangerEffect]: the actual voltage is the nominal
    one scaled by 1 + step x position / 100; the reported percent change
    is step x position for every non-zero nominal voltage, and [NaN] for
    a nominal voltage of zero. *)
Theorem tap_changer_percent_change :
  forall (V s p : R),
    let effect := Transformer.calculateTapChangerEffect (Fin V) (Fin s) (Fin p) in
    Transformer.voltageChange effect = Fin (V * (s / 100) * p) /\
    Transformer.actualVoltage effect = Fin (V * (1 + s * p / 100)) /\
    (V <> 0%R -> Transformer.percentChange effect = Fin (s * p)) /\
    (V = 0%R -> isNaN (Transformer.percentChange effect) = true).
Proof.
  intros V s p effect. subst effect.
  unfold Transformer.calculateTapChangerEffect. cbn.
  XCalc.xarith ltac:(lra).
  split; [reflexivity |]. split; [f_equal; field |]. split.
  - intros HV. XCalc.xarith ltac:(lra). f_equal. field. assumption.
  - intros ->. replace (0 * (s / 100) * p)%R with 0%R by ring.
    unfold XReal.xdiv.
    destruct (Req_dec_T 0 0) as [_ | Hne]; [| contradiction].
    reflexivity.
Qed.

(** A 13.8 kV winding on the second tap of steps of 2.5 %. *)
Lemma tap_changer_percent_change_witness :
  Transformer.percentChange
    (Transformer.calculateTapChangerEffect (Fin 13800) (Fin 2.5) (Fin 2))
  = Fin (2.5 * 2).
Proof.
  apply (tap_changer_percent_change 13800%R 2.5%R 2%R). lra.
Defined.


(** ** The bus system as a map (bus_model.js) *)

Module MapFacts.
Import BusSystem.

Lemma mapGet_mapSet_eq {V : Type} (m : list (nat * V)) (k : nat) (v : V) :
  mapGet (mapSet m k v) k = Some v.
Proof.
  induction m as [| [k' v'] m IH]; cbn.
  - rewrite Nat.eqb_refl. reflexivity.
  - destruct (Nat.eqb k k') eqn:E; cbn.
    + rewrite Nat.eqb_refl. reflexivity.
    + rewrite E. exact IH.
Qed.

Lemma mapGet_mapSet_ne {V : Type} (m : list (nat * V)) (k k' : nat) (v : V) :
  k' <> k -> mapGet (mapSet m k v) k' = mapGet m k'.
Proof.
  intros Hne. induction m as [| [k0 v0] m IH]; cbn.
  - destruct (Nat.eqb k' k) eqn:E; [apply Nat.eqb_eq in E; contradiction | reflexivity].
  - destruct (Nat.eqb k k0) eqn:E; cbn.
    + apply Nat.eqb_eq in E. subst k0.
      destruct (Nat.eqb k' k) eqn:E'; [apply Nat.eqb_eq in E'; contradiction |].
      reflexivity.
    + destruct (Nat.eqb k' k0); [reflexivity | exact IH].
Qed.

(** [mapGet] after the update of the values under one key *)
Lemma mapGet_update {V : Type} (m : list (nat * V)) (key k : nat) (f : V -> V) :
  mapGet (map (fun kv => if Nat.eqb (fst kv) key then (fst kv, f (snd kv)) else kv) m) k
  = if Nat.eqb k key then option_map f (mapGet m k) else mapGet m k.
Proof.
  induction m as [| [k0 v0] m IH]; cbn.
  - destruct (Nat.eqb k key); reflexivity.
  - destruct (Nat.eqb k0 key) eqn:E0; cbn.
    + destruct (Nat.eqb k k0) eqn:E.
      * apply Nat.eqb_eq in E, E0. subst. rewrite Nat.eqb_refl. reflexivity.
      * exact IH.
    + destruct (Nat.eqb k k0) eqn:E.
      * apply Nat.eqb_eq in E. subst k0. rewrite E0. reflexivity.
      * exact IH.
Qed.

Lemma mapSet_fresh {V : Type} (m : list (nat * V)) (k : nat) (v : V) :
  Forall (fun kv => fst kv <> k) m -> mapSet m k v = m ++ [(k, v)].
Proof.
  induction 1 as [| [k0 v0] m Hk _ IH]; cbn; [reflexivity |].
  cbn in Hk. destruct (Nat.eqb k k0) eqn:E.
  - apply Nat.eqb_eq in E. congruence.
  - rewrite IH. reflexivity.
Qed.
End MapFacts.

(** X6. [BusSystem.addBus] and [getBus]: the bus added is a fresh
    [Bus] under the identifier [nextBusId], [getBus] of that identifier
    returns it, every other identifier answers as before, and the
    counter grows by one.  In a system whose identifiers are all below
    the counter, as [addBus] keeps them, the new bus is the last of
    [getAllBuses]. *)
Theorem bus_system_add_then_get :
  forall (N : Type) (num : JsNum N) (s : BusSystem.t N)
         (name : string) (voltage : N) (type : string),
    let bus := fst (BusSystem.addBus s name voltage type) in
    let s' := snd (BusSystem.addBus s name voltage type) in
    bus = Bus.new (BusSystem.nextBusId s) name voltage type /\
    BusSystem.getBus s' (Bus.id bus) = Some bus /\
    (forall id, id <> Bus.id bus -> BusSystem.getBus s' id = BusSystem.getBus s id) /\
    BusSystem.nextBusId s' = S (BusSystem.nextBusId s) /\
    (Forall (fun kv => fst kv < BusSystem.nextBusId s) (BusSystem.buses s) ->
       BusSystem.getAllBuses s' = BusSystem.getAllBuses s ++ [bus] /\
       Forall (fun kv => fst kv < BusSystem.nextBusId s') (BusSystem.buses s')).
Proof.
  intros N num s name voltage type bus s'. subst bus s'. cbn.
  split; [reflexivity |]. split; [apply MapFacts.mapGet_mapSet_eq |].
  split; [intros id Hne; apply MapFacts.mapGet_mapSet_ne; exact Hne |].
  split; [reflexivity |].
  intros Hkeys. unfold BusSystem.getAllBuses. cbn.
  rewrite MapFacts.mapSet_fresh.
  - rewrite map_app. split; [reflexivity |].
    apply Forall_app. split.
    + eapply Forall_impl; [exact Hkeys |]. cbn. intros a Ha. lia.
    + constructor; [cbn; lia | constructor].
  - eapply Forall_impl; [exact Hkeys |]. cbn. intros a Ha. lia.
Qed.

(** A second bus added to a system of one bus. *)
Lemma bus_system_add_then_get_witness :
  let s := snd (BusSystem.addBus (@BusSystem.new xreal) "A" (Fin 480) "load") in
  BusSystem.getAllBuses (snd (BusSystem.addBus s "B" (Fin 208) "load"))
  = BusSystem.getAllBuses s ++ [Bus.new 2 "B" (Fin 208) "load"].
Proof.
  intros s.
  destruct (bus_system_add_then_get xreal _ s "B" (Fin 208) "load")
    as (_ & _ & _ & _ & Hlast).
  apply Hlast. repeat constructor.
Defined.
Module BusModelFacts.
Import BusSystem.

Lemma getBus_updateBusAt {N : Type} (s : BusSystem.t N) (key k : nat)
    (f : Bus.t N -> Bus.t N) :
  getBus (TopologyManager.updateBusAt s key f) k
  = if Nat.eqb k key then option_map f (getBus s k) else getBus s k.
Proof. apply MapFacts.mapGet_update. Qed.

Lemma mapGet_filter_key {V : Type} (m : list (nat * V)) (id k : nat) :
  mapGet (List.filter (fun kv => negb (Nat.eqb (fst kv) id)) m) k
  = if Nat.eqb k id then None else mapGet m k.
Proof.
  induction m as [| [k0 v0] m IH]; cbn.
  - destruct (Nat.eqb k id); reflexivity.
  - destruct (Nat.eqb k0 id) eqn:E0; cbn.
    + rewrite IH. destruct (Nat.eqb k id) eqn:E; [reflexivity |].
      destruct (Nat.eqb k k0) eqn:E1; [| reflexivity].
      apply Nat.eqb_eq in E1, E0. subst. rewrite Nat.eqb_refl in E. discriminate.
    + destruct (Nat.eqb k k0) eqn:E1.
      * apply Nat.eqb_eq in E1. subst k0. rewrite E0. reflexivity.
      * exact IH.
Qed.

Lemma mapGet_map_values {V W : Type} (m : list (nat * V)) (g : V -> W) (k : nat) :
  mapGet (map (fun kv => (fst kv, g (snd kv))) m) k = option_map g (mapGet m k).
Proof.
  induction m as [| [k0 v0] m IH]; cbn; [reflexivity |].
  destruct (Nat.eqb k k0); [reflexivity | exact IH].
Qed.
End BusModelFacts.

(** X7. [BusSystem.connectBuses] throws when one of the two buses is
    missing and changes nothing else; otherwise each of the two buses
    gets a connection to the other with the same impedance (a bus
    connected to itself gets two), every other bus stays as it is, and
    [exportConfiguration] lists the new link on the side of the lower
    identifier only. *)
Theorem connect_buses_both_ways :
  forall (N : Type) (num : JsNum N) (s : BusSystem.t N) (a b : nat)
         (z : option (Bus.Impedance N)),
    (BusSystem.getBus s a = None \/ BusSystem.getBus s b = None ->
       BusModel.connectBuses s a b z = Throw "One or both buses not found") /\
    (forall busA busB : Bus.t N,
       BusSystem.getBus s a = Some busA -> BusSystem.getBus s b = Some busB ->
       exists s',
         BusModel.connectBuses s a b z = Ok s' /\
         (a <> b ->
            BusSystem.getBus s' a = Some (Bus.addConnection busA (Bus.id busB) z) /\
            BusSystem.getBus s' b = Some (Bus.addConnection busB (Bus.id busA) z)) /\
         (a = b ->
            BusSystem.getBus s' a
            = Some (Bus.addConnection (Bus.addConnection busA (Bus.id busA) z)
                                      (Bus.id busA) z)) /\
         (forall c, c <> a -> c <> b -> BusSystem.getBus s' c = BusSystem.getBus s c) /\
         BusModel.exportedConnectionsOf (Bus.addConnection busA (Bus.id busB) z)
         = BusModel.exportedConnectionsOf busA
           ++ (if Nat.ltb (Bus.id busA) (Bus.id busB)
               then [{| BusModel.ec_from := Bus.id busA;
                        BusModel.ec_to := Bus.id busB;
                        BusModel.ec_impedance := z |}]
               else [])).
Proof.
  intros N num s a b z. split.
  - intros [H | H]; unfold BusModel.connectBuses; rewrite H;
      [reflexivity | destruct (BusSystem.getBus s a); reflexivity].
  - intros busA busB HA HB. unfold BusModel.connectBuses. rewrite HA, HB.
    eexists. split; [reflexivity |].
    split; [| split; [| split]].
    + intros Hne.
      rewrite !BusModelFacts.getBus_updateBusAt.
      rewrite Nat.eqb_refl.
      destruct (Nat.eqb a b) eqn:E; [apply Nat.eqb_eq in E; contradiction |].
      rewrite HA. rewrite Nat.eqb_refl.
      destruct (Nat.eqb b a) eqn:E'; [apply Nat.eqb_eq in E'; congruence |].
      rewrite HB. split; reflexivity.
    + intros <-.
      rewrite !BusModelFacts.getBus_updateBusAt. rewrite Nat.eqb_refl.
      rewrite HA in HB. injection HB as <-. rewrite HA. reflexivity.
    + intros c Ha Hb.
      rewrite !BusModelFacts.getBus_updateBusAt.
      destruct (Nat.eqb c b) eqn:E; [apply Nat.eqb_eq in E; contradiction |].
      destruct (Nat.eqb c a) eqn:E'; [apply Nat.eqb_eq in E'; contradiction |].
      reflexivity.
    + unfold BusModel.exportedConnectionsOf. cbn.
      rewrite flat_map_app. cbn. rewrite app_nil_r. reflexivity.
Qed.

(** Two buses of a fresh system connected without impedance. *)
Lemma connect_buses_both_ways_witness :
  let s1 := snd (BusSystem.addBus (@BusSystem.new xreal) "A" (Fin 480) "load") in
  let s2 := snd (BusSystem.addBus s1 "B" (Fin 208) "load") in
  BusModel.connectBuses s2 1 3 None = Throw "One or both buses not found" /\
  exists s',
    BusModel.connectBuses s2 1 2 None = Ok s' /\
    BusSystem.getBus s' 1
    = Some (Bus.addConnection (Bus.new 1 "A" (Fin 480) "load") 2 None) /\
    BusSystem.getBus s' 2
    = Some (Bus.addConnection (Bus.new 2 "B" (Fin 208) "load") 1 None).
Proof.
  intros s1 s2. split.
  - apply (connect_buses_both_ways xreal _ s2 1 3 None). right. reflexivity.
  - destruct (connect_buses_both_ways xreal _ s2 1 2 None) as [_ Hok].
    destruct (Hok (Bus.new 1 "A" (Fin 480) "load") (Bus.new 2 "B" (Fin 208) "load")
                  eq_refl eq_refl) as (s' & Hs' & Hboth & _).
    exists s'. split; [exact Hs' |]. apply Hboth. discriminate.
Defined.

(** X8. [BusSystem.removeBus]: the bus is gone, no bus that stays keeps
    a connection to it, the other buses keep their other connections,
    and the counter stays, so that the identifier is not given again. *)
Theorem remove_bus_leaves_no_link :
  forall (N : Type) (num : JsNum N) (s : BusSystem.t N) (id : nat),
    let s' := BusModel.removeBus s id in
    BusSystem.getBus s' id = None /\
    (forall other, other <> id ->
       BusSystem.getBus s' other
       = option_map
           (fun bus =>
              BusModel.withConnections bus
                (List.filter (fun conn => negb (Nat.eqb (Bus.bus conn) id))
                             (Bus.connections bus)))
           (BusSystem.getBus s other)) /\
    (forall bus conn,
       In bus (BusSystem.getAllBuses s') -> In conn (Bus.connections bus) ->
       Bus.bus conn <> id) /\
    BusSystem.nextBusId s' = BusSystem.nextBusId s.
Proof.
  intros N num s id s'. subst s'. unfold BusModel.removeBus, BusSystem.getBus. cbn.
  split; [| split; [| split]].
  - rewrite BusModelFacts.mapGet_filter_key, Nat.eqb_refl. reflexivity.
  - intros other Hne. rewrite BusModelFacts.mapGet_filter_key.
    destruct (Nat.eqb other id) eqn:E; [apply Nat.eqb_eq in E; contradiction |].
    exact (BusModelFacts.mapGet_map_values (BusSystem.buses s)
             (fun bus =>
                BusModel.withConnections bus
                  (List.filter (fun conn => negb (Nat.eqb (Bus.bus conn) id))
                               (Bus.connections bus)))
             other).
  - intros bus conn Hbus Hconn. unfold BusSystem.getAllBuses in Hbus. cbn in Hbus.
    apply in_map_iff in Hbus. destruct Hbus as ([k b] & <- & Hin).
    apply filter_In in Hin. destruct Hin as [Hin _].
    apply in_map_iff in Hin. destruct Hin as ([k0 b0] & Heq & _).
    cbn in Heq. injection Heq as <- <-. cbn in Hconn.
    apply filter_In in Hconn. destruct Hconn as [_ Hc].
    apply negb_true_iff, Nat.eqb_neq in Hc. exact Hc.
  - reflexivity.
Qed.

(** The bus 2 removed from two buses connected to each other. *)
Lemma remove_bus_leaves_no_link_witness :
  let s1 := snd (BusSystem.addBus (@BusSystem.new xreal) "A" (Fin 480) "load") in
  let s2 := snd (BusSystem.addBus s1 "B" (Fin 208) "load") in
  let s3 :=
    TopologyManager.updateBusAt
      (TopologyManager.updateBusAt s2 1 (fun b => Bus.addConnection b 2 None))
      2 (fun b => Bus.addConnection b 1 None) in
  BusModel.connectBuses s2 1 2 None = Ok s3 /\
  BusSystem.getBus (BusModel.removeBus s3 2) 1
  = Some (Bus.new 1 "A" (Fin 480) "load").
Proof.
  intros s1 s2 s3. split; [reflexivity |].
  destruct (remove_bus_leaves_no_link xreal _ s3 2) as (_ & Hother & _).
  rewrite (Hother 1%nat); [reflexivity | discriminate].
Defined.

(** ** The topology (topology_manager.js) *)

Module TopologyFacts.
Import TopologyManager TopologyInvariant.
Section Facts.
Context {N : Type} {num : JsNum N}.

Lemma keepsShape_pushComponent (c : TopoComponent.t N) : keepsShape (pushComponent c).
Proof. intros b. reflexivity. Qed.

Lemma keepsShape_connectTo (other : nat) : keepsShape (N := N) (connectTo other).
Proof. intros b. reflexivity. Qed.

Lemma shape_updateBus (tm : t N) (k : nat) (f : TopoBus N -> TopoBus N) :
  keepsShape f -> shape (updateBus tm k f) = shape tm.
Proof.
  intros Hf. unfold shape, updateBus. cbn. rewrite map_map.
  apply map_ext. intros [k0 b]. cbn.
  destruct (Nat.eqb k0 k); cbn; [| reflexivity].
  rewrite (Hf b). reflexivity.
Qed.

Lemma getBus_shape (tm : t N) (k : nat) :
  option_map topoBusHeader (getBus tm k) = BusSystem.mapGet (shape tm) k.
Proof.
  unfold getBus, shape. induction (buses tm) as [| [k0 b] m IH]; cbn; [reflexivity |].
  destruct (Nat.eqb k k0); [reflexivity | exact IH].
Qed.

Lemma defined_getBus (tm : t N) (k : nat) :
  defined tm k <-> exists b, getBus tm k = Some b.
Proof.
  unfold defined. rewrite <- getBus_shape.
  destruct (getBus tm k) as [b |]; cbn; split; try eauto; try discriminate.
  - intros H. contradiction.
  - intros [b [=]].
Qed.

Lemma addComponent_ok (tm : t N) (component : Component.t N)
    (fromBusId : nat) (toBusId : option nat) :
  defined tm fromBusId ->
  exists c tm',
    addComponent tm component fromBusId toBusId = Ok (c, tm') /\
    shape tm' = shape tm /\
    nextBusId tm' = nextBusId tm /\
    all_components tm' = all_components tm ++ [c] /\
    TopoComponent.fromBus c = fromBusId /\
    TopoComponent.toBus c = toBusId /\
    TopoComponent.comp c = component.
Proof.
  intros Hdef. apply defined_getBus in Hdef. destruct Hdef as [fromBus HfromBus].
  unfold addComponent. rewrite HfromBus.
  match goal with
  | |- context [match ?tb with Some _ => _ | None => _ end] =>
      destruct tb as [toBus |] eqn:HtoBus
  end.
  - eexists. eexists. split; [reflexivity |].
    cbn [all_components nextBusId TopoComponent.fromBus TopoComponent.toBus
         TopoComponent.comp].
    repeat split.
    unfold shape at 1. cbn [buses].
    change (map _ (buses ?x)) with (shape x).
    rewrite !shape_updateBus by
      (first [apply keepsShape_pushComponent | apply keepsShape_connectTo]).
    reflexivity.
  - eexists. eexists. split; [reflexivity |].
    repeat split.
    rewrite shape_updateBus by apply keepsShape_pushComponent. reflexivity.
Qed.

(** [addBus] on a topology with the keys in order *)
Lemma addBus_shape (tm : t N) (name : string) (voltage : N) (ty : string) :
  keysOk tm ->
  let bus := fst (addBus tm name voltage ty) in
  let tm' := snd (addBus tm name voltage ty) in
  id bus = nextBusId tm /\
  shape tm' = shape tm ++ [(nextBusId tm, (nextBusId tm, name, voltage, ty))] /\
  nextBusId tm' = S (nextBusId tm) /\
  all_components tm' = all_components tm.
Proof.
  intros Hkeys bus tm'. subst bus tm'. cbn.
  repeat split. unfold shape. cbn [buses addBus].
  rewrite MapFacts.mapSet_fresh.
  - rewrite map_app. reflexivity.
  - unfold keysOk, shape in Hkeys. rewrite Forall_map in Hkeys.
    eapply Forall_impl; [exact Hkeys |]. cbn. intros kv [_ H]. lia.
Qed.

Lemma invariant_same_shape (tm tm' : t N) (cs : list (TopoComponent.t N)) :
  invariant tm -> shape tm' = shape tm -> nextBusId tm' = nextBusId tm ->
  all_components tm' = all_components tm ++ cs -> componentsOk cs ->
  invariant tm'.
Proof.
  intros [Hn Hk Hc Hs] Hshape Hnext Hcomps Hcs. split.
  - rewrite Hnext. exact Hn.
  - unfold keysOk. rewrite Hshape, Hnext. exact Hk.
  - unfold componentsOk. rewrite Hcomps. apply Forall_app. split; assumption.
  - unfold hasSource. rewrite Hshape. exact Hs.
Qed.

Lemma defined_same_shape (tm tm' : t N) (k : nat) :
  shape tm' = shape tm -> defined tm k -> defined tm' k.
Proof. unfold defined. intros ->. auto. Qed.

Lemma keysOk_positive (tm : t N) (k : nat) :
  keysOk tm -> defined tm k -> k <> 0.
Proof.
  unfold keysOk, defined. induction (shape tm) as [| [k0 e] m IH]; cbn.
  - intros _ H. contradiction.
  - intros Hall Hdef. apply Forall_cons in Hall. destruct Hall as [[_ Hk0] Hall].
    cbn in Hk0. destruct (Nat.eqb k k0) eqn:E.
    + apply Nat.eqb_eq in E. lia.
    + apply IH; assumption.
Qed.

Lemma defined_app (tm tm' : t N)
    (extra : list (nat * (nat * string * N * string))) (k : nat) :
  shape tm' = shape tm ++ extra -> defined tm k -> defined tm' k.
Proof.
  unfold defined. intros ->. induction (shape tm) as [| [k0 e] m IH]; cbn.
  - intros H. contradiction.
  - destruct (Nat.eqb k k0); [intros _; discriminate | exact IH].
Qed.

Lemma defined_last (tm' : t N) (m : list (nat * (nat * string * N * string)))
    (k : nat) (e : nat * string * N * string) :
  shape tm' = m ++ [(k, e)] -> defined tm' k.
Proof.
  unfold defined. intros ->. induction m as [| [k0 e0] m IH]; cbn.
  - rewrite Nat.eqb_refl. discriminate.
  - destruct (Nat.eqb k k0); [discriminate | exact IH].
Qed.

Lemma addComponent_step (tm : t N) (component : Component.t N)
    (cur : nat) (toBusId : option nat) :
  invariant tm -> defined tm cur ->
  exists c tm',
    addComponent tm component cur toBusId = Ok (c, tm') /\
    invariant tm' /\ shape tm' = shape tm.
Proof.
  intros Hinv Hdef.
  destruct (addComponent_ok tm component cur toBusId Hdef)
    as (c & tm' & Hok & Hshape & Hnext & Hcomps & Hfrom & _).
  exists c, tm'. split; [exact Hok |]. split; [| exact Hshape].
  apply (invariant_same_shape tm tm' [c] Hinv Hshape Hnext Hcomps).
  constructor; [| constructor].
  rewrite Hfrom. apply (keysOk_positive tm); [apply Hinv | exact Hdef].
Qed.

Lemma addBus_step (tm : t N) (name : string) (voltage : N) (ty : string) :
  invariant tm ->
  let bus := fst (addBus tm name voltage ty) in
  let tm' := snd (addBus tm name voltage ty) in
  invariant tm' /\ defined tm' (id bus) /\
  shape tm' = shape tm ++ [(nextBusId tm, (nextBusId tm, name, voltage, ty))].
Proof.
  intros [Hn Hk Hc Hs] bus tm'.
  destruct (addBus_shape tm name voltage ty Hk) as (Hid & Hshape & Hnext & Hcomps).
  fold bus tm' in Hid, Hshape, Hnext, Hcomps.
  split; [| split; [| exact Hshape]].
  - split.
    + rewrite Hnext. lia.
    + unfold keysOk. rewrite Hshape, Hnext. apply Forall_app. split.
      * eapply Forall_impl; [exact Hk |]. cbn. intros e [He1 He2]. split; [exact He1 | lia].
      * constructor; [cbn; lia | constructor].
    + rewrite Hcomps. exact Hc.
    + unfold hasSource. rewrite Hshape, existsb_app. unfold hasSource in Hs.
      rewrite Hs. reflexivity.
  - rewrite Hid. eapply defined_last. exact Hshape.
Qed.

Lemma getBusByName_defined (tm : t N) (n : string) (b : TopoBus N) :
  keysOk tm -> getBusByName tm n = Some b -> defined tm (id b).
Proof.
  unfold getBusByName, keysOk, defined, shape.
  induction (buses tm) as [| [k0 b0] m IH]; cbn; [discriminate |].
  intros Hall. apply Forall_cons in Hall. destruct Hall as [[Hid _] Hall].
  cbn in Hid.
  destruct (String.eqb (name b0) n).
  - cbn. intros [= <-]. rewrite Hid, Nat.eqb_refl. discriminate.
  - intros Hfind. destruct (Nat.eqb (id b) k0); [discriminate |].
    apply IH; assumption.
Qed.

(** One step of the walk keeps the invariant, stands on a bus of the
    topology afterwards, and only adds buses at the end. *)
Lemma placeComponent_ok (tm : t N) (cur : nat) (volt : N) (index : nat)
    (component : Component.t N) :
  invariant tm -> defined tm cur ->
  exists tm' cur' volt',
    placeComponent (tm, cur, volt) index component = Ok (tm', cur', volt') /\
    invariant tm' /\ defined tm' cur' /\
    exists extra, shape tm' = shape tm ++ extra.
Proof.
  intros Hinv Hdef. unfold placeComponent.
  assert (Hsame : forall toBusId,
    exists tm' cur' volt',
      ('(_, tm') ← addComponent tm component cur toBusId;
       Ok (tm', cur, volt)) = Ok (tm', cur', volt') /\
      invariant tm' /\ defined tm' cur' /\
      exists extra, shape tm' = shape tm ++ extra).
  { intros toBusId.
    destruct (addComponent_step tm component cur toBusId Hinv Hdef)
      as (c & tm' & Hok & Hinv' & Hshape).
    exists tm', cur, volt. rewrite Hok. cbn. split; [reflexivity |].
    split; [exact Hinv' |]. split; [eapply defined_same_shape; eassumption |].
    exists []. rewrite app_nil_r. exact Hshape. }
  assert (Hnew : forall (name : string) (voltage volt' : N),
    exists (tm' : t N) (cur' : nat),
      (let '(newBus, tm1) := addBus tm name voltage "load" in
       '(_, tm2) ← addComponent tm1 component cur (Some (id newBus));
       Ok (tm2, id newBus, volt')) = Ok (tm', cur', volt') /\
      invariant tm' /\ defined tm' cur' /\
      exists extra, shape tm' = shape tm ++ extra).
  { intros name voltage volt'.
    destruct (addBus_step tm name voltage "load" Hinv) as (Hinv1 & Hdef1 & Hshape1).
    destruct (addBus tm name voltage "load") as [newBus tm1] eqn:Hadd.
    cbn [fst snd] in Hinv1, Hdef1, Hshape1.
    assert (Hcur1 : defined tm1 cur) by (eapply defined_app; eassumption).
    destruct (addComponent_step tm1 component cur (Some (id newBus)) Hinv1 Hcur1)
      as (c & tm2 & Hok & Hinv2 & Hshape2).
    exists tm2, (id newBus). rewrite Hok. cbn. split; [reflexivity |].
    split; [exact Hinv2 |]. split; [eapply defined_same_shape; eassumption |].
    eexists. rewrite Hshape2. exact Hshape1. }
  destruct (String.eqb (Component.type component) "utility"); [apply Hsame |].
  destruct (String.eqb (Component.type component) "transformer").
  { destruct (Hnew (orElseString (Component.name component)
                                 ("Bus " ++ natToString (index + 1)))
                   ((if present (Component.secondaryV component)
                     then toNumber (Component.secondaryV component)
                     else orElse (Component.voltage component) (ofQ 480))
                    * (if present (Component.secondaryV component)
                       then ofQ 1000 else ofQ 1))%js
                   ((if present (Component.secondaryV component)
                     then toNumber (Component.secondaryV component)
                     else orElse (Component.voltage component) (ofQ 480))
                    * (if present (Component.secondaryV component)
                       then ofQ 1000 else ofQ 1))%js)
      as (tm' & cur' & Hok & Hrest).
    exists tm', cur'. eexists. split; [exact Hok | exact Hrest]. }
  destruct (String.eqb (Component.type component) "cable"); [| apply Hsame].
  destruct (presentString (Component.toBus component)).
  { destruct (getBusByName tm (orElseString (Component.toBus component) ""))
      as [b |] eqn:Hfind.
    - assert (Hb : defined tm (id b)).
      { eapply getBusByName_defined; [apply Hinv | exact Hfind]. }
      destruct (addComponent_step tm component cur (Some (id b)) Hinv Hdef)
        as (c & tm' & Hok & Hinv' & Hshape).
      exists tm', (id b), volt. rewrite Hok. cbn. split; [reflexivity |].
      split; [exact Hinv' |]. split; [eapply defined_same_shape; eassumption |].
      exists []. rewrite app_nil_r. exact Hshape.
    - destruct (Hnew (orElseString (Component.toBus component) "")
                     (orElse (Component.voltage component) volt) volt)
        as (tm' & cur' & Hok & Hrest).
      exists tm', cur', volt. split; [exact Hok | exact Hrest]. }
  destruct (Component.createsBus component); [| apply Hsame].
  destruct (Hnew (orElseString (Component.name component)
                               ("Bus " ++ natToString (index + 1)))
                 (orElse (Component.voltage component) volt) volt)
    as (tm' & cur' & Hok & Hrest).
  exists tm', cur', volt. split; [exact Hok | exact Hrest].
Qed.

Lemma placeComponents_ok (cs : list (Component.t N)) (tm : t N) (cur : nat)
    (volt : N) (index : nat) :
  invariant tm -> defined tm cur ->
  exists tm' cur' volt',
    placeComponents (tm, cur, volt) index cs = Ok (tm', cur', volt') /\
    invariant tm' /\
    exists extra, shape tm' = shape tm ++ extra.
Proof.
  revert tm cur volt index.
  induction cs as [| c cs IH]; intros tm cur volt index Hinv Hdef.
  - exists tm, cur, volt. split; [reflexivity |]. split; [exact Hinv |].
    exists []. rewrite app_nil_r. reflexivity.
  - cbn [placeComponents].
    destruct (placeComponent_ok tm cur volt index c Hinv Hdef)
      as (tm1 & cur1 & volt1 & Hok1 & Hinv1 & Hdef1 & extra1 & Hshape1).
    rewrite Hok1. cbn.
    destruct (IH tm1 cur1 volt1 (S index) Hinv1 Hdef1)
      as (tm2 & cur2 & volt2 & Hok2 & Hinv2 & extra2 & Hshape2).
    exists tm2, cur2, volt2. split; [exact Hok2 |]. split; [exact Hinv2 |].
    exists (extra1 ++ extra2). rewrite Hshape2, Hshape1, app_assoc. reflexivity.
Qed.
End Facts.
End TopologyFacts.

Module ToBusSystemFacts.
Import TopologyManager TopologyInvariant.
Section Facts.
Context {N : Type} {num : JsNum N}.

Ltac split_matches :=
  repeat match goal with
  | |- context [match ?e with _ => _ end] => destruct e
  end.

Lemma attachComponent_fromBus (busMap : list (nat * nat))
    (st : BusSystem.t N * list (ConsoleMessage N)) (tc : TopoComponent.t N) :
  TopoComponent.fromBus (snd (attachComponent busMap st tc))
  = TopoComponent.fromBus tc.
Proof.
  unfold attachComponent. destruct st as [bs console].
  destruct (BusSystem.mapGet busMap (TopoComponent.fromBus tc)); [| reflexivity].
  destruct (BusSystem.getBus bs n); [| reflexivity].
  destruct (String.eqb (Component.type (TopoComponent.comp tc)) "transformer");
    [destruct (getTransformerPowerMVA (TopoComponent.comp tc) console) as [[p c'] k] |];
    split_matches; reflexivity.
Qed.

Lemma attachComponents_fromBus (busMap : list (nat * nat))
    (cs : list (TopoComponent.t N)) (st : BusSystem.t N * list (ConsoleMessage N)) :
  map TopoComponent.fromBus (snd (attachComponents busMap st cs))
  = map TopoComponent.fromBus cs.
Proof.
  revert st. induction cs as [| c cs IH]; intros st; [reflexivity |].
  cbn [attachComponents].
  pose proof (attachComponent_fromBus busMap st c) as Hc.
  destruct (attachComponent busMap st c) as [[bs console] c'].
  pose proof (IH (bs, console)) as Hrest.
  destruct (attachComponents busMap (bs, console) cs) as [[bs' console'] rest'].
  cbn in *. rewrite Hc, Hrest. reflexivity.
Qed.

Lemma addConnectionOf_fromBus (busMap : list (nat * nat))
    (st : BusSystem.t N * list (ConsoleMessage N) * list (TopoComponent.t N))
    (conn : Connection) :
  map TopoComponent.fromBus (snd (addConnectionOf busMap st conn))
  = map TopoComponent.fromBus (snd st).
Proof.
  unfold addConnectionOf. destruct st as [[bs console] comps].
  destruct (BusSystem.mapGet busMap (conn_fromBus conn)); [| reflexivity].
  destruct (BusSystem.mapGet busMap (conn_toBus conn)); [| reflexivity].
  destruct (comps !! conn_component conn) as [tc |] eqn:Hlookup; [| reflexivity].
  destruct (BusSystem.getBus bs n0); [| reflexivity].
  destruct (connectionImpedance (TopoComponent.comp tc) console) as [[z comp'] console'].
  cbn [snd]. unfold replaceAt.
  rewrite list_fmap_insert. apply list_insert_id.
  rewrite list_lookup_fmap, Hlookup. reflexivity.
Qed.

Lemma addConnections_fromBus (busMap : list (nat * nat)) (conns : list Connection)
    (st : BusSystem.t N * list (ConsoleMessage N) * list (TopoComponent.t N)) :
  map TopoComponent.fromBus (snd (fold_left (addConnectionOf busMap) conns st))
  = map TopoComponent.fromBus (snd st).
Proof.
  revert st. induction conns as [| conn conns IH]; intros st; [reflexivity |].
  cbn [fold_left]. rewrite IH. apply addConnectionOf_fromBus.
Qed.

(** [toBusSystem] leaves the buses, the connections and the counter of
    the topology, and the bus each component stands on. *)
Lemma toBusSystem_topology (tm : t N) (console : list (ConsoleMessage N)) :
  let tm' := snd (fst (toBusSystem tm console)) in
  buses tm' = buses tm /\ connections tm' = connections tm /\
  nextBusId tm' = nextBusId tm /\
  map TopoComponent.fromBus (all_components tm')
  = map TopoComponent.fromBus (all_components tm).
Proof.
  unfold toBusSystem.
  destruct (fold_left createBus (buses tm) (BusSystem.new, [])) as [bs0 busMap].
  pose proof (attachComponents_fromBus busMap (all_components tm) (bs0, console)) as H1.
  destruct (attachComponents busMap (bs0, console) (all_components tm))
    as [[bs1 console1] comps1].
  pose proof (addConnections_fromBus busMap (connections tm) (bs1, console1, comps1)) as H2.
  destruct (fold_left (addConnectionOf busMap) (connections tm) (bs1, console1, comps1))
    as [[bs2 console2] comps2].
  cbn in *. repeat split. rewrite H2, H1. reflexivity.
Qed.
End Facts.
End ToBusSystemFacts.

Module MirrorFacts.
Import TopologyManager TopologyInvariant.
Section Facts.
Context {N : Type} {num : JsNum N}.

Lemma headers_updateBusAt (bs : BusSystem.t N) (key : nat) (f : Bus.t N -> Bus.t N) :
  (forall b, busHeader (f b) = busHeader b) ->
  headers (updateBusAt bs key f) = headers bs.
Proof.
  intros Hf. unfold headers, BusSystem.getAllBuses, updateBusAt. cbn.
  rewrite !map_map. apply map_ext. intros [k b]. cbn.
  destruct (Nat.eqb k key); cbn; [apply Hf | reflexivity].
Qed.

Ltac headers_kept :=
  repeat (rewrite headers_updateBusAt by (intros; reflexivity)); try reflexivity.

Lemma attachComponent_headers (busMap : list (nat * nat))
    (st : BusSystem.t N * list (ConsoleMessage N)) (tc : TopoComponent.t N) :
  headers (fst (fst (attachComponent busMap st tc))) = headers (fst st).
Proof.
  unfold attachComponent. destruct st as [bs console].
  destruct (BusSystem.mapGet busMap (TopoComponent.fromBus tc)); [| reflexivity].
  destruct (BusSystem.getBus bs n); [| reflexivity].
  set (ty := Component.type (TopoComponent.comp tc)).
  destruct (if String.eqb ty "transformer"
            then getTransformerPowerMVA (TopoComponent.comp tc) console
            else (ofQ 0, TopoComponent.comp tc, console)) as [[powerMVA comp'] console1].
  destruct (cableImpedance (TopoComponent.comp tc)) as [dr dx].
  destruct (utilityImpedance (TopoComponent.comp tc) _) as [rSource xSource].
  destruct (transformerImpedance (TopoComponent.comp tc) powerMVA) as [rXfmr xXfmr].
  destruct (String.eqb ty "cable" && present (Component.resistance (TopoComponent.comp tc))
            && present (Component.reactance (TopoComponent.comp tc)));
    destruct (String.eqb ty "utility"); destruct (String.eqb ty "transformer");
    cbn [fst]; headers_kept;
    destruct (TopoComponent.toBus tc) as [toId |]; headers_kept;
    destruct (Nat.eqb toId 0); headers_kept;
    destruct (BusSystem.mapGet busMap toId); headers_kept.
Qed.

Lemma attachComponents_headers (busMap : list (nat * nat))
    (cs : list (TopoComponent.t N)) (st : BusSystem.t N * list (ConsoleMessage N)) :
  headers (fst (fst (attachComponents busMap st cs))) = headers (fst st).
Proof.
  revert st. induction cs as [| c cs IH]; intros st; [reflexivity |].
  cbn [attachComponents].
  pose proof (attachComponent_headers busMap st c) as Hc.
  destruct (attachComponent busMap st c) as [[bs console] c'].
  pose proof (IH (bs, console)) as Hrest.
  destruct (attachComponents busMap (bs, console) cs) as [[bs' console'] rest'].
  cbn in *. rewrite Hrest, Hc. reflexivity.
Qed.

Lemma addConnectionOf_headers (busMap : list (nat * nat))
    (st : BusSystem.t N * list (ConsoleMessage N) * list (TopoComponent.t N))
    (conn : Connection) :
  headers (fst (fst (addConnectionOf busMap st conn))) = headers (fst (fst st)).
Proof.
  unfold addConnectionOf. destruct st as [[bs console] comps].
  destruct (BusSystem.mapGet busMap (conn_fromBus conn)); [| reflexivity].
  destruct (BusSystem.mapGet busMap (conn_toBus conn)); [| reflexivity].
  destruct (comps !! conn_component conn) as [tc |]; [| reflexivity].
  destruct (BusSystem.getBus bs n0); [| reflexivity].
  destruct (connectionImpedance (TopoComponent.comp tc) console) as [[z comp'] console'].
  cbn [fst]. headers_kept.
Qed.

Lemma addConnections_headers (busMap : list (nat * nat)) (conns : list Connection)
    (st : BusSystem.t N * list (ConsoleMessage N) * list (TopoComponent.t N)) :
  headers (fst (fst (fold_left (addConnectionOf busMap) conns st)))
  = headers (fst (fst st)).
Proof.
  revert st. induction conns as [| conn conns IH]; intros st; [reflexivity |].
  cbn [fold_left]. rewrite IH. apply addConnectionOf_headers.
Qed.

(** "Create buses": one bus of the bus system for each bus of the
    topology, in order, with its identifier, name, voltage and type. *)
Lemma createBuses_headers (entries : list (nat * TopoBus N))
    (bs : BusSystem.t N) (busMap : list (nat * nat)) :
  Forall (fun kv => fst kv < BusSystem.nextBusId bs) (BusSystem.buses bs) ->
  headers (fst (fold_left createBus entries (bs, busMap)))
  = headers bs ++ map (fun kv => topoBusHeader (snd kv)) entries.
Proof.
  revert bs busMap. induction entries as [| [k b] entries IH]; intros bs busMap Hkeys.
  - cbn. rewrite app_nil_r. reflexivity.
  - cbn [fold_left]. unfold createBus at 2. cbn [snd fst].
    cbn [BusSystem.addBus Bus.id Bus.new].
    assert (Hfresh : BusSystem.mapSet (BusSystem.buses bs) (BusSystem.nextBusId bs)
                       (Bus.new (BusSystem.nextBusId bs) (name b) (voltage b) (type b))
                     = BusSystem.buses bs
                       ++ [(BusSystem.nextBusId bs,
                            Bus.new (BusSystem.nextBusId bs) (name b) (voltage b) (type b))]).
    { apply MapFacts.mapSet_fresh.
      eapply Forall_impl; [exact Hkeys |]. cbn. intros kv Hkv. lia. }
    rewrite IH.
    + cbn [map snd].
      change (topoBusHeader b :: map (fun kv => topoBusHeader (snd kv)) entries)
        with ([topoBusHeader b] ++ map (fun kv => topoBusHeader (snd kv)) entries).
      rewrite app_assoc. f_equal.
      unfold headers, BusSystem.getAllBuses, updateBusAt. cbn [BusSystem.buses].
      rewrite Hfresh. rewrite !map_app, !map_map. cbn [map fst snd].
      rewrite Nat.eqb_refl. cbn [snd]. f_equal.
      apply map_ext_in. intros [k0 b0] Hin. cbn.
      rewrite List.Forall_forall in Hkeys. specialize (Hkeys _ Hin). cbn in Hkeys.
      destruct (Nat.eqb k0 (BusSystem.nextBusId bs)) eqn:E; [| reflexivity].
      apply Nat.eqb_eq in E. lia.
    + unfold updateBusAt. cbn [BusSystem.buses BusSystem.nextBusId].
      rewrite Hfresh. rewrite Forall_map. apply Forall_app. split.
      * eapply Forall_impl; [exact Hkeys |]. intros [k0 b0] Hk0. cbn in *.
        destruct (Nat.eqb k0 (BusSystem.nextBusId bs)); cbn; lia.
      * constructor; [| constructor]. cbn. rewrite Nat.eqb_refl. cbn. lia.
Qed.

(** [toBusSystem]: the bus system has the buses of the topology. *)
Lemma toBusSystem_headers (tm : t N) (console : list (ConsoleMessage N)) :
  headers (fst (fst (toBusSystem tm console))) = map snd (shape tm).
Proof.
  unfold toBusSystem.
  pose proof (createBuses_headers (buses tm) BusSystem.new []) as H0.
  destruct (fold_left createBus (buses tm) (BusSystem.new, [])) as [bs0 busMap].
  pose proof (attachComponents_headers busMap (all_components tm) (bs0, console)) as H1.
  destruct (attachComponents busMap (bs0, console) (all_components tm))
    as [[bs1 console1] comps1].
  pose proof (addConnections_headers busMap (connections tm) (bs1, console1, comps1)) as H2.
  destruct (fold_left (addConnectionOf busMap) (connections tm) (bs1, console1, comps1))
    as [[bs2 console2] comps2].
  cbn [fst snd] in *. rewrite H2, H1, H0 by constructor.
  unfold shape. rewrite map_map. reflexivity.
Qed.
End Facts.
End MirrorFacts.

Module ValidationFacts.
Import TopologyManager TopologyInvariant.
Section Facts.
Context {N : Type} {num : JsNum N}.

Lemma existsb_mapped {A B : Type} (f : A -> B) (p : B -> bool) (l : list A) :
  existsb p (map f l) = existsb (fun a => p (f a)) l.
Proof.
  induction l as [| a l IH]; cbn; [reflexivity |]. rewrite IH. reflexivity.
Qed.

Lemma componentErrors_none (cs : list (TopoComponent.t N)) (index : nat) :
  Forall (fun k => k <> 0) (map TopoComponent.fromBus cs) ->
  componentErrors index cs = [].
Proof.
  revert index. induction cs as [| c cs IH]; intros index Hall; [reflexivity |].
  cbn in Hall. apply Forall_cons in Hall. destruct Hall as [Hc Hall].
  cbn [componentErrors].
  destruct (Nat.eqb (TopoComponent.fromBus c) 0) eqn:E;
    [apply Nat.eqb_eq in E; contradiction |].
  cbn. apply IH. exact Hall.
Qed.

(** A topology that satisfies the invariant passes the validation. *)
Lemma invariant_valid (tm : t N) :
  Forall (fun k => k <> 0) (map TopoComponent.fromBus (all_components tm)) ->
  hasSource tm ->
  errors (validateTopology tm) = [] /\ valid (validateTopology tm) = true.
Proof.
  intros Hcs Hsrc. unfold validateTopology. cbn [errors valid].
  rewrite componentErrors_none by exact Hcs.
  unfold hasSource, shape in Hsrc. rewrite existsb_mapped in Hsrc.
  cbn in Hsrc. unfold headerType, topoBusHeader in Hsrc. cbn in Hsrc.
  rewrite Hsrc. split; reflexivity.
Qed.

Lemma new_source_invariant (voltage : N) :
  let tm0 := snd (addBus new "Source" voltage "source") in
  invariant tm0 /\ defined tm0 1 /\
  shape tm0 = [(1, (1, "Source", voltage, "source"))].
Proof.
  cbn. split; [split |].
  - cbn. lia.
  - constructor; [cbn; lia | constructor].
  - constructor.
  - reflexivity.
  - split; [| reflexivity]. unfold defined. cbn. discriminate.
Qed.

(** [buildFromProject] returns for every project, and the topology it
    returns satisfies the invariant and starts with the source bus. *)
Lemma buildFromProject_ok (projectData : ProjectData N)
    (console : list (ConsoleMessage N)) :
  exists topology console',
    buildFromProject projectData console = Ok (topology, console') /\
    errors (validateTopology (topologyManager topology)) = [] /\
    valid (validateTopology (topologyManager topology)) = true /\
    headers (busSystem topology) = map snd (shape (topologyManager topology)) /\
    exists rest,
      shape (topologyManager topology)
      = (1, (1, "Source", orElse (pd_voltage projectData) (ofQ 13800), "source"))
        :: rest.
Proof.
  unfold buildFromProject.
  set (sourceVoltage := orElse (pd_voltage projectData) (ofQ 13800)).
  destruct (new_source_invariant sourceVoltage) as (Hinv0 & Hdef0 & Hshape0).
  destruct (addBus new "Source" sourceVoltage "source") as [sourceBus tm0] eqn:Hadd.
  assert (Hid : id sourceBus = 1) by (injection Hadd as <- _; reflexivity).
  cbn [snd] in Hinv0, Hdef0, Hshape0. rewrite Hid.
  destruct (TopologyFacts.placeComponents_ok (pd_components projectData) tm0 1
              sourceVoltage 0 Hinv0 Hdef0)
    as (tm1 & cur & volt & Hok & Hinv1 & extra & Hshape1).
  rewrite Hok. cbn [mbind Result_bind].
  pose proof (ToBusSystemFacts.toBusSystem_topology tm1 console) as Htopo.
  pose proof (MirrorFacts.toBusSystem_headers tm1 console) as Hheaders.
  destruct (toBusSystem tm1 console) as [[bs tm2] console'] eqn:Hto.
  cbn [fst snd] in Htopo, Hheaders.
  destruct Htopo as (Hbuses & _ & _ & Hfrom).
  assert (Hshape2 : shape tm2 = shape tm1) by (unfold shape; rewrite Hbuses; reflexivity).
  eexists. eexists. split; [reflexivity |]. cbn [topologyManager busSystem].
  destruct (invariant_valid tm2) as [Herrors Hvalid].
  { rewrite Hfrom. rewrite Forall_map. apply Hinv1. }
  { unfold hasSource. rewrite Hshape2. apply Hinv1. }
  split; [exact Herrors |]. split; [exact Hvalid |].
  split; [rewrite Hshape2; exact Hheaders |].
  exists extra. rewrite Hshape2, Hshape1, Hshape0. reflexivity.
Qed.
End Facts.
End ValidationFacts.

(** X9. [buildTopology] never fails: for every project the walk of
    [buildFromProject] finds the bus each component is added to, so
    [addComponent] does not throw, the topology built has a source bus
    and no component without bus, [validateTopology] reports no error,
    and the first bus is the bus "Source" of type source with identifier
    1 at the project voltage, 13800 V when the project has none. *)
Theorem build_topology_never_fails :
  forall (N : Type) (num : JsNum N) (projectData : ProjectData N)
         (l : Orchestrator.Ledger N) (console : list (ConsoleMessage N)),
  exists topology l' console',
    Orchestrator.buildTopology projectData l console = Ok (topology, l', console') /\
    let tm := TopologyManager.topologyManager topology in
    TopologyManager.errors (TopologyManager.validateTopology tm) = [] /\
    TopologyManager.valid (TopologyManager.validateTopology tm) = true /\
    exists rest,
      TopologyInvariant.shape tm
      = (1, (1, "Source", orElse (pd_voltage projectData) (ofQ 13800), "source"))
        :: rest.
Proof.
  intros N num projectData l console.
  destruct (ValidationFacts.buildFromProject_ok projectData console)
    as (topology & console' & Hok & Herrors & Hvalid & _ & Hsource).
  unfold Orchestrator.buildTopology. rewrite Hok. cbn [mbind Result_bind].
  rewrite Hvalid. cbn [negb].
  eexists. eexists. eexists. split; [reflexivity |].
  cbv zeta. auto.
Qed.

(** ** The pipeline up to the short-circuit results *)

Module PipelineFacts.
Import Orchestrator.
Section Facts.
Context {N : Type} {num : JsNum N}.

Lemma shortCircuitOfBuses_ok (frequency : option N) (buses : list (Bus.t N)) :
  shortCircuitOfBuses frequency buses (map theveninOf buses)
  = Ok (map (fun bus => shortCircuitOf frequency bus (theveninOf bus)) buses).
Proof.
  induction buses as [| bus buses IH]; [reflexivity |].
  cbn [map shortCircuitOfBuses]. rewrite IH. reflexivity.
Qed.
End Facts.
End PipelineFacts.

(** X11. The pipeline up to the short-circuit results returns for
    every project: one Thevenin equivalent and one short-circuit result
    for each bus of the bus system, in the order of the buses, computed
    from that bus, and the first result is that of the bus "Source"
    with identifier 1 at the project voltage (13800 V when absent). *)
Theorem short_circuit_study_covers_every_bus :
  forall (N : Type) (num : JsNum N) (projectData : ProjectData N),
  exists topology l console thevenin shortCircuit,
    Orchestrator.buildTopology projectData emptyLedger [] = Ok (topology, l, console) /\
    shortCircuitStudy projectData = Ok (thevenin, shortCircuit) /\
    let buses := BusSystem.getAllBuses (TopologyManager.busSystem topology) in
    thevenin = map Orchestrator.theveninOf buses /\
    shortCircuit
    = map (fun bus => Orchestrator.shortCircuitOf (pd_frequency projectData) bus
                        (Orchestrator.theveninOf bus)) buses /\
    exists first rest,
      shortCircuit = first :: rest /\
      Orchestrator.busId first = 1 /\
      Orchestrator.busName first = "Source" /\
      Orchestrator.voltage first = orElse (pd_voltage projectData) (ofQ 13800).
Proof.
  intros N num projectData.
  destruct (ValidationFacts.buildFromProject_ok projectData [])
    as (topology & console' & Hok & _ & Hvalid & Hheaders & rest & Hshape).
  assert (Hbuild : Orchestrator.buildTopology projectData emptyLedger []
                   = Ok (topology,
                         fold_left (fun l warning =>
                           Orchestrator.addAssumption "Topology"
                             (Orchestrator.TopologyWarning warning)
                             (Orchestrator.logStep
                                (Orchestrator.TopologyWarningLogged warning) l))
                           (TopologyManager.warnings
                              (TopologyManager.validateTopology
                                 (TopologyManager.topologyManager topology)))
                           emptyLedger,
                         console')).
  { unfold Orchestrator.buildTopology. rewrite Hok. cbn [mbind Result_bind].
    rewrite Hvalid. reflexivity. }
  eexists. eexists. eexists. eexists. eexists.
  split; [exact Hbuild |].
  unfold shortCircuitStudy. rewrite Hbuild. cbn [mbind Result_bind].
  unfold Orchestrator.calculateTheveninEquivalents, Orchestrator.calculateShortCircuit.
  rewrite PipelineFacts.shortCircuitOfBuses_ok. cbn [mbind Result_bind].
  split; [reflexivity |]. cbv zeta. split; [reflexivity |]. split; [reflexivity |].
  unfold TopologyInvariant.headers in Hheaders. rewrite Hshape in Hheaders.
  destruct (BusSystem.getAllBuses (TopologyManager.busSystem topology))
    as [| bus buses]; [discriminate |].
  cbn in Hheaders. injection Hheaders as Hid Hname Hvoltage _ _.
  eexists. eexists. split; [reflexivity |].
  cbn. auto.
Qed.

Module AddComponentFacts.
Import TopologyManager TopologyInvariant.
Section Facts.
Context {N : Type} {num : JsNum N}.

Lemma connectTo_listed (other : nat) (b : TopoBus N) :
  In other (connectedBuses (connectTo other b)).
Proof.
  unfold connectTo. cbn.
  destruct (existsb (Nat.eqb other) (connectedBuses b)) eqn:E.
  - apply existsb_exists in E. destruct E as (x & Hin & Hx).
    apply Nat.eqb_eq in Hx. subst x. exact Hin.
  - apply in_or_app. right. left. reflexivity.
Qed.

Lemma connectTo_NoDup (other : nat) (b : TopoBus N) :
  NoDup (connectedBuses b) -> NoDup (connectedBuses (connectTo other b)).
Proof.
  intros Hnd. unfold connectTo. cbn.
  destruct (existsb (Nat.eqb other) (connectedBuses b)) eqn:E; [exact Hnd |].
  apply NoDup_app.
  split; [exact Hnd |]. split.
  - intros x Hx Hin. apply list_elem_of_singleton in Hin. subst x.
    assert (Hex : existsb (Nat.eqb other) (connectedBuses b) = true).
    { apply existsb_exists. exists other. split.
      - apply list_elem_of_In. exact Hx.
      - apply Nat.eqb_refl. }
    congruence.
  - apply NoDup_singleton.
Qed.
End Facts.
End AddComponentFacts.

(** X12. [TopologyManager.addComponent] throws exactly when the bus
    [fromBusId] does not exist.  Otherwise the component, with its
    topology fields, is appended to the components and to the bus it
    stands on.  Without a usable [toBusId] (absent, 0, or naming no
    bus) nothing else changes, although the component keeps the
    [toBusId] given.  With a second bus, both buses list the component
    and each other, and the connection is recorded at the end of
    [connections]; [connectedBuses] never lists a neighbour twice. *)
Theorem add_component_links_both_buses :
  forall (N : Type) (num : JsNum N) (tm : TopologyManager.t N)
         (component : Component.t N) (from : nat) (to : option nat),
    (TopologyManager.getBus tm from = None ->
       TopologyManager.addComponent tm component from to = Throw "FromBus not found") /\
    (forall fromBus,
       TopologyManager.getBus tm from = Some fromBus ->
       exists c tm',
         TopologyManager.addComponent tm component from to = Ok (c, tm') /\
         TopologyManager.all_components tm' = TopologyManager.all_components tm ++ [c] /\
         TopoComponent.comp c = component /\
         TopoComponent.fromBus c = from /\
         TopoComponent.toBus c = to /\
         TopoComponent.fromBusName c = TopologyManager.name fromBus /\
         ((to = None \/ to = Some 0
           \/ (exists t, to = Some t /\ TopologyManager.getBus tm t = None)) ->
            TopoComponent.toBusName c = None /\
            TopologyManager.connections tm' = TopologyManager.connections tm /\
            TopologyManager.getBus tm' from
            = Some (TopologyManager.pushComponent c fromBus) /\
            (forall k, k <> from ->
               TopologyManager.getBus tm' k = TopologyManager.getBus tm k)) /\
         (forall t toBus,
            to = Some t -> t <> 0 -> t <> from ->
            TopologyManager.getBus tm t = Some toBus ->
            TopologyManager.id toBus = t ->
            TopoComponent.toBusName c = Some (TopologyManager.name toBus) /\
            TopologyManager.connections tm'
            = TopologyManager.connections tm
              ++ [{| TopologyManager.conn_fromBus := from;
                     TopologyManager.conn_toBus := t;
                     TopologyManager.conn_component :=
                       List.length (TopologyManager.all_components tm) |}] /\
            TopologyManager.getBus tm' from
            = Some (TopologyManager.connectTo t
                      (TopologyManager.pushComponent c fromBus)) /\
            TopologyManager.getBus tm' t
            = Some (TopologyManager.connectTo from
                      (TopologyManager.pushComponent c toBus)) /\
            TopologyInvariant.linked tm' from t /\
            TopologyInvariant.linked tm' t from)) /\
    (forall (other : nat) (bus : TopologyManager.TopoBus N),
       NoDup (TopologyManager.connectedBuses bus) ->
       NoDup (TopologyManager.connectedBuses (TopologyManager.connectTo other bus))).
Proof.
  intros N num tm component from to.
  split; [| split].
  - intros Hnone. unfold TopologyManager.addComponent. rewrite Hnone. reflexivity.
  - intros fromBus Hfrom. unfold TopologyManager.addComponent. rewrite Hfrom.
    match goal with
    | |- context [match ?tb with Some _ => _ | None => _ end] =>
        destruct tb as [toBus |] eqn:HtoBus
    end.
    + eexists. eexists. split; [reflexivity |].
      cbn [TopologyManager.all_components TopoComponent.comp TopoComponent.fromBus
           TopoComponent.toBus TopoComponent.fromBusName TopoComponent.toBusName
           TopologyManager.connections TopologyManager.buses option_map].
      do 5 (split; [reflexivity |]). split.
      * intros [-> | [-> | (t & -> & Hnone)]]; cbn in HtoBus; try discriminate.
        destruct (Nat.eqb t 0); [discriminate | congruence].
      * intros t toBus' -> Ht0 Htf HgetT Hid. cbn in HtoBus.
        destruct (Nat.eqb t 0) eqn:E0; [apply Nat.eqb_eq in E0; contradiction |].
        rewrite HgetT in HtoBus. injection HtoBus as <-. rewrite Hid.
        split; [reflexivity |]. split; [reflexivity |].
        assert (Hft : Nat.eqb from t = false) by (apply Nat.eqb_neq; congruence).
        assert (Htf' : Nat.eqb t from = false) by (apply Nat.eqb_neq; congruence).
        match goal with
        | |- ?A /\ ?B /\ _ =>
            assert (HA : A); [| assert (HB : B); [| split; [exact HA | split; [exact HB |]]]]
        end.
        -- unfold TopologyManager.getBus in *.
           cbn [TopologyManager.buses TopologyManager.updateBus].
           rewrite !MapFacts.mapGet_update.
           rewrite Hft, Nat.eqb_refl, Hfrom. reflexivity.
        -- unfold TopologyManager.getBus in *.
           cbn [TopologyManager.buses TopologyManager.updateBus].
           rewrite !MapFacts.mapGet_update.
           rewrite Htf', Nat.eqb_refl, HgetT. reflexivity.
        -- split.
           ++ eexists. split; [exact HA |]. apply AddComponentFacts.connectTo_listed.
           ++ eexists. split; [exact HB |]. apply AddComponentFacts.connectTo_listed.
    + eexists. eexists. split; [reflexivity |].
      cbn [TopologyManager.all_components TopoComponent.comp TopoComponent.fromBus
           TopoComponent.toBus TopoComponent.fromBusName TopoComponent.toBusName
           TopologyManager.connections option_map].
      do 5 (split; [reflexivity |]). split.
      * intros _. split; [reflexivity |]. split; [reflexivity |]. split.
        -- unfold TopologyManager.getBus in *.
           cbn [TopologyManager.buses TopologyManager.updateBus].
           rewrite MapFacts.mapGet_update, Nat.eqb_refl, Hfrom. reflexivity.
        -- intros k Hk. unfold TopologyManager.getBus.
           cbn [TopologyManager.buses TopologyManager.updateBus].
           rewrite MapFacts.mapGet_update.
           destruct (Nat.eqb k from) eqn:E; [apply Nat.eqb_eq in E; contradiction |].
           reflexivity.
      * intros t toBus' -> Ht0 Htf HgetT Hid. cbn in HtoBus.
        destruct (Nat.eqb t 0) eqn:E0; [apply Nat.eqb_eq in E0; contradiction |].
        congruence.
  - intros other bus. apply AddComponentFacts.connectTo_NoDup.
Qed.
(** ** The search for a path (topology_manager.js) *)

Module SearchFacts.
Import TopologyManager TopologyInvariant TopologyQueries.
Section Facts.
Context {N : Type} {num : JsNum N}.

Lemma visitedHas_spec (visited : list nat) (k : nat) :
  visitedHas visited k = true <-> In k visited.
Proof.
  unfold visitedHas. rewrite existsb_exists. split.
  - intros (x & Hin & Hx). apply Nat.eqb_eq in Hx. subst x. exact Hin.
  - intros Hin. exists k. split; [exact Hin | apply Nat.eqb_refl].
Qed.

Lemma visitedHas_snoc (visited : list nat) (cur k : nat) :
  visitedHas (visited ++ [cur]) k = visitedHas visited k || Nat.eqb k cur.
Proof.
  unfold visitedHas. rewrite existsb_app. cbn. rewrite orb_false_r. reflexivity.
Qed.

(** *** The loop ends *)

Lemma unvisitedDegree_mono (tm : t N) (visited : list nat) (cur : nat) :
  unvisitedDegree tm (visited ++ [cur]) <= unvisitedDegree tm visited.
Proof.
  unfold unvisitedDegree, list_sum.
  induction (buses tm) as [| [k b] m IH]; cbn; [lia |].
  fold (visitedHas (visited ++ [cur]) k). fold (visitedHas visited k).
  rewrite visitedHas_snoc.
  destruct (visitedHas visited k); cbn; [lia |].
  destruct (Nat.eqb k cur); lia.
Qed.

Lemma unvisitedDegree_visit (tm : t N) (visited : list nat) (cur : nat)
    (bus : TopoBus N) :
  getBus tm cur = Some bus -> visitedHas visited cur = false ->
  unvisitedDegree tm (visited ++ [cur]) + List.length (connectedBuses bus)
  <= unvisitedDegree tm visited.
Proof.
  unfold unvisitedDegree, getBus, list_sum.
  induction (buses tm) as [| [k b] m IH]; cbn; [discriminate |].
  intros Hget Hnot.
  fold (visitedHas (visited ++ [cur]) k). fold (visitedHas visited k).
  rewrite visitedHas_snoc.
  destruct (Nat.eqb cur k) eqn:E.
  - apply Nat.eqb_eq in E. subst k. injection Hget as ->.
    rewrite Hnot, Nat.eqb_refl. cbn.
    pose proof (unvisitedDegree_mono
                  {| buses := m; connections := []; all_components := [];
                     nextBusId := 0 |} visited cur) as Hm.
    unfold unvisitedDegree, list_sum in Hm. cbn in Hm.
    fold (visitedHas (visited ++ [cur])) in Hm. fold (visitedHas visited) in Hm.
    unfold visitedHas in *. lia.
  - specialize (IH Hget Hnot).
    destruct (visitedHas visited k); cbn; [lia |].
    destruct (Nat.eqb k cur); lia.
Qed.

Lemma round_decreases (tm : t N) (to : nat) (visited visited' : list nat)
    (queue queue' : list (list nat)) :
  round tm to visited queue = Continue visited' queue' ->
  List.length queue' + unvisitedDegree tm visited'
  < List.length queue + unvisitedDegree tm visited.
Proof.
  unfold round. destruct queue as [| path rest]; [discriminate |].
  destruct (Nat.eqb (List.last path 0) to); [discriminate |].
  destruct (visitedHas visited (List.last path 0)) eqn:Hvis.
  - intros [= <- <-]. cbn. lia.
  - destruct (getBus tm (List.last path 0)) as [bus |] eqn:Hbus.
    + intros [= <- <-].
      pose proof (unvisitedDegree_visit tm visited _ bus Hbus Hvis) as Hdeg.
      rewrite length_app, length_map.
      pose proof (filter_length_le
                    (fun nextBusId =>
                       negb (visitedHas (visited ++ [List.last path 0]) nextBusId))
                    (connectedBuses bus)) as Hle.
      cbn [List.length]. lia.
    + intros [= <- <-].
      pose proof (unvisitedDegree_mono tm visited (List.last path 0)). cbn. lia.
Qed.

Lemma search_ends (tm : t N) (to : nat) (rounds : nat) :
  forall (visited : list nat) (queue : list (list nat)),
    List.length queue + unvisitedDegree tm visited < rounds ->
    search rounds tm to visited queue <> None.
Proof.
  induction rounds as [| rounds IH]; intros visited queue Hlt; [lia |].
  cbn [search].
  destruct (round tm to visited queue) as [path | visited' queue' |] eqn:Hround;
    try discriminate.
  apply IH. pose proof (round_decreases _ _ _ _ _ _ Hround). lia.
Qed.

Lemma roundsBound_enough (tm : t N) (from : nat) :
  List.length [[from]] + unvisitedDegree tm [] < roundsBound tm.
Proof.
  unfold roundsBound, unvisitedDegree. cbn. lia.
Qed.

(** *** What is returned is a path *)

Lemma chain_snoc (tm : t N) (path : list nat) (next : nat) :
  path <> [] -> chain tm path -> linked tm (List.last path 0) next ->
  chain tm (path ++ [next]).
Proof.
  induction path as [| x [| y rest] IH]; intros Hne Hchain Hlink.
  - contradiction.
  - cbn in *. split; [exact Hlink | exact I].
  - cbn [chain app] in *. destruct Hchain as [Hxy Hrest].
    split; [exact Hxy |]. apply IH; [discriminate | exact Hrest | exact Hlink].
Qed.

Lemma round_paths (tm : t N) (from to : nat) (visited visited' : list nat)
    (queue queue' : list (list nat)) :
  pathsFrom tm from queue ->
  round tm to visited queue = Continue visited' queue' ->
  pathsFrom tm from queue'.
Proof.
  unfold round, pathsFrom. intros Hq. destruct queue as [| path rest]; [discriminate |].
  apply Forall_cons in Hq. destruct Hq as [[Hhd Hchain] Hrest].
  destruct (Nat.eqb (List.last path 0) to); [discriminate |].
  destruct (visitedHas visited (List.last path 0)); [intros [= <- <-]; exact Hrest |].
  destruct (getBus tm (List.last path 0)) as [bus |] eqn:Hbus;
    [| intros [= <- <-]; exact Hrest].
  intros [= <- <-]. apply Forall_app. split; [exact Hrest |].
  rewrite Forall_map. rewrite List.Forall_forall. intros next Hnext.
  apply filter_In in Hnext. destruct Hnext as [Hnext _].
  assert (Hne : path <> []) by (intros ->; discriminate).
  split.
  - destruct path; [contradiction | exact Hhd].
  - apply chain_snoc; [exact Hne | exact Hchain |].
    exists bus. split; assumption.
Qed.

Lemma search_sound (tm : t N) (from to : nat) (rounds : nat) :
  forall (visited : list nat) (queue : list (list nat)) (path : list nat),
    pathsFrom tm from queue ->
    search rounds tm to visited queue = Some (Some path) ->
    pathFromTo tm from to path.
Proof.
  induction rounds as [| rounds IH]; intros visited queue path Hq; [discriminate |].
  cbn [search].
  destruct (round tm to visited queue) as [found | visited' queue' |] eqn:Hround.
  - intros [= <-]. unfold round in Hround.
    destruct queue as [| p rest]; [discriminate |].
    apply Forall_cons in Hq. destruct Hq as [[Hhd Hchain] _].
    destruct (Nat.eqb (List.last p 0) to) eqn:E.
    + injection Hround as <-. apply Nat.eqb_eq in E. repeat split; assumption.
    + destruct (visitedHas visited (List.last p 0)); [discriminate |].
      destruct (getBus tm (List.last p 0)); discriminate.
  - apply IH. eapply round_paths; eassumption.
  - discriminate.
Qed.

(** *** [null] is returned only when there is no path *)

Lemma pending_tail (path : list nat) (rest : list (list nat)) (k : nat) :
  pending (path :: rest) k -> List.last path 0 = k \/ pending rest k.
Proof.
  intros (p & [<- | Hin] & Hlast); [left; exact Hlast |].
  right. exists p. split; assumption.
Qed.

Lemma pending_app (queue more : list (list nat)) (k : nat) :
  pending queue k \/ pending more k -> pending (queue ++ more) k.
Proof.
  intros [(p & Hin & Hlast) | (p & Hin & Hlast)]; exists p;
    (split; [apply in_or_app; auto | exact Hlast]).
Qed.

Lemma last_snoc (path : list nat) (next : nat) :
  List.last (path ++ [next]) 0 = next.
Proof. apply last_last. Qed.

Lemma round_closed (tm : t N) (from to : nat) (visited visited' : list nat)
    (queue queue' : list (list nat)) :
  closed tm from to visited queue ->
  round tm to visited queue = Continue visited' queue' ->
  closed tm from to visited' queue'.
Proof.
  unfold round. intros (Hfrom & Hclosed & Hto).
  destruct queue as [| path rest]; [discriminate |].
  destruct (Nat.eqb (List.last path 0) to) eqn:Eto; [discriminate |].
  apply Nat.eqb_neq in Eto.
  set (cur := List.last path 0) in *.
  destruct (visitedHas visited cur) eqn:Hvis.
  - apply visitedHas_spec in Hvis. intros [= <- <-].
    split; [| split; [| exact Hto]].
    + destruct Hfrom as [H | H]; [left; exact H |].
      apply pending_tail in H. destruct H as [H | H]; [| right; exact H].
      left. fold cur in H. rewrite <- H. exact Hvis.
    + intros x y Hx Hxy. destruct (Hclosed x y Hx Hxy) as [H | H]; [left; exact H |].
      apply pending_tail in H. destruct H as [H | H]; [| right; exact H].
      left. fold cur in H. rewrite <- H. exact Hvis.
  - assert (Hstep : forall queue'',
              (forall y, linked tm cur y ->
                         In y (visited ++ [cur]) \/ pending queue'' y) ->
              (forall k, pending rest k -> pending queue'' k) ->
              closed tm from to (visited ++ [cur]) queue'').
    { intros queue'' Hcur Hrest. split; [| split].
      - destruct Hfrom as [H | H]; [left; apply in_or_app; left; exact H |].
        apply pending_tail in H. destruct H as [H | H].
        + left. apply in_or_app. right. left. exact H.
        + right. apply Hrest. exact H.
      - intros x y Hx Hxy. apply in_app_or in Hx. destruct Hx as [Hx | [<- | []]].
        + destruct (Hclosed x y Hx Hxy) as [H | H];
            [left; apply in_or_app; left; exact H |].
          apply pending_tail in H. destruct H as [H | H].
          * left. apply in_or_app. right. left. exact H.
          * right. apply Hrest. exact H.
        + apply Hcur. exact Hxy.
      - intros Hin. apply in_app_or in Hin. destruct Hin as [Hin | [Hin | []]];
          [contradiction | congruence]. }
    destruct (getBus tm cur) as [bus |] eqn:Hbus.
    + intros [= <- <-]. apply Hstep.
      * intros y (b & Hb & Hy). rewrite Hbus in Hb. injection Hb as <-.
        destruct (visitedHas (visited ++ [cur]) y) eqn:Hy'.
        -- left. apply visitedHas_spec. exact Hy'.
        -- right. apply pending_app. right.
           exists (path ++ [y]). split; [| apply last_snoc].
           apply in_map_iff. exists y. split; [reflexivity |].
           apply filter_In. split; [exact Hy |]. rewrite Hy'. reflexivity.
      * intros k Hk. apply pending_app. left. exact Hk.
    + intros [= <- <-]. apply Hstep.
      * intros y (b & Hb & _). rewrite Hbus in Hb. discriminate.
      * auto.
Qed.

Lemma closed_covers (tm : t N) (from to : nat) (visited : list nat)
    (path : list nat) :
  closed tm from to visited [] ->
  chain tm path -> forall x, hd_error path = Some x -> In x visited ->
  In (List.last path 0) visited.
Proof.
  intros (_ & Hclosed & _).
  induction path as [| a [| b rest] IH]; intros Hchain x Hhd Hx.
  - discriminate.
  - cbn in *. injection Hhd as <-. exact Hx.
  - cbn [chain] in Hchain. destruct Hchain as [Hab Hrest].
    cbn in Hhd. injection Hhd as <-.
    change (List.last (a :: b :: rest) 0) with (List.last (b :: rest) 0).
    apply (IH Hrest b eq_refl).
    destruct (Hclosed a b Hx Hab) as [H | (p & [] & _)]. exact H.
Qed.

Lemma search_complete (tm : t N) (from to : nat) (rounds : nat) :
  forall (visited : list nat) (queue : list (list nat)),
    closed tm from to visited queue ->
    search rounds tm to visited queue = Some None ->
    forall path, ~ pathFromTo tm from to path.
Proof.
  induction rounds as [| rounds IH]; intros visited queue Hclosed; [discriminate |].
  cbn [search].
  destruct (round tm to visited queue) as [found | visited' queue' |] eqn:Hround.
  - discriminate.
  - apply IH. eapply round_closed; eassumption.
  - intros _ path (Hhd & Hlast & Hchain).
    unfold round in Hround. destruct queue as [| p rest].
    + destruct Hclosed as (Hfrom & Hc & Hto).
      destruct Hfrom as [Hfrom | (q & [] & _)].
      apply Hto. rewrite <- Hlast.
      eapply (closed_covers tm from to visited path); try eassumption.
      split; [left; exact Hfrom | split; assumption].
    + destruct (Nat.eqb (List.last p 0) to); [discriminate |].
      destruct (visitedHas visited (List.last p 0)); [discriminate |].
      destruct (getBus tm (List.last p 0)); discriminate.
Qed.

Lemma closed_start (tm : t N) (from to : nat) : closed tm from to [] [[from]].
Proof.
  split; [| split].
  - right. exists [from]. split; [left; reflexivity | reflexivity].
  - intros x y [].
  - intros [].
Qed.
End Facts.
End SearchFacts.

(** X13. [getPathBetweenBuses]: the loop ends for every topology,
    within a number of rounds bounded by the entries of
    [connectedBuses]; what it returns is a path, a list of buses that
    starts at [fromBusId], ends at [toBusId] and follows
    [connectedBuses] at every step; it returns [null] only when no such
    path exists; and the path from a bus to itself is that bus alone,
    also for an identifier without bus. *)
Theorem path_between_buses :
  forall (N : Type) (num : JsNum N) (tm : TopologyManager.t N) (from to : nat),
    let found :=
      TopologyQueries.search (TopologyQueries.roundsBound tm) tm to [] [[from]] in
    (exists result, found = Some result) /\
    (forall path, found = Some (Some path) ->
       TopologyInvariant.pathFromTo tm from to path) /\
    (found = Some None ->
       forall path, ~ TopologyInvariant.pathFromTo tm from to path) /\
    TopologyQueries.getPathBetweenBuses tm from to
    = option_map (option_map (map (TopologyManager.getBus tm))) found /\
    TopologyQueries.getPathBetweenBuses tm from from
    = Some (Some [TopologyManager.getBus tm from]).
Proof.
  intros N num tm from to found. subst found.
  split; [| split; [| split; [| split]]].
  - pose proof (SearchFacts.search_ends tm to (TopologyQueries.roundsBound tm) []
                  [[from]] (SearchFacts.roundsBound_enough tm from)) as Hends.
    destruct (TopologyQueries.search _ tm to [] [[from]]) as [result |];
      [eauto | contradiction].
  - intros path Hfound.
    apply (SearchFacts.search_sound tm from to (TopologyQueries.roundsBound tm)
             [] [[from]] path); [| exact Hfound].
    constructor; [| constructor]. split; [reflexivity | exact I].
  - intros Hfound.
    apply (SearchFacts.search_complete tm from to (TopologyQueries.roundsBound tm)
             [] [[from]]);
      [apply SearchFacts.closed_start | exact Hfound].
  - reflexivity.
  - unfold TopologyQueries.getPathBetweenBuses, TopologyQueries.roundsBound.
    cbn [Nat.add TopologyQueries.search TopologyQueries.round List.last].
    rewrite Nat.eqb_refl. reflexivity.
Qed.


(** ** More on the order of binary64 *)

Module Binary64Order.
Import SpecFloat Rank Binary64Facts.

Lemma lex_refl (p : Z * Z * Z) : lex p p = Eq.
Proof.
  destruct p as [[a1 a2] a3]; simpl. rewrite !Z.compare_refl. reflexivity.
Qed.

Lemma lex_trans_lt_le (p q r : Z * Z * Z) :
  lex p q = Lt -> lex q r <> Gt -> lex p r = Lt.
Proof.
  destruct p as [[a1 a2] a3], q as [[b1 b2] b3], r as [[c1 c2] c3]; simpl.
  destruct (Z.compare_spec a1 b1), (Z.compare_spec b1 c1),
    (Z.compare_spec a1 c1); try lia; try congruence;
  destruct (Z.compare_spec a2 b2), (Z.compare_spec b2 c2),
    (Z.compare_spec a2 c2); try lia; try congruence;
  destruct (Z.compare_spec a3 b3), (Z.compare_spec b3 c3),
    (Z.compare_spec a3 c3); try lia; try congruence.
Qed.

Lemma lex_trans_le_lt (p q r : Z * Z * Z) :
  lex p q <> Gt -> lex q r = Lt -> lex p r = Lt.
Proof.
  destruct p as [[a1 a2] a3], q as [[b1 b2] b3], r as [[c1 c2] c3]; simpl.
  destruct (Z.compare_spec a1 b1), (Z.compare_spec b1 c1),
    (Z.compare_spec a1 c1); try lia; try congruence;
  destruct (Z.compare_spec a2 b2), (Z.compare_spec b2 c2),
    (Z.compare_spec a2 c2); try lia; try congruence;
  destruct (Z.compare_spec a3 b3), (Z.compare_spec b3 c3),
    (Z.compare_spec a3 c3); try lia; try congruence.
Qed.

Lemma eqb_key (a b : float) :
  PrimFloat.eqb a b = true <->
  exists p q, key (Prim2SF a) = Some p /\ key (Prim2SF b) = Some q /\ lex p q = Eq.
Proof.
  rewrite FloatAxioms.eqb_spec. unfold SFeqb. rewrite SFcompare_key.
  destruct (key (Prim2SF a)) as [p|], (key (Prim2SF b)) as [q|];
    try (split; [discriminate | intros (? & ? & ? & ? & ?); discriminate]).
  split.
  - intros H. exists p, q. repeat split. destruct (lex p q); congruence.
  - intros (p' & q' & [= <-] & [= <-] & H). rewrite H. reflexivity.
Qed.

(** a value that equals itself has a rank *)
Lemma number_key (a : float) :
  PrimFloat.eqb a a = true <-> exists p, key (Prim2SF a) = Some p.
Proof.
  rewrite eqb_key. split.
  - intros (p & _ & Hp & _). eauto.
  - intros (p & Hp). exists p, p. repeat split; try assumption. apply lex_refl.
Qed.

Lemma leb_number (a b : float) :
  PrimFloat.leb a b = true -> PrimFloat.eqb a a = true /\ PrimFloat.eqb b b = true.
Proof.
  rewrite leb_key, !number_key. intros (p & q & Hp & Hq & _). eauto.
Qed.

Lemma ltb_number (a b : float) :
  PrimFloat.ltb a b = true -> PrimFloat.eqb a a = true /\ PrimFloat.eqb b b = true.
Proof.
  intros H. apply leb_number. apply ltb_leb. exact H.
Qed.

(** the order is total on numbers *)
Lemma leb_false_ltb (a b : float) :
  PrimFloat.eqb a a = true -> PrimFloat.eqb b b = true ->
  PrimFloat.leb a b = false -> PrimFloat.ltb b a = true.
Proof.
  rewrite !number_key. intros (p & Hp) (q & Hq) Hle.
  apply ltb_key. exists q, p. repeat split; try assumption.
  rewrite (lex_antisym p q).
  destruct (lex p q) eqn:E; simpl; try reflexivity.
  - exfalso. assert (Ht : PrimFloat.leb a b = true).
    { apply leb_key. exists p, q. repeat split; try assumption. congruence. }
    congruence.
  - exfalso. assert (Ht : PrimFloat.leb a b = true).
    { apply leb_key. exists p, q. repeat split; try assumption. congruence. }
    congruence.
Qed.

Lemma ltb_false_leb (a b : float) :
  PrimFloat.eqb a a = true -> PrimFloat.eqb b b = true ->
  PrimFloat.ltb a b = false -> PrimFloat.leb b a = true.
Proof.
  rewrite !number_key. intros (p & Hp) (q & Hq) Hlt.
  apply leb_key. exists q, p. repeat split; try assumption.
  rewrite (lex_antisym p q).
  destruct (lex p q) eqn:E; simpl; try discriminate.
  exfalso. assert (Ht : PrimFloat.ltb a b = true).
  { apply ltb_key. exists p, q. repeat split; assumption. }
  congruence.
Qed.

Lemma ltb_leb_trans (a b c : float) :
  PrimFloat.ltb a b = true -> PrimFloat.leb b c = true -> PrimFloat.ltb a c = true.
Proof.
  rewrite !ltb_key, leb_key. intros (p & q & Hp & Hq & H1) (q' & r & Hq' & Hr & H2).
  rewrite Hq in Hq'. injection Hq' as <-.
  exists p, r. repeat split; try assumption. eapply lex_trans_lt_le; eassumption.
Qed.

Lemma leb_ltb_trans (a b c : float) :
  PrimFloat.leb a b = true -> PrimFloat.ltb b c = true -> PrimFloat.ltb a c = true.
Proof.
  rewrite !ltb_key, leb_key. intros (p & q & Hp & Hq & H1) (q' & r & Hq' & Hr & H2).
  rewrite Hq in Hq'. injection Hq' as <-.
  exists p, r. repeat split; try assumption. eapply lex_trans_le_lt; eassumption.
Qed.

Lemma ltb_trans (a b c : float) :
  PrimFloat.ltb a b = true -> PrimFloat.ltb b c = true -> PrimFloat.ltb a c = true.
Proof.
  intros H1 H2. eapply ltb_leb_trans; [exact H1 | apply ltb_leb; exact H2].
Qed.

Lemma ltb_irrefl (a : float) : PrimFloat.ltb a a = false.
Proof.
  destruct (PrimFloat.ltb a a) eqn:E; [| reflexivity].
  apply ltb_key in E. destruct E as (p & q & Hp & Hq & H).
  rewrite Hp in Hq. injection Hq as <-. rewrite lex_refl in H. discriminate.
Qed.

Lemma leb_refl (a : float) : PrimFloat.eqb a a = true -> PrimFloat.leb a a = true.
Proof.
  rewrite number_key, leb_key. intros (p & Hp). exists p, p.
  repeat split; try assumption. rewrite lex_refl. discriminate.
Qed.

(** [a <= b] fails as soon as [b < a] *)
Lemma ltb_leb_false (a b : float) :
  PrimFloat.ltb a b = true -> PrimFloat.leb b a = false.
Proof.
  intros H. destruct (PrimFloat.leb b a) eqn:E; [| reflexivity].
  apply leb_ltb_false in E. congruence.
Qed.

(** [NaN] compares false with everything *)
Lemma nan_leb_l (a b : float) : PrimFloat.eqb a a = false -> PrimFloat.leb a b = false.
Proof.
  intros H. destruct (PrimFloat.leb a b) eqn:E; [| reflexivity].
  apply leb_number in E. destruct E. congruence.
Qed.

Lemma nan_leb_r (a b : float) : PrimFloat.eqb b b = false -> PrimFloat.leb a b = false.
Proof.
  intros H. destruct (PrimFloat.leb a b) eqn:E; [| reflexivity].
  apply leb_number in E. destruct E. congruence.
Qed.

Lemma nan_ltb_l (a b : float) : PrimFloat.eqb a a = false -> PrimFloat.ltb a b = false.
Proof.
  intros H. destruct (PrimFloat.ltb a b) eqn:E; [| reflexivity].
  apply ltb_number in E. destruct E. congruence.
Qed.

Lemma nan_ltb_r (a b : float) : PrimFloat.eqb b b = false -> PrimFloat.ltb a b = false.
Proof.
  intros H. destruct (PrimFloat.ltb a b) eqn:E; [| reflexivity].
  apply ltb_number in E. destruct E. congruence.
Qed.
End Binary64Order.


(** ** IEC and IEEE factors (js/standard_specific_calcs.js) *)

Module StandardsFacts.
Import XReal XRealFacts ArcFlashFacts.
Local Open Scope R_scope.

Lemma voltage_factor_xreal (v : R) (name : string) (f : Standards.VoltageFactors xreal) :
  Standards.IEC_VOLTAGE_FACTORS name = Some f ->
  Standards.getIECVoltageFactor (Fin v) (Some name)
  = Ok (if Rle_dec v 1000 then Standards.LV_default f
        else if Rle_dec v 230000 then Standards.factor (Standards.MV f)
        else Fin 1).
Proof.
  intros Hf. unfold Standards.getIECVoltageFactor. cbn [from_option Datatypes.id].
  rewrite Hf.
  assert (Hmv : Standards.MV f =
                {| Standards.range_lo := Fin 1; Standards.range_hi := Fin 35;
                   Standards.factor := Standards.factor (Standards.MV f) |}
                /\ Standards.HV f =
                {| Standards.range_lo := Fin 35; Standards.range_hi := Fin 230;
                   Standards.factor := Standards.factor (Standards.MV f) |}).
  { unfold Standards.IEC_VOLTAGE_FACTORS in Hf.
    destruct (String.eqb name "cmax"); [injection Hf as <- |
      destruct (String.eqb name "cmin"); [injection Hf as <- | discriminate]];
      cbn; rewrite !of_Q_int; split; reflexivity. }
  destruct Hmv as [-> ->]. cbn [Standards.range_lo Standards.range_hi Standards.factor].
  change (@leb xreal _) with xleb. change (@ltb xreal _) with xltb.
  change (@div xreal _) with xdiv. change (@ofQ xreal _) with of_Q.
  rewrite !of_Q_int. rewrite xdiv_fin by lra.
  destruct (Rle_dec v 1000) as [H1 | H1].
  - rewrite xleb_true by lra. reflexivity.
  - rewrite xleb_false by lra.
    rewrite (xleb_true 1 (v / 1000)) by lra.
    destruct (Rle_dec v 230000) as [H2 | H2].
    + destruct (Rlt_dec v 35000) as [H3 | H3].
      * rewrite xltb_true by lra. reflexivity.
      * rewrite xltb_false by lra. cbn [andb].
        rewrite !xleb_true by lra. reflexivity.
    + rewrite xltb_false by lra. cbn [andb].
      rewrite (xleb_true 35) by lra. rewrite xleb_false by lra.
      cbn [andb]. unfold of_Q. cbn [Qnum Qden]. do 2 f_equal. lra.
Qed.
End StandardsFacts.

(** X14. [getIECVoltageFactor] never fails for the tables [cmax] and
    [cmin] (and [cmax] is the default), fails for every other table
    name, and on binary64 returns for every voltage, [NaN] included, a
    pair (cmax, cmin) among (1.05, 0.95), (1.1, 1) and (1, 1) with
    cmin <= cmax; up to 1000 V the pair is (1.05, 0.95).  In exact
    arithmetic the pair is (1.1, 1) from above 1000 V to 230 kV and
    (1, 1) above 230 kV.  [calculateIECImpedanceCorrection] never
    fails: every fault type but 'max' (the default) selects cmin. *)
Theorem iec_voltage_factor_classes :
  (forall (pow : float -> float -> float) (log10 : float -> float) (voltage : float),
     let num := Binary64.num pow log10 in
     exists cmax cmin : float,
       Standards.getIECVoltageFactor voltage None = Ok cmax /\
       Standards.getIECVoltageFactor voltage (Some "cmax") = Ok cmax /\
       Standards.getIECVoltageFactor voltage (Some "cmin") = Ok cmin /\
       PrimFloat.leb cmin cmax = true /\
       In (cmax, cmin) [(1.05, 0.95); (1.1, 1); (1, 1)]%float /\
       (PrimFloat.leb voltage 1000 = true -> (cmax, cmin) = (1.05, 0.95)%float) /\
       (PrimFloat.leb voltage 1000 = false -> cmin = 1%float)) /\
  (forall (N : Type) (num : JsNum N) (voltage : N) (name : string),
     name <> "cmax" -> name <> "cmin" ->
     exists message, Standards.getIECVoltageFactor voltage (Some name) = Throw message) /\
  (forall v : R,
     Standards.getIECVoltageFactor (Fin v) (Some "cmax")
     = Ok (Fin (if Rle_dec v 1000 then 1.05
                else if Rle_dec v 230000 then 1.1 else 1)) /\
     Standards.getIECVoltageFactor (Fin v) (Some "cmin")
     = Ok (Fin (if Rle_dec v 1000 then 0.95 else 1))) /\
  (forall (N : Type) (num : JsNum N) (voltage impedanceOhm : N)
          (faultType : option string),
     exists c,
       Standards.getIECVoltageFactor voltage
         (Some (if String.eqb (default "max" faultType) "max"
                then "cmax" else "cmin")) = Ok c /\
       Standards.calculateIECImpedanceCorrection voltage impedanceOhm faultType
       = Ok {| Standards.cFactor := c;
               Standards.correctedVoltage := (voltage * c / Math_sqrt (ofQ 3))%js |}).
Proof.
  split; [| split; [| split]].
  - intros pow log10 voltage num. subst num.
    unfold Standards.getIECVoltageFactor. cbn [from_option Datatypes.id].
    vm_compute.
    destruct (PrimFloat.leb voltage 1000).
    + exists 1.05%float, 0.95%float.
      repeat split; auto; try discriminate; left; reflexivity.
    + destruct (PrimFloat.leb 1 (voltage / 1000)), (PrimFloat.ltb (voltage / 1000) 35),
        (PrimFloat.leb 35 (voltage / 1000)), (PrimFloat.leb (voltage / 1000) 230);
        cbn;
        first [ exists 1.1%float, 1%float;
                repeat split; auto; try discriminate; right; left; reflexivity
              | exists 1%float, 1%float;
                repeat split; auto; try discriminate; right; right; left; reflexivity ].
  - intros N num voltage name H1 H2.
    unfold Standards.getIECVoltageFactor, Standards.IEC_VOLTAGE_FACTORS.
    cbn [from_option Datatypes.id].
    destruct (String.eqb_spec name "cmax"); [contradiction |].
    destruct (String.eqb_spec name "cmin"); [contradiction |].
    eexists. reflexivity.
  - intros v. split.
    + rewrite (StandardsFacts.voltage_factor_xreal v "cmax" _ eq_refl).
      cbn [Standards.LV_default Standards.MV Standards.factor].
      f_equal.
      destruct (Rle_dec v 1000); [| destruct (Rle_dec v 230000)];
        unfold ofQ; cbn; unfold XReal.of_Q; cbn [Qnum Qden]; f_equal; lra.
    + rewrite (StandardsFacts.voltage_factor_xreal v "cmin" _ eq_refl).
      cbn [Standards.LV_default Standards.MV Standards.factor].
      f_equal.
      destruct (Rle_dec v 1000); [| destruct (Rle_dec v 230000)];
        unfold ofQ; cbn; unfold XReal.of_Q; cbn [Qnum Qden]; f_equal; lra.
  - intros N num voltage impedanceOhm faultType.
    unfold Standards.calculateIECImpedanceCorrection.
    destruct (String.eqb (default "max" faultType) "max").
    + unfold Standards.getIECVoltageFactor. cbn [from_option Datatypes.id].
      cbn [Standards.IEC_VOLTAGE_FACTORS String.eqb Ascii.eqb Bool.eqb].
      repeat match goal with
      | |- context [if ?b then _ else _] => destruct b
      end; eexists; split; reflexivity.
    + unfold Standards.getIECVoltageFactor. cbn [from_option Datatypes.id].
      cbn [Standards.IEC_VOLTAGE_FACTORS String.eqb Ascii.eqb Bool.eqb].
      repeat match goal with
      | |- context [if ?b then _ else _] => destruct b
      end; eexists; split; reflexivity.
Qed.

(** *** Case analysis on comparisons of a binary64 with literals *)

Module FloatCases.
Import Binary64Facts Binary64Order SpecFloat Rank.

Lemma leb_infinity (a : float) :
  PrimFloat.eqb a a = true -> PrimFloat.leb a infinity = true.
Proof.
  rewrite number_key, leb_key. intros (p & Hp). exists p, (2, 0, 0)%Z.
  split; [exact Hp | split; [reflexivity |]].
  destruct (Prim2SF a) as [[|] | [|] | | [|] m e]; cbn in Hp;
    try discriminate; injection Hp as <-; cbn; try discriminate.
Qed.

(** two facts on the order that cannot hold together *)
Ltac order_absurd :=
  match goal with
  | H : false = true |- _ => discriminate H
  | H : true = false |- _ => discriminate H
  | H : ?c = true, H' : ?c = false |- _ => rewrite H in H'; discriminate H'
  | H : PrimFloat.leb ?a ?x = true, H' : PrimFloat.leb ?x ?c = true |- _ =>
      let K := fresh in
      pose proof (leb_trans a x c H H') as K; vm_compute in K; discriminate K
  | H : PrimFloat.leb ?a ?x = true, H' : PrimFloat.leb ?x ?c = true,
    H'' : PrimFloat.leb ?a ?c = false |- _ =>
      rewrite (leb_trans a x c H H') in H''; discriminate H''
  | H : PrimFloat.leb ?a ?x = true, H' : PrimFloat.leb ?b ?x = false |- _ =>
      let K := fresh in
      assert (K : PrimFloat.leb b a = true) by (vm_compute; reflexivity);
      rewrite (leb_trans b a x K H) in H'; discriminate H'
  | H : PrimFloat.leb ?x ?c = true, H' : PrimFloat.leb ?x ?d = false |- _ =>
      let K := fresh in
      assert (K : PrimFloat.leb c d = true) by (vm_compute; reflexivity);
      rewrite (leb_trans x c d H K) in H'; discriminate H'
  | H : PrimFloat.leb ?a ?x = true, H' : PrimFloat.leb ?x ?c = false |- _ =>
      let K := fresh in
      assert (K : PrimFloat.leb infinity c = true) by (vm_compute; reflexivity);
      rewrite (leb_trans x infinity c
                 (leb_infinity x (proj2 (leb_number a x H))) K) in H';
      discriminate H'
  | H : PrimFloat.eqb ?x ?x = false, H' : PrimFloat.leb ?x _ = true |- _ =>
      rewrite (nan_leb_l x _ H) in H'; discriminate H'
  | H : PrimFloat.eqb ?x ?x = false, H' : PrimFloat.leb _ ?x = true |- _ =>
      rewrite (nan_leb_r _ x H) in H'; discriminate H'
  end.

(** decide the comparisons of the goal one after the other, dropping
    the impossible combinations *)
Ltac by_cases :=
  repeat (match goal with
          | |- context [PrimFloat.leb ?a ?b] =>
              first [ is_var a; tryif is_var b then fail else idtac
                    | is_var b; tryif is_var a then fail else idtac ];
              let E := fresh "E" in destruct (PrimFloat.leb a b) eqn:E
          end; cbn [andb orb negb]; try order_absurd).

(** what [c < x] and [x < d] say with [<=] *)
Ltac strict_facts :=
  repeat match goal with
  | H : PrimFloat.ltb ?a ?b = true |- _ =>
      pose proof (ltb_leb a b H); pose proof (ltb_leb_false a b H); clear H
  end.
End FloatCases.

(** X15. The table of IEEE asymmetry factors has gaps.  On binary64, for
    every X/R, [getIEEEAsymmetryFactor] returns 1.0 on [0, 4.9], 1.1 on
    [5, 9.9], 1.2 on [10, 14.9], 1.25 on [15, 19.9], 1.3 on [20, 29.9],
    1.4 on [30, 44.9], 1.5 on [45, 59.9] and 1.6 from 60 on, infinity
    included; it falls back to 1.0 strictly between two ranges (for
    instance between 9.9 and 10), below 0 and for [NaN]. *)
Theorem ieee_asymmetry_table_gaps :
  forall (pow : float -> float -> float) (log10 : float -> float) (xr : float),
    let num := Binary64.num pow log10 in
    let f := Standards.getIEEEAsymmetryFactor xr in
    (leb (ofQ 0) xr = true -> leb xr (ofQ 4.9) = true -> f = ofQ 1.0) /\
    (leb (ofQ 5) xr = true -> leb xr (ofQ 9.9) = true -> f = ofQ 1.1) /\
    (leb (ofQ 10) xr = true -> leb xr (ofQ 14.9) = true -> f = ofQ 1.2) /\
    (leb (ofQ 15) xr = true -> leb xr (ofQ 19.9) = true -> f = ofQ 1.25) /\
    (leb (ofQ 20) xr = true -> leb xr (ofQ 29.9) = true -> f = ofQ 1.3) /\
    (leb (ofQ 30) xr = true -> leb xr (ofQ 44.9) = true -> f = ofQ 1.4) /\
    (leb (ofQ 45) xr = true -> leb xr (ofQ 59.9) = true -> f = ofQ 1.5) /\
    (leb (ofQ 60) xr = true -> f = ofQ 1.6) /\
    (ltb (ofQ 4.9) xr = true -> ltb xr (ofQ 5) = true -> f = ofQ 1.0) /\
    (ltb (ofQ 9.9) xr = true -> ltb xr (ofQ 10) = true -> f = ofQ 1.0) /\
    (ltb (ofQ 14.9) xr = true -> ltb xr (ofQ 15) = true -> f = ofQ 1.0) /\
    (ltb (ofQ 19.9) xr = true -> ltb xr (ofQ 20) = true -> f = ofQ 1.0) /\
    (ltb (ofQ 29.9) xr = true -> ltb xr (ofQ 30) = true -> f = ofQ 1.0) /\
    (ltb (ofQ 44.9) xr = true -> ltb xr (ofQ 45) = true -> f = ofQ 1.0) /\
    (ltb (ofQ 59.9) xr = true -> ltb xr (ofQ 60) = true -> f = ofQ 1.0) /\
    (ltb xr (ofQ 0) = true -> f = ofQ 1.0) /\
    (isNaN xr = true -> f = ofQ 1.0) /\
    (forall symmetricalCurrent : float,
       Standards.pk_asymmetryFactor
         (Standards.calculateIEEEPeakCurrent symmetricalCurrent xr) = f).
Proof.
  intros pow log10 xr num f. subst f num.
  unfold isNaN.
  vm_compute.
  repeat split.
  1-7: intros H1 H2; FloatCases.by_cases; reflexivity.
  - intros H1. FloatCases.by_cases; reflexivity.
  - intros H1 H2. FloatCases.strict_facts. FloatCases.by_cases; reflexivity.
  - intros H1 H2. FloatCases.strict_facts. FloatCases.by_cases; reflexivity.
  - intros H1 H2. FloatCases.strict_facts. FloatCases.by_cases; reflexivity.
  - intros H1 H2. FloatCases.strict_facts. FloatCases.by_cases; reflexivity.
  - intros H1 H2. FloatCases.strict_facts. FloatCases.by_cases; reflexivity.
  - intros H1 H2. FloatCases.strict_facts. FloatCases.by_cases; reflexivity.
  - intros H1 H2. FloatCases.strict_facts. FloatCases.by_cases; reflexivity.
  - intros H1. FloatCases.strict_facts. FloatCases.by_cases; reflexivity.
  - intros H. destruct (PrimFloat.eqb xr xr) eqn:E; [discriminate |].
    FloatCases.by_cases; reflexivity.
Qed.

(** *** The short circuit of both standards in exact arithmetic *)

Module StandardsCurrents.
Import XReal XRealFacts ArcFlashFacts StandardsForms.
Local Open Scope R_scope.

Lemma truthy_fin (u : R) : u <> 0 -> truthy (Fin u) = true.
Proof.
  intros Hu. unfold truthy, isNaN.
  change (@eqb xreal _) with xeqb. change (@ofQ xreal _) with of_Q.
  rewrite of_Q_int. unfold xeqb.
  destruct (Req_dec_T u u); [| contradiction].
  destruct (Req_dec_T u 0); [contradiction | reflexivity].
Qed.

Lemma sqrt3_bounds : 1.732 < sqrt 3 < 1.733.
Proof.
  split.
  - replace 1.732 with (sqrt (1.732 * 1.732)) by (apply sqrt_square; lra).
    apply sqrt_lt_1; lra.
  - replace 1.733 with (sqrt (1.733 * 1.733)) by (apply sqrt_square; lra).
    apply sqrt_lt_1; lra.
Qed.

Lemma sqrt2_pos : 0 < sqrt 2.
Proof. apply sqrt_lt_R0. lra. Qed.

Lemma iecFactor_bounds (m : bool) (V : R) : 0.95 <= iecFactor m V <= 1.1.
Proof.
  unfold iecFactor.
  destruct (Rle_dec V 1000), (Rle_dec V 230000), m; lra.
Qed.

Lemma iecKappa_bounds (r x : R) : 0 <= r -> 0 <= x -> 1.02 <= iecKappa r x < 2.
Proof.
  intros HR HX. unfold iecKappa.
  assert (He : forall u, u < 0 -> 0 < exp u < 1).
  { intros u Hu. split; [apply exp_pos |].
    rewrite <- exp_0. apply exp_increasing. exact Hu. }
  destruct (Rlt_dec 0 r) as [Hr | Hr].
  - destruct (Req_dec_T x 0) as [Hx | Hx]; [lra |].
    assert (Hq : -3 / (x / r) < 0).
    { assert (Hp : 0 < x / r) by (apply Rdiv_lt_0_compat; lra).
      apply Rinv_0_lt_compat in Hp. unfold Rdiv at 1. nra. }
    destruct (He _ Hq). lra.
  - assert (Hq : -3 / 20 < 0) by lra.
    destruct (He _ Hq). lra.
Qed.

Lemma voltage_factor_form (V : R) (faultType : option string) :
  Standards.getIECVoltageFactor (Fin V)
    (Some (if isMax faultType then "cmax" else "cmin"))
  = Ok (Fin (iecFactor (isMax faultType) V)).
Proof.
  unfold iecFactor.
  destruct (isMax faultType).
  - rewrite (StandardsFacts.voltage_factor_xreal V "cmax" _ eq_refl).
    cbn [Standards.LV_default Standards.MV Standards.factor].
    f_equal.
    destruct (Rle_dec V 1000); [| destruct (Rle_dec V 230000)];
      unfold ofQ; cbn; unfold XReal.of_Q; cbn [Qnum Qden]; f_equal; lra.
  - rewrite (StandardsFacts.voltage_factor_xreal V "cmin" _ eq_refl).
    cbn [Standards.LV_default Standards.MV Standards.factor].
    f_equal.
    destruct (Rle_dec V 1000); [| destruct (Rle_dec V 230000)];
      unfold ofQ; cbn; unfold XReal.of_Q; cbn [Qnum Qden]; f_equal; lra.
Qed.

(** the X/R ratio both calculations use, and kappa *)
Lemma kappa_form (r x : R) :
  0 <= r -> 0 <= x ->
  let xrRatio := (if (Fin r >? #0) then Fin x / Fin r else #20)%js in
  (#1.02 + #0.98 * Math_exp (#(-3) / xrRatio))%js = Fin (iecKappa r x).
Proof.
  intros HR HX xrRatio. subst xrRatio. unfold iecKappa.
  change (@ltb xreal _) with xltb. change (@div xreal _) with xdiv.
  change (@add xreal _) with xadd. change (@mul xreal _) with xmul.
  change (@ofQ xreal _) with of_Q. change (@Math_exp xreal _) with XMath.xexp.
  rewrite !of_Q_int.
  destruct (Rlt_dec 0 r) as [Hr | Hr].
  - rewrite xltb_true by lra. rewrite xdiv_fin by lra.
    destruct (Req_dec_T x 0) as [-> | Hx].
    + replace (0 / r) with 0 by (field; lra).
      unfold xdiv. destruct (Req_dec_T 0 0); [| lra].
      destruct (Req_dec_T (-3) 0); [lra |].
      destruct (Rlt_dec (-3) 0); [| lra].
      cbn [XMath.xexp]. rewrite !of_Q_fin, xmul_fin, xadd_fin. cbn [Qnum Qden].
      f_equal; lra.
    + assert (x / r <> 0).
      { apply Rgt_not_eq. apply Rdiv_lt_0_compat; lra. }
      rewrite xdiv_fin by assumption.
      cbn [XMath.xexp]. rewrite !of_Q_fin, xmul_fin, xadd_fin. cbn [Qnum Qden].
      f_equal; lra.
  - rewrite xltb_false by lra. rewrite xdiv_fin by lra.
    cbn [XMath.xexp]. rewrite !of_Q_fin, xmul_fin, xadd_fin. cbn [Qnum Qden].
    f_equal; lra.
Qed.

Lemma impedanceTotal_form (r x : R) :
  (Math_sqrt (Fin r * Fin r + Fin x * Fin x))%js = Fin (sqrt (r * r + x * x)).
Proof.
  change (@add xreal _) with xadd. change (@mul xreal _) with xmul.
  change (@Math_sqrt xreal _) with xsqrt.
  rewrite !xmul_fin, xadd_fin. apply xsqrt_fin. nra.
Qed.

Lemma sqrt3_form : (Math_sqrt #3)%js = Fin (sqrt 3).
Proof.
  change (@Math_sqrt xreal _) with xsqrt. change (@ofQ xreal _) with of_Q.
  rewrite of_Q_int. apply xsqrt_fin. lra.
Qed.

Lemma sqrt2_form : (Math_sqrt #2)%js = Fin (sqrt 2).
Proof.
  change (@Math_sqrt xreal _) with xsqrt. change (@ofQ xreal _) with of_Q.
  rewrite of_Q_int. apply xsqrt_fin. lra.
Qed.

(** the result of [calculateIECShortCircuit] *)
Lemma iec_form (V r x : R) (faultType faultLocation : option string) :
  0 <= r -> 0 <= x -> 0 < r * r + x * x ->
  let Z := sqrt (r * r + x * x) in
  let c := iecFactor (isMax faultType) V in
  let I := c * V / (3 * Z) in
  Standards.calculateIECShortCircuit (paramsOf V r x faultType faultLocation)
  = Ok {| Standards.iec_voltageFactor := Fin c;
          Standards.iec_correctedVoltage := Fin (V * c / sqrt 3);
          Standards.iec_symmetricalCurrent := Fin I;
          Standards.iec_peakCurrent := Fin (iecKappa r x * sqrt 2 * I);
          Standards.iec_kappa := Fin (iecKappa r x);
          Standards.iec_xrRatio :=
            (if (Fin r >? #0) then Fin x / Fin r else #20)%js;
          Standards.iec_impedanceTotal := Fin Z |}.
Proof.
  intros HR HX HZ Z c I.
  assert (HZpos : 0 < Z) by (apply sqrt_lt_R0; exact HZ).
  pose proof sqrt3_bounds as H3.
  unfold Standards.calculateIECShortCircuit, Standards.calculateIECImpedanceCorrection.
  cbn [paramsOf Standards.voltage Standards.impedanceR Standards.impedanceX
       Standards.faultType].
  fold (isMax faultType). rewrite voltage_factor_form. cbn [mbind Result_bind].
  cbn [Standards.cFactor Standards.correctedVoltage].
  unfold Standards.calculateIECPeakCurrent.
  cbn [Standards.pk_kappa Standards.pk_peakCurrent].
  rewrite (kappa_form r x HR HX), impedanceTotal_form, sqrt3_form, sqrt2_form.
  fold Z. fold c.
  change (@div xreal _) with xdiv. change (@mul xreal _) with xmul.
  rewrite !xmul_fin. rewrite !xdiv_fin by lra. rewrite !xmul_fin.
  assert (HI : V * c / sqrt 3 / sqrt 3 / Z = I).
  { subst I.
    assert (Hs : sqrt 3 * sqrt 3 = 3) by (apply sqrt_sqrt; lra).
    replace (3 * Z) with (sqrt 3 * sqrt 3 * Z) by (rewrite Hs; ring).
    field; repeat split; lra. }
  rewrite HI. reflexivity.
Qed.

(** every asymmetry factor of the table is between 1 and 1.6 *)
Lemma asymmetry_factor_range (xr : xreal) :
  exists f, Standards.getIEEEAsymmetryFactor xr = Fin f /\ 1 <= f <= 1.6.
Proof.
  unfold Standards.getIEEEAsymmetryFactor, Standards.asymmetryFactors_ranges,
    Standards.firstRange.
  cbn [Standards.xrMin Standards.xrMax Standards.range_factor].
  repeat match goal with
  | |- context [if ?b then _ else _] => destruct b
  end;
  eexists; (split; [apply of_Q_fin | cbn [Qnum Qden]; lra]).
Qed.

(** the result of [calculateIEEEShortCircuit] *)
Lemma ieee_form (V r x : R) (faultType faultLocation : option string) :
  0 < r * r + x * x ->
  let Z := sqrt (r * r + x * x) in
  let I := V / (sqrt 3 * Z) in
  let ieee :=
    Standards.calculateIEEEShortCircuit (paramsOf V r x faultType faultLocation) in
  Standards.ieee_impedanceTotal ieee = Fin Z /\
  Standards.ieee_symmetricalCurrent ieee = Fin I /\
  exists f,
    1 <= f <= 1.6 /\
    Standards.ieee_asymmetryFactor ieee = Fin f /\
    Standards.ieee_momentaryCurrent ieee = Fin (2 * sqrt 2 * I * f).
Proof.
  intros HZ Z I ieee.
  assert (HZpos : 0 < Z) by (apply sqrt_lt_R0; exact HZ).
  pose proof sqrt3_bounds as H3.
  subst ieee. unfold Standards.calculateIEEEShortCircuit.
  cbn [paramsOf Standards.voltage Standards.impedanceR Standards.impedanceX
       Standards.ieee_impedanceTotal Standards.ieee_symmetricalCurrent
       Standards.ieee_asymmetryFactor Standards.ieee_momentaryCurrent].
  unfold Standards.calculateIEEEPeakCurrent.
  cbn [Standards.pk_asymmetryFactor Standards.pk_momentary].
  rewrite impedanceTotal_form, sqrt3_form, sqrt2_form. fold Z.
  change (@div xreal _) with xdiv. change (@mul xreal _) with xmul.
  change (@ofQ xreal _) with of_Q. rewrite !of_Q_int.
  rewrite !xmul_fin. rewrite xdiv_fin by nra. fold I.
  split; [reflexivity | split; [reflexivity |]].
  destruct (asymmetry_factor_range
              (if xltb (Fin 0) (Fin r) then xdiv (Fin x) (Fin r) else Fin 20))
    as (f & Hf & Hrange).
  exists f. split; [exact Hrange |].
  change (@ltb xreal _) with xltb.
  rewrite Hf. rewrite !xmul_fin. split; reflexivity.
Qed.
End StandardsCurrents.

(** X16. In exact arithmetic, for a voltage V > 0 and an impedance
    R + jX with R, X >= 0 not both zero, Z = sqrt(R^2 + X^2):
    [calculateIEEEShortCircuit] gives the symmetrical current
    V / (sqrt(3) Z), while [calculateIECShortCircuit] never fails and
    gives c V / (3 Z), the voltage being divided by sqrt(3) twice, with
    the voltage factor c of the fault type; the IEC current is below the
    IEEE current.  The factor kappa of the IEC peak is in [1.02, 2) and
    the peak is kappa sqrt(2) times the IEC current. *)
Theorem iec_current_below_ieee :
  forall (V r x : R) (faultType faultLocation : option string),
    (0 < V)%R -> (0 <= r)%R -> (0 <= x)%R -> (0 < r * r + x * x)%R ->
    let params := StandardsForms.paramsOf V r x faultType faultLocation in
    let Z := sqrt (r * r + x * x) in
    let c := StandardsForms.iecFactor (StandardsForms.isMax faultType) V in
    let ieee := Standards.calculateIEEEShortCircuit params in
    exists iec kappa,
      Standards.calculateIECShortCircuit params = Ok iec /\
      Standards.iec_impedanceTotal iec = Fin Z /\
      Standards.ieee_impedanceTotal ieee = Fin Z /\
      Standards.iec_voltageFactor iec = Fin c /\
      (0.95 <= c <= 1.1)%R /\
      Standards.iec_symmetricalCurrent iec = Fin (c * V / (3 * Z)) /\
      Standards.ieee_symmetricalCurrent ieee = Fin (V / (sqrt 3 * Z)) /\
      (c * V / (3 * Z) < V / (sqrt 3 * Z))%R /\
      Standards.iec_kappa iec = Fin kappa /\
      (1.02 <= kappa < 2)%R /\
      Standards.iec_peakCurrent iec = Fin (kappa * sqrt 2 * (c * V / (3 * Z))).
Proof.
  intros V r x faultType faultLocation HV HR HX HZ params Z c ieee.
  pose proof (StandardsCurrents.iec_form V r x faultType faultLocation HR HX HZ)
    as Hiec.
  pose proof (StandardsCurrents.ieee_form V r x faultType faultLocation HZ)
    as (HieeeZ & HieeeI & _).
  cbv zeta in Hiec. fold Z c params in Hiec.
  eexists. exists (StandardsForms.iecKappa r x).
  split; [exact Hiec |].
  cbn [Standards.iec_impedanceTotal Standards.iec_voltageFactor
       Standards.iec_symmetricalCurrent Standards.iec_kappa
       Standards.iec_peakCurrent].
  pose proof (StandardsCurrents.iecFactor_bounds (StandardsForms.isMax faultType) V)
    as Hc.
  fold c in Hc.
  repeat split; try reflexivity; try assumption; try lra.
  - assert (HZpos : (0 < Z)%R) by (apply sqrt_lt_R0; exact HZ).
    pose proof StandardsCurrents.sqrt3_bounds as H3.
    assert (Hs : (sqrt 3 * sqrt 3 = 3)%R) by (apply sqrt_sqrt; lra).
    apply (Rmult_lt_reg_r (3 * Z * sqrt 3)%R); [nra |].
    replace (c * V / (3 * Z) * (3 * Z * sqrt 3))%R with (V * (c * sqrt 3))%R
      by (field; repeat split; lra).
    replace (V / (sqrt 3 * Z) * (3 * Z * sqrt 3))%R with (V * 3)%R
      by (field; repeat split; lra).
    apply Rmult_lt_compat_l; [exact HV | nra].
  - apply StandardsCurrents.iecKappa_bounds; assumption.
  - apply StandardsCurrents.iecKappa_bounds; assumption.
Qed.

(** 480 V behind 0.01 + j0.05 ohm. *)
Lemma iec_current_below_ieee_witness :
  let params := StandardsForms.paramsOf 480 0.01 0.05 None None in
  let Z := sqrt (0.01 * 0.01 + 0.05 * 0.05) in
  exists iec,
    Standards.calculateIECShortCircuit params = Ok iec /\
    Standards.iec_symmetricalCurrent iec = Fin (1.05 * 480 / (3 * Z)) /\
    Standards.ieee_symmetricalCurrent (Standards.calculateIEEEShortCircuit params)
    = Fin (480 / (sqrt 3 * Z)).
Proof.
  intros params Z.
  destruct (iec_current_below_ieee 480 0.01 0.05 None None)
    as (iec & kappa & Hiec & _ & _ & _ & _ & HI & HJ & _); try lra.
  exists iec. split; [exact Hiec |]. split; [| exact HJ].
  rewrite HI. unfold StandardsForms.iecFactor.
  destruct (Rle_dec 480 1000); [reflexivity | lra].
Defined.

Module ComparisonFacts.
Import XReal XRealFacts ArcFlashFacts StandardsForms StandardsCurrents.
Local Open Scope R_scope.

(** [compareStandards] on finite currents, the IEEE ones the larger *)
Lemma compare_form (iec : Standards.IECResult xreal)
    (ieee : Standards.IEEEResult xreal) (A B P M : R) :
  Standards.iec_symmetricalCurrent iec = Fin A ->
  Standards.ieee_symmetricalCurrent ieee = Fin B ->
  Standards.iec_peakCurrent iec = Fin P ->
  Standards.ieee_momentaryCurrent ieee = Fin M ->
  0 < A < B -> 0 < P < M ->
  10 < (B - A) / A * 100 -> 15 < (M - P) / P * 100 ->
  Standards.compareStandards iec ieee
  = {| Standards.symmetricalCurrentDiff := Fin ((B - A) / A * 100);
       Standards.peakCurrentDiff := Fin ((M - P) / P * 100);
       Standards.acceptable := false;
       Standards.notes :=
         [Standards.SymmetricalCurrentDiffers (Fin ((B - A) / A * 100));
          Standards.PeakCurrentDiffers (Fin ((M - P) / P * 100))] |}.
Proof.
  intros HA HB HP HM HAB HPM H1 H2.
  unfold Standards.compareStandards. rewrite HA, HB, HP, HM.
  rewrite !truthy_fin by lra. cbn [andb].
  change (@sub xreal _) with xsub. change (@div xreal _) with xdiv.
  change (@mul xreal _) with xmul. change (@ltb xreal _) with xltb.
  change (@ofQ xreal _) with of_Q. change (@Math_abs xreal _) with XMath.xabs.
  rewrite !of_Q_int, !xsub_fin. cbn [XMath.xabs].
  rewrite (Rabs_left1 (A - B)) by lra. rewrite (Rabs_left1 (P - M)) by lra.
  rewrite !xdiv_fin by lra. rewrite !xmul_fin.
  replace (- (A - B)) with (B - A) by ring.
  replace (- (P - M)) with (M - P) by ring.
  rewrite !xltb_true by lra.
  reflexivity.
Qed.

(** the ratio of the IEEE current to the IEC current *)
Lemma current_ratio (V Z c : R) :
  0 < V -> 0 < Z -> 0 < c ->
  let A := c * V / (3 * Z) in
  let B := V / (sqrt 3 * Z) in
  0 < A /\ B = A * (sqrt 3 / c) /\ (B - A) / A * 100 = (sqrt 3 / c - 1) * 100.
Proof.
  intros HV HZ Hc A B.
  pose proof sqrt3_bounds as H3.
  assert (Hs : sqrt 3 * sqrt 3 = 3) by (apply sqrt_sqrt; lra).
  assert (HA : 0 < A).
  { subst A. apply Rdiv_lt_0_compat; nra. }
  assert (HB : B = A * (sqrt 3 / c)).
  { subst A B.
    replace (3 * Z) with (sqrt 3 * sqrt 3 * Z) by (rewrite Hs; ring).
    field; repeat split; lra. }
  split; [exact HA | split; [exact HB |]].
  rewrite HB. field; split; lra.
Qed.
End ComparisonFacts.

(** X17. [compareStandards] never accepts the two results of the same
    network.  In exact arithmetic, for V > 0 and R, X >= 0 not both
    zero, the comparison of the results of [calculateIECShortCircuit]
    and of [calculateIEEEShortCircuit] reports a difference of the
    symmetrical currents of (sqrt(3)/c - 1) 100 percent, above 57, is
    not acceptable, and carries both notes, the difference of the peak
    currents being above 57 percent too. *)
Theorem standards_comparison_never_acceptable :
  forall (V r x : R) (faultType faultLocation : option string),
    (0 < V)%R -> (0 <= r)%R -> (0 <= x)%R -> (0 < r * r + x * x)%R ->
    let params := StandardsForms.paramsOf V r x faultType faultLocation in
    let c := StandardsForms.iecFactor (StandardsForms.isMax faultType) V in
    exists iec p1 p2,
      Standards.calculateIECShortCircuit params = Ok iec /\
      Standards.compareStandards iec (Standards.calculateIEEEShortCircuit params)
      = {| Standards.symmetricalCurrentDiff := Fin p1;
           Standards.peakCurrentDiff := Fin p2;
           Standards.acceptable := false;
           Standards.notes :=
             [Standards.SymmetricalCurrentDiffers (Fin p1);
              Standards.PeakCurrentDiffers (Fin p2)] |} /\
      p1 = ((sqrt 3 / c - 1) * 100)%R /\
      (57 < p1)%R /\ (57 < p2)%R.
Proof.
  intros V r x faultType faultLocation HV Hr Hx HZ params c.
  pose proof (StandardsCurrents.iec_form V r x faultType faultLocation Hr Hx HZ)
    as Hiec.
  pose proof (StandardsCurrents.ieee_form V r x faultType faultLocation HZ)
    as (_ & HieeeI & f & Hf & _ & HieeeM).
  cbv zeta in Hiec. fold c params in Hiec. fold params in HieeeI, HieeeM.
  set (Z := sqrt (r * r + x * x)) in *.
  assert (HZpos : (0 < Z)%R) by (apply sqrt_lt_R0; exact HZ).
  pose proof (StandardsCurrents.iecFactor_bounds (StandardsForms.isMax faultType) V)
    as Hc.
  fold c in Hc.
  pose proof (StandardsCurrents.iecKappa_bounds r x Hr Hx) as Hk.
  pose proof StandardsCurrents.sqrt3_bounds as H3.
  pose proof StandardsCurrents.sqrt2_pos as H2.
  destruct (ComparisonFacts.current_ratio V Z c HV HZpos ltac:(lra))
    as (HA & HB & Hp1).
  set (A := (c * V / (3 * Z))%R) in *.
  set (B := (V / (sqrt 3 * Z))%R) in *.
  set (kappa := StandardsForms.iecKappa r x) in *.
  set (P := (kappa * sqrt 2 * A)%R) in *.
  set (M := (2 * sqrt 2 * B * f)%R) in *.
  assert (Hq : (1.57 < sqrt 3 / c)%R).
  { apply (Rmult_lt_reg_r c); [lra |].
    replace (sqrt 3 / c * c)%R with (sqrt 3) by (field; lra). nra. }
  assert (HAB : (0 < A < B)%R).
  { split; [exact HA |]. rewrite HB. nra. }
  assert (HPpos : (0 < P)%R).
  { unfold P. apply Rmult_lt_0_compat; [apply Rmult_lt_0_compat |]; lra. }
  assert (HMP : (M = P * (2 * f / kappa * (sqrt 3 / c)))%R).
  { unfold M, P. rewrite HB. field; split; lra. }
  assert (Hfk : (1 < 2 * f / kappa)%R).
  { apply (Rmult_lt_reg_r kappa); [lra |].
    replace (2 * f / kappa * kappa)%R with (2 * f)%R by (field; lra). lra. }
  assert (Hratio : (1.57 < 2 * f / kappa * (sqrt 3 / c))%R) by nra.
  assert (Hp2 : ((M - P) / P * 100 = (2 * f / kappa * (sqrt 3 / c) - 1) * 100)%R).
  { rewrite HMP. field. lra. }
  eexists. exists ((B - A) / A * 100)%R, ((M - P) / P * 100)%R.
  split; [exact Hiec |].
  split.
  - apply ComparisonFacts.compare_form with (A := A) (B := B) (P := P) (M := M);
      try reflexivity; try assumption.
    + split; [exact HPpos |]. rewrite HMP. nra.
    + rewrite Hp1. lra.
    + rewrite Hp2. lra.
  - split; [exact Hp1 |]. split.
    + rewrite Hp1. lra.
    + rewrite Hp2. lra.
Qed.

(** 13.8 kV behind 0.5 + j2 ohm. *)
Lemma standards_comparison_never_acceptable_witness :
  exists iec,
    Standards.calculateIECShortCircuit
      (StandardsForms.paramsOf 13800 0.5 2 None None) = Ok iec /\
    Standards.acceptable
      (Standards.compareStandards iec
         (Standards.calculateIEEEShortCircuit
            (StandardsForms.paramsOf 13800 0.5 2 None None))) = false.
Proof.
  destruct (standards_comparison_never_acceptable 13800 0.5 2 None None)
    as (iec & p1 & p2 & Hiec & Hcmp & _); try lra.
  exists iec. split; [exact Hiec |]. rewrite Hcmp. reflexivity.
Defined.


(** ** Motor contribution (motor_contribution.js) *)

Module MotorCalcFacts.
Import XReal XRealFacts ArcFlashFacts StandardsCurrents.
Local Open Scope R_scope.

Lemma xeqb_refl (u : R) : xeqb (Fin u) (Fin u) = true.
Proof. unfold xeqb. destruct (Req_dec_T u u); [reflexivity | contradiction]. Qed.

Lemma fla_three_phase (motor : Motor.t xreal) (H V E PF : R) :
  orElse (Motor.hp motor) (orElse (Motor.power motor) (ofQ 100)) = Fin H ->
  orElse (Motor.voltage motor) (ofQ 480) = Fin V ->
  orElse (Motor.efficiency motor) (ofQ 0.90) = Fin E ->
  orElse (Motor.powerFactor motor) (orElse (Motor.pf motor) (ofQ 0.85)) = Fin PF ->
  orElse (Motor.phases motor) (ofQ 3) = Fin 3 ->
  0 < V -> 0 < E -> 0 < PF ->
  Motor.calculateMotorFLA motor = Fin (H * 746 / (V * sqrt 3 * E * PF)).
Proof.
  intros HH HV HE HPF Hph HVp HEp HPFp.
  pose proof sqrt3_bounds as H3.
  unfold Motor.calculateMotorFLA. rewrite HH, HV, HE, HPF, Hph.
  rewrite sqrt3_form.
  change (@eqb xreal _) with xeqb. change (@ofQ xreal _) with of_Q.
  change (@div xreal _) with xdiv. change (@mul xreal _) with xmul.
  rewrite !of_Q_int, xeqb_refl, !xmul_fin.
  apply xdiv_fin.
  apply Rgt_not_eq. repeat apply Rmult_lt_0_compat; lra.
Qed.

Lemma impedance_three_phase (motor : Motor.t xreal) (V L XR : R) :
  orElse (Motor.voltage motor) (ofQ 480) = Fin V ->
  orElse (Motor.phases motor) (ofQ 3) = Fin 3 ->
  orElse (Motor.xr motor)
         (Motor.ch_xrLockedRotor (Motor.characteristicsOf motor)) = Fin XR ->
  0 < L ->
  let zm := V / (sqrt 3 * L) in
  let rm := zm / sqrt (1 + XR * XR) in
  Motor.calculateMotorImpedance motor (Fin L)
  = {| Motor.r := Fin rm; Motor.x := Fin (rm * XR); Motor.z := Fin zm;
       Motor.imp_xr := Fin XR |}.
Proof.
  intros HV Hph HXR HL zm rm.
  pose proof sqrt3_bounds as H3.
  pose proof (XCalc.sqrt_1_plus_sq XR) as Hs.
  unfold Motor.calculateMotorImpedance. rewrite HV, Hph, HXR.
  rewrite sqrt3_form.
  change (@eqb xreal _) with xeqb. change (@ofQ xreal _) with of_Q.
  change (@div xreal _) with xdiv. change (@mul xreal _) with xmul.
  change (@add xreal _) with xadd. change (@Math_sqrt xreal _) with xsqrt.
  rewrite !of_Q_int, xeqb_refl, !xmul_fin, xadd_fin.
  rewrite xsqrt_fin by nra.
  rewrite (xdiv_fin V) by nra. fold zm.
  rewrite xdiv_fin by lra. fold rm. rewrite xmul_fin.
  reflexivity.
Qed.
End MotorCalcFacts.

(** X18. For a three-phase motor whose effective values (the given ones
    or the defaults 100 hp, 480 V, efficiency 0.90, power factor 0.85,
    locked-rotor multiplier and X/R of its type) are finite and
    positive, in exact arithmetic: the full-load current is
    746 hp / (sqrt(3) V eff pf), the locked-rotor current is the
    multiplier times it, and the locked-rotor impedance z gives back
    that current at the rated voltage, sqrt(3) z I_LR = V; it is split
    by X/R into r and x = r X/R with r^2 + x^2 = z^2. *)
Theorem motor_locked_rotor_impedance :
  forall (motor : Motor.t xreal) (H V E PF M XR : R),
    orElse (Motor.hp motor) (orElse (Motor.power motor) (ofQ 100)) = Fin H ->
    orElse (Motor.voltage motor) (ofQ 480) = Fin V ->
    orElse (Motor.efficiency motor) (ofQ 0.90) = Fin E ->
    orElse (Motor.powerFactor motor) (orElse (Motor.pf motor) (ofQ 0.85)) = Fin PF ->
    orElse (Motor.phases motor) (ofQ 3) = Fin 3 ->
    orElse (Motor.lockedRotorMultiplier motor)
           (Motor.ch_lockedRotorMultiplier (Motor.characteristicsOf motor)) = Fin M ->
    orElse (Motor.xr motor)
           (Motor.ch_xrLockedRotor (Motor.characteristicsOf motor)) = Fin XR ->
    (0 < H)%R -> (0 < V)%R -> (0 < E)%R -> (0 < PF)%R -> (0 < M)%R ->
    let fla := Motor.calculateMotorFLA motor in
    let lra := Motor.calculateMotorLRA motor fla in
    let impedance := Motor.calculateMotorImpedance motor lra in
    let F := (H * 746 / (V * sqrt 3 * E * PF))%R in
    exists zm rm : R,
      fla = Fin F /\
      lra = Fin (F * M) /\
      impedance = {| Motor.r := Fin rm; Motor.x := Fin (rm * XR);
                     Motor.z := Fin zm; Motor.imp_xr := Fin XR |} /\
      (sqrt 3 * zm * (F * M) = V)%R /\
      rm = (zm / sqrt (1 + XR * XR))%R /\
      (rm * rm + (rm * XR) * (rm * XR) = zm * zm)%R.
Proof.
  intros motor H V E PF M XR HH HV HE HPF Hph HM HXR HHp HVp HEp HPFp HMp
         fla lra impedance F.
  pose proof StandardsCurrents.sqrt3_bounds as H3.
  assert (HF : fla = Fin F)
    by (apply MotorCalcFacts.fla_three_phase; assumption).
  assert (HFp : (0 < F)%R).
  { unfold F. apply Rdiv_lt_0_compat; [lra |].
    repeat apply Rmult_lt_0_compat; lra. }
  assert (HL : lra = Fin (F * M)).
  { subst lra. unfold Motor.calculateMotorLRA. rewrite HM, HF. reflexivity. }
  assert (HLp : (0 < F * M)%R) by (apply Rmult_lt_0_compat; lra).
  exists (V / (sqrt 3 * (F * M)))%R,
         (V / (sqrt 3 * (F * M)) / sqrt (1 + XR * XR))%R.
  split; [exact HF | split; [exact HL | split; [| split; [| split]]]].
  - subst impedance. rewrite HL.
    apply MotorCalcFacts.impedance_three_phase; assumption.
  - field. split; lra.
  - reflexivity.
  - apply XCalc.split_magnitude.
Qed.

(** The motor that leaves every property out: 100 hp at 480 V. *)
Lemma motor_locked_rotor_impedance_witness :
  let motor : Motor.t xreal := MotorForms.plain in
  let F := (100 * 746 / (480 * sqrt 3 * 0.9 * 0.85))%R in
  Motor.calculateMotorFLA motor = Fin F /\
  Motor.calculateMotorLRA motor (Motor.calculateMotorFLA motor) = Fin (F * 6).
Proof.
  intros motor F.
  destruct (motor_locked_rotor_impedance motor 100 480 0.9 0.85 6 15)
    as (zm & rm & HF & HL & _);
    try reflexivity; try lra;
    try (cbn; unfold XReal.of_Q; cbn [Qnum Qden]; f_equal; lra).
  split; [exact HF | exact HL].
Defined.

Module TimelineFacts.
Import XReal XRealFacts ArcFlashFacts.
Local Open Scope R_scope.

Lemma timeline_values (motor : Motor.t xreal) (F m d s : R) :
  Motor.lockedRotorMultiplier motor = None ->
  Motor.interruptingDecay motor = None ->
  Motor.sustainedMultiplier motor = None ->
  Motor.ch_lockedRotorMultiplier (Motor.characteristicsOf motor) = Fin m ->
  Motor.ch_decayFactorInterrupting (Motor.characteristicsOf motor) = Fin d ->
  Motor.ch_decayFactorSustained (Motor.characteristicsOf motor) = Fin s ->
  Motor.calculateMotorContributionTimeline motor (Fin F)
    (Motor.calculateMotorLRA motor (Fin F))
  = MotorForms.timelineOf (F * m) (F * m * d) (F * s).
Proof.
  intros Hm Hd Hs Hcm Hcd Hcs.
  unfold Motor.calculateMotorContributionTimeline, Motor.calculateMotorLRA,
    MotorForms.timelineOf.
  rewrite Hm, Hd, Hs, Hcm, Hcd, Hcs. cbn [orElse].
  change (@div xreal _) with xdiv. change (@mul xreal _) with xmul.
  change (@ofQ xreal _) with of_Q.
  rewrite !of_Q_int, !xmul_fin. rewrite !xdiv_fin by lra.
  reflexivity.
Qed.

Lemma literal (q : Q) (u : R) :
  (IZR (Qnum q) / IZR (Zpos (Qden q)) = u) -> @ofQ xreal _ q = Fin u.
Proof. intros <-. reflexivity. Qed.
End TimelineFacts.

(** X19. The three currents of a motor that gives no multiplier and no
    decay of its own, for a full-load current F > 0 in exact
    arithmetic.  A synchronous motor contributes 5.5 F in the first
    cycle, 4.675 F at the interrupting time and 5 F sustained: the
    sustained current is above the interrupting one.  Every other type
    that is not an inherited name (induction, none, unknown) contributes
    6 F, 4.5 F and 4 F, in decreasing order.  The values in kA are the
    thousandth. *)
Theorem motor_timeline_by_type :
  forall (motor : Motor.t xreal) (F : R),
    Motor.lockedRotorMultiplier motor = None ->
    Motor.interruptingDecay motor = None ->
    Motor.sustainedMultiplier motor = None ->
    (0 < F)%R ->
    let type := orElseString (Motor.motorType motor) "induction" in
    let timeline :=
      Motor.calculateMotorContributionTimeline motor (Fin F)
        (Motor.calculateMotorLRA motor (Fin F)) in
    (type = "synchronous" ->
       timeline = MotorForms.timelineOf (5.5 * F) (4.675 * F) (5 * F) /\
       (4.675 * F < 5 * F < 5.5 * F)%R) /\
    (type <> "synchronous" -> inheritedKey type = false ->
       timeline = MotorForms.timelineOf (6 * F) (4.5 * F) (4 * F) /\
       (4 * F < 4.5 * F < 6 * F)%R).
Proof.
  intros motor F Hm Hd Hs HF type timeline. subst timeline.
  split.
  - intros Hty. split; [| lra].
    rewrite (TimelineFacts.timeline_values motor F 5.5 0.85 5 Hm Hd Hs).
    + unfold MotorForms.timelineOf. f_equal; f_equal; lra.
    + unfold Motor.characteristicsOf. fold type. rewrite Hty. cbn.
      apply TimelineFacts.literal. cbn [Qnum Qden]. lra.
    + unfold Motor.characteristicsOf. fold type. rewrite Hty. cbn.
      apply TimelineFacts.literal. cbn [Qnum Qden]. lra.
    + unfold Motor.characteristicsOf. fold type. rewrite Hty. cbn.
      apply TimelineFacts.literal. cbn [Qnum Qden]. lra.
  - intros Hty Hinh. split; [| lra].
    assert (Hc : Motor.characteristicsOf motor = Motor.induction).
    { unfold Motor.characteristicsOf. fold type.
      destruct (String.eqb type "induction"); [reflexivity |].
      destruct (String.eqb_spec type "synchronous"); [contradiction |].
      rewrite Hinh. reflexivity. }
    rewrite (TimelineFacts.timeline_values motor F 6 0.75 4 Hm Hd Hs).
    + unfold MotorForms.timelineOf. f_equal; f_equal; lra.
    + rewrite Hc. apply TimelineFacts.literal. cbn [Qnum Qden]. lra.
    + rewrite Hc. apply TimelineFacts.literal. cbn [Qnum Qden]. lra.
    + rewrite Hc. apply TimelineFacts.literal. cbn [Qnum Qden]. lra.
Qed.

(** A synchronous motor of 120 A full-load current. *)
Lemma motor_timeline_by_type_witness :
  let motor : Motor.t xreal :=
    {| Motor.name := None; Motor.hp := None; Motor.power := None;
       Motor.voltage := None; Motor.efficiency := None;
       Motor.powerFactor := None; Motor.pf := None; Motor.phases := None;
       Motor.motorType := Some "synchronous";
       Motor.lockedRotorMultiplier := None;
       Motor.xr := None; Motor.interruptingTime := None;
       Motor.interruptingDecay := None; Motor.sustainedMultiplier := None;
       Motor.faultVoltage := None; Motor.fromBus := None; Motor.bus := None |} in
  Motor.calculateMotorContributionTimeline motor (Fin 120)
    (Motor.calculateMotorLRA motor (Fin 120))
  = MotorForms.timelineOf (5.5 * 120) (4.675 * 120) (5 * 120).
Proof.
  intros motor.
  destruct (motor_timeline_by_type motor 120 eq_refl eq_refl eq_refl ltac:(lra))
    as [Hsync _].
  destruct (Hsync eq_refl) as [Htl _]. exact Htl.
Defined.

Module MotorParallel.
Local Open Scope R_scope.

(** (Z1 Z2) (1/Z1 + 1/Z2) = Z1 + Z2 on the real and imaginary parts *)
Lemma parallel_sum (r1 x1 r2 x2 : R) :
  0 < r1 -> 0 < r2 ->
  let d1 := r1 * r1 + x1 * x1 in
  let d2 := r2 * r2 + x2 * x2 in
  let G := 0 + r1 / d1 + r2 / d2 in
  let B := 0 + - x1 / d1 + - x2 / d2 in
  r1 + r2 = (r1 * r2 - x1 * x2) * G - (r1 * x2 + x1 * r2) * B /\
  x1 + x2 = (r1 * r2 - x1 * x2) * B + (r1 * x2 + x1 * r2) * G.
Proof.
  intros H1 H2 d1 d2 G B. subst G B d1 d2.
  split; field; split; nra.
Qed.

(** (G - jB) / (G^2 + B^2) is the inverse of G + jB *)
Lemma inverse_admittance (G B : R) :
  0 < G ->
  let Y := G * G + B * B in
  G / Y * G - - B / Y * B = 1 /\ G / Y * B + - B / Y * G = 0.
Proof.
  intros HG Y. subst Y. split; field; nra.
Qed.
End MotorParallel.

(** X20. [calculateAggregateMotorImpedance] returns [null] for no motor
    and the impedance of the motor for one.  For two motors of the
    finite impedances r1 + j x1 and r2 + j x2, r1, r2 > 0, in exact
    arithmetic, it returns the parallel combination r + j x of the two:
    (r + j x) ((r1 + r2) + j (x1 + x2)) = (r1 + j x1) (r2 + j x2), with
    r > 0, the magnitude sqrt(r^2 + x^2) and the ratio x / r.  The
    referred impedances are not used. *)
Theorem motor_aggregate_is_parallel :
  forall (m1 m2 : Motor.Result xreal) (r1 x1 r2 x2 : R),
    Motor.r (Motor.impedance m1) = Fin r1 ->
    Motor.x (Motor.impedance m1) = Fin x1 ->
    Motor.r (Motor.impedance m2) = Fin r2 ->
    Motor.x (Motor.impedance m2) = Fin x2 ->
    (0 < r1)%R -> (0 < r2)%R ->
    Motor.calculateAggregateMotorImpedance (N := xreal) [] = None /\
    Motor.calculateAggregateMotorImpedance [m1] = Some (Motor.impedance m1) /\
    exists r x : R,
      Motor.calculateAggregateMotorImpedance [m1; m2]
      = Some {| Motor.r := Fin r; Motor.x := Fin x;
                Motor.z := Fin (sqrt (r * r + x * x));
                Motor.imp_xr := Fin (x / r) |} /\
      (0 < r)%R /\
      (r * (r1 + r2) - x * (x1 + x2) = r1 * r2 - x1 * x2)%R /\
      (r * (x1 + x2) + x * (r1 + r2) = r1 * x2 + x1 * r2)%R.
Proof.
  intros m1 m2 r1 x1 r2 x2 Hr1 Hx1 Hr2 Hx2 Hp1 Hp2.
  split; [reflexivity | split; [reflexivity |]].
  set (d1 := (r1 * r1 + x1 * x1)%R).
  set (d2 := (r2 * r2 + x2 * x2)%R).
  assert (Hd1 : (0 < d1)%R) by (unfold d1; nra).
  assert (Hd2 : (0 < d2)%R) by (unfold d2; nra).
  set (G := (0 + r1 / d1 + r2 / d2)%R).
  set (B := (0 + - x1 / d1 + - x2 / d2)%R).
  assert (HG : (0 < G)%R).
  { unfold G.
    assert ((0 < r1 / d1)%R) by (apply Rdiv_lt_0_compat; lra).
    assert ((0 < r2 / d2)%R) by (apply Rdiv_lt_0_compat; lra).
    lra. }
  set (Y := (G * G + B * B)%R).
  assert (HY : (0 < Y)%R) by (unfold Y; nra).
  assert (Hr : (0 < G / Y)%R) by (apply Rdiv_lt_0_compat; lra).
  exists (G / Y)%R, (- B / Y)%R.
  split; [| split; [exact Hr | split]].
  - unfold Motor.calculateAggregateMotorImpedance.
    cbn [fold_left Motor.addAdmittance fst snd].
    rewrite Hr1, Hx1, Hr2, Hx2.
    change (@div xreal _) with XReal.xdiv. change (@mul xreal _) with XReal.xmul.
    change (@add xreal _) with XReal.xadd. change (@ofQ xreal _) with XReal.of_Q.
    change (@neg xreal _) with XReal.xopp.
    change (@Math_sqrt xreal _) with XReal.xsqrt.
    cbn [XReal.xopp].
    rewrite !XRealFacts.of_Q_int, !XRealFacts.xmul_fin, !XRealFacts.xadd_fin.
    fold d1 d2.
    rewrite !XRealFacts.xdiv_fin by lra.
    rewrite !XRealFacts.xadd_fin. fold G B.
    rewrite !XRealFacts.xmul_fin, !XRealFacts.xadd_fin. fold Y.
    cbn [XReal.xopp].
    rewrite !XRealFacts.xdiv_fin by lra.
    rewrite StandardsCurrents.truthy_fin by lra.
    rewrite !XRealFacts.xmul_fin, !XRealFacts.xadd_fin.
    rewrite XRealFacts.xsqrt_fin by nra.
    rewrite XRealFacts.xdiv_fin by lra.
    reflexivity.
  - destruct (MotorParallel.inverse_admittance G B HG) as [Ha Hb]. fold Y in Ha, Hb.
    destruct (MotorParallel.parallel_sum r1 x1 r2 x2 Hp1 Hp2) as [HS HT].
    cbv zeta in HS, HT. fold d1 d2 G B in HS, HT.
    rewrite HS, HT.
    transitivity ((r1 * r2 - x1 * x2) * (G / Y * G - - B / Y * B)
                  - (r1 * x2 + x1 * r2) * (G / Y * B + - B / Y * G))%R;
      [ring | rewrite Ha, Hb; ring].
  - destruct (MotorParallel.inverse_admittance G B HG) as [Ha Hb]. fold Y in Ha, Hb.
    destruct (MotorParallel.parallel_sum r1 x1 r2 x2 Hp1 Hp2) as [HS HT].
    cbv zeta in HS, HT. fold d1 d2 G B in HS, HT.
    rewrite HS, HT.
    transitivity ((r1 * r2 - x1 * x2) * (G / Y * B + - B / Y * G)
                  + (r1 * x2 + x1 * r2) * (G / Y * G - - B / Y * B))%R;
      [ring | rewrite Ha, Hb; ring].
Qed.

(** 0.2 + j3 ohm beside 0.5 + j6 ohm. *)
Lemma motor_aggregate_is_parallel_witness :
  exists r x : R,
    Motor.calculateAggregateMotorImpedance
      [MotorForms.resultOfImpedance 0.2 3; MotorForms.resultOfImpedance 0.5 6]
    = Some {| Motor.r := Fin r; Motor.x := Fin x;
              Motor.z := Fin (sqrt (r * r + x * x));
              Motor.imp_xr := Fin (x / r) |} /\
    (r * (0.2 + 0.5) - x * (3 + 6) = 0.2 * 0.5 - 3 * 6)%R.
Proof.
  destruct (motor_aggregate_is_parallel
              (MotorForms.resultOfImpedance 0.2 3)
              (MotorForms.resultOfImpedance 0.5 6) 0.2 3 0.5 6
              eq_refl eq_refl eq_refl eq_refl ltac:(lra) ltac:(lra))
    as (_ & _ & r & x & Hagg & _ & Hre & _).
  exists r, x. split; [exact Hagg | exact Hre].
Defined.

Module MotorResultsFacts.
Section Results.
Context {N : Type} {num : JsNum N} {math : JsMath N}.

Lemma resultsFrom_length (motors : list (Motor.t N)) (i : nat) :
  List.length (Motor.resultsFrom i motors) = List.length motors.
Proof.
  revert i. induction motors as [| m rest IH]; intros i; [reflexivity |].
  cbn. rewrite IH. reflexivity.
Qed.

Lemma resultsFrom_index (motors : list (Motor.t N)) (i : nat) :
  map Motor.index (Motor.resultsFrom i motors) = seq (i + 1) (List.length motors).
Proof.
  revert i. induction motors as [| m rest IH]; intros i; [reflexivity |].
  cbn [Motor.resultsFrom map List.length seq Motor.resultOf Motor.index].
  f_equal. rewrite IH. f_equal; lia.
Qed.

(** the key under which the orchestrator groups a motor result *)
Lemma busKey_unknown (i : nat) (motor : Motor.t N) :
  Motor.truthyRef (Motor.fromBus motor) = false ->
  Motor.truthyRef (Motor.bus motor) = false ->
  Orchestrator.busKey (Motor.toMotorResult (Motor.resultOf i motor)) = "Unknown".
Proof.
  intros H1 H2. unfold Orchestrator.busKey, Motor.toMotorResult, Motor.resultOf.
  cbn [Orchestrator.busConnection Motor.busConnection].
  rewrite H1, H2. reflexivity.
Qed.

Lemma results_unknown (motors : list (Motor.t N)) (i : nat) :
  Forall (fun m => Motor.truthyRef (Motor.fromBus m) = false
                   /\ Motor.truthyRef (Motor.bus m) = false) motors ->
  Forall (fun r => Orchestrator.busKey r = "Unknown")
         (map Motor.toMotorResult (Motor.resultsFrom i motors)).
Proof.
  revert i. induction motors as [| m rest IH]; intros i Hall; [constructor |].
  inversion Hall as [| ? ? [H1 H2] Hrest]; subst.
  cbn [Motor.resultsFrom map]. constructor.
  - apply busKey_unknown; assumption.
  - apply IH. exact Hrest.
Qed.

Lemma motorsAt_all (key : string) (rs : list (Orchestrator.MotorResult N)) :
  Forall (fun r => Orchestrator.busKey r = key) rs -> motorsAt key rs = rs.
Proof.
  induction rs as [| r rest IH]; intros Hall; [reflexivity |].
  inversion Hall as [| ? ? Hr Hrest]; subst.
  rewrite MotorFacts.motorsAt_cons_eq by reflexivity.
  f_equal. apply IH. exact Hrest.
Qed.

Lemma motorsAt_none (key other : string) (rs : list (Orchestrator.MotorResult N)) :
  key <> other ->
  Forall (fun r => Orchestrator.busKey r = other) rs -> motorsAt key rs = [].
Proof.
  intros Hne. induction rs as [| r rest IH]; intros Hall; [reflexivity |].
  inversion Hall as [| ? ? Hr Hrest]; subst.
  rewrite MotorFacts.motorsAt_cons_ne by congruence.
  apply IH. exact Hrest.
Qed.

Lemma interrupting_fold (ms : list (Orchestrator.MotorResult N))
    (g : Orchestrator.BusMotors N) :
  Orchestrator.bm_interrupting (fold_left Orchestrator.addMotor ms g)
  = fold_left (fun sum motor =>
                 add sum (Orchestrator.interrupting (Orchestrator.contribution motor)))
              ms (Orchestrator.bm_interrupting g).
Proof.
  revert g. induction ms as [| motor rest IH]; intros g; [reflexivity |].
  cbn [fold_left]. rewrite IH. reflexivity.
Qed.

Lemma sustained_fold (ms : list (Orchestrator.MotorResult N))
    (g : Orchestrator.BusMotors N) :
  Orchestrator.bm_sustained (fold_left Orchestrator.addMotor ms g)
  = fold_left (fun sum motor =>
                 add sum (Orchestrator.sustained (Orchestrator.contribution motor)))
              ms (Orchestrator.bm_sustained g).
Proof.
  revert g. induction ms as [| motor rest IH]; intros g; [reflexivity |].
  cbn [fold_left]. rewrite IH. reflexivity.
Qed.

Lemma motors_fold (ms : list (Orchestrator.MotorResult N))
    (g : Orchestrator.BusMotors N) :
  Orchestrator.bm_motors (fold_left Orchestrator.addMotor ms g)
  = Orchestrator.bm_motors g ++ ms.
Proof.
  revert g. induction ms as [| motor rest IH]; intros g.
  - cbn. rewrite app_nil_r. reflexivity.
  - cbn [fold_left]. rewrite IH. cbn. rewrite <- app_assoc. reflexivity.
Qed.

Lemma fold_left_mapped {A B C : Type} (f : A -> C -> A) (g : B -> C)
    (l : list B) (a : A) :
  fold_left f (map g l) a = fold_left (fun a x => f a (g x)) l a.
Proof.
  revert a. induction l as [| x rest IH]; intros a; [reflexivity |].
  cbn. apply IH.
Qed.
Lemma contribution_value (motors : list (Motor.t N)) :
  motors <> [] ->
  Motor.calculateMotorContributionIEEE141 motors
  = let motorResults := Motor.resultsFrom 0 motors in
    let firstCycle :=
      fold_left (fun sum m => add sum (Motor.firstCycle (Motor.contribution m)))
                motorResults (ofQ 0) in
    let interrupting :=
      fold_left (fun sum m => add sum (Motor.interrupting (Motor.contribution m)))
                motorResults (ofQ 0) in
    let sustained :=
      fold_left (fun sum m => add sum (Motor.sustained (Motor.contribution m)))
                motorResults (ofQ 0) in
    Some {| Motor.motors := motorResults;
            Motor.totals :=
              {| Motor.tot_firstCycle := firstCycle;
                 Motor.tot_interrupting := interrupting;
                 Motor.tot_sustained := sustained;
                 Motor.tot_firstCycleKA := div firstCycle (ofQ 1000);
                 Motor.tot_interruptingKA := div interrupting (ofQ 1000);
                 Motor.tot_sustainedKA := div sustained (ofQ 1000) |};
            Motor.count := List.length motorResults;
            Motor.aggregateImpedance :=
              Motor.calculateAggregateMotorImpedance motorResults |}.
Proof.
  intros Hne. destruct motors; [contradiction | reflexivity].
Qed.
End Results.
End MotorResultsFacts.

(** X21. [calculateMotorContributionIEEE141] returns [null] for no
    motor.  For motors that give neither [fromBus] nor [bus] (absent, 0
    or empty), in every arithmetic: the results are numbered from 1,
    [count] is their number, each is connected to the bus 'Unknown', and
    the grouping of [integrateMotorContribution] puts them all under the
    one key 'Unknown', whose three sums are the totals of the module. *)
Theorem motors_without_bus_under_unknown :
  forall (N : Type) (num : JsNum N) (math : JsMath N) (motors : list (Motor.t N)),
    motors <> [] ->
    Forall (fun m => Motor.truthyRef (Motor.fromBus m) = false
                     /\ Motor.truthyRef (Motor.bus m) = false) motors ->
    Motor.calculateMotorContributionIEEE141 (N := N) [] = None /\
    exists c byBus g,
      Motor.calculateMotorContributionIEEE141 motors = Some c /\
      Motor.count c = List.length motors /\
      map Motor.index (Motor.motors c) = seq 1 (List.length motors) /\
      Forall (fun r => Motor.busConnection r = Orchestrator.BusName "Unknown")
             (Motor.motors c) /\
      Orchestrator.groupMotors ∅ (Orchestrator.motors (Motor.toMotorData c))
      = Ok byBus /\
      byBus !! "Unknown" = Some g /\
      (forall key, key <> "Unknown" -> byBus !! key = None) /\
      Orchestrator.bm_firstCycle g = Motor.tot_firstCycle (Motor.totals c) /\
      Orchestrator.bm_interrupting g = Motor.tot_interrupting (Motor.totals c) /\
      Orchestrator.bm_sustained g = Motor.tot_sustained (Motor.totals c) /\
      List.length (Orchestrator.bm_motors g) = Motor.count c.
Proof.
  intros N num math motors Hne Hall.
  split; [reflexivity |].
  set (rs := Motor.resultsFrom 0 motors).
  set (ms := map Motor.toMotorResult rs).
  assert (Hkeys : Forall (fun r => Orchestrator.busKey r = "Unknown") ms)
    by (apply MotorResultsFacts.results_unknown; exact Hall).
  assert (Hplain : forallb (fun motor => negb (inheritedKey (Orchestrator.busKey motor)))
                           ms = true).
  { apply forallb_forall. intros r Hr.
    rewrite List.Forall_forall in Hkeys. rewrite (Hkeys r Hr). reflexivity. }
  destruct (MotorFacts.groupMotors_total ms ∅ Hplain) as [byBus HbyBus].
  assert (Hms : ms <> []).
  { subst ms rs. destruct motors; [contradiction | discriminate]. }
  eexists. exists byBus, (fold_left Orchestrator.addMotor ms Orchestrator.emptyBusMotors).
  split; [apply MotorResultsFacts.contribution_value; exact Hne |].
  cbv zeta.
  cbn [Motor.count Motor.motors Motor.totals Motor.tot_firstCycle
       Motor.tot_interrupting Motor.tot_sustained Motor.toMotorData
       Orchestrator.motors].
  split; [apply MotorResultsFacts.resultsFrom_length |].
  split; [apply (MotorResultsFacts.resultsFrom_index motors 0) |].
  split.
  { subst rs. clear -Hall. generalize 0. induction motors as [| m rest IH];
      intros i; [constructor |].
    inversion Hall as [| ? ? [H1 H2] Hrest]; subst.
    cbn [Motor.resultsFrom]. constructor; [| apply IH; exact Hrest].
    unfold Motor.resultOf. cbn [Motor.busConnection]. rewrite H1, H2. reflexivity. }
  split; [exact HbyBus |].
  split.
  { rewrite (MotorFacts.groupMotors_lookup ms ∅ byBus "Unknown" HbyBus).
    rewrite lookup_empty, (MotorResultsFacts.motorsAt_all "Unknown" ms Hkeys).
    destruct ms; [contradiction | reflexivity]. }
  split.
  { intros key Hkey.
    rewrite (MotorFacts.groupMotors_lookup ms ∅ byBus key HbyBus).
    rewrite lookup_empty,
      (MotorResultsFacts.motorsAt_none key "Unknown" ms Hkey Hkeys).
    reflexivity. }
  split.
  { rewrite MotorFacts.firstCycle_fold. subst ms.
    rewrite MotorResultsFacts.fold_left_mapped. reflexivity. }
  split.
  { rewrite MotorResultsFacts.interrupting_fold. subst ms.
    rewrite MotorResultsFacts.fold_left_mapped. reflexivity. }
  split.
  { rewrite MotorResultsFacts.sustained_fold. subst ms.
    rewrite MotorResultsFacts.fold_left_mapped. reflexivity. }
  rewrite MotorResultsFacts.motors_fold. cbn. subst ms.
  rewrite length_map. reflexivity.
Qed.

(** Two plain motors on binary64. *)
Lemma motors_without_bus_under_unknown_witness :
  let num := Binary64.num anyPow anyLog10 in
  let math := Binary64Math.math (fun a => a) in
  exists c,
    Motor.calculateMotorContributionIEEE141
      [MotorForms.plain; MotorForms.plain] = Some c /\
    Motor.count c = 2%nat.
Proof.
  intros num math.
  destruct (motors_without_bus_under_unknown float num math
              [MotorForms.plain; MotorForms.plain])
    as (_ & c & byBus & g & Hc & Hcount & _).
  - discriminate.
  - repeat constructor.
  - exists c. split; [exact Hc | exact Hcount].
Defined.


(** ** Voltage drop (voltage_drop_calculations.js) *)

Module ComplianceFacts.
Import Binary64Facts Binary64Order.

(** the three levels for the limits 3 and 5 *)
Lemma levels_3_5 (pow : float -> float -> float) (log10 : float -> float)
    (vd : float) (circuitType : option string) :
  let num := Binary64.num pow log10 in
  VoltageDrop.limitsOf circuitType
  = {| VoltageDrop.recommended := Some (ofQ 3);
       VoltageDrop.maximum := Some (ofQ 5) |} ->
  let c := VoltageDrop.checkNECCompliance vd circuitType in
  (leb vd (ofQ 3) = true ->
     VoltageDrop.level c = "good" /\ VoltageDrop.compliant c = true) /\
  (leb vd (ofQ 3) = false -> leb vd (ofQ 5) = true ->
     VoltageDrop.level c = "warning" /\ VoltageDrop.compliant c = true) /\
  (leb vd (ofQ 5) = false ->
     VoltageDrop.level c = "critical" /\ VoltageDrop.compliant c = false).
Proof.
  intros num Hlimits c. subst c num. unfold VoltageDrop.checkNECCompliance.
  rewrite Hlimits. cbn [VoltageDrop.recommended VoltageDrop.maximum toNumber].
  change (@leb float _) with PrimFloat.leb.
  change (@ofQ float _) with Binary64.of_Q.
  assert (K : PrimFloat.leb (Binary64.of_Q 3) (Binary64.of_Q 5) = true)
    by (vm_compute; reflexivity).
  repeat split; intros.
  - rewrite H. reflexivity.
  - rewrite H. reflexivity.
  - rewrite H, H0. reflexivity.
  - rewrite H, H0. reflexivity.
  - destruct (PrimFloat.leb vd (Binary64.of_Q 3)) eqn:E3.
    + pose proof (leb_trans vd (Binary64.of_Q 3) (Binary64.of_Q 5) E3 K) as K5.
      congruence.
    + rewrite H. reflexivity.
  - destruct (PrimFloat.leb vd (Binary64.of_Q 3)) eqn:E3.
    + pose proof (leb_trans vd (Binary64.of_Q 3) (Binary64.of_Q 5) E3 K) as K5.
      congruence.
    + rewrite H. reflexivity.
Qed.
End ComplianceFacts.

(** X22. The three levels of [checkNECCompliance], on binary64, for
    every voltage drop in percent, [NaN] included.  For a feeder, a
    branch circuit, no circuit type or a type that is not known: good up
    to 3, warning above 3 up to 5, critical (not compliant) otherwise,
    also for [NaN].  For the type 'combined', which has no recommended
    limit, the level is never good: warning up to 5, critical otherwise.
    For a type named like an inherited property the level is always
    critical. *)
Theorem nec_compliance_levels :
  forall (pow : float -> float -> float) (log10 : float -> float) (vd : float),
    let num := Binary64.num pow log10 in
    let check := VoltageDrop.checkNECCompliance vd in
    (forall circuitType : option string,
       circuitType = None \/ circuitType = Some "feeder" \/
       circuitType = Some "branchCircuit" \/
       (exists name, circuitType = Some name /\ name <> "combined"
                     /\ inheritedKey name = false) ->
       (leb vd (ofQ 3) = true ->
          VoltageDrop.level (check circuitType) = "good"
          /\ VoltageDrop.compliant (check circuitType) = true) /\
       (leb vd (ofQ 3) = false -> leb vd (ofQ 5) = true ->
          VoltageDrop.level (check circuitType) = "warning"
          /\ VoltageDrop.compliant (check circuitType) = true) /\
       (leb vd (ofQ 5) = false ->
          VoltageDrop.level (check circuitType) = "critical"
          /\ VoltageDrop.compliant (check circuitType) = false)) /\
    (leb vd (ofQ 5) = true ->
       check (Some "combined")
       = {| VoltageDrop.compliant := true; VoltageDrop.level := "warning";
            VoltageDrop.messages :=
              [VoltageDrop.ExceedsRecommended None (Some (ofQ 5))] |}) /\
    (leb vd (ofQ 5) = false ->
       check (Some "combined")
       = {| VoltageDrop.compliant := false; VoltageDrop.level := "critical";
            VoltageDrop.messages := [VoltageDrop.ExceedsMaximum (Some (ofQ 5))] |}) /\
    (forall name, inheritedKey name = true ->
       check (Some name)
       = {| VoltageDrop.compliant := false; VoltageDrop.level := "critical";
            VoltageDrop.messages := [VoltageDrop.ExceedsMaximum None] |}).
Proof.
  intros pow log10 vd num check. subst check.
  split; [| split; [| split]].
  - intros circuitType Hct.
    apply ComplianceFacts.levels_3_5.
    destruct Hct as [-> | [-> | [-> | (name & -> & Hname & Hinh)]]];
      try reflexivity.
    unfold VoltageDrop.limitsOf.
    destruct (String.eqb name "feeder"); [reflexivity |].
    destruct (String.eqb name "branchCircuit"); [reflexivity |].
    destruct (String.eqb_spec name "combined"); [contradiction |].
    rewrite Hinh. reflexivity.
  - intros H5. unfold VoltageDrop.checkNECCompliance.
    cbn [VoltageDrop.limitsOf String.eqb Ascii.eqb Bool.eqb
         VoltageDrop.recommended VoltageDrop.maximum toNumber].
    cbn. cbn in H5. rewrite H5.
    rewrite (Binary64Order.nan_leb_r vd nan) by reflexivity. reflexivity.
  - intros H5. unfold VoltageDrop.checkNECCompliance.
    cbn [VoltageDrop.limitsOf String.eqb Ascii.eqb Bool.eqb
         VoltageDrop.recommended VoltageDrop.maximum toNumber].
    cbn. cbn in H5. rewrite H5.
    rewrite (Binary64Order.nan_leb_r vd nan) by reflexivity. reflexivity.
  - intros name Hinh. unfold VoltageDrop.checkNECCompliance, VoltageDrop.limitsOf.
    assert (Hf : String.eqb name "feeder" = false).
    { destruct (String.eqb_spec name "feeder") as [-> |]; [discriminate | reflexivity]. }
    assert (Hb : String.eqb name "branchCircuit" = false).
    { destruct (String.eqb_spec name "branchCircuit") as [-> |];
        [discriminate | reflexivity]. }
    assert (Hc : String.eqb name "combined" = false).
    { destruct (String.eqb_spec name "combined") as [-> |];
        [discriminate | reflexivity]. }
    rewrite Hf, Hb, Hc, Hinh.
    cbn [VoltageDrop.recommended VoltageDrop.maximum toNumber].
    cbn. rewrite (Binary64Order.nan_leb_r vd nan) by reflexivity. reflexivity.
Qed.

Module SizingFacts.
Section Sizing.
Context {A B : Type}.

(** the first element a partial map keeps *)
Lemma omap_first (f : A -> option B) (l : list A) (r : B) (rest : list B) :
  omap f l = r :: rest ->
  exists before e after,
    l = before ++ e :: after /\ f e = Some r /\
    Forall (fun e => f e = None) before /\ rest = omap f after.
Proof.
  induction l as [| a l IH]; intros H; [discriminate |].
  cbn in H. destruct (f a) as [b |] eqn:Ha.
  - injection H as -> <-. exists [], a, l. repeat split; [assumption | constructor].
  - destruct (IH H) as (before & e & after & -> & He & Hbefore & Hrest).
    exists (a :: before), e, after. repeat split; try assumption.
    constructor; assumption.
Qed.

Lemma omap_none (f : A -> option B) (l : list A) :
  omap f l = [] -> Forall (fun e => f e = None) l.
Proof.
  induction l as [| a l IH]; intros H; [constructor |].
  cbn in H. destruct (f a) eqn:Ha; [discriminate |].
  constructor; [assumption | apply IH; assumption].
Qed.
End Sizing.

Lemma suitable_size {N : Type} {num : JsNum N} (params : VoltageDrop.SizeParams N)
    (entry : string * VoltageDrop.Conductor N) (r : VoltageDrop.Suitable N) :
  VoltageDrop.suitableConductor params entry = Some r ->
  VoltageDrop.size r = fst entry.
Proof.
  destruct entry as [size conductor]. unfold VoltageDrop.suitableConductor.
  destruct (_ && _); [| discriminate].
  intros [= <-]. reflexivity.
Qed.
End SizingFacts.

(** X23. [calculateRequiredConductorSize] does not return the smallest
    suitable conductor but the first suitable one in the order in which
    [Object.entries] lists the sizes: the sizes that are numerals in
    ascending order, 1, 2, 3, 4, 6, 8, 10, 12, 14, 250, ..., 1000, then
    1/0, 2/0, 3/0, 4/0.  The recommended conductor passes the test of
    the loop and every size listed before it fails; the alternatives
    are the next two that pass; without a suitable size the result is
    the error.  On binary64, for 10 A over 10 m at 480 V, three-phase
    copper, the recommendation is 1 AWG with the alternatives 2 and 3,
    although 14 AWG passes the test. *)
Theorem conductor_size_follows_key_order :
  (forall (N : Type) (num : JsNum N) (params : VoltageDrop.SizeParams N),
     let material :=
       default VoltageDrop.copper (VoltageDrop.sz_conductorMaterial params) in
     let entries :=
       ObjectKeys.Object_entries (VoltageDrop.CONDUCTOR_DATABASE material) in
     map fst entries
     = ["1"; "2"; "3"; "4"; "6"; "8"; "10"; "12"; "14"; "250"; "300"; "350";
        "400"; "500"; "600"; "750"; "1000"; "1/0"; "2/0"; "3/0"; "4/0"] /\
     match VoltageDrop.calculateRequiredConductorSize params with
     | VoltageDrop.NoSuitableConductor =>
         Forall (fun entry => VoltageDrop.suitableConductor params entry = None)
                entries
     | VoltageDrop.Recommended recommended alternatives target =>
         exists before entry after,
           entries = before ++ entry :: after /\
           VoltageDrop.suitableConductor params entry = Some recommended /\
           VoltageDrop.size recommended = fst entry /\
           Forall (fun entry => VoltageDrop.suitableConductor params entry = None)
                  before /\
           alternatives
           = firstn 2 (omap (VoltageDrop.suitableConductor params) after)
     end) /\
  (forall (pow : float -> float -> float) (log10 : float -> float),
     let num := Binary64.num pow log10 in
     let params :=
       {| VoltageDrop.sz_voltage := ofQ 480;
          VoltageDrop.sz_current := ofQ 10;
          VoltageDrop.sz_length := ofQ 10;
          VoltageDrop.targetVoltageDropPercent := None;
          VoltageDrop.sz_conductorMaterial := None;
          VoltageDrop.phaseType := None;
          VoltageDrop.sz_powerFactor := None |} in
     (exists recommended alternatives target,
        VoltageDrop.calculateRequiredConductorSize params
        = VoltageDrop.Recommended recommended alternatives target /\
        VoltageDrop.size recommended = "1" /\
        map VoltageDrop.size alternatives = ["2"; "3"]) /\
     exists smallest,
       VoltageDrop.suitableConductor params
         ("14", {| VoltageDrop.resistance := ofQ 10.2;
                   VoltageDrop.reactance := ofQ 0.157;
                   VoltageDrop.ampacity := ofQ 20 |}) = Some smallest).
Proof.
  split.
  - intros N num params material entries.
    split.
    + subst entries. destruct material; vm_compute; reflexivity.
    + unfold VoltageDrop.calculateRequiredConductorSize.
      fold material. fold entries.
      destruct (omap (VoltageDrop.suitableConductor params) entries)
        as [| r rest] eqn:Hs.
      * apply SizingFacts.omap_none. exact Hs.
      * destruct (SizingFacts.omap_first _ _ _ _ Hs)
          as (before & e & after & He & Hr & Hbefore & Hrest).
        exists before, e, after.
        split; [exact He |]. split; [exact Hr |].
        split; [apply (SizingFacts.suitable_size params e r Hr) |].
        split; [exact Hbefore |]. rewrite Hrest. reflexivity.
  - intros pow log10 num params. split.
    + do 3 eexists. split; [vm_compute; reflexivity |].
      split; reflexivity.
    + eexists. vm_compute. reflexivity.
Qed.


(** ** Approach boundaries and the choice of the method *)

(** X24. The shock protection boundaries of [calculateNFPA70EBoundaries]
    on binary64, for every voltage: the prohibited boundary is at most
    the restricted one, which is at most the limited one; the three
    boundaries never decrease when the voltage increases; up to 50 V all
    three are 0; for [NaN] they are those of the highest voltages. *)
Theorem approach_boundaries_ordered_monotone :
  forall (pow : float -> float -> float) (log10 : float -> float) (v : float),
    let num := Binary64.num pow log10 in
    let b := PPEChecks.calculateNFPA70EBoundaries v in
    leb (PPEChecks.prohibited b) (PPEChecks.restricted b) = true /\
    leb (PPEChecks.restricted b) (PPEChecks.limited b) = true /\
    (leb v (ofQ 50) = true ->
       b = {| PPEChecks.limited := ofQ 0; PPEChecks.restricted := ofQ 0;
              PPEChecks.prohibited := ofQ 0 |}) /\
    (isNaN v = true ->
       b = {| PPEChecks.limited := ofQ 4570; PPEChecks.restricted := ofQ 1520;
              PPEChecks.prohibited := ofQ 1070 |}) /\
    (forall v' : float,
       leb v v' = true ->
       let b' := PPEChecks.calculateNFPA70EBoundaries v' in
       leb (PPEChecks.limited b) (PPEChecks.limited b') = true /\
       leb (PPEChecks.restricted b) (PPEChecks.restricted b') = true /\
       leb (PPEChecks.prohibited b) (PPEChecks.prohibited b') = true).
Proof.
  intros pow log10 v num b. subst b num.
  unfold PPEChecks.calculateNFPA70EBoundaries, isNaN.
  change (@leb float _) with PrimFloat.leb.
  change (@eqb float _) with PrimFloat.eqb.
  change (@ofQ float _) with Binary64.of_Q.
  split; [| split; [| split; [| split]]].
  - FloatCases.by_cases; vm_compute; reflexivity.
  - FloatCases.by_cases; vm_compute; reflexivity.
  - intros H. rewrite H. reflexivity.
  - intros H. destruct (PrimFloat.eqb v v) eqn:E; [discriminate |].
    FloatCases.by_cases; reflexivity.
  - intros v' H. cbv zeta.
    FloatCases.by_cases; repeat split; vm_compute; reflexivity.
Qed.

(** X27. [selectArcFlashMethod] against the range check of
    [calculateArcFlashIEEE1584_2018], on binary64.  The method is
    'IEEE 1584-2018' exactly from 208 V to 15000 V, 'Simplified' exactly
    below 208 V and 'IEEE 1584-2002' above 15000 V.  Whenever the 2018
    method is selected the 2018 calculation accepts the voltage, and for
    a voltage that is a number it accepts no other.  For [NaN] the two
    disagree: the legacy method is selected, yet the 2018 calculation
    accepts the voltage. *)
Theorem arc_flash_method_matches_range :
  forall (pow : float -> float -> float) (log10 : float -> float)
         (params : ArcFlash.Params float),
    let num := Binary64.num pow log10 in
    let v := ArcFlash.voltage params in
    let method := ArcFlashMethods.selectArcFlashMethod v in
    let accepted :=
      match ArcFlash.calculateArcFlashIEEE1584_2018 params with
      | ArcFlash.Computed _ => true
      | ArcFlash.OutOfRange _ => false
      end in
    (method = "IEEE 1584-2018"
     <-> leb (ofQ 208) v = true /\ leb v (ofQ 15000) = true) /\
    (method = "Simplified" <-> ltb v (ofQ 208) = true) /\
    (ltb (ofQ 15000) v = true -> method = "IEEE 1584-2002") /\
    (method = "IEEE 1584-2018" -> accepted = true) /\
    (isNaN v = false -> accepted = true -> method = "IEEE 1584-2018") /\
    (isNaN v = true -> method = "IEEE 1584-2002" /\ accepted = true).
Proof.
  intros pow log10 params num v method accepted.
  subst accepted method. unfold ArcFlashMethods.selectArcFlashMethod,
    ArcFlash.calculateArcFlashIEEE1584_2018, isNaN.
  fold v. clearbody v. subst num.
  unfold ArcFlash.voltageRange_min, ArcFlash.voltageRange_max.
  change (@leb float _) with PrimFloat.leb.
  change (@ltb float _) with PrimFloat.ltb.
  change (@eqb float _) with PrimFloat.eqb.
  change (@ofQ float _) with Binary64.of_Q.
  destruct (PrimFloat.eqb v v) eqn:Hnum.
  - (* a number: the order is total *)
    destruct (PrimFloat.leb (Binary64.of_Q 208) v) eqn:Hlo.
    + rewrite (Binary64Facts.leb_ltb_false _ _ Hlo).
      destruct (PrimFloat.leb v (Binary64.of_Q 15000)) eqn:Hhi.
      * rewrite (Binary64Facts.leb_ltb_false _ _ Hhi). cbn.
        intuition (try discriminate; try congruence).
      * rewrite (Binary64Order.leb_false_ltb v (Binary64.of_Q 15000) Hnum
                   eq_refl Hhi). cbn.
        intuition (try discriminate; try congruence).
    + rewrite (Binary64Order.leb_false_ltb (Binary64.of_Q 208) v eq_refl Hnum Hlo).
      assert (Hhi : PrimFloat.ltb (Binary64.of_Q 15000) v = false).
      { destruct (PrimFloat.ltb (Binary64.of_Q 15000) v) eqn:E; [| reflexivity].
        assert (K : PrimFloat.leb (Binary64.of_Q 208) (Binary64.of_Q 15000) = true)
          by (vm_compute; reflexivity).
        pose proof (Binary64Order.leb_ltb_trans
                      (Binary64.of_Q 208) (Binary64.of_Q 15000) v K E) as K'.
        apply Binary64Facts.ltb_leb in K'. congruence. }
      rewrite Hhi. cbn.
      intuition (try discriminate; try congruence).
  - (* NaN: every comparison fails *)
    rewrite (Binary64Order.nan_leb_r _ v Hnum), (Binary64Order.nan_leb_l v _ Hnum),
      (Binary64Order.nan_ltb_l v _ Hnum), (Binary64Order.nan_ltb_r _ v Hnum).
    cbn.
    intuition (try discriminate; try congruence).
Qed.

(** ** Validation of a PPE selection *)

Module SelectionFacts.
Section Selection.
Context {N : Type} {num : JsNum N}.

(** the loop over the required items, when [items] is given *)
Lemma checkItems_given (rating : option N) (items : PPE.Requirements)
    (required : PPE.Category N)
    (fields : list (string * (PPE.Requirements -> bool)))
    (validation : PPEChecks.Validation N) :
  PPEChecks.checkItems
    {| PPEChecks.sel_arcRating := rating; PPEChecks.sel_items := Some items |}
    required validation fields
  = Ok {| PPEChecks.adequate :=
            PPEChecks.adequate validation
            && forallb (fun field =>
                          implb (snd field (PPE.requirements required))
                                (snd field items)) fields;
          PPEChecks.missingItems :=
            PPEChecks.missingItems validation
            ++ map fst (List.filter
                          (fun field =>
                             snd field (PPE.requirements required)
                             && negb (snd field items)) fields);
          PPEChecks.warnings := PPEChecks.warnings validation |}.
Proof.
  revert validation. induction fields as [| [item get] rest IH]; intros validation.
  - cbn. rewrite andb_true_r, app_nil_r. destruct validation; reflexivity.
  - cbn [PPEChecks.checkItems PPEChecks.checkItem PPEChecks.sel_items
         forallb List.filter map fst snd].
    destruct (get (PPE.requirements required)) eqn:Hreq.
    + destruct (get items) eqn:Hsel; cbn [negb andb implb mbind Result_bind].
      * rewrite IH. reflexivity.
      * rewrite IH. cbn [PPEChecks.adequate PPEChecks.missingItems
                         PPEChecks.warnings map fst].
        rewrite andb_false_r, <- app_assoc. reflexivity.
    + cbn [negb andb implb mbind Result_bind]. rewrite IH. reflexivity.
Qed.

(** without [items] the first required item throws *)
Lemma checkItems_absent (rating : option N) (required : PPE.Category N)
    (fields : list (string * (PPE.Requirements -> bool)))
    (validation : PPEChecks.Validation N) :
  existsb (fun field => snd field (PPE.requirements required)) fields = true ->
  exists message,
    PPEChecks.checkItems
      {| PPEChecks.sel_arcRating := rating; PPEChecks.sel_items := None |}
      required validation fields = Throw message.
Proof.
  induction fields as [| [item get] rest IH]; intros Hex; [discriminate |].
  cbn [existsb snd] in Hex.
  cbn [PPEChecks.checkItems PPEChecks.checkItem PPEChecks.sel_items].
  destruct (get (PPE.requirements required)).
  - eexists. reflexivity.
  - cbn [mbind Result_bind]. apply IH. exact Hex.
Qed.
End Selection.

(** the requirements of a category include those of the lower ones *)
Lemma requirements_grow {N : Type} {num : JsNum N} (lower higher : nat) :
  (lower <= higher <= 4)%nat ->
  forallb (fun field : string * (PPE.Requirements -> bool) =>
             implb (snd field (PPE.requirements
                                 (PPE.getPPERequirements (N := N) lower)))
                   (snd field (PPE.requirements
                                 (PPE.getPPERequirements (N := N) higher))))
          PPEChecks.requirementFields = true.
Proof.
  intros [H1 H2].
  destruct higher as [| [| [| [| [|]]]]]; try lia;
    destruct lower as [| [| [| [| [|]]]]]; try lia; reflexivity.
Qed.

Lemma forallb_implb_trans {A : Type} (p q r : A -> bool) (l : list A) :
  forallb (fun a => implb (p a) (q a)) l = true ->
  forallb (fun a => implb (q a) (r a)) l = true ->
  forallb (fun a => implb (p a) (r a)) l = true.
Proof.
  induction l as [| a l IH]; [reflexivity |].
  cbn. rewrite !andb_true_iff. intros [H1 H2] [H3 H4].
  split; [| apply IH; assumption].
  destruct (p a), (q a), (r a); auto.
Qed.

(** the ratings grow with the category *)
Lemma ratings_grow (pow : float -> float -> float) (log10 : float -> float)
    (lower higher : nat) :
  let num := Binary64.num pow log10 in
  (lower <= higher <= 4)%nat ->
  PrimFloat.leb (PPE.arcRating (PPE.getPPERequirements lower))
                (PPE.arcRating (PPE.getPPERequirements higher)) = true.
Proof.
  intros num [H1 H2].
  destruct higher as [| [| [| [| [|]]]]]; try lia;
    destruct lower as [| [| [| [| [|]]]]]; try lia; vm_compute; reflexivity.
Qed.
End SelectionFacts.

(** X25. [validatePPESelection] on binary64, for a selection with its
    items given and every required category (one above 4 counts as 0,
    as in [getPPERequirements]).  It returns; the
    selection is adequate exactly when its arc rating is not below the
    rating of the category and every required item is selected; the
    missing items are the required items not selected, in the order of
    the requirements.  A selection without arc rating is never warned
    about the rating.  A selection adequate for a category is adequate
    for every lower category.  Without [items] the validation throws,
    for every category. *)
Theorem ppe_selection_validation :
  forall (pow : float -> float -> float) (log10 : float -> float)
         (rating : option float) (items : PPE.Requirements) (category : nat),
    let num := Binary64.num pow log10 in
    let selection :=
      {| PPEChecks.sel_arcRating := rating; PPEChecks.sel_items := Some items |} in
    let required := PPE.getPPERequirements category in
    (exists validation,
       PPEChecks.validatePPESelection selection category = Ok validation /\
       PPEChecks.adequate validation
       = negb (ltb (toNumber rating) (PPE.arcRating required))
         && forallb (fun field : string * (PPE.Requirements -> bool) =>
                       implb (snd field (PPE.requirements required))
                             (snd field items))
                    PPEChecks.requirementFields /\
       PPEChecks.missingItems validation
       = map fst (List.filter
                    (fun field : string * (PPE.Requirements -> bool) =>
                       snd field (PPE.requirements required)
                       && negb (snd field items))
                    PPEChecks.requirementFields) /\
       (rating = None -> PPEChecks.warnings validation = []) /\
       (forall lower : nat,
          (lower <= category <= 4)%nat ->
          PPEChecks.adequate validation = true ->
          exists validation',
            PPEChecks.validatePPESelection selection lower = Ok validation' /\
            PPEChecks.adequate validation' = true)) /\
    (exists message,
       PPEChecks.validatePPESelection
         {| PPEChecks.sel_arcRating := rating; PPEChecks.sel_items := None |}
         category = Throw message).
Proof.
  intros pow log10 rating items category num selection required.
  assert (Hvalue : forall c,
    PPEChecks.validatePPESelection selection c
    = Ok {| PPEChecks.adequate :=
              negb (ltb (toNumber rating)
                        (PPE.arcRating (PPE.getPPERequirements c)))
              && forallb (fun field : string * (PPE.Requirements -> bool) =>
                            implb (snd field (PPE.requirements
                                                (PPE.getPPERequirements c)))
                                  (snd field items))
                         PPEChecks.requirementFields;
            PPEChecks.missingItems :=
              map fst (List.filter
                         (fun field : string * (PPE.Requirements -> bool) =>
                            snd field (PPE.requirements (PPE.getPPERequirements c))
                            && negb (snd field items))
                         PPEChecks.requirementFields);
            PPEChecks.warnings :=
              if ltb (toNumber rating) (PPE.arcRating (PPE.getPPERequirements c))
              then [PPEChecks.BelowRequiredMinimum rating
                      (PPE.arcRating (PPE.getPPERequirements c))]
              else [] |}).
  { intros c. unfold PPEChecks.validatePPESelection. subst selection.
    cbn [PPEChecks.sel_arcRating].
    rewrite SelectionFacts.checkItems_given.
    destruct (ltb (toNumber rating) (PPE.arcRating (PPE.getPPERequirements c)));
      reflexivity. }
  split.
  - eexists. split; [apply Hvalue |].
    cbn [PPEChecks.adequate PPEChecks.missingItems PPEChecks.warnings].
    fold required.
    split; [reflexivity | split; [reflexivity | split]].
    + intros ->. cbn [toNumber].
      change (@ltb float num) with PrimFloat.ltb.
      rewrite (Binary64Order.nan_ltb_l nan _ eq_refl). reflexivity.
    + intros lower Hle Hadequate.
      eexists. split; [apply Hvalue |].
      cbn [PPEChecks.adequate].
      apply andb_true_iff in Hadequate as [Hrating Hitems].
      apply andb_true_iff. split.
      * apply negb_true_iff in Hrating. apply negb_true_iff.
        change (@ltb float num) with PrimFloat.ltb in *.
        destruct (PrimFloat.ltb (toNumber rating)
                    (PPE.arcRating (PPE.getPPERequirements lower))) eqn:E;
          [| reflexivity].
        pose proof (Binary64Order.ltb_leb_trans _ _ _ E
                      (SelectionFacts.ratings_grow pow log10 lower category Hle))
          as K.
        unfold required, num in *. rewrite K in Hrating. discriminate Hrating.
      * eapply SelectionFacts.forallb_implb_trans; [| exact Hitems].
        apply (SelectionFacts.requirements_grow lower category Hle).
  - unfold PPEChecks.validatePPESelection.
    apply SelectionFacts.checkItems_absent.
    unfold PPE.getPPERequirements.
    destruct (Nat.ltb 4 category); [reflexivity |].
    destruct category as [| [| [| [| ?]]]]; reflexivity.
Qed.

(** The selection of an arc-rated shirt and pants of 8 cal/cm2 with
    glasses, hearing protection and leather gloves, adequate for
    category 1 and hence for category 0. *)
Lemma ppe_selection_validation_witness :
  let num := Binary64.num anyPow anyLog10 in
  let items :=
    {| PPE.arcRatedShirt := true; PPE.arcRatedPants := true;
       PPE.arcFlashSuit := false; PPE.arcRatedHood := false;
       PPE.safetyGlasses := true; PPE.hearingProtection := true;
       PPE.leatherGloves := true; PPE.arcRatedGloves := false |} in
  exists validation,
    PPEChecks.validatePPESelection
      {| PPEChecks.sel_arcRating := Some 8%float;
         PPEChecks.sel_items := Some items |} 0 = Ok validation /\
    PPEChecks.adequate validation = true.
Proof.
  intros num items.
  destruct (ppe_selection_validation anyPow anyLog10 (Some 8%float) items 1)
    as [(validation & Hv & Hadequate & _ & _ & Hlower) _].
  apply (Hlower 0%nat); [lia |].
  rewrite Hadequate. vm_compute. reflexivity.
Defined.

Module FloatSplit.
Import Binary64Facts Binary64Order.

Lemma ltb_negb_leb (a b : float) :
  PrimFloat.eqb a a = true -> PrimFloat.eqb b b = true ->
  PrimFloat.ltb a b = negb (PrimFloat.leb b a).
Proof.
  intros Ha Hb. destruct (PrimFloat.leb b a) eqn:E.
  - apply leb_ltb_false. exact E.
  - apply leb_false_ltb; assumption.
Qed.

(** for a number, write every [a < b] of the goal as [not (b <= a)] *)
Ltac strict_to_leb Hnum :=
  repeat match goal with
  | |- context [PrimFloat.ltb ?a ?b] =>
      first [is_var a | is_var b];
      rewrite (ltb_negb_leb a b)
        by first [exact Hnum | vm_compute; reflexivity]
  end.

(** for [NaN], every comparison of the goal fails *)
Ltac nan_compare Hnan :=
  repeat match goal with
  | |- context [PrimFloat.ltb ?a ?b] =>
      first [ is_var a; rewrite (nan_ltb_l a b Hnan)
            | is_var b; rewrite (nan_ltb_r a b Hnan) ]
  | |- context [PrimFloat.leb ?a ?b] =>
      first [ is_var a; rewrite (nan_leb_l a b Hnan)
            | is_var b; rewrite (nan_leb_r a b Hnan) ]
  end.
End FloatSplit.

(** X26. The arc rating of the recommended PPE against the incident
    energy, on binary64.  From 1.2 to 40 cal/cm2 the rating of
    [getDetailedPPERecommendations] is at least the incident energy.
    Below 1.2 cal/cm2, for a negative energy and for [NaN] the category
    is 0: the rating is 0 and the equipment is safety glasses and
    hearing protection only.  Above 40 cal/cm2 the rating stays 40,
    below the incident energy.  Every listed item that carries a
    minimum arc rating carries the rating of the category. *)
Theorem ppe_rating_covers_energy :
  forall (pow : float -> float -> float) (log10 : float -> float) (E : float),
    let num := Binary64.num pow log10 in
    let rec := PPE.getDetailedPPERecommendations E in
    (leb (ofQ 1.2) E = true -> leb E (ofQ 40) = true ->
       leb E (PPE.rec_arcRating rec) = true) /\
    (ltb E (ofQ 1.2) = true \/ isNaN E = true ->
       PPE.category rec = 0%nat /\
       PPE.rec_arcRating rec = ofQ 0 /\
       PPE.warning rec = None /\
       PPE.equipment rec
       = [ {| PPE.item := "Safety Glasses or Safety Goggles";
              PPE.rating := PPE.Standard; PPE.required := true |};
           {| PPE.item := "Hearing Protection";
              PPE.rating := PPE.Standard; PPE.required := true |} ]) /\
    (ltb (ofQ 40) E = true ->
       PPE.rec_arcRating rec = ofQ 40 /\
       ltb (PPE.rec_arcRating rec) E = true) /\
    Forall (fun e => forall r, PPE.rating e = PPE.MinimumArcRating r ->
                               r = PPE.rec_arcRating rec)
           (PPE.equipment rec).
Proof.
  intros pow log10 E num rec. subst rec num. unfold isNaN.
  destruct (PrimFloat.eqb E E) eqn:Hnum.
  - (* a number *)
    split; [| split; [| split]].
    + intros H1 H2. vm_compute in H1, H2.
      remember (PPE.rec_arcRating (PPE.getDetailedPPERecommendations E))
        as rating eqn:Hrating.
      change (@leb float _) with PrimFloat.leb.
      revert Hrating. vm_compute.
      FloatSplit.strict_to_leb Hnum.
      FloatCases.by_cases; intros ->;
        first [ assumption
              | apply Binary64Facts.ltb_leb; apply Binary64Order.leb_false_ltb;
                [reflexivity | exact Hnum | assumption] ].
    + intros [H | H]; [| cbn in H; rewrite Hnum in H; discriminate H].
      vm_compute in H. FloatCases.strict_facts. vm_compute.
      FloatSplit.strict_to_leb Hnum.
      FloatCases.by_cases; repeat split; reflexivity.
    + intros H. vm_compute in H. FloatCases.strict_facts. vm_compute.
      FloatSplit.strict_to_leb Hnum.
      FloatCases.by_cases; split; try reflexivity;
        apply Binary64Order.leb_false_ltb; try assumption; reflexivity.
    + vm_compute.
      FloatSplit.strict_to_leb Hnum.
      FloatCases.by_cases;
        repeat constructor; intros r Hr; try discriminate Hr;
        injection Hr as <-; reflexivity.
  - (* NaN *)
    split; [| split; [| split]].
    + intros H1. vm_compute in H1.
      rewrite (Binary64Order.nan_leb_r _ E Hnum) in H1. discriminate H1.
    + intros _. vm_compute. FloatSplit.nan_compare Hnum.
      repeat split; reflexivity.
    + intros H. vm_compute in H.
      rewrite (Binary64Order.nan_ltb_r _ E Hnum) in H. discriminate H.
    + vm_compute. FloatSplit.nan_compare Hnum.
      repeat constructor; intros r Hr; discriminate Hr.
Qed.


(** ** Validation of the inputs (js/calculation_orchestrator.js) *)

Module PositiveFacts.
Import Binary64Facts Binary64Order SpecFloat Rank.

Lemma eqb_sym (a b : float) : PrimFloat.eqb a b = PrimFloat.eqb b a.
Proof.
  destruct (PrimFloat.eqb a b) eqn:E1, (PrimFloat.eqb b a) eqn:E2;
    try reflexivity.
  - apply eqb_key in E1. destruct E1 as (p & q & Hp & Hq & H).
    assert (K : PrimFloat.eqb b a = true).
    { apply eqb_key. exists q, p. repeat split; try assumption.
      rewrite (lex_antisym p q), H. reflexivity. }
    congruence.
  - apply eqb_key in E2. destruct E2 as (p & q & Hp & Hq & H).
    assert (K : PrimFloat.eqb a b = true).
    { apply eqb_key. exists q, p. repeat split; try assumption.
      rewrite (lex_antisym p q), H. reflexivity. }
    congruence.
Qed.

Lemma ltb_not_eqb (a b : float) :
  PrimFloat.ltb a b = true -> PrimFloat.eqb a b = false.
Proof.
  intros H. destruct (PrimFloat.eqb a b) eqn:E; [| reflexivity].
  apply ltb_key in H. apply eqb_key in E.
  destruct H as (p & q & Hp & Hq & H), E as (p' & q' & Hp' & Hq' & E).
  rewrite Hp in Hp'. injection Hp' as <-. rewrite Hq in Hq'. injection Hq' as <-.
  congruence.
Qed.

Lemma leb_neq_ltb (a b : float) :
  PrimFloat.leb a b = true -> PrimFloat.eqb a b = false ->
  PrimFloat.ltb a b = true.
Proof.
  intros H E. apply leb_key in H. destruct H as (p & q & Hp & Hq & H).
  apply ltb_key. exists p, q. repeat split; try assumption.
  destruct (lex p q) eqn:L; try reflexivity; [| contradiction].
  assert (K : PrimFloat.eqb a b = true).
  { apply eqb_key. exists p, q. repeat split; assumption. }
  congruence.
Qed.

Section Positive.
Variable pow : float -> float -> float.
Variable log10 : float -> float.
Let num := Binary64.num pow log10.
#[local] Existing Instance num.

Lemma truthy_spec (v : float) :
  truthy v = true <-> PrimFloat.eqb v v = true /\ PrimFloat.eqb v 0 = false.
Proof.
  unfold truthy, isNaN. cbn.
  destruct (PrimFloat.eqb v v), (PrimFloat.eqb v 0); cbn; intuition congruence.
Qed.

(** given, not zero and not at most zero *)
Lemma positive_by_leb (a : option float) :
  negb (present a) || PrimFloat.leb (toNumber a) 0 = false <->
  InputForms.positive a.
Proof.
  unfold InputForms.positive. split.
  - intros H. apply orb_false_iff in H as [Hp Hle].
    apply negb_false_iff in Hp. destruct a as [v |]; [| discriminate].
    cbn in Hp, Hle. apply truthy_spec in Hp as [Hnum Hne].
    exists v. split; [reflexivity |].
    apply leb_false_ltb; [exact Hnum | reflexivity | exact Hle].
  - intros (v & -> & Hv). cbn [present toNumber].
    apply orb_false_iff. split.
    + apply negb_false_iff. apply truthy_spec.
      split; [apply (ltb_number _ _ Hv) |].
      rewrite eqb_sym. apply ltb_not_eqb. exact Hv.
    + apply ltb_leb_false. exact Hv.
Qed.

(** given, not zero and not below zero *)
Lemma positive_by_ltb (a : option float) :
  negb (present a) || PrimFloat.ltb (toNumber a) 0 = false <->
  InputForms.positive a.
Proof.
  unfold InputForms.positive. split.
  - intros H. apply orb_false_iff in H as [Hp Hlt].
    apply negb_false_iff in Hp. destruct a as [v |]; [| discriminate].
    cbn in Hp, Hlt. apply truthy_spec in Hp as [Hnum Hne].
    exists v. split; [reflexivity |].
    apply leb_neq_ltb.
    + apply ltb_false_leb; [exact Hnum | reflexivity | exact Hlt].
    + rewrite eqb_sym. exact Hne.
  - intros (v & -> & Hv). cbn [present toNumber].
    apply orb_false_iff. split.
    + apply negb_false_iff. apply truthy_spec.
      split; [apply (ltb_number _ _ Hv) |].
      rewrite eqb_sym. apply ltb_not_eqb. exact Hv.
    + apply leb_ltb_false. apply ltb_leb. exact Hv.
Qed.

Lemma positive_not_negative (a : option float) :
  InputForms.positive a -> PrimFloat.ltb (toNumber a) 0 = false.
Proof.
  intros H. apply positive_by_ltb in H. apply orb_false_iff in H as [_ H].
  exact H.
Qed.

Lemma positive_present (a : option float) :
  InputForms.positive a -> present a = true.
Proof.
  intros H. apply positive_by_ltb in H. apply orb_false_iff in H as [H _].
  apply negb_false_iff in H. exact H.
Qed.
End Positive.
End PositiveFacts.

Module ReportFacts.
Import InputValidation.
Section Reports.
Context {N : Type} {num : JsNum N}.

Lemma errors_join (a b : Report N) :
  rep_errors (join a b) = [] <-> rep_errors a = [] /\ rep_errors b = [].
Proof.
  cbn. split.
  - intros H. apply app_eq_nil in H. exact H.
  - intros [-> ->]. reflexivity.
Qed.

Lemma errors_errorIf (cond : bool) (e : Error N) :
  rep_errors (errorIf cond e) = [] <-> cond = false.
Proof. destruct cond; cbn; split; intros; congruence. Qed.

Lemma errors_warningIf (cond : bool) (w : Warning N) :
  rep_errors (warningIf cond w) = [].
Proof. destruct cond; reflexivity. Qed.

Lemma errors_assumedIf (cond : bool) (a : Assumed N) :
  rep_errors (assumedIf cond a) = [].
Proof. destruct cond; reflexivity. Qed.

Lemma warnings_only (r : Report N) (cond : bool) :
  rep_errors r = [] -> rep_errors (if cond then r else noReport) = [].
Proof. intros H. destruct cond; [exact H | reflexivity]. Qed.
End Reports.
End ReportFacts.

Module ComponentChecks.
Import InputValidation ReportFacts PositiveFacts.
Section Checks.
Variable pow : float -> float -> float.
Variable log10 : float -> float.
Let num := Binary64.num pow log10.
#[local] Existing Instance num.

Lemma cable_errors (position : nat) (comp : Component.t float) :
  rep_errors (checkCable position comp) = [] <-> InputForms.cableOk comp.
Proof.
  unfold checkCable, InputForms.cableOk.
  rewrite !errors_join, !errors_errorIf.
  unfold num.
  change (@leb float _) with PrimFloat.leb.
  change (@ltb float _) with PrimFloat.ltb.
  change (@ofQ float _ 0) with 0%float.
  split.
  - intros (Hlen & _ & Himp & Hneg & _).
    apply (positive_by_leb pow log10) in Hlen.
    apply orb_false_iff in Himp as [Hr Hx], Hneg as [Hrn Hxn].
    split; [exact Hlen |]. split.
    + apply (positive_by_ltb pow log10). apply orb_false_iff. split; assumption.
    + apply (positive_by_ltb pow log10). apply orb_false_iff. split; assumption.
  - intros (Hlen & Hr & Hx).
    split; [apply (positive_by_leb pow log10); exact Hlen |].
    split; [apply (positive_not_negative pow log10); exact Hlen |].
    split.
    { rewrite (positive_present pow log10 _ Hr), (positive_present pow log10 _ Hx).
      reflexivity. }
    split.
    { rewrite (positive_not_negative pow log10 _ Hr),
        (positive_not_negative pow log10 _ Hx). reflexivity. }
    split.
    { destruct (negb (present (Component.voltage comp))); [| reflexivity].
      cbn. reflexivity. }
    split; [apply errors_warningIf |].
    match goal with
    | |- context [if ?c then _ else _] => destruct c
    end; [| reflexivity].
    rewrite errors_join. split; [| apply errors_warningIf].
    match goal with
    | |- context [if ?c then _ else _] => destruct c
    end; reflexivity.
Qed.

Lemma transformer_errors (position : nat) (comp : InputComponent float) :
  rep_errors (checkTransformer position comp) = []
  <-> InputForms.transformerOk (base comp).
Proof.
  unfold checkTransformer, InputForms.transformerOk.
  rewrite !errors_join, !errors_errorIf.
  unfold num.
  change (@leb float _) with PrimFloat.leb.
  change (@ltb float _) with PrimFloat.ltb.
  change (@ofQ float _ 0) with 0%float.
  split.
  - intros (Hp & _ & Hz & _).
    split; [apply (positive_by_leb pow log10); exact Hp |].
    apply (positive_by_leb pow log10); exact Hz.
  - intros [Hp Hz].
    split; [apply (positive_by_leb pow log10); exact Hp |].
    split; [apply (positive_not_negative pow log10); exact Hp |].
    split; [apply (positive_by_leb pow log10); exact Hz |].
    split; [apply (positive_not_negative pow log10); exact Hz |].
    repeat split; first [apply errors_warningIf | apply errors_assumedIf].
Qed.

Lemma utility_errors (position : nat) (comp : InputComponent float) :
  rep_errors (checkUtility position comp) = []
  <-> InputForms.utilityOk pow log10 comp.
Proof.
  unfold checkUtility, InputForms.utilityOk.
  rewrite errors_join, errors_errorIf.
  unfold num.
  change (@leb float _) with PrimFloat.leb.
  change (@ltb float _) with PrimFloat.ltb.
  change (@ofQ float _ 0) with 0%float.
  change (@ofQ float _ 1000) with 1000%float.
  split.
  - intros [Hisc Hsource]. split.
    + intros i Hi. rewrite Hi in Hisc.
      apply errors_join in Hisc as [Hle Hrest].
      apply errors_errorIf in Hle. split; [exact Hle |].
      intros Hv Ht. rewrite Hv, Ht in Hrest. cbn [andb] in Hrest.
      apply errors_join in Hrest as [Hhigh _].
      apply errors_errorIf in Hhigh. exact Hhigh.
    + intros Hty. rewrite Hty in Hsource. cbn [String.eqb Ascii.eqb Bool.eqb andb] in Hsource.
      cbn [andb] in Hsource.
      destruct (present (Component.faultCurrent (base comp))); [auto |].
      destruct (present (Component.shortCircuitMVA (base comp))); [auto |].
      destruct (present (isc comp)); [auto | discriminate].
  - intros [Hisc Hsource]. split.
    + destruct (isc comp) as [i |] eqn:Hi; [| reflexivity].
      destruct (Hisc i eq_refl) as [Hle Hhigh].
      apply errors_join. split; [apply errors_errorIf; exact Hle |].
      destruct (present (Component.voltage (base comp))) eqn:Hv; [| reflexivity].
      destruct (truthy i) eqn:Ht; [| reflexivity].
      cbn [andb]. apply errors_join.
      split; [apply errors_errorIf; apply Hhigh; reflexivity |].
      apply errors_warningIf.
    + destruct (String.eqb_spec (Component.type (base comp)) "utility") as [Hty | Hty];
        [| reflexivity].
      cbn [andb].
      destruct (Hsource Hty) as [H | [H | H]]; rewrite H; cbn [negb andb];
        rewrite ?andb_false_r; reflexivity.
Qed.

Lemma component_errors (index : nat) (comp : InputComponent float) :
  rep_errors (checkComponent index comp) = []
  <-> InputForms.componentOk pow log10 comp.
Proof.
  unfold checkComponent, InputForms.componentOk.
  rewrite !errors_join.
  set (type := Component.type (base comp)).
  assert (Hcable :
    rep_errors (if String.eqb type "cable"
                then checkCable (index + 1) (base comp) else noReport) = []
    <-> (type = "cable" -> InputForms.cableOk (base comp))).
  { destruct (String.eqb_spec type "cable") as [Hc | Hc].
    - rewrite cable_errors. split; [intros H _; exact H | intros H; exact (H Hc)].
    - split; [intros _ H; contradiction | reflexivity]. }
  assert (Htransformer :
    rep_errors (if String.eqb type "transformer"
                then checkTransformer (index + 1) comp else noReport) = []
    <-> (type = "transformer" -> InputForms.transformerOk (base comp))).
  { destruct (String.eqb_spec type "transformer") as [Hc | Hc].
    - rewrite transformer_errors.
      split; [intros H _; exact H | intros H; exact (H Hc)].
    - split; [intros _ H; contradiction | reflexivity]. }
  assert (Hutility :
    rep_errors (if String.eqb type "utility" || String.eqb type "utility_isc"
                then checkUtility (index + 1) comp else noReport) = []
    <-> (type = "utility" \/ type = "utility_isc"
         -> InputForms.utilityOk pow log10 comp)).
  { destruct (String.eqb_spec type "utility") as [Hu | Hu].
    - cbn [orb]. rewrite utility_errors.
      split; [intros H _; exact H | intros H; apply H; left; exact Hu].
    - destruct (String.eqb_spec type "utility_isc") as [Hi | Hi].
      + cbn [orb]. rewrite utility_errors.
        split; [intros H _; exact H | intros H; apply H; right; exact Hi].
      + cbn [orb]. split; [intros _ [H | H]; contradiction | reflexivity]. }
  rewrite Hcable, Htransformer, Hutility. reflexivity.
Qed.

Lemma components_errors (comps : list (InputComponent float)) (index : nat) :
  rep_errors (checkComponents index comps) = []
  <-> Forall (InputForms.componentOk pow log10) comps.
Proof.
  revert index. induction comps as [| comp rest IH]; intros index.
  - split; [constructor | reflexivity].
  - cbn [checkComponents]. rewrite errors_join, component_errors, IH.
    split.
    + intros [H1 H2]. constructor; assumption.
    + intros H. inversion H; subst. split; assumption.
Qed.
End Checks.
End ComponentChecks.

(** X28. [validateInputs] on binary64.  Without project data the result
    is invalid with the one error.  Otherwise the inputs are valid
    exactly when the system voltage is given and positive, there is a
    component, every cable has a positive length, resistance and
    reactance, every transformer a positive power and impedance, every
    utility a fault current [isc] that, if given, is not at most 0 (and
    not above 1000 when it and the voltage are given and not zero), and
    every component of type 'utility' one of [faultCurrent],
    [shortCircuitMVA] and [isc].  Warnings never make the inputs
    invalid, and every warning is logged. *)
Theorem valid_inputs_are_positive :
  forall (pow : float -> float -> float) (log10 : float -> float)
         (project : InputValidation.InputProject float),
    let num := Binary64.num pow log10 in
    InputValidation.validateInputs None
    = ({| InputValidation.valid := false;
          InputValidation.errors := [InputValidation.NoProjectData];
          InputValidation.warnings := [] |}, [], []) /\
    exists validation assumed,
      InputValidation.validateInputs (Some project)
      = (validation, assumed, InputValidation.warnings validation) /\
      (InputValidation.valid validation = true
       <-> InputValidation.errors validation = []) /\
      (InputValidation.valid validation = true
       <-> InputForms.positive (InputValidation.in_voltage project) /\
           InputValidation.in_components project <> [] /\
           Forall (InputForms.componentOk pow log10)
                  (InputValidation.in_components project)).
Proof.
  intros pow log10 project num. subst num.
  split; [reflexivity |].
  unfold InputValidation.validateInputs.
  match goal with
  | |- context [InputValidation.rep_errors ?r] => set (report := r)
  end.
  exists {| InputValidation.valid :=
              match InputValidation.rep_errors report with
              | [] => true
              | _ => false
              end;
            InputValidation.errors := InputValidation.rep_errors report;
            InputValidation.warnings := InputValidation.rep_warnings report |},
         (InputValidation.rep_assumed report).
  split; [reflexivity |].
  cbn [InputValidation.valid InputValidation.errors].
  assert (Hvalid : match InputValidation.rep_errors report with
                   | [] => true
                   | _ => false
                   end = true <-> InputValidation.rep_errors report = []).
  { destruct (InputValidation.rep_errors report); split; intros; congruence. }
  split; [exact Hvalid |].
  rewrite Hvalid. subst report.
  rewrite !ReportFacts.errors_join, !ReportFacts.errors_errorIf.
  rewrite (ComponentChecks.components_errors pow log10).
  change (@leb float _) with PrimFloat.leb.
  change (@ofQ float _ 0) with 0%float.
  rewrite (PositiveFacts.positive_by_leb pow log10).
  destruct (InputValidation.in_components project);
    intuition (try congruence; try discriminate).
Qed.

(** A 480 V project of one cable of 30 m with 0.2 and 0.08 ohm/km. *)
Lemma valid_inputs_are_positive_witness :
  let num := Binary64.num anyPow anyLog10 in
  let cable : Component.t float :=
    {| Component.type := "cable"; Component.name := None;
       Component.voltage := Some 480%float;
       Component.faultCurrent := None; Component.shortCircuitMVA := None;
       Component.xr := None;
       Component.resistance := Some 0.2%float;
       Component.reactance := Some 0.08%float;
       Component.length := Some 30%float; Component.createsBus := false;
       Component.secondaryV := None; Component.power := None;
       Component.powerUnit := None; Component.impedance := None;
       Component.rx := None; Component.toBus := None;
       Component._powerUnitWarningLogged := false |} in
  let project :=
    {| InputValidation.in_voltage := Some 480%float;
       InputValidation.in_components :=
         [{| InputValidation.base := cable; InputValidation.primaryV := None;
             InputValidation.isc := None |}] |} in
  InputValidation.valid (fst (fst (InputValidation.validateInputs (Some project))))
  = true.
Proof.
  intros num cable project.
  destruct (valid_inputs_are_positive anyPow anyLog10 project)
    as (_ & validation & assumed & Hv & _ & Hiff).
  fold num in Hv. rewrite Hv. cbn [fst]. apply Hiff.
  split; [exists 480%float; split; reflexivity |].
  split; [discriminate |].
  repeat constructor; try discriminate;
    try (eexists; split; reflexivity);
    intros [H | H]; discriminate H.
Defined.


(** ** The short-circuit results of a bus (js/calculation_orchestrator.js) *)

Module StudyFacts.
Import XReal XRealFacts MultiplierFacts.
Local Open Scope R_scope.

(** the multiplier of the study, which is not capped *)
Lemma study_multiplier (xr : R) :
  0 < xr ->
  (Math_sqrt (#1 + #2 * Math_pow Math_E (#(-4) * Math_PI / Fin xr)))%js
  = Fin (asymmetryFormula xr).
Proof.
  intros Hxr. cbn.
  rewrite !of_Q_int.
  rewrite xmul_fin, xdiv_fin by lra.
  rewrite xpow_pos by (pose proof exp_1_gt_1; lra).
  rewrite xmul_fin, xadd_fin.
  assert (Hpow : Rpower (exp 1) (-4 * PI / xr) = exp (-4 * PI / xr)).
  { unfold Rpower. rewrite ln_exp. f_equal. lra. }
  rewrite Hpow.
  pose proof (exp_pos (-4 * PI / xr)) as Hexp.
  rewrite xsqrt_fin by lra. reflexivity.
Qed.
End StudyFacts.

(** X29. The short-circuit results of a bus of voltage V > 0 whose
    Thevenin equivalent has the magnitude Z > 0 and the ratio
    X/R = xr > 0, in exact arithmetic.  The three-phase current is
    I = V / (sqrt(3) Z) and the fault power is V^2 / (Z 10^6) MVA; the
    line-to-ground, line-to-line and double line-to-ground currents are
    0.80 I, 0.87 I and 0.95 I.  The multiplier is
    sqrt(1 + 2 e^(-4 pi / xr)), between 1 and sqrt(3): it is not capped
    at 1.732 as [calculateFirstCycleAsymmetricalMultiplier] is, and it
    is never below that one.  The asymmetrical current is the multiplier
    times I, the peak sqrt(2) times the asymmetrical current, and the
    values in kA are the thousandth. *)
Theorem short_circuit_result_relations :
  forall (frequency : option xreal) (bus : Bus.t xreal)
         (th : Orchestrator.Thevenin xreal) (V Z xr : R),
    Bus.voltage bus = Fin V ->
    Orchestrator.th_z th = Fin Z ->
    Orchestrator.th_xr th = Fin xr ->
    (0 < V)%R -> (0 < Z)%R -> (0 < xr)%R ->
    let result := Orchestrator.shortCircuitOf frequency bus th in
    let currents := Orchestrator.faultCurrents result in
    let I := (V / (sqrt 3 * Z))%R in
    let m := asymmetryFormula xr in
    Orchestrator.threePhase currents = Fin I /\
    Orchestrator.lineToGround currents = Fin (I * 0.80) /\
    Orchestrator.lineToLine currents = Fin (I * 0.87) /\
    Orchestrator.doubleLineToGround currents = Fin (I * 0.95) /\
    (0 < I)%R /\
    Orchestrator.mva_sc (Orchestrator.results result)
    = Fin (V * V / (Z * 1000000)) /\
    Orchestrator.multiplier (Orchestrator.results result) = Fin m /\
    (1 < m < sqrt 3)%R /\
    StandardCalcs.calculateFirstCycleAsymmetricalMultiplier (Fin xr)
    = Fin (Rmin 1.732 m) /\
    Orchestrator.asymmetrical currents = Fin (I * m) /\
    Orchestrator.peak currents = Fin (sqrt 2 * (I * m)) /\
    Orchestrator.isym_kA (Orchestrator.results result) = Fin (I / 1000) /\
    Orchestrator.iasym_kA (Orchestrator.results result) = Fin (I * m / 1000).
Proof.
  intros frequency bus th V Z xr HV HZ Hxr HVp HZp Hxrp result currents I m.
  pose proof StandardsCurrents.sqrt3_bounds as H3.
  pose proof StandardsCurrents.sqrt2_pos as H2.
  assert (HI : (0 < I)%R).
  { unfold I. apply Rdiv_lt_0_compat; [lra | nra]. }
  assert (Hm : Orchestrator.multiplier (Orchestrator.results result) = Fin m).
  { subst result. unfold Orchestrator.shortCircuitOf.
    cbn [Orchestrator.results Orchestrator.multiplier].
    rewrite Hxr, (StandardsCurrents.truthy_fin xr) by lra.
    apply StudyFacts.study_multiplier. exact Hxrp. }
  assert (HI3 : Orchestrator.threePhase currents = Fin I).
  { subst currents result. unfold Orchestrator.shortCircuitOf.
    cbn [Orchestrator.faultCurrents Orchestrator.threePhase].
    rewrite HV, HZ, (StandardsCurrents.truthy_fin Z) by lra.
    rewrite StandardsCurrents.sqrt3_form.
    change (@div xreal _) with XReal.xdiv. change (@mul xreal _) with XReal.xmul.
    rewrite XRealFacts.xmul_fin. apply XRealFacts.xdiv_fin. nra. }
  subst currents result. unfold Orchestrator.shortCircuitOf in *.
  cbn [Orchestrator.faultCurrents Orchestrator.threePhase
       Orchestrator.lineToGround Orchestrator.lineToLine
       Orchestrator.doubleLineToGround Orchestrator.asymmetrical
       Orchestrator.peak Orchestrator.results Orchestrator.mva_sc
       Orchestrator.multiplier Orchestrator.isym_kA Orchestrator.iasym_kA] in *.
  rewrite HI3, Hm.
  rewrite StandardsCurrents.sqrt3_form, StandardsCurrents.sqrt2_form.
  rewrite HV.
  change (@div xreal _) with XReal.xdiv. change (@mul xreal _) with XReal.xmul.
  change (@ofQ xreal _) with XReal.of_Q.
  rewrite !XRealFacts.of_Q_int, !XRealFacts.of_Q_fin. cbn [Qnum Qden].
  rewrite !XRealFacts.xmul_fin. rewrite !XRealFacts.xdiv_fin by lra.
  split; [reflexivity |].
  split; [f_equal; lra |].
  split; [f_equal; lra |].
  split; [f_equal; lra |].
  split; [exact HI |].
  split.
  { f_equal. unfold I.
    assert (Hs : (sqrt 3 * sqrt 3 = 3)%R) by (apply sqrt_sqrt; lra).
    field_simplify; [| lra | split; lra].
    replace (sqrt 3 ^ 2)%R with 3%R by (simpl; lra).
    field. lra. }
  split; [reflexivity |].
  split.
  { split; [apply MultiplierFacts.asymmetryFormula_gt_1 |
            apply MultiplierFacts.asymmetryFormula_lt_sqrt_3; exact Hxrp]. }
  split; [apply MultiplierValues.multiplier_positive; exact Hxrp |].
  split; [reflexivity |].
  split; [f_equal; ring |].
  split; reflexivity.
Qed.

(** A 480 V bus behind 0.02 ohm with X/R = 8. *)
Lemma short_circuit_result_relations_witness :
  let bus : Bus.t xreal := Bus.new 1 "Bus 1" (Fin 480) "load" in
  let th : Orchestrator.Thevenin xreal :=
    {| Orchestrator.th_busId := 1; Orchestrator.th_busName := "Bus 1";
       Orchestrator.th_voltage := Fin 480; Orchestrator.th_r := Fin 0.0025;
       Orchestrator.th_x := Fin 0.02; Orchestrator.th_z := Fin 0.02;
       Orchestrator.th_xr := Fin 8 |} in
  Orchestrator.mva_sc (Orchestrator.results (Orchestrator.shortCircuitOf None bus th))
  = Fin (480 * 480 / (0.02 * 1000000)).
Proof.
  intros bus th.
  destruct (short_circuit_result_relations None bus th 480 0.02 8
              eq_refl eq_refl eq_refl ltac:(lra) ltac:(lra) ltac:(lra))
    as (_ & _ & _ & _ & _ & Hmva & _).
  exact Hmva.
Defined.


(** ** When a bus is evaluated for arc flash (js/calculation_orchestrator.js) *)

Module EvaluationFacts.
Import Orchestrator Binary64Facts Binary64Order PositiveFacts.
Section Evaluation.
Variable pow : float -> float -> float.
Variable log10 : float -> float.
Let num := Binary64.num pow log10.
#[local] Existing Instance num.

(** a value that is not zero and not at most zero is positive *)
Lemma positive_value (a : float) :
  negb (truthy a) || PrimFloat.leb a 0 = false <-> PrimFloat.ltb 0 a = true.
Proof.
  pose proof (positive_by_leb pow log10 (Some a)) as H.
  cbn [present toNumber] in H. unfold num. rewrite H. clear H.
  unfold InputForms.positive.
  split.
  - intros (v & [= <-] & Hv). exact Hv.
  - intros Hv. exists a. split; [reflexivity | exact Hv].
Qed.

(** a parameter with a default blocks the evaluation only when it is
    given and negative *)
Lemma defaulted_value (a : option float) (d : float) :
  PrimFloat.ltb 0 d = true ->
  (negb (truthy (orElse a d)) || PrimFloat.leb (orElse a d) 0 = false
   <-> forall w, a = Some w -> PrimFloat.ltb w 0 = false).
Proof.
  intros Hd. rewrite positive_value. unfold orElse.
  destruct a as [w |].
  - destruct (truthy w) eqn:Ht.
    + apply truthy_spec in Ht as [Hnum Hne]. split.
      * intros Hw v Hv. injection Hv as <-.
        apply leb_ltb_false. apply ltb_leb. exact Hw.
      * intros H. specialize (H w eq_refl).
        apply leb_neq_ltb.
        -- apply ltb_false_leb; [exact Hnum | reflexivity | exact H].
        -- rewrite eqb_sym. exact Hne.
    + split; [| intros _; exact Hd].
      intros _ v Hv. injection Hv as ->.
      destruct (PrimFloat.ltb v 0) eqn:E; [| reflexivity].
      assert (Hv : truthy v = true).
      { apply truthy_spec. split; [apply (ltb_number _ _ E) |].
        apply ltb_not_eqb. exact E. }
      congruence.
  - split; [intros _ w Hw; discriminate | intros _; exact Hd].
Qed.

Lemma evaluated_value (globals : Globals) (workingDistance arcDuration : float)
    (enclosureType : string) (scResult : BusResult float) (l : Ledger float) :
  let bolted :=
    orElse (threePhaseWithMotors (faultCurrentsKA scResult))
           (threePhase (kA (faultCurrentsKA scResult))) in
  evaluated (fst (arcFlashOf globals workingDistance arcDuration enclosureType
                             scResult l))
  = (PrimFloat.leb 208 (voltage scResult)
     && PrimFloat.leb (voltage scResult) 15000)
    && negb (negb (truthy bolted) || PrimFloat.leb bolted 0)
    && negb (negb (truthy workingDistance) || PrimFloat.leb workingDistance 0)
    && negb (negb (truthy arcDuration) || PrimFloat.leb arcDuration 0).
Proof.
  intros bolted. unfold arcFlashOf. fold bolted.
  change (@leb float num) with PrimFloat.leb.
  change (@ofQ float num 208) with 208%float.
  change (@ofQ float num 15000) with 15000%float.
  change (@ofQ float num 0) with 0%float.
  destruct (PrimFloat.leb 208 (voltage scResult)
            && PrimFloat.leb (voltage scResult) 15000);
    destruct (negb (truthy bolted) || PrimFloat.leb bolted 0);
    destruct (negb (truthy workingDistance) || PrimFloat.leb workingDistance 0);
    destruct (negb (truthy arcDuration) || PrimFloat.leb arcDuration 0);
    cbn [negb pushIf app List.length Nat.ltb Nat.leb andb];
    try reflexivity;
    destruct (has_calculateArcFlashIEEE1584_2018 globals); reflexivity.
Qed.

(** an evaluated bus with the module loaded gets the computed result *)
Lemma evaluated_detail (globals : Globals) (workingDistance arcDuration : float)
    (enclosureType : string) (scResult : BusResult float) (l : Ledger float) :
  let rec := fst (arcFlashOf globals workingDistance arcDuration enclosureType
                             scResult l) in
  evaluated rec = true ->
  (has_calculateArcFlashIEEE1584_2018 globals = true ->
     exists result ppe,
       detail rec
       = EvaluatedIEEE1584 (ArcFlash.Computed result) ppe
           {| p_workingDistance := workingDistance;
              p_arcDuration := arcDuration;
              p_equipmentGap :=
                Some (if PrimFloat.ltb (voltage scResult) 1000
                      then 32%float else 104%float);
              p_enclosureType := Some enclosureType |} /\
       (ppe <> None <-> has_generatePPEReport globals = true)) /\
  (has_calculateArcFlashIEEE1584_2018 globals = false ->
     exists estimate,
       detail rec
       = EvaluatedSimplified estimate
           {| p_workingDistance := workingDistance;
              p_arcDuration := arcDuration;
              p_equipmentGap := None;
              p_enclosureType := None |}).
Proof.
  intros rec Hev. subst rec. rewrite evaluated_value in Hev.
  apply andb_true_iff in Hev as [Hev Ht].
  apply andb_true_iff in Hev as [Hev Hw].
  apply andb_true_iff in Hev as [Hv Hb].
  apply negb_true_iff in Ht, Hw, Hb.
  pose proof Hv as Hrange. apply andb_true_iff in Hrange as [Hlo Hhi].
  unfold arcFlashOf.
  change (@leb float num) with PrimFloat.leb.
  change (@ltb float num) with PrimFloat.ltb.
  change (@ofQ float num 208) with 208%float.
  change (@ofQ float num 15000) with 15000%float.
  change (@ofQ float num 1000) with 1000%float.
  change (@ofQ float num 32) with 32%float.
  change (@ofQ float num 104) with 104%float.
  change (@ofQ float num 0) with 0%float.
  rewrite Hv, Hb, Hw, Ht.
  cbn [negb pushIf app List.length Nat.ltb Nat.leb].
  split.
  - intros Hmod. rewrite Hmod. cbn [fst detail].
    unfold ArcFlash.calculateArcFlashIEEE1584_2018.
    cbn [ArcFlash.voltage].
    unfold ArcFlash.voltageRange_min, ArcFlash.voltageRange_max.
    change (@ltb float num) with PrimFloat.ltb.
    change (@ofQ float num 208) with 208%float.
    change (@ofQ float num 15000) with 15000%float.
    rewrite (leb_ltb_false _ _ Hlo), (leb_ltb_false _ _ Hhi). cbn [orb].
    do 2 eexists. split; [reflexivity |].
    destruct (has_generatePPEReport globals); split; intros; congruence.
  - intros Hmod. rewrite Hmod. cbn [fst detail]. eexists. reflexivity.
Qed.
End Evaluation.
End EvaluationFacts.

(** X30. Which buses [calculateArcFlash] evaluates, on binary64.  The
    record of a short-circuit result is evaluated exactly when the
    voltage is within [208 V, 15000 V], the bolted fault current (with
    motors if there is one) is positive, and neither the working
    distance nor the arc duration of the project is negative: an absent
    or zero parameter is replaced by 450 mm or 0.1 s and never blocks
    the evaluation.  An evaluated bus gets, with the IEEE 1584 module
    loaded, the computed result of the module, never its out-of-range
    answer, with the PPE report if that module is loaded; without the
    module it gets the simplified estimate. *)
Theorem arc_flash_evaluated_iff :
  forall (pow : float -> float -> float) (log10 : float -> float)
         (globals : Orchestrator.Globals) (projectData : ProjectData float)
         (shortCircuitResults : list (Orchestrator.BusResult float))
         (l : Orchestrator.Ledger float) (i : nat)
         (scResult : Orchestrator.BusResult float),
    nth_error shortCircuitResults i = Some scResult ->
    let num := Binary64.num pow log10 in
    let bolted :=
      orElse (Orchestrator.threePhaseWithMotors
                (Orchestrator.faultCurrentsKA scResult))
             (Orchestrator.threePhase
                (Orchestrator.kA (Orchestrator.faultCurrentsKA scResult))) in
    let v := Orchestrator.voltage scResult in
    exists rec,
      nth_error (fst (Orchestrator.calculateArcFlash globals projectData
                        shortCircuitResults l)) i = Some rec /\
      (Orchestrator.evaluated rec = true
       <-> PrimFloat.leb 208 v = true /\ PrimFloat.leb v 15000 = true /\
           PrimFloat.ltb 0 bolted = true /\
           (forall w, pd_workingDistance projectData = Some w ->
                      PrimFloat.ltb w 0 = false) /\
           (forall d, pd_arcDuration projectData = Some d ->
                      PrimFloat.ltb d 0 = false)) /\
      (Orchestrator.evaluated rec = true ->
       Orchestrator.has_calculateArcFlashIEEE1584_2018 globals = true ->
       exists result ppe parameters,
         Orchestrator.detail rec
         = Orchestrator.EvaluatedIEEE1584 (ArcFlash.Computed result) ppe
                                          parameters /\
         (ppe <> None <-> Orchestrator.has_generatePPEReport globals = true) /\
         Orchestrator.p_workingDistance parameters
         = orElse (pd_workingDistance projectData) (ofQ 450) /\
         Orchestrator.p_arcDuration parameters
         = orElse (pd_arcDuration projectData) (ofQ 0.1)) /\
      (Orchestrator.evaluated rec = true ->
       Orchestrator.has_calculateArcFlashIEEE1584_2018 globals = false ->
       exists estimate parameters,
         Orchestrator.detail rec
         = Orchestrator.EvaluatedSimplified estimate parameters).
Proof.
  intros pow log10 globals projectData scs l i sc Hi num bolted v.
  subst bolted v.
  unfold Orchestrator.calculateArcFlash.
  destruct (GateFacts.arcFlashOfAll_nth globals
              (orElse (pd_workingDistance projectData) (ofQ 450))
              (orElse (pd_arcDuration projectData) (ofQ 0.1))
              (orElseString (pd_enclosureType projectData) "VCB")
              scs l i sc Hi) as [l' Hrec].
  eexists. split; [exact Hrec |].
  clear Hrec. unfold num. clear num.
  split; [| split].
  - rewrite (EvaluationFacts.evaluated_value pow log10).
    rewrite !andb_true_iff, !negb_true_iff.
    rewrite (EvaluationFacts.positive_value pow log10).
    rewrite (EvaluationFacts.defaulted_value pow log10
               (pd_workingDistance projectData)) by reflexivity.
    rewrite (EvaluationFacts.defaulted_value pow log10
               (pd_arcDuration projectData)) by reflexivity.
    tauto.
  - intros Hev Hmod.
    destruct (EvaluationFacts.evaluated_detail pow log10 _ _ _ _ _ _ Hev)
      as [Hieee _].
    destruct (Hieee Hmod) as (result & ppe & Hdetail & Hppe).
    do 3 eexists. split; [exact Hdetail |].
    split; [exact Hppe |]. split; reflexivity.
  - intros Hev Hmod.
    destruct (EvaluationFacts.evaluated_detail pow log10 _ _ _ _ _ _ Hev)
      as [_ Hsimple].
    destruct (Hsimple Hmod) as (estimate & Hdetail).
    do 2 eexists. exact Hdetail.
Qed.

(** A 480 V bus behind 0.02 ohm, with no arc-flash parameters given. *)
Lemma arc_flash_evaluated_iff_witness :
  let num := Binary64.num anyPow anyLog10 in
  let scResult :=
    Orchestrator.shortCircuitOf None (Bus.new 1 "Bus 1" 480%float "load")
      {| Orchestrator.th_busId := 1; Orchestrator.th_busName := "Bus 1";
         Orchestrator.th_voltage := 480%float;
         Orchestrator.th_r := 0.0025%float; Orchestrator.th_x := 0.02%float;
         Orchestrator.th_z := 0.02%float; Orchestrator.th_xr := 8%float |} in
  let projectData :=
    {| pd_voltage := Some 480%float; pd_frequency := None; pd_components := [];
       pd_workingDistance := None; pd_arcDuration := None;
       pd_enclosureType := None |} in
  let globals :=
    {| Orchestrator.has_calculateArcFlashIEEE1584_2018 := true;
       Orchestrator.has_generatePPEReport := true |} in
  exists rec,
    nth_error (fst (Orchestrator.calculateArcFlash globals projectData [scResult]
                      emptyLedger)) 0 = Some rec /\
    Orchestrator.evaluated rec = true.
Proof.
  intros num scResult projectData globals.
  destruct (arc_flash_evaluated_iff anyPow anyLog10 globals projectData
              [scResult] emptyLedger 0 scResult eq_refl)
    as (rec & Hrec & Hiff & _).
  exists rec. split; [exact Hrec |]. apply Hiff.
  repeat split; try (vm_compute; reflexivity); intros ? H; discriminate H.
Defined.
